(** * Bytebeat player (yoog.js): shallow embedding and verified properties

    The development follows the source file of the TurboWarp extension:
    the AudioWorklet processor [BytebeatProcessor] (the continuous backend),
    the extension object [BytebeatExtension] with its ScriptProcessor
    fallback (the block backend), the WAV encoder [_makeWavBlob] and the
    formula screen [_sanityCheckFormula].

    Modelling conventions.
    - A JavaScript Number that holds an integer is a [Z]; the 32-bit
      conversions ([|0], [setUint32], ...) are written out with their
      wrap-around.
    - A JavaScript Number that holds a sample, a gain or a time is an exact
      rational [Q].  Every finite double is a rational; [v8/128 - 1],
      [Math.floor], [Math.round], [Math.max] and [Math.min] are exact on
      doubles.  The arithmetic of the clock, [logicalS / sr],
      [t += increment] and [t / s], is rounded to the nearest double as
      the engine rounds it ([JS.fl]); the products [sample * vol] and
      [s * 0x7FFF] are rounded by the engine and exact here.  NaN and the
      infinities are not represented, and the rounding of
      [new Float32Array(...)] is the identity.
    - [new Function(...)] belongs to the JavaScript engine, not to the
      repository: it is a parameter [newFunction] of the model.  A compiled
      function returns [None] when its call throws.
    - A string is a [string] whose characters stand for the code units
      0..255. *)

From Stdlib Require Import ZArith QArith Qround Qabs Qpower Lia ZifyBool Lqa String Ascii List Bool.
From stdpp Require Import base list.
Import ListNotations.

Local Open Scope Z_scope.

(** ** JavaScript primitives used by the source *)

Module JS.

(** [x | 0] on an integer-valued Number. *)
Definition ToInt32 (z : Z) : Z := (z + 2 ^ 31) mod 2 ^ 32 - 2 ^ 31.

(** The conversions applied by [DataView.setUint32], [setUint16],
    [setInt16] and [setUint8]. *)
Definition ToUint32 (z : Z) : Z := z mod 2 ^ 32.
Definition ToUint16 (z : Z) : Z := z mod 2 ^ 16.
Definition ToInt16 (z : Z) : Z := (z + 2 ^ 15) mod 2 ^ 16 - 2 ^ 15.
Definition ToUint8 (z : Z) : Z := z mod 2 ^ 8.

(** [Math.floor] and [Math.round] (ties go towards +infinity). *)
Definition Math_floor (x : Q) : Z := Qfloor x.
Definition Math_round (x : Q) : Z := Qfloor (x + (1 # 2)).

Definition Math_max (x y : Q) : Q := if Qle_bool x y then y else x.
Definition Math_min (x y : Q) : Q := if Qle_bool x y then x else y.

Definition Z_max (x y : Z) : Z := Z.max x y.
Definition Z_min (x y : Z) : Z := Z.min x y.

(** [x < 0] on Numbers. *)
Definition lt0 (x : Q) : bool := negb (Qle_bool 0 x).

(** Truthiness of a Number, for [x || y]. *)
Definition truthyQ (x : Q) : bool := negb (Qeq_bool x 0).
Definition orQ (x y : Q) : Q := if truthyQ x then x else y.
Definition orZ (x y : Z) : Z := if x =? 0 then y else x.

(** *** Doubles

    A double has 53 significant bits and the least positive double is
    [2^-1074]; the result of an operation is the double nearest to the
    exact result, a tie going to the even significand.  Results beyond the
    largest double (the infinities) are not represented. *)

(** The integer nearest to [y], a tie going to the even one. *)
Definition nearestEven (y : Q) : Z :=
  let f := Qfloor y in
  match ((y - inject_Z f) ?= (1 # 2))%Q with
  | Lt => f
  | Gt => f + 1
  | Eq => if Z.even f then f else f + 1
  end.

(** [floor (log2 x)] for a positive [x]. *)
Definition ilog2 (x : Q) : Z :=
  let k := Z.log2 (Qnum x) - Z.log2 (Zpos (Qden x)) in
  if Qle_bool (2 ^ k) x then k else k - 1.

(** The exponent of the last place of the double nearest to [x]. *)
Definition lastPlace (x : Q) : Z := Z.max (ilog2 (Qabs x) - 52) (-1074).

(** The double nearest to [x]. *)
Definition fl (x : Q) : Q :=
  if Qeq_bool x 0 then 0%Q
  else
    let e := lastPlace x in
    Qred (inject_Z (nearestEven (x / 2 ^ e)) * 2 ^ e)%Q.

(** [x + y] and [x / y] on Numbers. *)
Definition add (x y : Q) : Q := fl (x + y).
Definition div (x y : Q) : Q := fl (x / y).

End JS.

(** ** Compiled formulas *)

(** The callable built by [new Function('t','s','T','return (' + text + ')|0;')]:
    it receives [t] (an integer, [Math.floor] of the clock), [s] and [T],
    and either returns an integer or throws ([None]). *)
Definition CompiledFunction : Type := Z -> Q -> Q -> option Z.

(** [new Function] itself: [None] when the constructor throws. *)
Definition Compiler : Type := string -> option CompiledFunction.

Definition ERROR_FALLBACK_FORMULA : string :=
  "t*(t^t+(t>>15|1)^(t-1280^t)>>10)".

(** The three lines shared by both backends:
    [v8 = (raw | 0) & 255; sample = (v8 / 128) - 1; sample = sample * vol]. *)
Definition v8_of (raw : Z) : Z := Z.land (JS.ToInt32 raw) 255.

Definition quantize (raw : Z) (vol : Q) : Q :=
  let v8 := v8_of raw in
  let sample := (inject_Z v8 / 128 - 1)%Q in
  (sample * vol)%Q.

(** ** The AudioWorklet processor (continuous backend) *)

Module Worklet.

(** Messages received on [port.onmessage] ([d.type]); a type the handler
    does not know falls through every branch. *)
Inductive InMsg : Type :=
| setFormula (formula : string)
| record (on : bool)
| setChunkSize (size : Z)
| resetTime
| setVolume (value : Q)
| setLogicalS (value : Q).

(** Messages posted by the processor. *)
Inductive OutMsg : Type :=
| error (message : string)
| recordChunk (chunk : list Q).

Record BytebeatProcessor : Type := mkProcessor {
  t : Q;
  compiled : option CompiledFunction;
  recording : bool;
  recordBuffer : list Q;
  recordChunkSize : Z;
  (** messages posted on [this.port], oldest first *)
  port : list OutMsg;
  (** texts handed to [new Function], oldest first *)
  compileLog : list string
}.

Definition set_t (x : Q) (p : BytebeatProcessor) : BytebeatProcessor :=
  mkProcessor x (compiled p) (recording p) (recordBuffer p)
              (recordChunkSize p) (port p) (compileLog p).
Definition set_compiled (c : option CompiledFunction) (p : BytebeatProcessor) :=
  mkProcessor (t p) c (recording p) (recordBuffer p)
              (recordChunkSize p) (port p) (compileLog p).
Definition set_recording (b : bool) (p : BytebeatProcessor) :=
  mkProcessor (t p) (compiled p) b (recordBuffer p)
              (recordChunkSize p) (port p) (compileLog p).
Definition set_recordBuffer (l : list Q) (p : BytebeatProcessor) :=
  mkProcessor (t p) (compiled p) (recording p) l
              (recordChunkSize p) (port p) (compileLog p).
Definition set_recordChunkSize (n : Z) (p : BytebeatProcessor) :=
  mkProcessor (t p) (compiled p) (recording p) (recordBuffer p)
              n (port p) (compileLog p).
Definition postMessage (m : OutMsg) (p : BytebeatProcessor) :=
  mkProcessor (t p) (compiled p) (recording p) (recordBuffer p)
              (recordChunkSize p) (port p ++ [m]) (compileLog p).
Definition logCompile (text : string) (p : BytebeatProcessor) :=
  mkProcessor (t p) (compiled p) (recording p) (recordBuffer p)
              (recordChunkSize p) (port p) (compileLog p ++ [text]).

Section WithEngine.
Variable newFunction : Compiler.

(** [_flushRecord] *)
Definition _flushRecord (p : BytebeatProcessor) : BytebeatProcessor :=
  match recordBuffer p with
  | [] => p
  | _ :: _ => set_recordBuffer [] (postMessage (recordChunk (recordBuffer p)) p)
  end.

(** [_setRecording] *)
Definition _setRecording (on : bool) (p : BytebeatProcessor) : BytebeatProcessor :=
  let p := set_recording on p in
  if recording p then p else _flushRecord p.

(** The inner [try] shared by [_setFormula] and the run-time handler of
    [process]: compile the fallback, post the diagnostic. *)
Definition switchToFallback (okMessage failMessage : string)
           (p : BytebeatProcessor) : BytebeatProcessor :=
  let p := logCompile ERROR_FALLBACK_FORMULA p in
  match newFunction ERROR_FALLBACK_FORMULA with
  | Some g => postMessage (error okMessage) (set_compiled (Some g) p)
  | None => postMessage (error failMessage) (set_compiled None p)
  end.

(** [_setFormula]: the assignment to [this.compiled] happens before the
    smoke test, and the handler overwrites it. *)
Definition _setFormula (formulaText : string) (p : BytebeatProcessor)
  : BytebeatProcessor :=
  let p := logCompile formulaText p in
  match newFunction formulaText with
  | Some f =>
      let p := set_compiled (Some f) p in
      match f 0 8000%Q 0%Q with
      | Some _ => p
      | None =>
          switchToFallback "Compile error; switched to fallback formula: "
                           "Compile failed and fallback failed: " p
      end
  | None =>
      switchToFallback "Compile error; switched to fallback formula: "
                       "Compile failed and fallback failed: " p
  end.

(** [port.onmessage] *)
Definition onmessage (d : InMsg) (p : BytebeatProcessor) : BytebeatProcessor :=
  match d with
  | setFormula formula => _setFormula formula p
  | record on => _setRecording on p
  | setChunkSize size =>
      set_recordChunkSize
        (JS.Z_max 128 (JS.Z_min 65536 (JS.orZ size (recordChunkSize p)))) p
  | resetTime => set_t 0%Q p
  | setVolume _ | setLogicalS _ => p
  end.

(** The constructor: field initialisers, then [_setFormula(ERROR_FALLBACK)]. *)
Definition constructor : BytebeatProcessor :=
  _setFormula ERROR_FALLBACK_FORMULA
              (mkProcessor 0%Q None false [] 4096 [] []).

(** An AudioParam array holds one value for the block or one per frame. *)
Definition param_at (p : list Q) (i : nat) : Q :=
  if Nat.eqb (length p) 1 then nth 0 p 0%Q else nth i p 0%Q.

(** The raw value of one sample: lines 96-112 of [process]. *)
Definition evalRaw (currentS : Q) (p : BytebeatProcessor) : Z * BytebeatProcessor :=
  match compiled p with
  | Some f =>
      match f (JS.Math_floor (t p)) currentS (JS.div (t p) currentS) with
      | Some raw => (raw, p)
      | None =>
          (0, switchToFallback "Runtime error; switched to fallback formula: "
                               "Runtime error and fallback failed: " p)
      end
  | None => (0, p)
  end.

(** The recording lines 120-123. *)
Definition recordSample (sample : Q) (p : BytebeatProcessor) : BytebeatProcessor :=
  if recording p then
    let p := set_recordBuffer (recordBuffer p ++ [sample]) p in
    if Z.of_nat (length (recordBuffer p)) >=? recordChunkSize p
    then _flushRecord p else p
  else p.

(** One iteration of the loop of [process]. *)
Definition processSample (incrementPerAudioSample vol currentS : Q)
           (p : BytebeatProcessor) : Q * BytebeatProcessor :=
  let '(raw, p) := evalRaw currentS p in
  let sample := quantize raw vol in
  let p := recordSample sample p in
  (sample, set_t (JS.add (t p) incrementPerAudioSample) p).

(** The loop [for (let i = 0; i < output.length; i++)], from index [i]
    for [n] more frames. *)
Fixpoint processLoop (inc : Q) (volParam sParam : list Q) (i n : nat)
         (p : BytebeatProcessor) : list Q * BytebeatProcessor :=
  match n with
  | O => ([], p)
  | S n' =>
      let '(sample, p) :=
        processSample inc (param_at volParam i) (param_at sParam i) p in
      let '(rest, p) := processLoop inc volParam sParam (S i) n' p in
      (sample :: rest, p)
  end.

(** [process] on an output channel of [len] frames; [sr] is the global
    [sampleRate] of the worklet scope.  (Without an output channel the
    source returns before the loop; that call has no frames.) *)
Definition process (sr : Q) (volParam sParam : list Q) (len : nat)
           (p : BytebeatProcessor) : list Q * BytebeatProcessor :=
  let logicalS_quantum := nth 0 sParam 0%Q in
  let incrementPerAudioSample := JS.div logicalS_quantum sr in
  processLoop incrementPerAudioSample volParam sParam 0 len p.

End WithEngine.

End Worklet.

(** ** Strings: [trim], [includes] and the formula screen *)

Module Str.

Local Open Scope string_scope.

(** White space removed by [String.prototype.trim], among the code units
    0..255: TAB, LF, VT, FF, CR, SPACE and NBSP. *)
Definition isWhiteSpace (c : ascii) : bool :=
  let n := nat_of_ascii c in
  existsb (Nat.eqb n) [9; 10; 11; 12; 13; 32; 160]%nat.

Fixpoint trimStart (s : string) : string :=
  match s with
  | EmptyString => EmptyString
  | String c s' => if isWhiteSpace c then trimStart s' else s
  end.

Fixpoint trimEnd (s : string) : string :=
  match s with
  | EmptyString => EmptyString
  | String c s' =>
      match trimEnd s' with
      | EmptyString => if isWhiteSpace c then EmptyString else String c EmptyString
      | r => String c r
      end
  end.

Definition trim (s : string) : string := trimEnd (trimStart s).

(** [s.includes(sub)] *)
Fixpoint includes (s sub : string) : bool :=
  if String.prefix sub s then true
  else match s with
       | EmptyString => false
       | String _ s' => includes s' sub
       end.

(** [x || y] on strings: the empty string is falsy. *)
Definition orS (x y : string) : string :=
  match x with EmptyString => y | _ => x end.

End Str.

Definition forbidden : list string :=
  ["while"; "for"; "function"; "=>"; "await"; "async"; "import"; "export";
   "constructor"; "this"; "XMLHttpRequest"; "fetch"; "setInterval";
   "setTimeout"]%string.

(** [_sanityCheckFormula]: [Some message] when it throws [new Error(message)],
    [None] when it returns. *)
Definition _sanityCheckFormula (formula : string) : option string :=
  match find (Str.includes formula) forbidden with
  | Some f => Some ("Formula contains forbidden substring: " ++ f)%string
  | None =>
      if Z.of_nat (String.length formula) >? 2000
      then Some "Formula too long"%string
      else None
  end.

(** ** The extension object (controller and block backend) *)

Module Ext.

Import Worklet.

Record AudioContext : Type := mkContext { sampleRate : Z }.

(** [this.node]: an AudioWorkletNode, with the messages posted on its
    port (oldest first), or a ScriptProcessorNode. *)
Inductive Node : Type :=
| AudioWorkletNode (nodePort : list InMsg)
| ScriptProcessorNode.

(** What [_createScriptProcessor] sets up: the closure variables [t] and
    [sr] and the [_script...] fields.  Before the first call the fields
    are undefined and [_handleScriptMessage] is the empty function. *)
Record ScriptState : Type := mkScript {
  closure_t : Q;
  closure_sr : Z;
  _scriptCompiledFunc : option CompiledFunction;
  _scriptRecordBuffer : list Q;
  _scriptRecording : bool;
  _scriptRecordChunkSize : Z
}.

Inductive LogEntry : Type :=
| alert (message : string)
| console_warn (message : string)
| console_info (message : string)
| console_error (message : string).

Record BytebeatExtension : Type := mkExtension {
  audioCtx : option AudioContext;
  node : option Node;
  isPlaying : bool;
  _usingWorklet : bool;
  _workletLoaded : bool;
  logicalSampleRate : Z;
  volume : Q;
  formula : string;
  recording : bool;
  recordedSamples : list Q;
  recordMaxSamples : Z;
  preferredChunkSize : Z;
  script : option ScriptState;
  (** alerts and console output, oldest first *)
  log : list LogEntry;
  (** texts handed to [new Function] on the main thread, oldest first *)
  compileLog : list string
}.

(** [constructor(runtime)] *)
Definition constructor : BytebeatExtension :=
  {| audioCtx := None; node := None; isPlaying := false;
     _usingWorklet := false; _workletLoaded := false;
     logicalSampleRate := 8000; volume := 1%Q;
     formula := "(t*(t>>5|t>>8))>>(t>>16)";
     recording := false; recordedSamples := [];
     recordMaxSamples := 44100 * 60 * 10; preferredChunkSize := 4096;
     script := None; log := []; compileLog := [] |}.

(** Field updates; each rebuilds the record from its fields. *)
Definition set_audioCtx v (e : BytebeatExtension) : BytebeatExtension :=
  let '(mkExtension ctx nd pl uw wl ls vol fm rec samples mx pc sc lg cl) := e in
  mkExtension v nd pl uw wl ls vol fm rec samples mx pc sc lg cl.
Definition set_node v (e : BytebeatExtension) : BytebeatExtension :=
  let '(mkExtension ctx nd pl uw wl ls vol fm rec samples mx pc sc lg cl) := e in
  mkExtension ctx v pl uw wl ls vol fm rec samples mx pc sc lg cl.
Definition set_isPlaying v (e : BytebeatExtension) : BytebeatExtension :=
  let '(mkExtension ctx nd pl uw wl ls vol fm rec samples mx pc sc lg cl) := e in
  mkExtension ctx nd v uw wl ls vol fm rec samples mx pc sc lg cl.
Definition set_usingWorklet v (e : BytebeatExtension) : BytebeatExtension :=
  let '(mkExtension ctx nd pl uw wl ls vol fm rec samples mx pc sc lg cl) := e in
  mkExtension ctx nd pl v wl ls vol fm rec samples mx pc sc lg cl.
Definition set_workletLoaded v (e : BytebeatExtension) : BytebeatExtension :=
  let '(mkExtension ctx nd pl uw wl ls vol fm rec samples mx pc sc lg cl) := e in
  mkExtension ctx nd pl uw v ls vol fm rec samples mx pc sc lg cl.
Definition set_logicalSampleRate v (e : BytebeatExtension) : BytebeatExtension :=
  let '(mkExtension ctx nd pl uw wl ls vol fm rec samples mx pc sc lg cl) := e in
  mkExtension ctx nd pl uw wl v vol fm rec samples mx pc sc lg cl.
Definition set_volume v (e : BytebeatExtension) : BytebeatExtension :=
  let '(mkExtension ctx nd pl uw wl ls vol fm rec samples mx pc sc lg cl) := e in
  mkExtension ctx nd pl uw wl ls v fm rec samples mx pc sc lg cl.
Definition set_formula v (e : BytebeatExtension) : BytebeatExtension :=
  let '(mkExtension ctx nd pl uw wl ls vol fm rec samples mx pc sc lg cl) := e in
  mkExtension ctx nd pl uw wl ls vol v rec samples mx pc sc lg cl.
Definition set_recording v (e : BytebeatExtension) : BytebeatExtension :=
  let '(mkExtension ctx nd pl uw wl ls vol fm rec samples mx pc sc lg cl) := e in
  mkExtension ctx nd pl uw wl ls vol fm v samples mx pc sc lg cl.
Definition set_recordedSamples v (e : BytebeatExtension) : BytebeatExtension :=
  let '(mkExtension ctx nd pl uw wl ls vol fm rec samples mx pc sc lg cl) := e in
  mkExtension ctx nd pl uw wl ls vol fm rec v mx pc sc lg cl.
Definition set_preferredChunkSize v (e : BytebeatExtension) : BytebeatExtension :=
  let '(mkExtension ctx nd pl uw wl ls vol fm rec samples mx pc sc lg cl) := e in
  mkExtension ctx nd pl uw wl ls vol fm rec samples mx v sc lg cl.
Definition set_script v (e : BytebeatExtension) : BytebeatExtension :=
  let '(mkExtension ctx nd pl uw wl ls vol fm rec samples mx pc sc lg cl) := e in
  mkExtension ctx nd pl uw wl ls vol fm rec samples mx pc v lg cl.
Definition addLog (x : LogEntry) (e : BytebeatExtension) : BytebeatExtension :=
  let '(mkExtension ctx nd pl uw wl ls vol fm rec samples mx pc sc lg cl) := e in
  mkExtension ctx nd pl uw wl ls vol fm rec samples mx pc sc (lg ++ [x]) cl.
Definition logCompile (text : string) (e : BytebeatExtension) : BytebeatExtension :=
  let '(mkExtension ctx nd pl uw wl ls vol fm rec samples mx pc sc lg cl) := e in
  mkExtension ctx nd pl uw wl ls vol fm rec samples mx pc sc lg (cl ++ [text]).

Definition set_closure_t v (s : ScriptState) : ScriptState :=
  let '(mkScript ct csr cf buf rc cs) := s in
  mkScript v csr cf buf rc cs.
Definition set_scriptCompiledFunc v (s : ScriptState) : ScriptState :=
  let '(mkScript ct csr cf buf rc cs) := s in
  mkScript ct csr v buf rc cs.
Definition set_scriptRecordBuffer v (s : ScriptState) : ScriptState :=
  let '(mkScript ct csr cf buf rc cs) := s in
  mkScript ct csr cf v rc cs.
Definition set_scriptRecording v (s : ScriptState) : ScriptState :=
  let '(mkScript ct csr cf buf rc cs) := s in
  mkScript ct csr cf buf v cs.
Definition set_scriptRecordChunkSize v (s : ScriptState) : ScriptState :=
  let '(mkScript ct csr cf buf rc cs) := s in
  mkScript ct csr cf buf rc v.

(** Update of the script fields of an extension whose script backend exists. *)
Definition onScript (f : ScriptState -> ScriptState) (e : BytebeatExtension)
  : BytebeatExtension :=
  match script e with
  | Some s => set_script (Some (f s)) e
  | None => e
  end.

(** What the host page offers to [_ensureAudioPrepared]. *)
Record Host : Type := mkHost {
  canCreateContext : bool;
  hostSampleRate : Z;
  hasAudioWorklet : bool;
  addModuleSucceeds : bool
}.

Notation "'do' x <- a ; b" :=
  (match a with Some x => b | None => None end)
    (at level 10, x name, a at level 99, b at level 200, only parsing).

Definition newline : string := String (ascii_of_nat 10) EmptyString.

Section WithEngine.
Variable newFunction : Compiler.

(** The inner [try] of the three compile sites of the block backend:
    compile the fallback, log what that site logs. *)
Definition scriptFallback (okLog failLog : list LogEntry)
           (e : BytebeatExtension) : BytebeatExtension :=
  let e := logCompile ERROR_FALLBACK_FORMULA e in
  match newFunction ERROR_FALLBACK_FORMULA with
  | Some g =>
      fold_left (fun e x => addLog x e) okLog
                (onScript (set_scriptCompiledFunc (Some g)) e)
  | None =>
      fold_left (fun e x => addLog x e) failLog
                (onScript (set_scriptCompiledFunc None) e)
  end.

(** The closure assigned to [this._handleScriptMessage] by
    [_createScriptProcessor]; [handleNode] stands for
    [this._handleNodeMessage].  The chunk is a copy of the buffer, and
    the buffer is emptied after the handler returns. *)
Definition _handleScriptMessage_with
           (handleNode : OutMsg -> BytebeatExtension -> option BytebeatExtension)
           (msg : InMsg) (e : BytebeatExtension) : option BytebeatExtension :=
  match script e with
  | None => Some e
  | Some s =>
      match msg with
      | setFormula formula =>
          let e := logCompile formula e in
          match newFunction formula with
          | Some f =>
              Some (onScript (fun s => set_closure_t 0%Q
                               (set_scriptCompiledFunc (Some f) s)) e)
          | None => Some (scriptFallback [] [] e)
          end
      | record on =>
          let e := onScript (set_scriptRecording on) e in
          if on then Some e
          else match _scriptRecordBuffer s with
               | [] => Some e
               | _ :: _ =>
                   do e' <- handleNode (recordChunk (_scriptRecordBuffer s)) e;
                   Some (onScript (set_scriptRecordBuffer []) e')
               end
      | setChunkSize size =>
          Some (onScript (fun s => set_scriptRecordChunkSize
                   (JS.Z_max 128 (JS.Z_min 65536
                      (JS.orZ size (_scriptRecordChunkSize s)))) s) e)
      | resetTime => Some (onScript (set_closure_t 0%Q) e)
      | setVolume _ | setLogicalS _ => Some e
      end
  end.

(** [_postToNode] *)
Definition _postToNode_with
           (handleNode : OutMsg -> BytebeatExtension -> option BytebeatExtension)
           (msg : InMsg) (e : BytebeatExtension) : option BytebeatExtension :=
  match node e with
  | None => Some e
  | Some (AudioWorkletNode nodePort) =>
      if _usingWorklet e
      then Some (set_node (Some (AudioWorkletNode (nodePort ++ [msg]))) e)
      else _handleScriptMessage_with handleNode msg e
  | Some ScriptProcessorNode =>
      if _usingWorklet e then Some e
      else _handleScriptMessage_with handleNode msg e
  end.

(** [_handleNodeMessage].  It calls [_postToNode], which on the block
    backend calls [_handleScriptMessage], which calls back: [fuel]
    bounds the depth of that recursion ([None] when exhausted). *)
Fixpoint _handleNodeMessage (fuel : nat) (data : OutMsg)
         (e : BytebeatExtension) : option BytebeatExtension :=
  match fuel with
  | O => None
  | S fuel' =>
      match data with
      | error message =>
          let e := addLog (alert ("Bytebeat worklet error: " ++ message ++ newline
                                  ++ "Switching to error fallback pattern.")) e in
          _postToNode_with (_handleNodeMessage fuel')
                           (setFormula ERROR_FALLBACK_FORMULA) e
      | recordChunk chunk =>
          let e := set_recordedSamples (recordedSamples e ++ chunk) e in
          if Z.of_nat (length (recordedSamples e)) >? recordMaxSamples e then
            let e := set_recording false e in
            let e := set_recordedSamples [] e in
            do e' <- _postToNode_with (_handleNodeMessage fuel') (record false) e;
            Some (addLog (alert "Recording stopped - reached maximum allowed length.") e')
          else Some e
      end
  end.

Definition _handleScriptMessage (fuel : nat) :=
  _handleScriptMessage_with (_handleNodeMessage fuel).

Definition _postToNode (fuel : nat) :=
  _postToNode_with (_handleNodeMessage fuel).

(** [_createScriptProcessor(bufferSize)]; the node is assumed to be
    created ([bufferSize] only sets the length of its blocks). *)
Definition _createScriptProcessor (ctx : AudioContext) (bufferSize : Z)
           (e : BytebeatExtension) : BytebeatExtension :=
  let e := set_node (Some ScriptProcessorNode) e in
  let e := set_script
             (Some (mkScript 0%Q (sampleRate ctx) None [] false
                             (preferredChunkSize e))) e in
  let e := logCompile (formula e) e in
  let okLog := [console_warn "ScriptProcessor compiled fallback due to compile error:"] in
  let failLog := [console_error "ScriptProcessor fallback compile failed"] in
  match newFunction (formula e) with
  | Some f =>
      let e := onScript (set_scriptCompiledFunc (Some f)) e in
      match f 0 (inject_Z (logicalSampleRate e)) 0%Q with
      | Some _ => e
      | None => scriptFallback okLog failLog e
      end
  | None => scriptFallback okLog failLog e
  end.

(** Lines 447-461 of [processFunc]: the raw value of one sample. *)
Definition script_evalRaw (logicalS : Q) (s : ScriptState)
           (e : BytebeatExtension) : Z * BytebeatExtension :=
  match _scriptCompiledFunc s with
  | Some f =>
      match f (JS.Math_floor (closure_t s)) logicalS (JS.div (closure_t s) logicalS) with
      | Some raw => (raw, e)
      | None =>
          (0, scriptFallback
                [console_warn "ScriptProcessor runtime error - switched to fallback:"]
                [console_error "ScriptProcessor fallback failed"] e)
      end
  | None => (0, e)
  end.

(** Lines 469-480: the recording part of one iteration. *)
Definition script_recordSample (fuel : nat) (sample : Q)
           (e : BytebeatExtension) : option BytebeatExtension :=
  match script e with
  | None => Some e
  | Some s =>
      if _scriptRecording s then
        let buffer := _scriptRecordBuffer s ++ [sample] in
        let e := onScript (set_scriptRecordBuffer buffer) e in
        if Z.of_nat (length buffer) >=? _scriptRecordChunkSize s then
          do e' <- _handleNodeMessage fuel (recordChunk buffer) e;
          Some (onScript (set_scriptRecordBuffer []) e')
        else Some e
      else Some e
  end.

(** One iteration of the loop of [processFunc]. *)
Definition script_processSample (fuel : nat) (logicalS increment : Q)
           (e : BytebeatExtension) : option (Q * BytebeatExtension) :=
  match script e with
  | None => None
  | Some s =>
      let '(raw, e) := script_evalRaw logicalS s e in
      let sample := quantize raw (JS.orQ (volume e) 1%Q) in
      do e <- script_recordSample fuel sample e;
      Some (sample, onScript (fun s => set_closure_t (JS.add (closure_t s) increment) s) e)
  end.

Fixpoint script_processLoop (fuel : nat) (logicalS increment : Q) (n : nat)
         (e : BytebeatExtension) : option (list Q * BytebeatExtension) :=
  match n with
  | O => Some ([], e)
  | S n' =>
      do r <- script_processSample fuel logicalS increment e;
      do r' <- script_processLoop fuel logicalS increment n' (snd r);
      Some (fst r :: fst r', snd r')
  end.

(** [processFunc] on an output block of [blockLen] frames. *)
Definition processFunc (fuel : nat) (blockLen : nat) (e : BytebeatExtension)
  : option (list Q * BytebeatExtension) :=
  match script e with
  | None => None
  | Some s =>
      let logicalS := JS.Z_max 1 (JS.orZ (logicalSampleRate e) 8000) in
      let increment := JS.div (inject_Z logicalS) (inject_Z (closure_sr s)) in
      script_processLoop fuel (inject_Z logicalS) increment blockLen e
  end.

(** [_ensureAudioPrepared]; [false] when it throws (no Web Audio). *)
Definition _ensureAudioPrepared (host : Host) (e : BytebeatExtension)
  : bool * BytebeatExtension :=
  let created :=
    match audioCtx e with
    | Some _ => Some e
    | None =>
        if canCreateContext host
        then Some (set_audioCtx (Some (mkContext (hostSampleRate host))) e)
        else None
    end in
  match created with
  | None => (false, addLog (alert "Web Audio API not supported.") e)
  | Some e =>
      let e :=
        if hasAudioWorklet host && negb (_workletLoaded e) then
          if addModuleSucceeds host then set_workletLoaded true e
          else set_workletLoaded false
                 (addLog (console_info "AudioWorklet addModule failed - falling back to ScriptProcessorNode. (Expected in packaged HTML).") e)
        else e in
      (true, set_usingWorklet (_workletLoaded e) e)
  end.

(** [_startAudio] *)
Definition _startAudio (fuel : nat) (e : BytebeatExtension)
  : option BytebeatExtension :=
  match audioCtx e with
  | None => Some e
  | Some ctx =>
      if isPlaying e then Some e
      else
        do e <-
          (if _usingWorklet e then
             let e := set_node (Some (AudioWorkletNode [])) e in
             do e <- _postToNode fuel (setChunkSize (preferredChunkSize e)) e;
             _postToNode fuel (setFormula (formula e)) e
           else
             let e := _createScriptProcessor ctx (preferredChunkSize e) e in
             do e <- _handleScriptMessage fuel (setFormula (formula e)) e;
             _handleScriptMessage fuel (record (recording e)) e);
        Some (set_isPlaying true e)
  end.

(** [_stopAudio] *)
Definition _stopAudio (fuel : nat) (e : BytebeatExtension)
  : option BytebeatExtension :=
  if negb (isPlaying e) then Some e
  else
    do e <-
      (match node e with
       | Some _ =>
           do e <- _postToNode fuel (record false) e;
           Some (set_node None e)
       | None => Some e
       end);
    Some (set_isPlaying false e).

(** [startFormula(args)], with [FORMULA = args.FORMULA].  The steps
    after the [await] run only when [_ensureAudioPrepared] returned. *)
Definition startFormula (fuel : nat) (host : Host) (FORMULA : string)
           (e : BytebeatExtension) : option BytebeatExtension :=
  let e := set_formula (Str.trim (Str.orS FORMULA (formula e))) e in
  let e :=
    match _sanityCheckFormula (formula e) with
    | None => e
    | Some message =>
        set_formula ERROR_FALLBACK_FORMULA
          (addLog (console_warn ("Formula rejected by sanity check: " ++ message)) e)
    end in
  let '(prepared, e) := _ensureAudioPrepared host e in
  if prepared then
    do e <- _postToNode fuel (setFormula (formula e)) e;
    if isPlaying e then Some e else _startAudio fuel e
  else Some e.

(** [stop()] *)
Definition stop (fuel : nat) (e : BytebeatExtension) := _stopAudio fuel e.

(** [recordStart()] *)
Definition recordStart (fuel : nat) (e : BytebeatExtension)
  : option BytebeatExtension :=
  let e := set_recordedSamples [] e in
  let e := set_recording true e in
  _postToNode fuel (record true) e.

(** [_recreateScriptProcessor]; it runs while playing, so the audio
    context exists. *)
Definition _recreateScriptProcessor (fuel : nat) (e : BytebeatExtension)
  : option BytebeatExtension :=
  match audioCtx e with
  | None => Some e
  | Some ctx =>
      let e := set_node None e in
      let e := _createScriptProcessor ctx (preferredChunkSize e) e in
      do e <- _handleScriptMessage fuel (record (recording e)) e;
      _handleScriptMessage fuel (setFormula (formula e)) e
  end.

(** The property names accepted by [setProperty], as its three regular
    expressions classify them. *)
Inductive Property : Type := Volume | SampleRate | BufferSize | UnknownProperty.

(** [setProperty(args)] with a numeric [VALUE].  On a worklet node the
    volume and the rate go to the node's AudioParams, which [process]
    receives as arguments. *)
Definition setProperty (fuel : nat) (prop : Property) (value : Q)
           (e : BytebeatExtension) : option BytebeatExtension :=
  match prop with
  | Volume =>
      Some (set_volume (JS.Math_max 0 (JS.Math_min 4 value)) e)
  | SampleRate =>
      Some (set_logicalSampleRate
              (JS.Z_max 100 (JS.Z_min 192000 (JS.Math_round value))) e)
  | BufferSize =>
      let size := JS.Z_max 128 (JS.Z_min 65536 (JS.Math_round value)) in
      let e := set_preferredChunkSize size e in
      do e <-
        (match node e with
         | Some _ =>
             if _usingWorklet e
             then _postToNode fuel (setChunkSize (preferredChunkSize e)) e
             else Some e
         | None => Some e
         end);
      if negb (_usingWorklet e) && isPlaying e
      then _recreateScriptProcessor fuel e
      else Some e
  | UnknownProperty =>
      Some (addLog (console_warn "Unknown property in setProperty:") e)
  end.

End WithEngine.

(** *** How the host reaches a block: property lookup on the instance *)

Inductive JSValue : Type :=
| VBoolean (b : bool)
| VMethod (name : string)
| VOther.

(** The methods of [class BytebeatExtension] live on its prototype. *)
Definition prototypeMethods : list string :=
  ["getInfo"; "startFormula"; "stop"; "setProperty"; "isPlaying";
   "recordStart"; "recordStopSave"; "exampleFormula";
   "_ensureAudioPrepared"; "_startAudio"; "_stopAudio"; "_postToNode";
   "_handleNodeMessage"; "_createScriptProcessor";
   "_recreateScriptProcessor"; "_makeWavBlob"; "_sanityCheckFormula"]%string.

(** The own properties of the instance are the fields assigned in the
    constructor (and [_script...] once the block backend exists). *)
Definition ownFields : list string :=
  ["runtime"; "audioCtx"; "node"; "_usingWorklet"; "_workletLoaded";
   "logicalSampleRate"; "volume"; "formula"; "recording";
   "recordedSamples"; "recordMaxSamples"; "preferredChunkSize";
   "_handleScriptMessage"]%string.

Definition inb (x : string) (l : list string) : bool :=
  existsb (String.eqb x) l.

Definition ownProperty (e : BytebeatExtension) (key : string) : option JSValue :=
  if String.eqb key "isPlaying" then Some (VBoolean (isPlaying e))
  else if inb key ownFields then Some VOther
  else None.

(** [obj[key]]: own properties first, then the prototype. *)
Definition getProperty (e : BytebeatExtension) (key : string) : option JSValue :=
  match ownProperty e key with
  | Some v => Some v
  | None => if inb key prototypeMethods then Some (VMethod key) else None
  end.

(** The body of the class method [isPlaying() { return !!this.isPlaying; }]. *)
Definition isPlaying_method (e : BytebeatExtension) : bool := isPlaying e.

(** The opcodes of the blocks returned by [getInfo]. *)
Definition opcodes : list string :=
  ["startFormula"; "stop"; "setProperty"; "isPlaying"; "recordStart";
   "recordStopSave"; "exampleFormula"]%string.

Inductive CallResult : Type :=
| Returned (b : bool)
| TypeError_not_a_function
| NotABooleanBlock.

(** The host runs a block as [extensionObject[opcode](args)]; here for the
    BOOLEAN block. *)
Definition callBooleanBlock (e : BytebeatExtension) (opcode : string) : CallResult :=
  match getProperty e opcode with
  | Some (VMethod name) =>
      if String.eqb name "isPlaying" then Returned (isPlaying_method e)
      else NotABooleanBlock
  | _ => TypeError_not_a_function
  end.

End Ext.

(** ** The WAV encoder *)

Module Wav.

(** A [DataView] over a fresh [ArrayBuffer]: the bytes, by offset.  A write
    that does not fit throws a RangeError ([None]). *)
Definition newArrayBuffer (byteLength : nat) : list Z := replicate byteLength 0.

Definition writeBytes (offset : nat) (bytes view : list Z) : option (list Z) :=
  if (offset + length bytes <=? length view)%nat
  then Some (list_inserts offset bytes view)
  else None.

(** The [k] little-endian bytes of [u]. *)
Fixpoint le_bytes (k : nat) (u : Z) : list Z :=
  match k with
  | O => []
  | S k' => u mod 256 :: le_bytes k' (u / 256)
  end.

Definition setUint8 (offset : nat) (value : Z) (view : list Z) :=
  writeBytes offset [JS.ToUint8 value] view.
Definition setUint16 (offset : nat) (value : Z) (view : list Z) :=
  writeBytes offset (le_bytes 2 (JS.ToUint16 value)) view.
Definition setUint32 (offset : nat) (value : Z) (view : list Z) :=
  writeBytes offset (le_bytes 4 (JS.ToUint32 value)) view.
(** [setInt16] stores the two's complement of the converted value. *)
Definition setInt16 (offset : nat) (value : Z) (view : list Z) :=
  writeBytes offset (le_bytes 2 (JS.ToInt16 value mod 2 ^ 16)) view.

Notation "'do' x <- a ; b" :=
  (match a with Some x => b | None => None end)
    (at level 10, x name, a at level 99, b at level 200, only parsing).

(** The local [writeString(view, offset, string)]. *)
Fixpoint writeString (offset : nat) (s : string) (view : list Z) : option (list Z) :=
  match s with
  | EmptyString => Some view
  | String c s' =>
      do view <- setUint8 offset (Z.of_nat (nat_of_ascii c)) view;
      writeString (S offset) s' view
  end.

(** The value stored for one sample (lines 566-568). *)
Definition pcm16 (x : Q) : Z :=
  let s := JS.Math_max (-1) (JS.Math_min 1 x) in
  let int16 := if JS.lt0 s then (s * 32768)%Q else (s * 32767)%Q in
  JS.Math_round int16.

(** The loop over the samples, from [offset]. *)
Fixpoint writeSamples (offset : nat) (samples : list Q) (view : list Z)
  : option (list Z) :=
  match samples with
  | [] => Some view
  | x :: rest =>
      do view <- setInt16 offset (pcm16 x) view;
      writeSamples (offset + 2) rest view
  end.

(** [_makeWavBlob(samplesFloatArray, sampleRate)]: the bytes of the blob. *)
Definition _makeWavBlob (samplesFloatArray : list Q) (sampleRate : Z)
  : option (list Z) :=
  let len := length samplesFloatArray in
  let view := newArrayBuffer (44 + len * 2) in
  do view <- writeString 0 "RIFF" view;
  do view <- setUint32 4 (36 + Z.of_nat len * 2) view;
  do view <- writeString 8 "WAVE" view;
  do view <- writeString 12 "fmt " view;
  do view <- setUint32 16 16 view;
  do view <- setUint16 20 1 view;
  do view <- setUint16 22 1 view;
  do view <- setUint32 24 sampleRate view;
  do view <- setUint32 28 (sampleRate * 2) view;
  do view <- setUint16 32 2 view;
  do view <- setUint16 34 16 view;
  do view <- writeString 36 "data" view;
  do view <- setUint32 40 (Z.of_nat len * 2) view;
  writeSamples 44 samplesFloatArray view.

(** Readers used to state what a PCM reader decodes. *)
Fixpoint le_value (bytes : list Z) : Z :=
  match bytes with
  | [] => 0
  | b :: rest => b + 256 * le_value rest
  end.

Definition readBytes (offset k : nat) (view : list Z) : option (list Z) :=
  if (offset + k <=? length view)%nat then Some (take k (drop offset view)) else None.

Definition getUint16 (offset : nat) (view : list Z) : option Z :=
  le_value <$> readBytes offset 2 view.
Definition getUint32 (offset : nat) (view : list Z) : option Z :=
  le_value <$> readBytes offset 4 view.
Definition getInt16 (offset : nat) (view : list Z) : option Z :=
  (fun u => if u <? 2 ^ 15 then u else u - 2 ^ 16) <$> getUint16 offset view.

(** The sample value as the specification words it:
    [round(clamp(sample,-1,1) * (sample < 0 ? 32768 : 32767))]. *)
Definition pcm16_spec (sample : Q) : Z :=
  JS.Math_round
    (JS.Math_max (-1) (JS.Math_min 1 sample)
     * (if JS.lt0 sample then 32768 else 32767))%Q.

End Wav.

(** ** A small engine for closed examples

    [Sample.engine] agrees with a JavaScript engine on the texts it lists:
    the fallback formula, [t], [255], the undeclared identifier [q] (the
    function is built, every call throws a ReferenceError), [t&&q] (0 while
    [t] is 0, a ReferenceError afterwards) and the unbalanced [(] (a
    SyntaxError).  Any other text is outside its domain and is reported as
    a failure. *)

Module Sample.

Local Open Scope string_scope.

(** [t*(t^t+(t>>15|1)^(t-1280^t)>>10) | 0] with the precedence of
    JavaScript: [t * (t ^ (t + ((t>>15)|1)) ^ (((t-1280) ^ t) >> 10))].
    The product is a double: the value is the engine's while
    [|t * inner| < 2^53]. *)
Definition fallbackFn : CompiledFunction := fun t _ _ =>
  let A := Z.lor (Z.shiftr (JS.ToInt32 t) 15) 1 in
  let B := Z.lxor (JS.ToInt32 (t - 1280)) (JS.ToInt32 t) in
  let inner := Z.lxor (Z.lxor (JS.ToInt32 t) (JS.ToInt32 (t + A))) (Z.shiftr B 10) in
  Some (JS.ToInt32 (t * inner)).

Definition identityFn : CompiledFunction := fun t _ _ => Some (JS.ToInt32 t).
Definition constantFn : CompiledFunction := fun _ _ _ => Some 255.
Definition throwingFn : CompiledFunction := fun _ _ _ => None.
Definition guardedFn : CompiledFunction := fun t _ _ =>
  if Z.eqb t 0 then Some 0 else None.

Definition engine : Compiler := fun text =>
  if String.eqb text ERROR_FALLBACK_FORMULA then Some fallbackFn
  else if String.eqb text "t" then Some identityFn
  else if String.eqb text "255" then Some constantFn
  else if String.eqb text "q" then Some throwingFn
  else if String.eqb text "t&&q" then Some guardedFn
  else None.

(** An engine in which even the fallback formula cannot be built (a page
    whose content policy forbids [new Function]). *)
Definition noEval : Compiler := fun _ => None.

Definition host : Ext.Host := Ext.mkHost true 44100 true true.
Definition hostNoWorklet : Ext.Host := Ext.mkHost true 8000 false false.

Definition orElse {A : Type} (o : option A) (d : A) : A :=
  match o with Some x => x | None => d end.

(** The block backend after [startFormula] on a page without AudioWorklet. *)
Definition blockStarted (text : string) : Ext.BytebeatExtension :=
  orElse (Ext.startFormula engine 2 hostNoWorklet text Ext.constructor)
         Ext.constructor.

(** ... and after a block of [n] frames. *)
Definition blockAfter (text : string) (n : nat) : Ext.BytebeatExtension :=
  orElse (snd <$> Ext.processFunc engine 2 n (blockStarted text))
         Ext.constructor.

(** The script fields of an extension whose block backend exists. *)
Definition scriptOf (e : Ext.BytebeatExtension) : Ext.ScriptState :=
  orElse (Ext.script e) (Ext.mkScript 0 0 None [] false 0).

(** [n] spaces. *)
Fixpoint spaces (n : nat) : string :=
  match n with
  | O => EmptyString
  | S n' => String " " (spaces n')
  end.

(** The block backend with the volume [vol], recording. *)
Definition blockRecording (text : string) (vol : Q) : Ext.BytebeatExtension :=
  orElse (Ext.recordStart engine 2
            (orElse (Ext.setProperty engine 2 Ext.Volume vol (blockStarted text))
                    Ext.constructor))
         Ext.constructor.

(** The worklet processor with a formula, recording. *)
Definition workletRecording (text : string) : Worklet.BytebeatProcessor :=
  Worklet.onmessage engine (Worklet.record true)
    (Worklet.onmessage engine (Worklet.setFormula text) (Worklet.constructor engine)).

(** The worklet after 200 recorded frames at the chunk size 4096, then the
    message [setChunkSize 128] that [setProperty('Buffer size', 128)] posts. *)
Definition workletLowered : Worklet.BytebeatProcessor :=
  Worklet.onmessage engine (Worklet.setChunkSize 128)
    (snd (Worklet.process engine 8000%Q [1%Q] [8000%Q] 200 (workletRecording "t"))).

(** The extension playing through a worklet node, recording, with as many
    accepted samples as the session allows. *)
Definition workletPlaying : Ext.BytebeatExtension :=
  orElse (Ext.startFormula engine 2 host "t" Ext.constructor) Ext.constructor.

Definition manySamples : list Q := repeat 0%Q (Z.to_nat (44100 * 60 * 10)).

Definition workletPlayingFull : Ext.BytebeatExtension :=
  Ext.set_recordedSamples manySamples
    (orElse (Ext.recordStart engine 2 workletPlaying) Ext.constructor).

(** The clock of the block backend, when the operation returned. *)
Definition clockOf (o : option Ext.BytebeatExtension) : option Q :=
  match o with
  | Some e =>
      match Ext.script e with
      | Some s => Some (Ext.closure_t s)
      | None => None
      end
  | None => None
  end.

(** The worklet processor after [setFormula] and a block of [n] frames at
    the logical rate 8000 and the physical rate 8000. *)
Definition workletAfter (text : string) (vol : Q) (n : nat) : Worklet.BytebeatProcessor :=
  snd (Worklet.process engine 8000%Q [vol] [8000%Q] n
         (Worklet.onmessage engine (Worklet.setFormula text)
                            (Worklet.constructor engine))).

End Sample.

(** * Definitions used to state the properties *)

(** Truncation to 32-bit two's complement as the specification words it:
    the representative of [z] modulo 2^32 that lies in [-2^31, 2^31). *)
Definition truncate32 (z : Z) : Z :=
  let m := z mod 2 ^ 32 in
  if m <? 2 ^ 31 then m else m - 2 ^ 32.

(** The quantizer as the specification words it: truncate to 32-bit two's
    complement, keep the low 8 bits as an unsigned byte [v], map [v] to
    [v/128 - 1], multiply by the gain. *)
Definition quantize_spec (rawInt : Z) (gain : Q) : Q :=
  let v := truncate32 rawInt mod 2 ^ 8 in
  ((inject_Z v / 128 - 1) * gain)%Q.

(** [_handleScriptMessage({type:'record', on:false})] when the nested chunk
    delivery stays below the maximum. *)
Definition scriptStopRecording (e : Ext.BytebeatExtension) : Ext.BytebeatExtension :=
  match Ext.script e with
  | None => e
  | Some s =>
      let e := Ext.onScript (Ext.set_scriptRecording false) e in
      match Ext._scriptRecordBuffer s with
      | [] => e
      | _ :: _ =>
          Ext.onScript (Ext.set_scriptRecordBuffer [])
            (Ext.set_recordedSamples
               (Ext.recordedSamples e ++ Ext._scriptRecordBuffer s) e)
      end
  end.

(** [_postToNode({type:'record', on:false})], likewise. *)
Definition postRecordOff (e : Ext.BytebeatExtension) : Ext.BytebeatExtension :=
  match Ext.node e with
  | None => e
  | Some (Ext.AudioWorkletNode nodePort) =>
      if Ext._usingWorklet e
      then Ext.set_node (Some (Ext.AudioWorkletNode (nodePort ++ [Worklet.record false]))) e
      else scriptStopRecording e
  | Some Ext.ScriptProcessorNode =>
      if Ext._usingWorklet e then e else scriptStopRecording e
  end.

Definition limitAlert : Ext.LogEntry :=
  Ext.alert "Recording stopped - reached maximum allowed length.".

(** The state after [_handleNodeMessage({type:'recordChunk', chunk})]. *)
Definition afterChunk (chunk : list Q) (e : Ext.BytebeatExtension)
  : Ext.BytebeatExtension :=
  let e := Ext.set_recordedSamples (Ext.recordedSamples e ++ chunk) e in
  if Z.of_nat (length (Ext.recordedSamples e)) >? Ext.recordMaxSamples e
  then Ext.addLog limitAlert
         (postRecordOff (Ext.set_recordedSamples [] (Ext.set_recording false e)))
  else e.

(** The state after the recording lines of one iteration of [processFunc]. *)
Definition afterScriptRecord (sample : Q) (e : Ext.BytebeatExtension)
  : Ext.BytebeatExtension :=
  match Ext.script e with
  | None => e
  | Some s =>
      if Ext._scriptRecording s then
        let buffer := Ext._scriptRecordBuffer s ++ [sample] in
        let e := Ext.onScript (Ext.set_scriptRecordBuffer buffer) e in
        if Z.of_nat (length buffer) >=? Ext._scriptRecordChunkSize s
        then Ext.onScript (Ext.set_scriptRecordBuffer []) (afterChunk buffer e)
        else e
      else e
  end.

(** The un-flushed buffer of the block backend is shorter than the chunk
    size, which is positive and at most the session maximum. *)
Definition ScriptInv (e : Ext.BytebeatExtension) : Prop :=
  forall s, Ext.script e = Some s ->
    0 < Ext._scriptRecordChunkSize s
    /\ Z.of_nat (length (Ext._scriptRecordBuffer s)) < Ext._scriptRecordChunkSize s
    /\ Ext._scriptRecordChunkSize s <= Ext.recordMaxSamples e.

(** The clock after [k] additions of the increment [inc], from [t]: each
    addition is rounded. *)
Fixpoint clockAt (inc t : Q) (k : nat) : Q :=
  match k with
  | O => t
  | S k' => JS.add (clockAt inc t k') inc
  end.

(** The relative error of one rounding to a double, and its absolute error
    where the doubles are denormal. *)
Definition unitRoundoff : Q := 1 # 9007199254740992.
Definition halfLeastDouble : Q := 2 ^ (-1075).

(** What a call of the compiled function [f] at the clock [c] and the
    logical rate [L] gives as raw value: its result, or 0 when it throws. *)
Definition rawAt (f : CompiledFunction) (L c : Q) : Z :=
  match f (JS.Math_floor c) L (JS.div c L) with
  | Some raw => raw
  | None => 0
  end.

(** The raw value lines 447-461 compute, and the function they leave. *)
Definition script_raw (logicalS : Q) (s : Ext.ScriptState) : Z :=
  match Ext._scriptCompiledFunc s with
  | Some f =>
      match f (JS.Math_floor (Ext.closure_t s)) logicalS
              (JS.div (Ext.closure_t s) logicalS) with
      | Some raw => raw
      | None => 0
      end
  | None => 0
  end.

(** [ScriptInv] from a computable check. *)
Definition scriptInvb (e : Ext.BytebeatExtension) : bool :=
  match Ext.script e with
  | Some s =>
      (0 <? Ext._scriptRecordChunkSize s)
      && (Z.of_nat (length (Ext._scriptRecordBuffer s)) <? Ext._scriptRecordChunkSize s)
      && (Ext._scriptRecordChunkSize s <=? Ext.recordMaxSamples e)
  | None => true
  end.

(** The 44 bytes of the header and the bytes of the samples, as a PCM
    reader lays them out. *)
Definition wavHeader (len : nat) (sampleRate : Z) : list Z :=
  [82; 73; 70; 70]
    ++ Wav.le_bytes 4 (JS.ToUint32 (36 + Z.of_nat len * 2))
    ++ [87; 65; 86; 69]
    ++ [102; 109; 116; 32]
    ++ Wav.le_bytes 4 (JS.ToUint32 16)
    ++ Wav.le_bytes 2 (JS.ToUint16 1)
    ++ Wav.le_bytes 2 (JS.ToUint16 1)
    ++ Wav.le_bytes 4 (JS.ToUint32 sampleRate)
    ++ Wav.le_bytes 4 (JS.ToUint32 (sampleRate * 2))
    ++ Wav.le_bytes 2 (JS.ToUint16 2)
    ++ Wav.le_bytes 2 (JS.ToUint16 16)
    ++ [100; 97; 116; 97]
    ++ Wav.le_bytes 4 (JS.ToUint32 (Z.of_nat len * 2)).

Definition sampleBytes (x : Q) : list Z :=
  Wav.le_bytes 2 (JS.ToInt16 (Wav.pcm16 x) mod 2 ^ 16).

Definition wavBody (samples : list Q) : list Z := flat_map sampleBytes samples.

Definition charCodes (s : string) : list Z :=
  map (fun c => JS.ToUint8 (Z.of_nat (nat_of_ascii c))) (list_ascii_of_string s).

Definition firstNonWs (f : string) : bool :=
  match f with
  | String a _ => negb (Str.isWhiteSpace a)
  | EmptyString => false
  end.

Fixpoint lastNonWs (f : string) : bool :=
  match f with
  | EmptyString => false
  | String a EmptyString => negb (Str.isWhiteSpace a)
  | String _ f' => lastNonWs f'
  end.

(** The messages posted to the current worklet node. *)
Definition portOf (e : Ext.BytebeatExtension) : list Worklet.InMsg :=
  match Ext.node e with
  | Some (Ext.AudioWorkletNode nodePort) => nodePort
  | _ => []
  end.

(** Every formula carried by these messages is the fallback formula. *)
Definition onlyFallback (msgs : list Worklet.InMsg) : Prop :=
  Forall (fun m => match m with
                   | Worklet.setFormula text => text = ERROR_FALLBACK_FORMULA
                   | _ => True
                   end) msgs.

(** From [e] to [e']: the formula is the fallback formula, every text
    compiled on the main thread in between is the fallback formula, and so
    is every formula posted to a worklet node in between. *)
Definition OnlyFallbackSince (e e' : Ext.BytebeatExtension) : Prop :=
  Ext.formula e' = ERROR_FALLBACK_FORMULA
  /\ (exists k, Ext.compileLog e' = Ext.compileLog e ++ repeat ERROR_FALLBACK_FORMULA k)
  /\ (exists new, onlyFallback new
                  /\ (portOf e' = portOf e ++ new \/ portOf e' = new)).

(** The un-flushed buffer of the worklet is shorter than the chunk size. *)
Definition WorkletInv (p : Worklet.BytebeatProcessor) : Prop :=
  Z.of_nat (length (Worklet.recordBuffer p)) < Worklet.recordChunkSize p.

(** The chunks among posted messages. *)
Definition chunksOf (msgs : list Worklet.OutMsg) : list (list Q) :=
  flat_map (fun m => match m with
                     | Worklet.recordChunk chunk => [chunk]
                     | Worklet.error _ => []
                     end) msgs.

(** * Further definitions *)

(** ** The remaining blocks: [getInfo], [exampleFormula], [recordStopSave]
    and the property names of [setProperty] *)

Module Blocks.

Local Open Scope string_scope.

Notation "'do' x <- a ; b" :=
  (match a with Some x => b | None => None end)
    (at level 10, x name, a at level 99, b at level 200, only parsing).

(** *** [getInfo] *)

Inductive BlockType : Type := COMMAND | BOOLEAN | REPORTER.

Inductive ArgumentDefault : Type :=
| STRING (defaultValue : string)
| NUMBER (defaultValue : Q).

Record Block : Type := mkBlock {
  opcode : string;
  blockType : BlockType;
  arguments : list (string * ArgumentDefault)
}.

Record ExtensionInfo : Type := mkInfo {
  id : string;
  name : string;
  blocks : list Block;
  menus : list (string * list string)
}.

(** [getInfo()] without the colours and the block texts. *)
Definition getInfo : ExtensionInfo :=
  {| id := "yoog"; name := "yoog";
     blocks :=
       [ mkBlock "startFormula" COMMAND
                 [("FORMULA", STRING "(t*(t>>5|t>>8))>>(t>>16)")];
         mkBlock "stop" COMMAND [];
         mkBlock "setProperty" COMMAND
                 [("PROPERTY", STRING "Volume"); ("VALUE", NUMBER 1)];
         mkBlock "isPlaying" BOOLEAN [];
         mkBlock "recordStart" COMMAND [];
         mkBlock "recordStopSave" COMMAND [("FILENAME", STRING "bytebeat.wav")];
         mkBlock "exampleFormula" REPORTER [("N", NUMBER 1)] ];
     menus := [("PROPERTY", ["Volume"; "Sample rate"; "Buffer size"])] |}.

(** *** [exampleFormula] *)

Definition examples : list string :=
  ["(t*(t>>5|t>>8))>>(t>>16)";
   "((t>>6|t>>8|t>>9)&63)";
   "(t*9&t>>4)|((t*5&t>>7))";
   "((t*(t>>11|t>>8))&(255))";
   "(t*( (t>>11) | (t>>8) ))&255"].

(** [array[k]] for an integer-valued index: [None] stands for [undefined]. *)
Definition at_index {A : Type} (l : list A) (k : Z) : option A :=
  if (k <? 0)%Z then None else l !! Z.to_nat k.

(** [exampleFormula(args)] with [N = Number(args.N)]; the operator [%] is
    the remainder that takes the sign of the dividend.  The difference
    [n - 1] is exact for [n] up to 2^53 and rounded by the engine beyond. *)
Definition exampleFormula (N : Q) : option string :=
  let n := JS.Z_max 1 (JS.Math_floor (JS.orQ N 1)) in
  at_index examples (Z.rem (n - 1) (Z.of_nat (List.length examples))).

(** *** [recordStopSave] *)

(** The file offered to the user: the [download] attribute of the anchor
    and the bytes of the blob behind its [href]. *)
Record Download : Type := mkDownload {
  download : string;
  href : list Z
}.

(** [recordStopSave(args)] with [FILENAME = args.FILENAME].  The result is
    the file that the clicked anchor offers, if any, and the new state;
    the revocation of the object URL a second later is not modelled. *)
Definition recordStopSave (newFunction : Compiler) (fuel : nat) (FILENAME : string)
           (e : Ext.BytebeatExtension)
  : option (option Download * Ext.BytebeatExtension) :=
  let filename := Str.orS FILENAME "bytebeat.wav" in
  let e := Ext.set_recording false e in
  do e <- Ext._postToNode newFunction fuel (Worklet.record false) e;
  match Ext.recordedSamples e with
  | [] => Some (None, Ext.addLog (Ext.alert "No audio recorded.") e)
  | _ :: _ =>
      let rate := match Ext.audioCtx e with
                  | Some ctx => Ext.sampleRate ctx
                  | None => 44100%Z
                  end in
      do wav <- Wav._makeWavBlob (Ext.recordedSamples e) rate;
      Some (Some (mkDownload filename wav), Ext.set_recordedSamples [] e)
  end.

(** *** The property names of [setProperty] *)

(** The canonical form that a case-insensitive regular expression compares:
    among the code units 0..255 only the letters a..z change. *)
Definition canonicalize (c : ascii) : ascii :=
  let n := nat_of_ascii c in
  if ((97 <=? n) && (n <=? 122))%nat then ascii_of_nat (n - 32) else c.

(** The literal [lit], compared case-insensitively, at the start of [s]:
    the rest of [s] after it. *)
Fixpoint matchLiteral (lit s : string) : option string :=
  match lit with
  | EmptyString => Some s
  | String a lit' =>
      match s with
      | String c s' =>
          if Ascii.eqb (canonicalize a) (canonicalize c)
          then matchLiteral lit' s' else None
      | EmptyString => None
      end
  end.

(** [\s*] before a letter: it takes all the white space there is. *)
Definition skipWhiteSpace (s : string) : string := Str.trimStart s.

(** [/^volume$/i.test(prop)] *)
Definition test_volume (prop : string) : bool :=
  match matchLiteral "volume" prop with
  | Some EmptyString => true
  | _ => false
  end.

(** [/^sample\s*rate$/i.test(prop)] *)
Definition test_sample_rate (prop : string) : bool :=
  match matchLiteral "sample" prop with
  | Some rest =>
      match matchLiteral "rate" (skipWhiteSpace rest) with
      | Some EmptyString => true
      | _ => false
      end
  | None => false
  end.

(** [/^buffer\s*size$/i.test(prop)] *)
Definition test_buffer_size (prop : string) : bool :=
  match matchLiteral "buffer" prop with
  | Some rest =>
      match matchLiteral "size" (skipWhiteSpace rest) with
      | Some EmptyString => true
      | _ => false
      end
  | None => false
  end.

(** The branch of [setProperty] that [args.PROPERTY] selects. *)
Definition propertyOf (PROPERTY : string) : Ext.Property :=
  let prop := Str.orS PROPERTY "Volume" in
  if test_volume prop then Ext.Volume
  else if test_sample_rate prop then Ext.SampleRate
  else if test_buffer_size prop then Ext.BufferSize
  else Ext.UnknownProperty.

(** [setProperty(args)] as the block calls it, with a numeric [VALUE]. *)
Definition setPropertyBlock (newFunction : Compiler) (fuel : nat)
           (PROPERTY : string) (VALUE : Q) (e : Ext.BytebeatExtension)
  : option Ext.BytebeatExtension :=
  Ext.setProperty newFunction fuel (propertyOf PROPERTY) VALUE e.

End Blocks.

(** Everything the worklet has recorded and not lost: the chunks it has
    posted, in order, then the samples waiting in its buffer. *)
Definition recordedBy (p : Worklet.BytebeatProcessor) : list Q :=
  concat (chunksOf (Worklet.port p)) ++ Worklet.recordBuffer p.

(** No chunk among the posted messages is empty. *)
Definition NoEmptyChunk (p : Worklet.BytebeatProcessor) : Prop :=
  Forall (fun chunk => chunk <> []) (chunksOf (Worklet.port p)).

(** The gain of the block backend: [self.volume || 1.0]. *)
Definition blockGain (e : Ext.BytebeatExtension) : Q := JS.orQ (Ext.volume e) 1.

(** The state after [_handleScriptMessage({type:'record', on:false})]: the
    flag is cleared, a non-empty buffer is delivered as a chunk and then
    emptied. *)
Definition scriptRecordOff (e : Ext.BytebeatExtension) : Ext.BytebeatExtension :=
  match Ext.script e with
  | None => e
  | Some s =>
      let e1 := Ext.onScript (Ext.set_scriptRecording false) e in
      match Ext._scriptRecordBuffer s with
      | [] => e1
      | _ :: _ =>
          Ext.onScript (Ext.set_scriptRecordBuffer [])
                       (afterChunk (Ext._scriptRecordBuffer s) e1)
      end
  end.

(** The state after [_postToNode({type:'record', on:false})]. *)
Definition afterRecordOff (e : Ext.BytebeatExtension) : Ext.BytebeatExtension :=
  match Ext.node e with
  | None => e
  | Some (Ext.AudioWorkletNode nodePort) =>
      if Ext._usingWorklet e
      then Ext.set_node (Some (Ext.AudioWorkletNode (nodePort ++ [Worklet.record false]))) e
      else scriptRecordOff e
  | Some Ext.ScriptProcessorNode =>
      if Ext._usingWorklet e then e else scriptRecordOff e
  end.

(** The settings that only [setProperty] and [startFormula] write. *)
Definition sameSettings (e e' : Ext.BytebeatExtension) : Prop :=
  Ext.formula e' = Ext.formula e
  /\ Ext.volume e' = Ext.volume e
  /\ Ext.logicalSampleRate e' = Ext.logicalSampleRate e
  /\ Ext.preferredChunkSize e' = Ext.preferredChunkSize e
  /\ Ext.recordMaxSamples e' = Ext.recordMaxSamples e
  /\ Ext.audioCtx e' = Ext.audioCtx e
  /\ Ext._usingWorklet e' = Ext._usingWorklet e
  /\ Ext._workletLoaded e' = Ext._workletLoaded e
  /\ Ext.compileLog e' = Ext.compileLog e.

(** The text that [startFormula] stores (lines 197-203): the trimmed
    argument, or the current formula when the argument is empty, replaced
    by the fallback formula when the screen rejects it. *)
Definition screened (FORMULA current : string) : string :=
  let text := Str.trim (Str.orS FORMULA current) in
  match _sanityCheckFormula text with
  | None => text
  | Some _ => ERROR_FALLBACK_FORMULA
  end.

(** Whether [_ensureAudioPrepared] ends with the worklet module loaded. *)
Definition willUseWorklet (host : Ext.Host) (e : Ext.BytebeatExtension) : bool :=
  Ext._workletLoaded e || (Ext.hasAudioWorklet host && Ext.addModuleSucceeds host).

(** The function left in the block backend by the message
    [setFormula text]: no call is made on it. *)
Definition unchecked (newFunction : Compiler) (text : string)
  : option CompiledFunction :=
  match newFunction text with
  | Some f => Some f
  | None => newFunction ERROR_FALLBACK_FORMULA
  end.

(** The texts handed to [new Function] by [_createScriptProcessor] followed
    by the message [setFormula text]: the text, the fallback when the text
    is not built or fails the smoke test at the logical rate [ls], then the
    text once more, and the fallback when the text is not built. *)
Definition compiledByBlockStart (newFunction : Compiler) (text : string) (ls : Z)
  : list string :=
  [text]
    ++ match newFunction text with
       | Some f =>
           match f 0 (inject_Z ls) 0%Q with
           | Some _ => []
           | None => [ERROR_FALLBACK_FORMULA]
           end
       | None => [ERROR_FALLBACK_FORMULA]
       end
    ++ [text]
    ++ match newFunction text with
       | Some _ => []
       | None => [ERROR_FALLBACK_FORMULA]
       end.

(** The processor after it has handled the messages [msgs], in order. *)
Definition deliver (newFunction : Compiler) (msgs : list Worklet.InMsg)
           (p : Worklet.BytebeatProcessor) : Worklet.BytebeatProcessor :=
  fold_left (fun p m => Worklet.onmessage newFunction m p) msgs p.

(** The value that [setProperty] stores for the property [Buffer size]. *)
Definition clampChunkSize (value : Q) : Z :=
  JS.Z_max 128 (JS.Z_min 65536 (JS.Math_round value)).

(** The ranges that [setProperty] clamps to, and the session maximum. *)
Definition SettingsInRange (e : Ext.BytebeatExtension) : Prop :=
  (0 <= Ext.volume e /\ Ext.volume e <= 4)%Q
  /\ 100 <= Ext.logicalSampleRate e <= 192000
  /\ 128 <= Ext.preferredChunkSize e <= 65536
  /\ Ext.recordMaxSamples e = 44100 * 60 * 10.

Inductive NodeKind : Type := NoNode | WorkletNode | ScriptNode.

Definition nodeKind (e : Ext.BytebeatExtension) : NodeKind :=
  match Ext.node e with
  | None => NoNode
  | Some (Ext.AudioWorkletNode _) => WorkletNode
  | Some Ext.ScriptProcessorNode => ScriptNode
  end.

(** The states the blocks move between: the settings are in range, the
    buffer of the block backend is below its chunk size, the extension is
    playing exactly when it has a node, a node has an audio context, a
    worklet node is used as such, and a ScriptProcessor node has its state. *)
Definition WellFormed (e : Ext.BytebeatExtension) : Prop :=
  SettingsInRange e
  /\ ScriptInv e
  /\ (Ext.isPlaying e = true <-> nodeKind e <> NoNode)
  /\ (nodeKind e <> NoNode -> Ext.audioCtx e <> None)
  /\ (nodeKind e = WorkletNode -> Ext._usingWorklet e = true)
  /\ (nodeKind e = ScriptNode -> Ext.script e <> None)
  /\ Ext._usingWorklet e = Ext._workletLoaded e.

(** What the operations that neither start nor stop leave as it is. *)
Definition sameFrame (e e' : Ext.BytebeatExtension) : Prop :=
  Ext.formula e' = Ext.formula e
  /\ Ext.volume e' = Ext.volume e
  /\ Ext.logicalSampleRate e' = Ext.logicalSampleRate e
  /\ Ext.preferredChunkSize e' = Ext.preferredChunkSize e
  /\ Ext.recordMaxSamples e' = Ext.recordMaxSamples e
  /\ Ext.isPlaying e' = Ext.isPlaying e
  /\ nodeKind e' = nodeKind e
  /\ Ext.audioCtx e' = Ext.audioCtx e
  /\ Ext._usingWorklet e' = Ext._usingWorklet e
  /\ Ext._workletLoaded e' = Ext._workletLoaded e
  /\ (Ext.script e = None <-> Ext.script e' = None).

(** The bytes of the WAV file of [samples] at the rate [sampleRate]. *)
Definition wavFile (samples : list Q) (sampleRate : Z) : list Z :=
  wavHeader (length samples) sampleRate ++ wavBody samples.

(** A string of white space only. *)
Fixpoint allWhiteSpace (s : string) : bool :=
  match s with
  | EmptyString => true
  | String c s' => Str.isWhiteSpace c && allWhiteSpace s'
  end.

(** A string that [trim] leaves as it is starts with no white space. *)
Definition noLeadingWs (s : string) : Prop :=
  match s with
  | EmptyString => True
  | String c _ => Str.isWhiteSpace c = false
  end.

(** The 16-bit value stored for the byte [v] of the formula at the gain 1:
    the bytes below 128 are exact multiples of 256, the others are rounded
    from [(v - 128) * 32767 / 128]. *)
Definition pcmOfByte (v : Z) : Z :=
  if v <? 128 then (v - 128) * 256 else ((v - 128) * 32767 + 64) / 128.

(** ** The message ports between the extension and the worklet

    [_startAudio] creates the node, which constructs the processor, and
    sets [node.port.onmessage = (e) => this._handleNodeMessage(e.data)];
    the processor sets [this.port.onmessage] in its constructor.  A port
    delivers its messages in the order they were posted.  [Link] pairs the
    two ends with the number of messages each has handled so far. *)
Module Link.

Notation "'do' x <- a ; b" :=
  (match a with Some x => b | None => None end)
    (at level 10, x name, a at level 99, b at level 200, only parsing).

Record Link : Type := mkLink {
  main : Ext.BytebeatExtension;
  proc : Worklet.BytebeatProcessor;
  (** messages of the node's port that the processor has handled *)
  toProc : nat;
  (** messages of the processor's port that the extension has handled *)
  toMain : nat
}.

Definition pendingToProc (l : Link) : list Worklet.InMsg :=
  drop (toProc l) (portOf (main l)).

Definition pendingToMain (l : Link) : list Worklet.OutMsg :=
  drop (toMain l) (Worklet.port (proc l)).

(** Nothing is left to deliver. *)
Definition quiescent (l : Link) : Prop :=
  pendingToProc l = [] /\ pendingToMain l = [].

Section WithEngine.
Variable newFunction : Compiler.

(** The extension handles the messages [msgs], in order. *)
Fixpoint handleAll (fuel : nat) (msgs : list Worklet.OutMsg)
         (e : Ext.BytebeatExtension) : option Ext.BytebeatExtension :=
  match msgs with
  | [] => Some e
  | data :: rest =>
      do e' <- Ext._handleNodeMessage newFunction fuel data e;
      handleAll fuel rest e'
  end.

(** The processor handles what the extension has posted. *)
Definition runProc (l : Link) : Link :=
  mkLink (main l) (deliver newFunction (pendingToProc l) (proc l))
         (length (portOf (main l))) (toMain l).

(** The extension handles what the processor has posted. *)
Definition runMain (fuel : nat) (l : Link) : option Link :=
  do e' <- handleAll fuel (pendingToMain l) (main l);
  Some (mkLink e' (proc l) (toProc l) (length (Worklet.port (proc l)))).

(** One exchange: the extension's turn, then the processor's. *)
Definition exchange (fuel : nat) (l : Link) : option Link :=
  do l' <- runMain fuel l; Some (runProc l').

Fixpoint exchanges (n fuel : nat) (l : Link) : option Link :=
  match n with
  | O => Some l
  | S n' => do l' <- exchange fuel l; exchanges n' fuel l'
  end.

(** The link of a node that [_startAudio] has just created, once the new
    processor has handled the messages sent with the start. *)
Definition fresh (e : Ext.BytebeatExtension) : Link :=
  runProc (mkLink e (Worklet.constructor newFunction) 0 0).

End WithEngine.

End Link.

(** The alerts among the log entries. *)
Definition alertsOf (lg : list Ext.LogEntry) : list string :=
  flat_map (fun x => match x with Ext.alert m => [m] | _ => [] end) lg.

(** The pending messages are error reports, and at least one is. *)
Definition onlyErrors (msgs : list Worklet.OutMsg) : Prop :=
  msgs <> [] /\ Forall (fun m => exists text, m = Worklet.error text) msgs.

(** The extension has a worklet node whose processor has handled every
    message sent to it, and error reports of the processor are waiting. *)
Definition ErrorsPending (l : Link.Link) : Prop :=
  (exists nodePort, Ext.node (Link.main l) = Some (Ext.AudioWorkletNode nodePort))
  /\ Ext._usingWorklet (Link.main l) = true
  /\ Link.toProc l = length (portOf (Link.main l))
  /\ (Link.toMain l <= length (Worklet.port (Link.proc l)))%nat
  /\ onlyErrors (Link.pendingToMain l).

(** The fallback formula cannot be built, or throws on the neutral inputs. *)
Definition fallbackFails (newFunction : Compiler) : Prop :=
  match newFunction ERROR_FALLBACK_FORMULA with
  | Some g => g 0 8000%Q 0%Q = None
  | None => True
  end.

(** Whether the worklet keeps the function built from [text]. *)
Definition accepted (newFunction : Compiler) (text : string) : bool :=
  match newFunction text with
  | Some f => match f 0 8000%Q 0%Q with Some _ => true | None => false end
  | None => false
  end.

(** A string with its letters a..z in upper case. *)
Fixpoint canonical (s : string) : string :=
  match s with
  | EmptyString => EmptyString
  | String c s' => String (Blocks.canonicalize c) (canonical s')
  end.

(** Everything recorded through the block backend: the samples delivered
    to the extension, then the samples waiting in the buffer of the
    ScriptProcessor. *)
Definition recordedByBlock (e : Ext.BytebeatExtension) : list Q :=
  Ext.recordedSamples e
    ++ match Ext.script e with
       | Some s => Ext._scriptRecordBuffer s
       | None => []
       end.

(** Whether the ScriptProcessor is recording. *)
Definition scriptRecording (e : Ext.BytebeatExtension) : bool :=
  match Ext.script e with
  | Some s => Ext._scriptRecording s
  | None => false
  end.

(** The processor of the link renders a block of [len] frames. *)
Definition playBlock (newFunction : Compiler) (sr : Q) (volParam sParam : list Q)
           (len : nat) (l : Link.Link) : list Q * Link.Link :=
  let r := Worklet.process newFunction sr volParam sParam len (Link.proc l) in
  (fst r, Link.mkLink (Link.main l) (snd r) (Link.toProc l) (Link.toMain l)).

(** Everything recorded over the link: the samples delivered to the
    extension, the chunks posted and not yet delivered, and the samples
    waiting in the buffer of the processor. *)
Definition recordedOver (l : Link.Link) : list Q :=
  Ext.recordedSamples (Link.main l)
    ++ concat (chunksOf (Link.pendingToMain l))
    ++ Worklet.recordBuffer (Link.proc l).

(** The extension uses a worklet node, and no end has handled more
    messages than were posted. *)
Definition Linked (l : Link.Link) : Prop :=
  (exists nodePort, Ext.node (Link.main l) = Some (Ext.AudioWorkletNode nodePort))
  /\ Ext._usingWorklet (Link.main l) = true
  /\ (Link.toProc l <= length (portOf (Link.main l)))%nat
  /\ (Link.toMain l <= length (Worklet.port (Link.proc l)))%nat.

(** * Verified properties *)

(** ** Doubles *)

Lemma nearestEven_error (y : Q) :
  (Qabs (inject_Z (JS.nearestEven y) - y) <= 1 # 2)%Q.
Proof.
  unfold JS.nearestEven.
  pose proof (Qfloor_le y) as Hlo. pose proof (Qlt_floor y) as Hhi.
  set (f := Qfloor y) in *. rewrite inject_Z_plus in Hhi.
  change (inject_Z 1) with 1%Q in Hhi.
  apply Qabs_Qle_condition.
  destruct (Qcompare_spec (y - inject_Z f) (1 # 2)) as [E|E|E].
  - destruct (Z.even f);
      [|rewrite inject_Z_plus; change (inject_Z 1) with 1%Q]; split; lra.
  - split; lra.
  - rewrite inject_Z_plus. change (inject_Z 1) with 1%Q. split; lra.
Qed.

Lemma Qpower2_pos (z : Z) : (0 < 2 ^ z)%Q.
Proof. apply Qpower_0_lt. reflexivity. Qed.

Lemma ilog2_le (x : Q) : (0 < x)%Q -> (2 ^ JS.ilog2 x <= x)%Q.
Proof.
  intros Hx. unfold JS.ilog2.
  set (k := Z.log2 (Qnum x) - Z.log2 (Z.pos (Qden x))).
  destruct (Qle_bool (2 ^ k) x) eqn:E; [now apply Qle_bool_iff|].
  destruct x as [n d]. cbn [Qnum Qden] in *.
  assert (Hn : 0 < n) by (unfold Qlt in Hx; cbn in Hx; lia).
  pose proof (Z.log2_spec n Hn) as [Ha _].
  pose proof (Z.log2_spec (Z.pos d) eq_refl) as [_ Hb].
  pose proof (Z.log2_nonneg n) as Ha0. pose proof (Z.log2_nonneg (Z.pos d)) as Hb0.
  set (a := Z.log2 n) in *. set (b := Z.log2 (Z.pos d)) in *.
  replace (k - 1) with (a - Z.succ b) by (unfold k; lia).
  rewrite Qpower_minus by discriminate.
  change 2%Q with (inject_Z 2).
  rewrite <- !Zpower_Qpower by lia.
  assert (Hp : 0 < 2 ^ Z.succ b) by (apply Z.pow_pos_nonneg; lia).
  apply Qle_shift_div_r; [rewrite <- (Zlt_Qlt 0); exact Hp|].
  assert (HA : 0 < 2 ^ a) by (apply Z.pow_pos_nonneg; lia).
  generalize dependent (2 ^ a). generalize dependent (2 ^ Z.succ b).
  intros B HB HB0 A HA HA0. unfold Qle, Qmult, inject_Z. cbn [Qnum Qden].
  rewrite Pos.mul_1_r. nia.
Qed.

Lemma fl_error (x : Q) :
  (Qabs (JS.fl x - x) <= unitRoundoff * Qabs x + halfLeastDouble)%Q.
Proof.
  assert (Heta : (0 < halfLeastDouble)%Q) by apply Qpower2_pos.
  assert (Hu : (0 <= unitRoundoff * Qabs x)%Q).
  { apply Qmult_le_0_compat; [discriminate|apply Qabs_nonneg]. }
  unfold JS.fl. destruct (Qeq_bool x 0) eqn:E0.
  - apply Qeq_bool_iff in E0. rewrite E0.
    change (Qabs (0 - 0)) with 0%Q. change (Qabs 0) with 0%Q. lra.
  - assert (Hx : ~ x == 0) by (intros H; apply Qeq_bool_iff in H; congruence).
    cbv zeta. rewrite Qred_correct.
    set (e := JS.lastPlace x).
    pose proof (Qpower2_pos e) as He.
    pose proof (nearestEven_error (x / 2 ^ e)) as Hm.
    set (m := inject_Z (JS.nearestEven (x / 2 ^ e))) in *.
    assert (Hs : (Qabs (m * 2 ^ e - x) <= (1 # 2) * 2 ^ e)%Q).
    { assert (Heq : (m * 2 ^ e - x == (m - x / 2 ^ e) * 2 ^ e)%Q) by (field; lra).
      rewrite Heq, Qabs_Qmult, (Qabs_pos (2 ^ e)) by lra.
      apply Qmult_le_compat_r; [exact Hm|lra]. }
    eapply Qle_trans; [exact Hs|].
    unfold e, JS.lastPlace.
    destruct (Z.max_spec (JS.ilog2 (Qabs x) - 52) (-1074)) as [[_ ->]|[_ ->]].
    + assert (Hq : (2 ^ (-1074) == 2 * halfLeastDouble)%Q) by (vm_compute; reflexivity).
      rewrite Hq. lra.
    + assert (Hpos : (0 < Qabs x)%Q).
      { pose proof (Qabs_nonneg x). destruct (Qeq_dec (Qabs x) 0) as [Hz|Hz]; [|lra].
        exfalso. apply Hx. revert Hz. apply Qabs_case; intros; lra. }
      pose proof (ilog2_le (Qabs x) Hpos) as Hk.
      rewrite Qpower_minus by discriminate.
      change (2 ^ 52)%Q with 4503599627370496%Q.
      set (p := (2 ^ JS.ilog2 (Qabs x))%Q) in *.
      assert (unitRoundoff * p <= unitRoundoff * Qabs x)%Q
        by (apply Qmult_le_l; [reflexivity|exact Hk]).
      unfold unitRoundoff in *. clearbody p. clear Hs Hm He.
      assert (Hdiv : ((1 # 2) * (p / 4503599627370496) == (1 # 9007199254740992) * p)%Q)
        by (field; discriminate).
      rewrite Hdiv. lra.
Qed.

Lemma clockAt_shift (inc t : Q) (k : nat) :
  clockAt inc (JS.add t inc) k = clockAt inc t (S k).
Proof. induction k as [|k IH]; [reflexivity|]. cbn [clockAt] in *. now rewrite IH. Qed.

Lemma clockAt_tolerance (inc t : Q) (N k : nat) :
  (k <= N)%nat -> Z.of_nat N <= 2 ^ 52 ->
  (Qabs (clockAt inc t k - (t + inject_Z (Z.of_nat k) * inc))
   <= 2 * inject_Z (Z.of_nat k)
        * (unitRoundoff * (Qabs t + inject_Z (Z.of_nat N) * Qabs inc) + halfLeastDouble))%Q.
Proof.
  intros HkN HN.
  assert (Heta : (0 < halfLeastDouble)%Q) by apply Qpower2_pos.
  pose proof (Qabs_nonneg t) as Ht0. pose proof (Qabs_nonneg inc) as Hi0.
  set (B := (Qabs t + inject_Z (Z.of_nat N) * Qabs inc)%Q).
  set (d := (unitRoundoff * B + halfLeastDouble)%Q).
  induction k as [|k IH].
  - cbn [clockAt]. change (inject_Z (Z.of_nat 0)) with 0%Q.
    assert (t - (t + 0 * inc) == 0)%Q as -> by ring.
    change (Qabs 0) with 0%Q. lra.
  - specialize (IH ltac:(lia)). cbn [clockAt]. unfold JS.add.
    set (c := clockAt inc t k) in *.
    rewrite Nat2Z.inj_succ. unfold Z.succ. rewrite inject_Z_plus.
    set (K := inject_Z (Z.of_nat k)) in *.
    assert (HK0 : (0 <= K)%Q) by (unfold K; rewrite <- (Zle_Qle 0); lia).
    assert (HKN : (K + 1 <= inject_Z (Z.of_nat N))%Q).
    { unfold K. change 1%Q with (inject_Z 1). rewrite <- inject_Z_plus, <- Zle_Qle. lia. }
    assert (HK52 : (K <= 4503599627370496)%Q).
    { change 4503599627370496%Q with (inject_Z (2 ^ 52)). unfold K. rewrite <- Zle_Qle. lia. }
    pose proof (fl_error (c + inc)) as Hfl.
    set (E := Qabs (c - (t + K * inc))) in *.
    assert (HB : (Qabs (c + inc) <= B + E)%Q).
    { assert (c + inc == (t + (K + 1) * inc) + (c - (t + K * inc)))%Q as -> by ring.
      eapply Qle_trans; [apply Qabs_triangle|]. fold E.
      assert (Qabs (t + (K + 1) * inc) <= B)%Q; [|lra].
      eapply Qle_trans; [apply Qabs_triangle|]. unfold B.
      rewrite Qabs_Qmult, (Qabs_pos (K + 1)) by lra.
      assert ((K + 1) * Qabs inc <= inject_Z (Z.of_nat N) * Qabs inc)%Q; [|lra].
      apply Qmult_le_compat_r; assumption. }
    assert (Hstep : (Qabs (JS.fl (c + inc) - (t + (K + inject_Z 1) * inc))
                     <= (1 + unitRoundoff) * E + d)%Q).
    { assert (JS.fl (c + inc) - (t + (K + inject_Z 1) * inc)
              == (JS.fl (c + inc) - (c + inc)) + (c - (t + K * inc)))%Q as ->
          by (change (inject_Z 1) with 1%Q; ring).
      eapply Qle_trans; [apply Qabs_triangle|]. fold E.
      assert (unitRoundoff * Qabs (c + inc) <= unitRoundoff * (B + E))%Q
        by (apply Qmult_le_l; [reflexivity|exact HB]).
      unfold d. lra. }
    eapply Qle_trans; [exact Hstep|].
    assert (Hd0 : (0 <= d)%Q).
    { unfold d. assert (0 <= unitRoundoff * B)%Q; [|lra].
      apply Qmult_le_0_compat; [discriminate|]. unfold B.
      assert (0 <= inject_Z (Z.of_nat N) * Qabs inc)%Q; [|lra].
      apply Qmult_le_0_compat; [rewrite <- (Zle_Qle 0); lia|exact Hi0]. }
    assert (HKd : (K * d <= 4503599627370496 * d)%Q) by (apply Qmult_le_compat_r; assumption).
    change (inject_Z 1) with 1%Q.
    clearbody E d K. clear - IH HKd Hd0 HK0. unfold unitRoundoff.
    set (P := (K * d)%Q) in *.
    assert (HP : (2 * K * d == 2 * P)%Q) by (unfold P; ring).
    assert (HP' : (2 * (K + 1) * d == 2 * P + 2 * d)%Q) by (unfold P; ring).
    rewrite HP in IH. rewrite HP'. clearbody P. lra.
Qed.

(** The clock after [N] frames against [N] times the exact ratio of the
    rates. *)
Lemma clockAt_rates_tolerance (L P t : Q) (N : nat) :
  Z.of_nat N <= 2 ^ 52 ->
  (Qabs (clockAt (JS.div L P) t N - (t + inject_Z (Z.of_nat N) * (L / P)))
   <= 2 * inject_Z (Z.of_nat N)
        * (unitRoundoff * (Qabs t + inject_Z (Z.of_nat N) * Qabs (JS.div L P))
           + halfLeastDouble)
      + inject_Z (Z.of_nat N) * (unitRoundoff * Qabs (L / P) + halfLeastDouble))%Q.
Proof.
  intros HN.
  pose proof (clockAt_tolerance (JS.div L P) t N N (le_n N) HN) as H1.
  pose proof (fl_error (L / P)) as H2. fold (JS.div L P) in H2.
  set (n := inject_Z (Z.of_nat N)) in *.
  assert (Hn : (0 <= n)%Q) by (unfold n; rewrite <- (Zle_Qle 0); lia).
  set (inc := JS.div L P) in *. set (q := (L / P)%Q) in *.
  assert (clockAt inc t N - (t + n * q)
          == (clockAt inc t N - (t + n * inc)) + n * (inc - q))%Q as -> by ring.
  eapply Qle_trans; [apply Qabs_triangle|].
  rewrite Qabs_Qmult, (Qabs_pos n) by exact Hn.
  assert (n * Qabs (inc - q) <= n * (unitRoundoff * Qabs q + halfLeastDouble))%Q
    by (rewrite !(Qmult_comm n); apply Qmult_le_compat_r; assumption).
  lra.
Qed.

(** ** Quantizer *)

Lemma ToInt32_mod_256 (r : Z) : JS.ToInt32 r mod 256 = r mod 256.
Proof.
  unfold JS.ToInt32.
  change (2 ^ 31) with 2147483648. change (2 ^ 32) with 4294967296.
  pose proof (Z.mod_pos_bound (r + 2147483648) 4294967296 eq_refl).
  pose proof (Z.div_mod (r + 2147483648) 4294967296 ltac:(discriminate)).
  set (m := (r + 2147483648) mod 4294967296) in *.
  set (q := (r + 2147483648) / 4294967296) in *.
  replace (m - 2147483648) with (r + (- (16777216 * q)) * 256) by lia.
  apply Z.mod_add. discriminate.
Qed.

Lemma ToInt32_truncate32 (z : Z) : JS.ToInt32 z = truncate32 z.
Proof.
  unfold JS.ToInt32, truncate32.
  change (2 ^ 31) with 2147483648. change (2 ^ 32) with 4294967296.
  pose proof (Z.mod_pos_bound z 4294967296 eq_refl) as Hm.
  pose proof (Z.div_mod z 4294967296 ltac:(discriminate)) as Hz.
  set (m := z mod 4294967296) in *. set (q := z / 4294967296) in *.
  destruct (m <? 2147483648) eqn:E.
  - replace (z + 2147483648) with (m + 2147483648 + q * 4294967296) by lia.
    rewrite Z.mod_add by discriminate. rewrite Z.mod_small by lia. lia.
  - replace (z + 2147483648) with (m - 2147483648 + (q + 1) * 4294967296) by lia.
    rewrite Z.mod_add by discriminate. rewrite Z.mod_small by lia. lia.
Qed.

Lemma v8_of_mod (r : Z) : v8_of r = r mod 256.
Proof.
  unfold v8_of. change 255 with (Z.ones 8).
  rewrite Z.land_ones by lia. apply ToInt32_mod_256.
Qed.

Lemma v8_of_range (r : Z) : 0 <= v8_of r <= 255.
Proof.
  rewrite v8_of_mod. pose proof (Z.mod_pos_bound r 256 eq_refl). lia.
Qed.

(** ** The [isPlaying] block *)

(** C10. The constructor assigns the boolean field [this.isPlaying], an own
    property that hides the prototype method of the same name: in every
    state [extension["isPlaying"]] is that boolean, so the call the host
    makes for the "is playing" block fails with a TypeError instead of
    returning the flag, although the block is declared by [getInfo] and the
    body of the hidden method would return the flag. *)
Theorem C10_isPlaying_not_callable (e : Ext.BytebeatExtension) :
  In "isPlaying"%string Ext.opcodes
  /\ Ext.getProperty e "isPlaying" = Some (Ext.VBoolean (Ext.isPlaying e))
  /\ Ext.callBooleanBlock e "isPlaying" = Ext.TypeError_not_a_function
  /\ Ext.callBooleanBlock Ext.constructor "isPlaying" = Ext.TypeError_not_a_function
  /\ Ext.isPlaying_method e = Ext.isPlaying e.
Proof.
  repeat apply conj; try reflexivity.
  simpl. tauto.
Qed.

(** ** The block backend: what a delivered chunk does *)

(** Unfolding of the field updates. *)
Ltac ext_simpl :=
  cbn [Ext.onScript Ext.set_audioCtx Ext.set_node Ext.set_isPlaying
       Ext.set_usingWorklet Ext.set_workletLoaded Ext.set_logicalSampleRate
       Ext.set_volume Ext.set_formula Ext.set_recording
       Ext.set_recordedSamples Ext.set_preferredChunkSize Ext.set_script
       Ext.addLog Ext.logCompile Ext.set_closure_t
       Ext.set_scriptCompiledFunc Ext.set_scriptRecordBuffer
       Ext.set_scriptRecording Ext.set_scriptRecordChunkSize
       Ext.audioCtx Ext.node Ext.isPlaying Ext._usingWorklet Ext._workletLoaded
       Ext.logicalSampleRate Ext.volume Ext.formula Ext.recording
       Ext.recordedSamples Ext.recordMaxSamples Ext.preferredChunkSize
       Ext.script Ext.log Ext.compileLog
       Ext.closure_t Ext.closure_sr Ext._scriptCompiledFunc
       Ext._scriptRecordBuffer Ext._scriptRecording Ext._scriptRecordChunkSize
       fst snd app length fold_left] in *.

(** Closes a conjunction of equalities that hold by computation. *)
Ltac frame_done := repeat first [reflexivity | apply conj | eexists].

Section BlockBackendFacts.
Variable newFunction : Compiler.

Lemma handleNode_recordChunk (fuel : nat) (chunk : list Q) (e : Ext.BytebeatExtension) :
  (2 <= fuel)%nat ->
  (forall s, Ext.script e = Some s ->
     Z.of_nat (length (Ext._scriptRecordBuffer s)) <= Ext.recordMaxSamples e) ->
  Ext._handleNodeMessage newFunction fuel (Worklet.recordChunk chunk) e
  = Some (afterChunk chunk e).
Proof.
  intros Hfuel Hbuf.
  destruct fuel as [|[|fuel]]; try lia. clear Hfuel.
  destruct e as [ctx nd pl uw wl ls vol fm rec samples mx pc sc lg cl].
  unfold afterChunk, postRecordOff, scriptStopRecording.
  cbn [Ext._handleNodeMessage]. ext_simpl.
  destruct (Z.of_nat (length (samples ++ chunk)) >? mx); [|reflexivity].
  unfold Ext._postToNode_with, Ext._handleScriptMessage_with. ext_simpl.
  destruct nd as [[nodePort|]|]; try reflexivity;
    destruct uw; try reflexivity;
    (destruct sc as [s|]; [|reflexivity]);
    specialize (Hbuf s eq_refl); ext_simpl;
    (destruct (Ext._scriptRecordBuffer s) as [|x buf] eqn:Hb; [reflexivity|]);
    cbn [Ext._handleNodeMessage]; ext_simpl;
    (destruct (Z.of_nat (S (length buf)) >? mx) eqn:Hgt;
       [apply Z.gtb_lt in Hgt; lia | reflexivity]).
Qed.

Lemma script_recordSample_total (fuel : nat) (sample : Q) (e : Ext.BytebeatExtension) :
  (2 <= fuel)%nat -> ScriptInv e ->
  Ext.script_recordSample newFunction fuel sample e
  = Some (afterScriptRecord sample e).
Proof.
  intros Hfuel Hinv. unfold Ext.script_recordSample, afterScriptRecord.
  destruct (Ext.script e) as [s|] eqn:Hs; [|reflexivity].
  destruct (Ext._scriptRecording s); [|reflexivity].
  destruct (Z.of_nat (length (Ext._scriptRecordBuffer s ++ [sample]))
            >=? Ext._scriptRecordChunkSize s) eqn:Hge; [|reflexivity].
  rewrite handleNode_recordChunk; [reflexivity|assumption|].
  intros s' Hs'. destruct (Hinv s Hs) as (Hpos & Hlt & Hmax).
  destruct e as [ctx nd pl uw wl ls vol fm rec samples mx pc sc lg cl].
  cbn in Hs. subst sc. destruct s as [ct csr cf buf rc cs]. ext_simpl.
  injection Hs' as <-. ext_simpl. rewrite length_app. cbn. lia.
Qed.

(** What the recording lines leave untouched. *)
Lemma afterScriptRecord_frame (sample : Q) (e : Ext.BytebeatExtension) (s : Ext.ScriptState) :
  Ext.script e = Some s ->
  let e' := afterScriptRecord sample e in
  (exists s', Ext.script e' = Some s'
     /\ Ext.closure_t s' = Ext.closure_t s
     /\ Ext.closure_sr s' = Ext.closure_sr s
     /\ Ext._scriptCompiledFunc s' = Ext._scriptCompiledFunc s
     /\ Ext._scriptRecordChunkSize s' = Ext._scriptRecordChunkSize s)
  /\ Ext.volume e' = Ext.volume e
  /\ Ext.logicalSampleRate e' = Ext.logicalSampleRate e
  /\ Ext.recordMaxSamples e' = Ext.recordMaxSamples e
  /\ Ext.isPlaying e' = Ext.isPlaying e
  /\ Ext.formula e' = Ext.formula e
  /\ Ext.compileLog e' = Ext.compileLog e.
Proof.
  intros Hs. unfold afterScriptRecord, afterChunk, postRecordOff, scriptStopRecording.
  destruct e as [ctx nd pl uw wl ls vol fm rec samples mx pc sc lg cl].
  cbn in Hs. subst sc. destruct s as [ct csr cf buf rc cs]. ext_simpl.
  destruct rc; ext_simpl; [|frame_done].
  destruct (_ >=? cs); ext_simpl; [|frame_done].
  destruct (_ >? mx); ext_simpl; [|frame_done].
  destruct nd as [[nodePort|]|]; ext_simpl; try (frame_done; fail);
    destruct uw; ext_simpl; try (frame_done; fail);
    destruct (buf ++ [sample]); ext_simpl; frame_done.
Qed.

Lemma afterScriptRecord_inv (sample : Q) (e : Ext.BytebeatExtension) :
  ScriptInv e -> ScriptInv (afterScriptRecord sample e).
Proof.
  intros Hinv s' Hs'.
  unfold afterScriptRecord, afterChunk, postRecordOff, scriptStopRecording in Hs' |- *.
  destruct e as [ctx nd pl uw wl ls vol fm rec samples mx pc sc lg cl].
  destruct sc as [s|]; [|discriminate].
  specialize (Hinv s eq_refl). destruct s as [ct csr cf buf rc cs]. ext_simpl.
  destruct rc; ext_simpl; [|injection Hs' as <-; cbn; lia].
  destruct (_ >=? cs) eqn:Hge; ext_simpl;
    [|injection Hs' as <-; cbn; rewrite length_app in *; cbn in *; lia].
  destruct (_ >? mx); ext_simpl; [|injection Hs' as <-; cbn; lia].
  destruct nd as [[nodePort|]|]; ext_simpl; try (injection Hs' as <-; cbn; lia);
    destruct uw; ext_simpl; try (injection Hs' as <-; cbn; lia);
    destruct (buf ++ [sample]); ext_simpl; injection Hs' as <-; cbn; lia.
Qed.

(** What the evaluation of the formula leaves untouched. *)
Lemma script_evalRaw_frame (logicalS : Q) (s : Ext.ScriptState) (e : Ext.BytebeatExtension) :
  Ext.script e = Some s ->
  let e' := snd (Ext.script_evalRaw newFunction logicalS s e) in
  (exists s', Ext.script e' = Some s'
     /\ Ext.closure_t s' = Ext.closure_t s
     /\ Ext.closure_sr s' = Ext.closure_sr s
     /\ Ext._scriptRecordBuffer s' = Ext._scriptRecordBuffer s
     /\ Ext._scriptRecording s' = Ext._scriptRecording s
     /\ Ext._scriptRecordChunkSize s' = Ext._scriptRecordChunkSize s
     /\ Ext._scriptCompiledFunc s' =
        match Ext._scriptCompiledFunc s with
        | Some f =>
            match f (JS.Math_floor (Ext.closure_t s)) logicalS
                    (JS.div (Ext.closure_t s) logicalS) with
            | Some _ => Some f
            | None => newFunction ERROR_FALLBACK_FORMULA
            end
        | None => None
        end)
  /\ Ext.volume e' = Ext.volume e
  /\ Ext.logicalSampleRate e' = Ext.logicalSampleRate e
  /\ Ext.recordMaxSamples e' = Ext.recordMaxSamples e
  /\ Ext.recordedSamples e' = Ext.recordedSamples e
  /\ Ext.recording e' = Ext.recording e
  /\ Ext.node e' = Ext.node e
  /\ Ext._usingWorklet e' = Ext._usingWorklet e
  /\ Ext.isPlaying e' = Ext.isPlaying e.
Proof.
  intros Hs. unfold Ext.script_evalRaw, Ext.scriptFallback.
  destruct e as [ctx nd pl uw wl ls vol fm rec samples mx pc sc lg cl].
  cbn in Hs. subst sc. destruct s as [ct csr cf buf rc cs]. ext_simpl.
  destruct cf as [f|]; ext_simpl; [|frame_done].
  destruct (f _ _ _); ext_simpl; [frame_done|].
  destruct (newFunction ERROR_FALLBACK_FORMULA); ext_simpl; frame_done.
Qed.

Lemma script_evalRaw_inv (logicalS : Q) (s : Ext.ScriptState) (e : Ext.BytebeatExtension) :
  Ext.script e = Some s -> ScriptInv e ->
  ScriptInv (snd (Ext.script_evalRaw newFunction logicalS s e)).
Proof.
  intros Hs Hinv s' Hs'.
  destruct (script_evalRaw_frame logicalS s e Hs)
    as ((s1 & Hs1 & _ & _ & Hb & _ & Hc & _) & _ & _ & Hm & _).
  rewrite Hs1 in Hs'. injection Hs' as <-.
  rewrite Hb, Hc, Hm. exact (Hinv s Hs).
Qed.

(** One iteration of [processFunc] returns, with this output and state. *)
Lemma script_processSample_total (fuel : nat) (logicalS inc : Q)
      (e : Ext.BytebeatExtension) (s : Ext.ScriptState) :
  (2 <= fuel)%nat -> Ext.script e = Some s -> ScriptInv e ->
  Ext.script_processSample newFunction fuel logicalS inc e
  = Some (let r := Ext.script_evalRaw newFunction logicalS s e in
          let sample := quantize (fst r) (JS.orQ (Ext.volume (snd r)) 1) in
          (sample,
           Ext.onScript (fun s => Ext.set_closure_t (JS.add (Ext.closure_t s) inc) s)
                        (afterScriptRecord sample (snd r)))).
Proof.
  intros Hfuel Hs Hinv. unfold Ext.script_processSample. rewrite Hs.
  pose proof (script_evalRaw_inv logicalS s e Hs Hinv) as Hinv1.
  destruct (Ext.script_evalRaw newFunction logicalS s e) as [raw e1]. cbn in *.
  now rewrite script_recordSample_total.
Qed.

End BlockBackendFacts.

(** ** The continuous backend: one frame and one block *)

Section WorkletFacts.
Variable newFunction : Compiler.

Lemma worklet_switchToFallback_frame (ok fail : string) (p : Worklet.BytebeatProcessor) :
  let p' := Worklet.switchToFallback newFunction ok fail p in
  Worklet.compiled p' = newFunction ERROR_FALLBACK_FORMULA
  /\ Worklet.t p' = Worklet.t p
  /\ Worklet.recording p' = Worklet.recording p
  /\ Worklet.recordBuffer p' = Worklet.recordBuffer p
  /\ Worklet.recordChunkSize p' = Worklet.recordChunkSize p
  /\ Worklet.compileLog p' = Worklet.compileLog p ++ [ERROR_FALLBACK_FORMULA]
  /\ exists message, Worklet.port p' = Worklet.port p ++ [Worklet.error message].
Proof.
  unfold Worklet.switchToFallback.
  destruct (newFunction ERROR_FALLBACK_FORMULA); cbn; eauto 10.
Qed.

Lemma worklet_evalRaw_spec (s : Q) (p : Worklet.BytebeatProcessor) :
  let r := Worklet.evalRaw newFunction s p in
  fst r = match Worklet.compiled p with
          | Some f =>
              match f (JS.Math_floor (Worklet.t p)) s (JS.div (Worklet.t p) s) with
              | Some raw => raw
              | None => 0
              end
          | None => 0
          end
  /\ Worklet.compiled (snd r)
     = match Worklet.compiled p with
       | Some f =>
           match f (JS.Math_floor (Worklet.t p)) s (JS.div (Worklet.t p) s) with
           | Some _ => Some f
           | None => newFunction ERROR_FALLBACK_FORMULA
           end
       | None => None
       end
  /\ Worklet.t (snd r) = Worklet.t p
  /\ Worklet.recording (snd r) = Worklet.recording p
  /\ Worklet.recordBuffer (snd r) = Worklet.recordBuffer p
  /\ Worklet.recordChunkSize (snd r) = Worklet.recordChunkSize p.
Proof.
  unfold Worklet.evalRaw.
  destruct (Worklet.compiled p) as [f|] eqn:Hc; cbn; [|now rewrite Hc].
  destruct (f _ _ _); cbn; [now rewrite Hc|].
  pose proof (worklet_switchToFallback_frame
                "Runtime error; switched to fallback formula: "
                "Runtime error and fallback failed: " p) as H.
  cbn in H. tauto.
Qed.

Lemma worklet_recordSample_frame (sample : Q) (p : Worklet.BytebeatProcessor) :
  let p' := Worklet.recordSample sample p in
  Worklet.compiled p' = Worklet.compiled p
  /\ Worklet.t p' = Worklet.t p
  /\ Worklet.recording p' = Worklet.recording p
  /\ Worklet.recordChunkSize p' = Worklet.recordChunkSize p.
Proof.
  unfold Worklet.recordSample, Worklet._flushRecord.
  destruct (Worklet.recording p) eqn:Hr; cbn; [|now rewrite Hr].
  destruct (_ >=? _); cbn; [|now rewrite Hr].
  destruct (Worklet.recordBuffer p ++ [sample]); cbn; now rewrite Hr.
Qed.

Lemma worklet_processSample_spec (inc vol s : Q) (p : Worklet.BytebeatProcessor) :
  let r := Worklet.processSample newFunction inc vol s p in
  fst r = quantize (fst (Worklet.evalRaw newFunction s p)) vol
  /\ Worklet.t (snd r) = (JS.add (Worklet.t p) inc)
  /\ Worklet.compiled (snd r) = Worklet.compiled (snd (Worklet.evalRaw newFunction s p))
  /\ snd r = Worklet.set_t (JS.add (Worklet.t p) inc)
               (Worklet.recordSample (fst r) (snd (Worklet.evalRaw newFunction s p))).
Proof.
  unfold Worklet.processSample.
  destruct (worklet_evalRaw_spec s p) as (_ & _ & Ht & _).
  destruct (Worklet.evalRaw newFunction s p) as [raw p1]. cbn in *.
  destruct (worklet_recordSample_frame (quantize raw vol) p1) as (Hc & Ht' & _).
  cbn in *. rewrite Ht', Ht, Hc. auto.
Qed.

Lemma worklet_processLoop_t (inc : Q) (volParam sParam : list Q) (n i : nat)
      (p : Worklet.BytebeatProcessor) :
  Worklet.t (snd (Worklet.processLoop newFunction inc volParam sParam i n p))
  = clockAt inc (Worklet.t p) n.
Proof.
  revert i p. induction n as [|n IH]; intros i p.
  - reflexivity.
  - cbn [Worklet.processLoop].
    pose proof (worklet_processSample_spec inc (Worklet.param_at volParam i)
                  (Worklet.param_at sParam i) p) as (_ & Ht & _).
    destruct (Worklet.processSample newFunction inc _ _ p) as [sample p1].
    specialize (IH (S i) p1).
    destruct (Worklet.processLoop newFunction inc volParam sParam (S i) n p1)
      as [rest p2].
    cbn [fst snd] in *. rewrite IH, Ht. apply clockAt_shift.
Qed.


(** *** A run of frames at one volume and one logical rate *)

Lemma worklet_processLoop_index (inc vol L : Q) (n i j : nat)
      (p : Worklet.BytebeatProcessor) :
  Worklet.processLoop newFunction inc [vol] [L] i n p
  = Worklet.processLoop newFunction inc [vol] [L] j n p.
Proof.
  revert i j p. induction n as [|n IH]; intros i j p; [reflexivity|].
  cbn [Worklet.processLoop].
  change (Worklet.param_at [vol] i) with vol. change (Worklet.param_at [vol] j) with vol.
  change (Worklet.param_at [L] i) with L. change (Worklet.param_at [L] j) with L.
  destruct (Worklet.processSample newFunction inc vol L p) as [x p1].
  now rewrite (IH (S i) (S j)).
Qed.

(** The first frame of a run is one step, and the rest is a run. *)
Lemma worklet_processLoop_first (inc vol L : Q) (n : nat) (p : Worklet.BytebeatProcessor) :
  Worklet.processLoop newFunction inc [vol] [L] 0 (S n) p
  = (fst (Worklet.processSample newFunction inc vol L p)
       :: fst (Worklet.processLoop newFunction inc [vol] [L] 0 n
                 (snd (Worklet.processSample newFunction inc vol L p))),
     snd (Worklet.processLoop newFunction inc [vol] [L] 0 n
            (snd (Worklet.processSample newFunction inc vol L p)))).
Proof.
  cbn [Worklet.processLoop].
  change (Worklet.param_at [vol] 0) with vol. change (Worklet.param_at [L] 0) with L.
  destruct (Worklet.processSample newFunction inc vol L p) as [x p1].
  rewrite (worklet_processLoop_index inc vol L n 1 0 p1). cbn [fst snd].
  now destruct (Worklet.processLoop newFunction inc [vol] [L] 0 n p1).
Qed.


(** While the compiled function returns, every frame is its value at the
    clock of that frame. *)
Lemma worklet_run_returns (inc vol L : Q) (n : nat) (p : Worklet.BytebeatProcessor)
      (f : CompiledFunction) :
  Worklet.compiled p = Some f ->
  (forall k, (k < n)%nat ->
     f (JS.Math_floor (clockAt inc (Worklet.t p) k)) L
       (JS.div (clockAt inc (Worklet.t p) k) L) <> None) ->
  let r := Worklet.processLoop newFunction inc [vol] [L] 0 n p in
  fst r = map (fun k => quantize (rawAt f L (clockAt inc (Worklet.t p) k)) vol) (seq 0 n)
  /\ Worklet.compiled (snd r) = Some f.
Proof.
  revert p. induction n as [|n IH]; intros p Hc Hret; [now cbn|].
  cbv zeta. rewrite worklet_processLoop_first. cbn [fst snd].
  destruct (worklet_processSample_spec inc vol L p) as (Hout & Ht & Hc1 & _).
  destruct (worklet_evalRaw_spec L p) as (Hraw & Hc2 & _).
  rewrite Hc in Hraw, Hc2.
  pose proof (Hret 0%nat ltac:(lia)) as H0. cbn [clockAt] in H0.
  destruct (f (JS.Math_floor (Worklet.t p)) L (JS.div (Worklet.t p) L)) as [raw|] eqn:Hf;
    [|congruence].
  rewrite Hc2 in Hc1.
  destruct (IH (snd (Worklet.processSample newFunction inc vol L p)) Hc1) as [Hrest Hc3].
  { intros k Hk. rewrite Ht, clockAt_shift. apply Hret. lia. }
  split; [|exact Hc3].
  rewrite Hrest, Hout, Hraw. cbn [seq map clockAt].
  replace (rawAt f L (Worklet.t p)) with raw by (unfold rawAt; now rewrite Hf).
  f_equal. rewrite <- seq_shift, map_map. apply map_ext. intros k.
  now rewrite Ht, clockAt_shift.
Qed.


End WorkletFacts.

(** ** The block backend: one frame and one block *)

Section BlockBackendSteps.
Variable newFunction : Compiler.

Lemma script_evalRaw_fst (logicalS : Q) (s : Ext.ScriptState) (e : Ext.BytebeatExtension) :
  fst (Ext.script_evalRaw newFunction logicalS s e) = script_raw logicalS s.
Proof.
  unfold Ext.script_evalRaw, script_raw.
  destruct (Ext._scriptCompiledFunc s) as [f|]; [|reflexivity].
  now destruct (f _ _ _).
Qed.

Lemma script_step (fuel : nat) (logicalS inc : Q)
      (e : Ext.BytebeatExtension) (s : Ext.ScriptState) :
  (2 <= fuel)%nat -> Ext.script e = Some s -> ScriptInv e ->
  exists e' s',
    Ext.script_processSample newFunction fuel logicalS inc e
    = Some (quantize (script_raw logicalS s) (JS.orQ (Ext.volume e) 1), e')
    /\ ScriptInv e'
    /\ Ext.script e' = Some s'
    /\ Ext.closure_t s' = (JS.add (Ext.closure_t s) inc)
    /\ Ext.closure_sr s' = Ext.closure_sr s
    /\ Ext._scriptRecordChunkSize s' = Ext._scriptRecordChunkSize s
    /\ Ext._scriptCompiledFunc s' =
       match Ext._scriptCompiledFunc s with
       | Some f =>
           match f (JS.Math_floor (Ext.closure_t s)) logicalS
                   (JS.div (Ext.closure_t s) logicalS) with
           | Some _ => Some f
           | None => newFunction ERROR_FALLBACK_FORMULA
           end
       | None => None
       end
    /\ Ext.volume e' = Ext.volume e
    /\ Ext.logicalSampleRate e' = Ext.logicalSampleRate e
    /\ Ext.recordMaxSamples e' = Ext.recordMaxSamples e.
Proof.
  intros Hfuel Hs Hinv.
  pose proof (script_evalRaw_inv newFunction logicalS s e Hs Hinv) as Hinv1.
  destruct (script_evalRaw_frame newFunction logicalS s e Hs)
    as ((s1 & Hs1 & Ht1 & Hsr1 & _ & _ & Hcs1 & Hc1) & Hv1 & Hl1 & Hm1 & _).
  pose proof (script_evalRaw_fst logicalS s e) as Hraw.
  pose proof (script_processSample_total newFunction fuel logicalS inc e s Hfuel Hs Hinv)
    as Htotal.
  cbv zeta in Htotal. rewrite Hraw, Hv1 in Htotal.
  set (e1 := snd (Ext.script_evalRaw newFunction logicalS s e)) in *.
  set (sample := quantize (script_raw logicalS s) (JS.orQ (Ext.volume e) 1)) in *.
  pose proof (afterScriptRecord_inv sample e1 Hinv1) as Hinv2.
  destruct (afterScriptRecord_frame sample e1 s1 Hs1)
    as ((s2 & Hs2 & Ht2 & Hsr2 & Hc2 & Hcs2) & Hv2 & Hl2 & Hm2 & _).
  set (e2 := afterScriptRecord sample e1) in *.
  exists (Ext.onScript (fun s => Ext.set_closure_t (JS.add (Ext.closure_t s) inc) s) e2),
         (Ext.set_closure_t (JS.add (Ext.closure_t s2) inc) s2).
  assert (Hs3 : Ext.onScript
                  (fun s => Ext.set_closure_t (JS.add (Ext.closure_t s) inc) s) e2
                = Ext.set_script (Some (Ext.set_closure_t (JS.add (Ext.closure_t s2) inc) s2)) e2).
  { unfold Ext.onScript. now rewrite Hs2. }
  rewrite Hs3 in *. clearbody e2 e1 sample. clear Hs3.
  split; [exact Htotal|]. clear Htotal.
  destruct e2 as [ctx nd pl uw wl ls vol fm rec samples mx pc sc lg cl].
  destruct s2 as [ct csr cf buf rc cs]. ext_simpl.
  repeat apply conj; try reflexivity; try congruence.
  intros s' Hs'. ext_simpl. injection Hs' as <-.
  specialize (Hinv2 _ Hs2). ext_simpl. exact Hinv2.
Qed.

Lemma script_processLoop_spec (fuel : nat) (logicalS inc : Q) (n : nat)
      (e : Ext.BytebeatExtension) (s : Ext.ScriptState) :
  (2 <= fuel)%nat -> Ext.script e = Some s -> ScriptInv e ->
  exists outs e' s',
    Ext.script_processLoop newFunction fuel logicalS inc n e = Some (outs, e')
    /\ length outs = n
    /\ ScriptInv e'
    /\ Ext.script e' = Some s'
    /\ Ext.closure_t s' = clockAt inc (Ext.closure_t s) n
    /\ Ext.closure_sr s' = Ext.closure_sr s
    /\ Ext.volume e' = Ext.volume e
    /\ Ext.logicalSampleRate e' = Ext.logicalSampleRate e
    /\ (Ext._scriptCompiledFunc s = None ->
        Ext._scriptCompiledFunc s' = None
        /\ outs = repeat (quantize 0 (JS.orQ (Ext.volume e) 1)) n).
Proof.
  intros Hfuel. revert e s. induction n as [|n IH]; intros e s Hs Hinv.
  - exists [], e, s. cbn. repeat apply conj; auto.
  - destruct (script_step fuel logicalS inc e s Hfuel Hs Hinv)
      as (e1 & s1 & Hstep & Hinv1 & Hs1 & Ht1 & Hsr1 & _ & Hc1 & Hv1 & Hl1 & _).
    destruct (IH e1 s1 Hs1 Hinv1)
      as (outs & e2 & s2 & Hloop & Hlen & Hinv2 & Hs2 & Ht2 & Hsr2 & Hv2 & Hl2 & Hnone).
    exists (quantize (script_raw logicalS s) (JS.orQ (Ext.volume e) 1) :: outs), e2, s2.
    cbn [Ext.script_processLoop]. rewrite Hstep. cbn. rewrite Hloop. cbn.
    repeat apply conj; auto; try congruence.
    + rewrite Ht2, Ht1. apply clockAt_shift.
    + intros Hc. rewrite Hc in Hc1. destruct (Hnone Hc1) as [-> ->].
      split; [reflexivity|]. unfold script_raw. rewrite Hc, Hv1. reflexivity.
Qed.

(** *** A block of frames *)



(** While the compiled function returns, every frame is its value at the
    clock of that frame. *)
Lemma script_run_returns (fuel : nat) (L inc : Q) (n : nat)
      (e : Ext.BytebeatExtension) (s : Ext.ScriptState) (f : CompiledFunction) :
  (2 <= fuel)%nat -> Ext.script e = Some s -> ScriptInv e ->
  Ext._scriptCompiledFunc s = Some f ->
  (forall k, (k < n)%nat ->
     f (JS.Math_floor (clockAt inc (Ext.closure_t s) k)) L
       (JS.div (clockAt inc (Ext.closure_t s) k) L) <> None) ->
  exists e' s',
    Ext.script_processLoop newFunction fuel L inc n e
    = Some (map (fun k => quantize (rawAt f L (clockAt inc (Ext.closure_t s) k))
                                   (JS.orQ (Ext.volume e) 1))
                (seq 0 n), e')
    /\ Ext.script e' = Some s'
    /\ Ext._scriptCompiledFunc s' = Some f
    /\ Ext.closure_t s' = clockAt inc (Ext.closure_t s) n.
Proof.
  intros Hfuel. revert e s. induction n as [|n IH]; intros e s Hs Hinv Hc Hret.
  - exists e, s. cbn. auto.
  - destruct (script_step fuel L inc e s Hfuel Hs Hinv)
      as (e1 & s1 & Hstep & Hinv1 & Hs1 & Ht1 & _ & _ & Hc1 & Hv1 & _).
    pose proof (Hret 0%nat ltac:(lia)) as H0. cbn [clockAt] in H0.
    rewrite Hc in Hc1.
    destruct (f (JS.Math_floor (Ext.closure_t s)) L (JS.div (Ext.closure_t s) L))
      as [raw|] eqn:Hf; [|congruence].
    destruct (IH e1 s1 Hs1 Hinv1 Hc1) as (e2 & s2 & Hloop & Hs2 & Hc2 & Ht2).
    { intros k Hk. rewrite Ht1, clockAt_shift. apply Hret. lia. }
    exists e2, s2. cbn [Ext.script_processLoop]. rewrite Hstep. cbn [fst snd].
    rewrite Hloop. cbn [fst snd].
    split; [|split; [exact Hs2|split; [exact Hc2|]]].
    + f_equal. f_equal. cbn [seq map clockAt]. f_equal.
      * unfold script_raw, rawAt. now rewrite Hc, Hf.
      * rewrite <- seq_shift, map_map. apply map_ext. intros k.
        now rewrite Hv1, Ht1, clockAt_shift.
    + rewrite Ht2, Ht1. apply clockAt_shift.
Qed.


End BlockBackendSteps.

Lemma ScriptInv_check (e : Ext.BytebeatExtension) : scriptInvb e = true -> ScriptInv e.
Proof.
  unfold scriptInvb. intros H s Hs. rewrite Hs in H.
  apply andb_prop in H as [H H3]. apply andb_prop in H as [H1 H2]. lia.
Qed.

(** ** The gain of the two backends *)

(** C2. The three steps of the quantizer are, on both backends,
    [(((r | 0) & 255) / 128 - 1) * gain], in that order and without
    clamping: the byte is [r mod 256], so negative raw values alias through
    the two's-complement mask, a raw value congruent to 0 modulo 256 gives
    exactly -1 at the gain 1, one congruent to 255 gives exactly
    255/128 - 1, and a gain above 1 is not clamped.  While the compiled
    function returns, every frame of the worklet is its value quantized at
    the gain given, zero included.  The block backend multiplies by
    [volume || 1.0]: every frame of a block is quantized at the volume when
    that is not 0, and at the gain 1 when the volume is 0, so that a byte
    other than 128 is then played at full scale where the gain 0 gives
    silence. *)
Theorem C2_block_backend_gain_at_volume_zero (newFunction : Compiler) :
  (forall r g,
      quantize r g = quantize_spec r g
      /\ v8_of r = r mod 256
      /\ (r mod 256 = 0 -> (quantize r 1 == -1)%Q)
      /\ (r mod 256 = 255 -> (quantize r 1 == 255 / 128 - 1)%Q)
      /\ (quantize r 0 == 0)%Q
      /\ (r mod 256 <> 128 -> ~ (quantize r 1 == 0)%Q))
  /\ (quantize 255 2 > 1)%Q
  /\ (forall sr g L N p f,
        (0 < sr)%Q -> (0 < L)%Q ->
        Worklet.compiled p = Some f ->
        (forall k, (k < N)%nat ->
           f (JS.Math_floor (clockAt (JS.div L sr) (Worklet.t p) k)) L
             (JS.div (clockAt (JS.div L sr) (Worklet.t p) k) L) <> None) ->
        fst (Worklet.process newFunction sr [g] [L] N p)
        = map (fun k => quantize (rawAt f L (clockAt (JS.div L sr) (Worklet.t p) k)) g)
              (seq 0 N))
  /\ (forall fuel N e s f,
        (2 <= fuel)%nat -> Ext.script e = Some s -> ScriptInv e ->
        0 < Ext.closure_sr s ->
        Ext._scriptCompiledFunc s = Some f ->
        let L := inject_Z (JS.Z_max 1 (JS.orZ (Ext.logicalSampleRate e) 8000)) in
        let inc := JS.div L (inject_Z (Ext.closure_sr s)) in
        (forall k, (k < N)%nat ->
           f (JS.Math_floor (clockAt inc (Ext.closure_t s) k)) L
             (JS.div (clockAt inc (Ext.closure_t s) k) L) <> None) ->
        let gain := if Qeq_bool (Ext.volume e) 0 then 1%Q else Ext.volume e in
        exists e',
          Ext.processFunc newFunction fuel N e
          = Some (map (fun k => quantize (rawAt f L (clockAt inc (Ext.closure_t s) k)) gain)
                      (seq 0 N), e')).
Proof.
  split; [|split; [reflexivity|split]].
  - intros r g. split; [|split; [apply v8_of_mod|split; [|split; [|split]]]].
    + unfold quantize, quantize_spec, v8_of. cbv zeta.
      rewrite <- ToInt32_truncate32. change 255 with (Z.ones 8).
      now rewrite Z.land_ones by lia.
    + intros H. unfold quantize. rewrite v8_of_mod, H. reflexivity.
    + intros H. unfold quantize. rewrite v8_of_mod, H. reflexivity.
    + unfold quantize. cbv zeta. ring.
    + intros H E. unfold quantize in E. cbv zeta in E. rewrite v8_of_mod in E.
      apply H. assert (Hq : (inject_Z (r mod 256) == inject_Z 128)%Q).
      { change (inject_Z 128) with 128%Q. 
        assert (inject_Z (r mod 256) / 128 == 1)%Q as Hd by lra.
        assert (inject_Z (r mod 256) == inject_Z (r mod 256) / 128 * 128)%Q as -> by field.
        rewrite Hd. reflexivity. }
      unfold Qeq in Hq. cbn [inject_Z Qnum Qden] in Hq. lia.
  - intros sr g L N p f _ _ Hc Hret. unfold Worklet.process. cbn [nth].
    apply (worklet_run_returns newFunction (JS.div L sr) g L N p f Hc Hret).
  - intros fuel N e s f Hfuel Hs Hinv _ Hc L inc Hret gain.
    destruct (script_run_returns newFunction fuel L inc N e s f Hfuel Hs Hinv Hc Hret)
      as (e' & s' & Hrun & _).
    exists e'. unfold Ext.processFunc. rewrite Hs. fold L. fold inc.
    rewrite Hrun. subst gain. unfold JS.orQ, JS.truthyQ.
    now destruct (Qeq_bool (Ext.volume e) 0).
Qed.

Lemma C2_block_backend_gain_at_volume_zero_witness :
  let e := Sample.orElse (Ext.setProperty Sample.engine 2 Ext.Volume 0
                            (Sample.blockStarted "t"))
                         Ext.constructor in
  (Ext.volume e == 0)%Q
  /\ (exists e', Ext.processFunc Sample.engine 2 3 e
                 = Some ([quantize 0 1; quantize 1 1; quantize 2 1], e'))
  /\ fst (Worklet.process Sample.engine 8000 [0%Q] [8000%Q] 3
            (Sample.workletAfter "t" 1 0))
     = [quantize 0 0; quantize 1 0; quantize 2 0].
Proof.
  cbv zeta. split; [reflexivity|]. split.
  - destruct (proj2 (proj2 (proj2 (C2_block_backend_gain_at_volume_zero Sample.engine)))
                2%nat 3%nat
                (Sample.orElse (Ext.setProperty Sample.engine 2 Ext.Volume 0
                                  (Sample.blockStarted "t")) Ext.constructor)
                (Sample.scriptOf (Sample.blockStarted "t")) Sample.identityFn)
      as (e' & H).
    + lia.
    + reflexivity.
    + apply ScriptInv_check. vm_compute. reflexivity.
    + reflexivity.
    + reflexivity.
    + intros k _. discriminate.
    + exists e'. rewrite H. vm_compute. reflexivity.
  - rewrite (proj1 (proj2 (proj2 (C2_block_backend_gain_at_volume_zero Sample.engine)))
               8000%Q 0%Q 8000%Q 3%nat (Sample.workletAfter "t" 1 0) Sample.identityFn).
    + vm_compute. reflexivity.
    + reflexivity.
    + reflexivity.
    + reflexivity.
    + intros k _. discriminate.
Defined.

(** ** Run-time failure of the compiled function *)



(** ** The sample clock *)

(** C6. With a constant logical rate [L] and physical rate [P], both
    positive, the clock of either backend advances at every frame by the
    double nearest to [L/P], each sum rounded to a double, so after [N]
    frames it is [N * L/P] within the rounding of these [N + 1] operations:
    the bound below for [N <= 2^52], which is linear in the unit roundoff.
    At each frame the formula is called with [t = floor(clock)], [s = L]
    and [T = clock / L] at the clock of that frame, and while it returns
    the frame written is its value quantized; the message [resetTime] sets
    the clock to exactly 0.  The block backend uses [L] itself when
    [L >= 1]. *)
Theorem C6_sample_clock (newFunction : Compiler) :
  (forall P vol L N p,
      (0 < P)%Q -> (0 < L)%Q ->
      Worklet.t (snd (Worklet.process newFunction P [vol] [L] N p))
      = clockAt (JS.div L P) (Worklet.t p) N)
  /\ (forall L P t N,
        (0 < P)%Q -> (0 < L)%Q -> Z.of_nat N <= 2 ^ 52 ->
        (Qabs (clockAt (JS.div L P) t N - (t + inject_Z (Z.of_nat N) * (L / P)))
         <= 2 * inject_Z (Z.of_nat N)
              * (unitRoundoff * (Qabs t + inject_Z (Z.of_nat N) * Qabs (JS.div L P))
                 + halfLeastDouble)
            + inject_Z (Z.of_nat N) * (unitRoundoff * Qabs (L / P) + halfLeastDouble))%Q)
  /\ (forall P vol L N p f,
        (0 < P)%Q -> (0 < L)%Q ->
        Worklet.compiled p = Some f ->
        (forall k, (k < N)%nat ->
           f (JS.Math_floor (clockAt (JS.div L P) (Worklet.t p) k)) L
             (JS.div (clockAt (JS.div L P) (Worklet.t p) k) L) <> None) ->
        fst (Worklet.process newFunction P [vol] [L] N p)
        = map (fun k =>
                 quantize
                   match f (JS.Math_floor (clockAt (JS.div L P) (Worklet.t p) k)) L
                           (JS.div (clockAt (JS.div L P) (Worklet.t p) k) L) with
                   | Some raw => raw
                   | None => 0
                   end vol)
              (seq 0 N))
  /\ (forall p, Worklet.t (Worklet.onmessage newFunction Worklet.resetTime p) = 0%Q)
  /\ (forall fuel N e s,
      (2 <= fuel)%nat -> Ext.script e = Some s -> ScriptInv e ->
      1 <= Ext.logicalSampleRate e -> 0 < Ext.closure_sr s ->
      let L := inject_Z (Ext.logicalSampleRate e) in
      let inc := JS.div L (inject_Z (Ext.closure_sr s)) in
      (exists outs e' s',
          Ext.processFunc newFunction fuel N e = Some (outs, e')
          /\ length outs = N
          /\ Ext.script e' = Some s'
          /\ Ext.closure_t s' = clockAt inc (Ext.closure_t s) N)
      /\ (forall f,
            Ext._scriptCompiledFunc s = Some f ->
            (forall k, (k < N)%nat ->
               f (JS.Math_floor (clockAt inc (Ext.closure_t s) k)) L
                 (JS.div (clockAt inc (Ext.closure_t s) k) L) <> None) ->
            exists e',
              Ext.processFunc newFunction fuel N e
              = Some (map (fun k =>
                             quantize
                               match f (JS.Math_floor (clockAt inc (Ext.closure_t s) k)) L
                                       (JS.div (clockAt inc (Ext.closure_t s) k) L) with
                               | Some raw => raw
                               | None => 0
                               end (JS.orQ (Ext.volume e) 1))
                          (seq 0 N), e')))
  /\ (forall fuel e s,
      Ext.script e = Some s ->
      exists e' s',
        Ext._handleScriptMessage newFunction fuel Worklet.resetTime e = Some e'
        /\ Ext.script e' = Some s'
        /\ Ext.closure_t s' = 0%Q).
Proof.
  split; [|split; [|split; [|split; [|split]]]].
  - intros P vol L N p _ _. unfold Worklet.process. cbn [nth].
    apply worklet_processLoop_t.
  - intros L P t N _ _. apply clockAt_rates_tolerance.
  - intros P vol L N p f _ _ Hc Hret. unfold Worklet.process. cbn [nth].
    apply (worklet_run_returns newFunction (JS.div L P) vol L N p f Hc Hret).
  - reflexivity.
  - intros fuel N e s Hfuel Hs Hinv HL _ L inc.
    assert (HLe : JS.Z_max 1 (JS.orZ (Ext.logicalSampleRate e) 8000)
                  = Ext.logicalSampleRate e)
      by (unfold JS.Z_max, JS.orZ; destruct (Ext.logicalSampleRate e =? 0) eqn:E; lia).
    assert (Hpf : Ext.processFunc newFunction fuel N e
                  = Ext.script_processLoop newFunction fuel L inc N e).
    { unfold Ext.processFunc. rewrite Hs, HLe. reflexivity. }
    rewrite Hpf. split.
    + destruct (script_processLoop_spec newFunction fuel L inc N e s Hfuel Hs Hinv)
        as (outs & e' & s' & Hloop & Hlen & _ & Hs' & Ht & _).
      exists outs, e', s'. auto.
    + intros f Hc Hret.
      destruct (script_run_returns newFunction fuel L inc N e s f Hfuel Hs Hinv Hc Hret)
        as (e' & s' & Hrun & _).
      exists e'. exact Hrun.
  - intros fuel e s Hs. unfold Ext._handleScriptMessage, Ext._handleScriptMessage_with.
    rewrite Hs. unfold Ext.onScript. rewrite Hs.
    exists (Ext.set_script (Some (Ext.set_closure_t 0%Q s)) e), (Ext.set_closure_t 0%Q s).
    repeat apply conj; [reflexivity|now destruct e|now destruct s].
Qed.

Lemma C6_sample_clock_witness :
  (fst (Worklet.process Sample.engine 48000 [1%Q] [8000%Q] 8 (Sample.workletAfter "t" 1 0))
   = [quantize 0 1; quantize 0 1; quantize 0 1; quantize 0 1;
      quantize 0 1; quantize 0 1; quantize 0 1; quantize 1 1])
  /\ (Qabs (clockAt (JS.div 8000 48000) 0 480 - (0 + inject_Z 480 * (8000 / 48000)))
      <= 1 # 1000000000)%Q
  /\ (exists e',
        Ext.processFunc Sample.engine 2 3 (Sample.blockAfter "t" 3)
        = Some ([quantize 3 1; quantize 4 1; quantize 5 1], e'))
  /\ (exists outs e' s',
        Ext.processFunc Sample.engine 2 6
          (Ext._createScriptProcessor Sample.engine (Ext.mkContext 48000) 4096
                                      Ext.constructor)
        = Some (outs, e')
        /\ Ext.script e' = Some s'
        /\ JS.Math_floor (Ext.closure_t s') = 0)
  /\ (exists e' s',
        Ext._handleScriptMessage Sample.engine 2 Worklet.resetTime (Sample.blockAfter "t" 3)
        = Some e'
        /\ Ext.script e' = Some s' /\ Ext.closure_t s' = 0%Q).
Proof.
  split; [|split; [|split; [|split]]].
  - rewrite (proj1 (proj2 (proj2 (C6_sample_clock Sample.engine)))
               48000%Q 1%Q 8000%Q 8%nat (Sample.workletAfter "t" 1 0) Sample.identityFn).
    + vm_compute. reflexivity.
    + reflexivity.
    + reflexivity.
    + reflexivity.
    + intros k _. discriminate.
  - eapply Qle_trans.
    + apply (proj1 (proj2 (C6_sample_clock Sample.engine)) 8000%Q 48000%Q 0%Q 480%nat);
        [reflexivity|reflexivity|vm_compute; discriminate].
    + vm_compute. discriminate.
  - destruct (proj1 (proj2 (proj2 (proj2 (proj2 (C6_sample_clock Sample.engine)))))
                2%nat 3%nat (Sample.blockAfter "t" 3)
                (Sample.scriptOf (Sample.blockAfter "t" 3))) as [_ Hrun].
    + lia.
    + reflexivity.
    + apply ScriptInv_check. vm_compute. reflexivity.
    + vm_compute. discriminate.
    + reflexivity.
    + destruct (Hrun Sample.identityFn) as (e' & H).
      * reflexivity.
      * intros k _. discriminate.
      * exists e'. rewrite H. vm_compute. reflexivity.
  - destruct (proj1 (proj2 (proj2 (proj2 (proj2 (C6_sample_clock Sample.engine)))))
                2%nat 6%nat
                (Ext._createScriptProcessor Sample.engine (Ext.mkContext 48000) 4096
                                            Ext.constructor)
                (Sample.scriptOf
                   (Ext._createScriptProcessor Sample.engine (Ext.mkContext 48000) 4096
                                               Ext.constructor)))
      as [(outs & e' & s' & H & _ & Hs' & Ht) _].
    + lia.
    + reflexivity.
    + apply ScriptInv_check. vm_compute. reflexivity.
    + vm_compute. discriminate.
    + reflexivity.
    + exists outs, e', s'. split; [exact H|]. split; [exact Hs'|].
      rewrite Ht. vm_compute. reflexivity.
  - apply (proj2 (proj2 (proj2 (proj2 (proj2 (C6_sample_clock Sample.engine))))) 2%nat
                 (Sample.blockAfter "t" 3) (Sample.scriptOf (Sample.blockAfter "t" 3))).
    reflexivity.
Defined.

(** ** Setting a formula *)

Section SetFormulaFacts.
Variable newFunction : Compiler.

(** [_setFormula] of the worklet: the requested function when it is built
    and survives the smoke test, else the fallback function and a posted
    diagnostic, else nothing and a posted diagnostic. *)
Lemma worklet_setFormula_spec (text : string) (p : Worklet.BytebeatProcessor) :
  let p' := Worklet._setFormula newFunction text p in
  Worklet.t p' = Worklet.t p
  /\ Worklet.recording p' = Worklet.recording p
  /\ Worklet.recordBuffer p' = Worklet.recordBuffer p
  /\ Worklet.recordChunkSize p' = Worklet.recordChunkSize p
  /\ match newFunction text with
     | Some f =>
         match f 0 8000%Q 0%Q with
         | Some _ =>
             Worklet.compiled p' = Some f
             /\ Worklet.port p' = Worklet.port p
             /\ Worklet.compileLog p' = Worklet.compileLog p ++ [text]
         | None =>
             Worklet.compiled p' = newFunction ERROR_FALLBACK_FORMULA
             /\ (exists m, Worklet.port p' = Worklet.port p ++ [Worklet.error m])
             /\ Worklet.compileLog p'
                = Worklet.compileLog p ++ [text; ERROR_FALLBACK_FORMULA]
         end
     | None =>
         Worklet.compiled p' = newFunction ERROR_FALLBACK_FORMULA
         /\ (exists m, Worklet.port p' = Worklet.port p ++ [Worklet.error m])
         /\ Worklet.compileLog p'
            = Worklet.compileLog p ++ [text; ERROR_FALLBACK_FORMULA]
     end.
Proof.
  unfold Worklet._setFormula.
  destruct (newFunction text) as [f|].
  - destruct (f 0 8000%Q 0%Q).
    + cbn. auto 10.
    + unfold Worklet.switchToFallback.
      destruct (newFunction ERROR_FALLBACK_FORMULA); cbn;
        rewrite <- app_assoc; cbn; eauto 10.
  - unfold Worklet.switchToFallback.
    destruct (newFunction ERROR_FALLBACK_FORMULA); cbn;
      rewrite <- app_assoc; cbn; eauto 10.
Qed.

(** The [setFormula] branch of the block backend's message handler. *)
Lemma script_setFormula_spec (fuel : nat) (text : string)
      (e : Ext.BytebeatExtension) (s : Ext.ScriptState) :
  Ext.script e = Some s ->
  exists e' s',
    Ext._handleScriptMessage newFunction fuel (Worklet.setFormula text) e = Some e'
    /\ Ext.script e' = Some s'
    /\ Ext.log e' = Ext.log e
    /\ s' = match newFunction text with
            | Some f => Ext.set_closure_t 0%Q (Ext.set_scriptCompiledFunc (Some f) s)
            | None => Ext.set_scriptCompiledFunc (newFunction ERROR_FALLBACK_FORMULA) s
            end
    /\ Ext.compileLog e'
       = Ext.compileLog e
         ++ match newFunction text with
            | Some _ => [text]
            | None => [text; ERROR_FALLBACK_FORMULA]
            end
    /\ Ext.recordMaxSamples e' = Ext.recordMaxSamples e.
Proof.
  intros Hs. unfold Ext._handleScriptMessage, Ext._handleScriptMessage_with.
  rewrite Hs. unfold Ext.scriptFallback.
  destruct e as [ctx nd pl uw wl ls vol fm rec samples mx pc sc lg cl].
  cbn in Hs. subst sc. destruct s as [ct csr cf buf rc cs].
  destruct (newFunction text) as [f|]; ext_simpl.
  - frame_done.
  - destruct (newFunction ERROR_FALLBACK_FORMULA); ext_simpl;
      rewrite <- app_assoc; frame_done.
Qed.

End SetFormulaFacts.

(** C1. The run-time handler of the block backend,
    [_handleScriptMessage({type:'setFormula'})], builds the function and
    keeps it without calling it on the neutral inputs: a text that the
    engine builds and whose call at (0, 8000, 0) throws stays the compiled
    function, and nothing is logged; the worklet's [_setFormula] on the same
    text keeps the fallback function and posts a diagnostic. *)
Theorem C1_block_setFormula_skips_smoke_test
        (newFunction : Compiler) (fuel : nat) (text : string) (f : CompiledFunction)
        (e : Ext.BytebeatExtension) (s : Ext.ScriptState) :
  Ext.script e = Some s ->
  newFunction text = Some f ->
  f 0 8000%Q 0%Q = None ->
  (exists e',
      Ext._handleScriptMessage newFunction fuel (Worklet.setFormula text) e = Some e'
      /\ Ext.script e'
         = Some (Ext.set_closure_t 0%Q (Ext.set_scriptCompiledFunc (Some f) s))
      /\ Ext.log e' = Ext.log e)
  /\ (forall p,
        Worklet.compiled (Worklet._setFormula newFunction text p)
        = newFunction ERROR_FALLBACK_FORMULA
        /\ exists m, Worklet.port (Worklet._setFormula newFunction text p)
                     = Worklet.port p ++ [Worklet.error m]).
Proof.
  intros Hs Hf Hthrow. split.
  - destruct (script_setFormula_spec newFunction fuel text e s Hs)
      as (e' & s' & H & Hs' & Hlog & -> & _).
    rewrite Hf in Hs'. eauto.
  - intros p. pose proof (worklet_setFormula_spec newFunction text p) as H.
    cbn zeta in H. rewrite Hf, Hthrow in H. tauto.
Qed.

Lemma C1_block_setFormula_skips_smoke_test_witness :
  exists e',
    Ext._handleScriptMessage Sample.engine 2 (Worklet.setFormula "q")
                             (Sample.blockStarted "t") = Some e'
    /\ Ext.script e'
       = Some (Ext.set_closure_t 0%Q
                 (Ext.set_scriptCompiledFunc (Some Sample.throwingFn)
                    (Sample.scriptOf (Sample.blockStarted "t"))))
    /\ Ext.log e' = Ext.log (Sample.blockStarted "t").
Proof.
  refine (proj1 (C1_block_setFormula_skips_smoke_test Sample.engine 2 "q"%string
                   Sample.throwingFn (Sample.blockStarted "t")
                   (Sample.scriptOf (Sample.blockStarted "t")) _ _ _));
    reflexivity.
Defined.

(** C9 as stated fails on the block backend: after three frames at the
    logical rate 8000 on an 8000 Hz context its clock is 3, and a
    [setFormula] message with the text [255] leaves it at 0. *)
Lemma C9_block_setFormula_resets_clock :
  exists before,
    Sample.clockOf (Some (Sample.blockAfter "t" 3)) = Some before
    /\ (before == 3)%Q
    /\ Sample.clockOf
         (Ext._handleScriptMessage Sample.engine 2 (Worklet.setFormula "255")
                                   (Sample.blockAfter "t" 3))
       = Some 0%Q
    /\ ~ (0 == before)%Q.
Proof.
  eexists. split; [vm_compute; reflexivity|].
  split; [vm_compute; reflexivity|].
  split; [vm_compute; reflexivity|].
  vm_compute. discriminate.
Qed.

(** C9, amended.  A formula update leaves the clock of the continuous
    backend unchanged.  On the block backend a formula update whose text the
    engine builds sets the clock to 0, and one whose text it cannot build
    leaves the clock unchanged.  The clock is also 0 after [resetTime] and in
    a freshly created backend of either kind. *)
Theorem C9_setFormula_and_clock (newFunction : Compiler) :
  (forall text p,
      Worklet.t (Worklet.onmessage newFunction (Worklet.setFormula text) p)
      = Worklet.t p)
  /\ (forall fuel text e s,
      Ext.script e = Some s ->
      exists e' s',
        Ext._handleScriptMessage newFunction fuel (Worklet.setFormula text) e = Some e'
        /\ Ext.script e' = Some s'
        /\ Ext.closure_t s'
           = match newFunction text with
             | Some _ => 0%Q
             | None => Ext.closure_t s
             end)
  /\ (forall p, Worklet.t (Worklet.onmessage newFunction Worklet.resetTime p) = 0%Q)
  /\ Worklet.t (Worklet.constructor newFunction) = 0%Q
  /\ (forall ctx bufferSize e,
      Sample.clockOf (Some (Ext._createScriptProcessor newFunction ctx bufferSize e))
      = Some 0%Q).
Proof.
  repeat apply conj.
  - intros text p. cbn [Worklet.onmessage].
    apply (worklet_setFormula_spec newFunction text p).
  - intros fuel text e s Hs.
    destruct (script_setFormula_spec newFunction fuel text e s Hs)
      as (e' & s' & H & Hs' & _ & -> & _).
    exists e'. eexists. split; [exact H|]. split; [exact Hs'|].
    destruct s. now destruct (newFunction text).
  - reflexivity.
  - unfold Worklet.constructor.
    apply (worklet_setFormula_spec newFunction ERROR_FALLBACK_FORMULA).
  - intros ctx bufferSize e. unfold Ext._createScriptProcessor, Ext.scriptFallback.
    destruct e as [c nd pl uw wl ls vol fm rec samples mx pc sc lg cl]. ext_simpl.
    destruct (newFunction fm) as [f|]; ext_simpl.
    + destruct (f 0 (inject_Z ls) 0%Q); ext_simpl; [reflexivity|].
      destruct (newFunction ERROR_FALLBACK_FORMULA); reflexivity.
    + destruct (newFunction ERROR_FALLBACK_FORMULA); reflexivity.
Qed.

Lemma C9_setFormula_and_clock_witness :
  exists e' s',
    Ext._handleScriptMessage Sample.engine 2 (Worklet.setFormula "(")
                             (Sample.blockAfter "t" 3) = Some e'
    /\ Ext.script e' = Some s'
    /\ Ext.closure_t s' = Ext.closure_t (Sample.scriptOf (Sample.blockAfter "t" 3)).
Proof.
  refine (proj1 (proj2 (C9_setFormula_and_clock Sample.engine)) 2%nat "("%string
                (Sample.blockAfter "t" 3) (Sample.scriptOf (Sample.blockAfter "t" 3)) _).
  reflexivity.
Defined.

(** ** The WAV encoder *)

Section WavFacts.

Lemma le_bytes_length (k : nat) (u : Z) : length (Wav.le_bytes k u) = k.
Proof. revert u. induction k; intros u; cbn; auto. Qed.

(** A write into the zeroed part of the buffer that follows [pre]. *)
Lemma writeBytes_fill (offset : nat) (pre bytes : list Z) (k : nat) (tail : list Z) :
  offset = length pre -> (length bytes <= k)%nat ->
  Wav.writeBytes offset bytes (pre ++ replicate k 0 ++ tail)
  = Some ((pre ++ bytes) ++ replicate (k - length bytes) 0 ++ tail).
Proof.
  intros -> Hk. unfold Wav.writeBytes.
  rewrite !length_app, length_replicate.
  destruct (_ <=? _)%nat eqn:E; [|apply Nat.leb_gt in E; lia].
  f_equal.
  replace k with (length bytes + (k - length bytes))%nat at 1 by lia.
  rewrite replicate_add, <- !app_assoc.
  rewrite <- (Nat.add_0_r (length pre)).
  rewrite list_inserts_app_r. f_equal.
  apply list_inserts_0_r. now rewrite length_replicate.
Qed.

Lemma writeString_fill (s : string) (offset : nat) (pre : list Z) (k : nat) (tail : list Z) :
  offset = length pre -> (String.length s <= k)%nat ->
  Wav.writeString offset s (pre ++ replicate k 0 ++ tail)
  = Some ((pre ++ charCodes s) ++ replicate (k - String.length s) 0 ++ tail).
Proof.
  revert offset pre k. induction s as [|c s IH]; intros offset pre k Hoff Hk.
  - cbn. now rewrite app_nil_r, Nat.sub_0_r.
  - cbn [Wav.writeString String.length]. unfold Wav.setUint8.
    cbn [String.length] in Hk.
    rewrite (writeBytes_fill offset pre _ k tail Hoff) by (cbn; lia).
    rewrite (IH (S offset) _ (k - 1)%nat).
    + unfold charCodes. cbn [list_ascii_of_string map length].
      rewrite <- !app_assoc. cbn [app].
      now replace (k - 1 - String.length s)%nat with (k - S (String.length s))%nat by lia.
    + rewrite length_app. cbn. lia.
    + cbn. lia.
Qed.

Lemma writeSamples_fill (samples : list Q) (offset : nat) (pre : list Z) :
  offset = length pre ->
  Wav.writeSamples offset samples (pre ++ replicate (length samples * 2) 0)
  = Some (pre ++ wavBody samples).
Proof.
  revert offset pre. induction samples as [|x samples IH]; intros offset pre Hoff.
  - cbn. now rewrite !app_nil_r.
  - cbn [Wav.writeSamples length]. unfold Wav.setInt16.
    pose proof (writeBytes_fill offset pre (sampleBytes x)
                  (S (length samples) * 2) [] Hoff) as H.
    rewrite !app_nil_r in H.
    change (Wav.le_bytes 2 (JS.ToInt16 (Wav.pcm16 x) mod 2 ^ 16)) with (sampleBytes x).
    rewrite H by (unfold sampleBytes; rewrite le_bytes_length; lia). clear H.
    unfold sampleBytes at 2. rewrite le_bytes_length.
    replace (S (length samples) * 2 - 2)%nat with (length samples * 2)%nat by lia.
    rewrite (IH (offset + 2)%nat).
    + unfold wavBody. cbn [flat_map]. now rewrite <- app_assoc.
    + rewrite length_app. unfold sampleBytes. rewrite le_bytes_length. lia.
Qed.

(** The encoder returns, and the blob is the header followed by the samples. *)
Lemma makeWavBlob_bytes (samples : list Q) (sampleRate : Z) :
  Wav._makeWavBlob samples sampleRate
  = Some (wavHeader (length samples) sampleRate ++ wavBody samples).
Proof.
  unfold Wav._makeWavBlob, Wav.newArrayBuffer, Wav.setUint32, Wav.setUint16.
  rewrite replicate_add.
  change (replicate 44 0 ++ ?t) with ([] ++ replicate 44 0 ++ t).
  rewrite writeString_fill by (cbn; (reflexivity || lia)).
  repeat (first [ rewrite writeString_fill by (cbn; (reflexivity || lia))
                | rewrite writeBytes_fill by (cbn; (reflexivity || lia)) ];
          cbn [String.length Nat.sub length Wav.le_bytes]).
  cbn [replicate app].
  rewrite writeSamples_fill by (cbn; reflexivity).
  f_equal.
Qed.

End WavFacts.

Section WavReads.

Lemma le_value_le_bytes (k : nat) (u : Z) :
  Wav.le_value (Wav.le_bytes k u) = u mod 256 ^ Z.of_nat k.
Proof.
  revert u. induction k as [|k IH]; intros u.
  - cbn. now rewrite Z.mod_1_r.
  - cbn [Wav.le_bytes Wav.le_value]. rewrite IH, Nat2Z.inj_succ, Z.pow_succ_r by lia.
    rewrite Z.rem_mul_r by (try apply Z.pow_pos_nonneg; lia). reflexivity.
Qed.

Lemma clamp_range (x : Q) :
  (-1 <= JS.Math_max (-1) (JS.Math_min 1 x) <= 1)%Q.
Proof.
  unfold JS.Math_max, JS.Math_min.
  destruct (Qle_bool 1 x) eqn:E1.
  - destruct (Qle_bool (-1) 1) eqn:E2; [lra|discriminate].
  - destruct (Qle_bool (-1) x) eqn:E2.
    + apply Qle_bool_iff in E2.
      assert (~ (1 <= x)%Q) by (rewrite <- Qle_bool_iff; congruence). lra.
    + lra.
Qed.

Lemma Math_round_bounds (x : Q) (lo hi : Z) :
  (inject_Z lo <= x)%Q -> (x <= inject_Z hi)%Q -> lo <= JS.Math_round x <= hi.
Proof.
  intros Hlo Hhi. unfold JS.Math_round. split.
  - rewrite <- (Qfloor_Z lo). apply Qfloor_resp_le. lra.
  - assert (Qfloor (x + (1 # 2)) <= Qfloor (inject_Z hi + (1 # 2))) as H
        by (apply Qfloor_resp_le; lra).
    assert (Qfloor (inject_Z hi + (1 # 2)) = hi) as E; [|lia].
    pose proof (Qfloor_le (inject_Z hi + (1 # 2))) as H1.
    pose proof (Qlt_floor (inject_Z hi + (1 # 2))) as H2.
    set (z := Qfloor (inject_Z hi + (1 # 2))) in *. clearbody z.
    rewrite inject_Z_plus in H2. change (inject_Z 1) with 1%Q in H2.
    assert (z < hi + 1).
    { rewrite Zlt_Qlt, inject_Z_plus. change (inject_Z 1) with 1%Q. lra. }
    assert (hi < z + 1).
    { rewrite Zlt_Qlt, inject_Z_plus. change (inject_Z 1) with 1%Q. lra. }
    lia.
Qed.

(** The stored value fits a signed 16-bit integer. *)
Lemma pcm16_range (x : Q) : -32768 <= Wav.pcm16 x <= 32767.
Proof.
  unfold Wav.pcm16. pose proof (clamp_range x) as [Hlo Hhi].
  set (s := JS.Math_max (-1) (JS.Math_min 1 x)) in *.
  unfold JS.lt0. destruct (Qle_bool 0 s) eqn:E; cbn [negb].
  - apply Qle_bool_iff in E.
    assert (0 <= JS.Math_round (s * 32767) <= 32767); [|lia].
    clearbody s. apply Math_round_bounds; unfold inject_Z; lra.
  - assert (~ (0 <= s)%Q) by (rewrite <- Qle_bool_iff; congruence).
    assert (-32768 <= JS.Math_round (s * 32768) <= 0); [|lia].
    clearbody s. apply Math_round_bounds; unfold inject_Z; lra.
Qed.

(** Clamping keeps the sign, so the scale chosen from the clamped value is
    the one chosen from the sample. *)
Lemma pcm16_is_spec (x : Q) : Wav.pcm16 x = Wav.pcm16_spec x.
Proof.
  unfold Wav.pcm16, Wav.pcm16_spec.
  assert (JS.lt0 (JS.Math_max (-1) (JS.Math_min 1 x)) = JS.lt0 x) as ->.
  { unfold JS.lt0, JS.Math_max, JS.Math_min. f_equal.
    destruct (Qle_bool 1 x) eqn:E1.
    - apply Qle_bool_iff in E1. cbn.
      symmetry. apply Qle_bool_iff. lra.
    - destruct (Qle_bool (-1) x) eqn:E2; [reflexivity|].
      assert (~ (-1 <= x)%Q) by (rewrite <- Qle_bool_iff; congruence).
      cbn. destruct (Qle_bool 0 x) eqn:E3; [|reflexivity].
      apply Qle_bool_iff in E3. lra. }
  now destruct (JS.lt0 x).
Qed.

(** Samples outside [-1, 1] are stored as the extreme values. *)
Lemma pcm16_saturates (x : Q) :
  ((1 <= x)%Q -> Wav.pcm16 x = 32767) /\ ((x <= -1)%Q -> Wav.pcm16 x = -32768).
Proof.
  pose proof (clamp_range x) as [Hlo Hhi]. unfold Wav.pcm16.
  split; intros H.
  - assert (JS.Math_max (-1) (JS.Math_min 1 x) == 1)%Q as E.
    { revert Hlo Hhi. unfold JS.Math_max, JS.Math_min.
      destruct (Qle_bool 1 x) eqn:E1.
      - intros _ _. reflexivity.
      - assert (~ (1 <= x)%Q) by (rewrite <- Qle_bool_iff; congruence). tauto. }
    set (s := JS.Math_max (-1) (JS.Math_min 1 x)) in *. clearbody s.
    unfold JS.lt0. destruct (Qle_bool 0 s) eqn:E0; cbn [negb].
    + assert (32767 <= JS.Math_round (s * 32767) <= 32767); [|lia].
      apply Math_round_bounds; unfold inject_Z; lra.
    + assert (~ (0 <= s)%Q) by (rewrite <- Qle_bool_iff; congruence). lra.
  - assert (JS.Math_max (-1) (JS.Math_min 1 x) == -1)%Q as E.
    { revert Hlo Hhi. unfold JS.Math_max, JS.Math_min.
      destruct (Qle_bool 1 x) eqn:E1.
      - apply Qle_bool_iff in E1. lra.
      - destruct (Qle_bool (-1) x) eqn:E2.
        + apply Qle_bool_iff in E2. intros _ _. lra.
        + intros _ _. reflexivity. }
    set (s := JS.Math_max (-1) (JS.Math_min 1 x)) in *. clearbody s.
    unfold JS.lt0. destruct (Qle_bool 0 s) eqn:E0; cbn [negb].
    + apply Qle_bool_iff in E0. lra.
    + assert (-32768 <= JS.Math_round (s * 32768) <= -32768); [|lia].
      apply Math_round_bounds; unfold inject_Z; lra.
Qed.

Lemma wavBody_length (samples : list Q) : length (wavBody samples) = (length samples * 2)%nat.
Proof.
  induction samples as [|x samples IH]; [reflexivity|].
  unfold wavBody in *. cbn [flat_map length]. rewrite length_app, IH.
  unfold sampleBytes. now rewrite le_bytes_length.
Qed.

Lemma wavBody_read (samples : list Q) (i : nat) (x : Q) :
  samples !! i = Some x ->
  take 2 (drop (2 * i) (wavBody samples)) = sampleBytes x.
Proof.
  revert i. induction samples as [|y samples IH]; intros i H; [discriminate|].
  destruct i as [|i].
  - cbn in H. injection H as ->. unfold wavBody. cbn [flat_map Nat.mul drop].
    apply take_app_length'. unfold sampleBytes. now rewrite le_bytes_length.
  - cbn in H. unfold wavBody. cbn [flat_map].
    replace (2 * S i)%nat with (length (sampleBytes y) + 2 * i)%nat
      by (unfold sampleBytes; rewrite le_bytes_length; lia).
    rewrite drop_app_add. now apply IH.
Qed.

Lemma wavHeader_length (len : nat) (sampleRate : Z) :
  length (wavHeader len sampleRate) = 44%nat.
Proof. reflexivity. Qed.

Lemma getInt16_sample (samples : list Q) (sampleRate : Z) (i : nat) (x : Q) :
  samples !! i = Some x ->
  Wav.getInt16 (44 + 2 * i) (wavHeader (length samples) sampleRate ++ wavBody samples)
  = Some (Wav.pcm16 x).
Proof.
  intros H. unfold Wav.getInt16, Wav.getUint16, Wav.readBytes.
  pose proof (lookup_lt_Some _ _ _ H) as Hi.
  rewrite length_app, wavHeader_length, wavBody_length.
  destruct (_ <=? _)%nat eqn:E; [|apply Nat.leb_gt in E; lia].
  rewrite <- (wavHeader_length (length samples) sampleRate) at 1.
  rewrite drop_app_add, (wavBody_read samples i x H).
  unfold sampleBytes. cbn [fmap option_fmap option_map].
  rewrite le_value_le_bytes. f_equal.
  pose proof (pcm16_range x) as Hr. unfold JS.ToInt16.
  change (256 ^ Z.of_nat 2) with 65536. change (2 ^ 16) with 65536.
  change (2 ^ 15) with 32768.
  rewrite Z.mod_mod by lia.
  rewrite (Z.mod_small (Wav.pcm16 x + 32768) 65536) by lia.
  destruct (Z.leb 0 (Wav.pcm16 x)) eqn:Hs.
  - rewrite Z.mod_small by lia.
    destruct (_ <? _) eqn:E2; lia.
  - replace (Wav.pcm16 x + 32768 - 32768) with (Wav.pcm16 x + 65536 + (-1) * 65536) by lia.
    rewrite Z.mod_add by lia. rewrite Z.mod_small by lia.
    destruct (_ <? _) eqn:E2; lia.
Qed.

End WavReads.

Section WavHeaderReads.

(** A read that lies inside the header does not see the samples. *)
Lemma readBytes_header (offset k len : nat) (sampleRate : Z) (body : list Z) :
  (offset + k <= 44)%nat ->
  Wav.readBytes offset k (wavHeader len sampleRate ++ body)
  = Some (take k (drop offset (wavHeader len sampleRate))).
Proof.
  intros H. unfold Wav.readBytes.
  rewrite length_app, wavHeader_length.
  destruct (_ <=? _)%nat eqn:E; [|apply Nat.leb_gt in E; lia].
  f_equal. rewrite drop_app_le by (rewrite wavHeader_length; lia).
  apply take_app_le. rewrite length_drop, wavHeader_length. lia.
Qed.

Lemma getUint32_header (offset len : nat) (sampleRate u : Z) (body : list Z) :
  (offset + 4 <= 44)%nat ->
  take 4 (drop offset (wavHeader len sampleRate)) = Wav.le_bytes 4 (JS.ToUint32 u) ->
  Wav.getUint32 offset (wavHeader len sampleRate ++ body) = Some (u mod 2 ^ 32).
Proof.
  intros H E. unfold Wav.getUint32. rewrite readBytes_header by exact H.
  rewrite E. cbn [fmap option_fmap option_map]. rewrite le_value_le_bytes.
  unfold JS.ToUint32. change (256 ^ Z.of_nat 4) with (2 ^ 32).
  now rewrite Z.mod_mod by lia.
Qed.

Lemma getUint16_header (offset len : nat) (sampleRate u : Z) (body : list Z) :
  (offset + 2 <= 44)%nat ->
  take 2 (drop offset (wavHeader len sampleRate)) = Wav.le_bytes 2 (JS.ToUint16 u) ->
  Wav.getUint16 offset (wavHeader len sampleRate ++ body) = Some (u mod 2 ^ 16).
Proof.
  intros H E. unfold Wav.getUint16. rewrite readBytes_header by exact H.
  rewrite E. cbn [fmap option_fmap option_map]. rewrite le_value_le_bytes.
  unfold JS.ToUint16. change (256 ^ Z.of_nat 2) with (2 ^ 16).
  now rewrite Z.mod_mod by lia.
Qed.

End WavHeaderReads.

(** C3 as stated fails for values that do not fit the 32-bit fields of the
    header: at the rate 2^31 the byte-rate field holds 0, not 2^32, and for
    2^31 samples the data-length field holds 0, not 2^32. *)
Lemma C3_header_fields_wrap :
  ((match Wav._makeWavBlob [] 2147483648 with
    | Some bytes => Wav.getUint32 28 bytes
    | None => None
    end) = Some 0
   /\ 2147483648 * 2 <> 0)
  /\ ((match Wav._makeWavBlob (repeat 0%Q (Z.to_nat 2147483648)) 44100 with
       | Some bytes => Wav.getUint32 40 bytes
       | None => None
       end) = Some 0
      /\ 2 * Z.of_nat (length (repeat 0%Q (Z.to_nat 2147483648))) <> 0).
Proof.
  split.
  - split; [vm_compute; reflexivity | lia].
  - rewrite makeWavBlob_bytes, repeat_length.
    split; [|lia].
    rewrite (getUint32_header 40 _ _ (Z.of_nat (Z.to_nat 2147483648) * 2))
      by (lia || reflexivity).
    now rewrite Z2Nat.id by lia.
Qed.

(** C3, amended.  For [N] samples with [N < 2^31] and an integer rate [R]
    with [0 <= R < 2^31], the encoder returns a sequence of exactly
    [44 + 2N] bytes whose header decodes to format tag 1, one channel, rate
    [R], byte rate [2R], block align 2, 16 bits per sample and data length
    [2N], followed by the samples as little-endian signed 16-bit values
    [round(clamp(s,-1,1) * (s < 0 ? 32768 : 32767))]. *)
Theorem C3_wav_layout (samples : list Q) (R : Z) :
  0 <= R < 2 ^ 31 ->
  Z.of_nat (length samples) < 2 ^ 31 ->
  exists bytes,
    Wav._makeWavBlob samples R = Some bytes
    /\ length bytes = (44 + 2 * length samples)%nat
    /\ Wav.getUint16 20 bytes = Some 1
    /\ Wav.getUint16 22 bytes = Some 1
    /\ Wav.getUint32 24 bytes = Some R
    /\ Wav.getUint32 28 bytes = Some (R * 2)
    /\ Wav.getUint16 32 bytes = Some 2
    /\ Wav.getUint16 34 bytes = Some 16
    /\ Wav.getUint32 40 bytes = Some (2 * Z.of_nat (length samples))
    /\ (forall i x, samples !! i = Some x ->
          Wav.getInt16 (44 + 2 * i) bytes = Some (Wav.pcm16_spec x)).
Proof.
  intros HR HN. change (2 ^ 31) with 2147483648 in *.
  exists (wavHeader (length samples) R ++ wavBody samples).
  split; [apply makeWavBlob_bytes|].
  split; [rewrite length_app, wavHeader_length, wavBody_length; lia|].
  split; [rewrite (getUint16_header 20 _ _ 1) by (lia || reflexivity); reflexivity|].
  split; [rewrite (getUint16_header 22 _ _ 1) by (lia || reflexivity); reflexivity|].
  split; [rewrite (getUint32_header 24 _ _ R) by (lia || reflexivity);
          rewrite Z.mod_small by lia; reflexivity|].
  split; [rewrite (getUint32_header 28 _ _ (R * 2)) by (lia || reflexivity);
          rewrite Z.mod_small by lia; reflexivity|].
  split; [rewrite (getUint16_header 32 _ _ 2) by (lia || reflexivity); reflexivity|].
  split; [rewrite (getUint16_header 34 _ _ 16) by (lia || reflexivity); reflexivity|].
  split; [rewrite (getUint32_header 40 _ _ (Z.of_nat (length samples) * 2))
            by (lia || reflexivity);
          rewrite Z.mod_small by lia; f_equal; lia|].
  intros i x H. rewrite <- pcm16_is_spec. now apply getInt16_sample.
Qed.

Lemma C3_wav_layout_witness :
  exists bytes,
    Wav._makeWavBlob [(1 # 2)%Q; (-3)%Q; (5 # 4)%Q] 44100 = Some bytes
    /\ length bytes = 50%nat
    /\ Wav.getUint32 24 bytes = Some 44100
    /\ Wav.getUint32 28 bytes = Some 88200
    /\ Wav.getUint32 40 bytes = Some 6
    /\ Wav.getInt16 44 bytes = Some 16384
    /\ Wav.getInt16 46 bytes = Some (-32768)
    /\ Wav.getInt16 48 bytes = Some 32767.
Proof.
  destruct (C3_wav_layout [(1 # 2)%Q; (-3)%Q; (5 # 4)%Q] 44100)
    as (bytes & H & Hlen & _ & _ & H24 & H28 & _ & _ & H40 & Hs).
  - vm_compute. split; [discriminate|reflexivity].
  - vm_compute. reflexivity.
  - exists bytes. repeat apply conj; auto.
    + exact (Hs 0%nat _ eq_refl).
    + exact (Hs 1%nat _ eq_refl).
    + exact (Hs 2%nat _ eq_refl).
Defined.

(** ** What the recording buffer holds *)

(** C8 as stated fails: with the formula [255], the volume 2 and recording
    on, the value pushed is the output sample 127/64, above 1. *)
Lemma C8_recorded_sample_above_one :
  exists x,
    Worklet.recordBuffer
      (snd (Worklet.process Sample.engine 44100 [2%Q] [8000%Q] 1
              (Worklet.onmessage Sample.engine (Worklet.record true)
                 (Worklet.onmessage Sample.engine (Worklet.setFormula "255")
                    (Worklet.constructor Sample.engine)))))
    = [x]
    /\ (x == 127 # 64)%Q /\ ~ (x <= 1)%Q.
Proof.
  eexists. split; [vm_compute; reflexivity|].
  split; [vm_compute; reflexivity|].
  vm_compute. intros H. now apply H.
Qed.

(** C8, amended.  While recording is active the value pushed for a frame is
    the output sample itself, [quantize raw gain], unclamped: after the
    frame it is the last element of the buffer, or of the chunk flushed at
    that frame.  The clamp to [-1, 1] is applied by the WAV encoder: the
    16-bit value of a sample lies within the signed 16-bit range, a sample
    of 1 or more is stored as 32767 and one of -1 or less as -32768. *)
Theorem C8_recording_stores_output_sample (newFunction : Compiler) :
  (forall inc vol s p,
      Worklet.recording p = true ->
      let r := Worklet.processSample newFunction inc vol s p in
      fst r = quantize (fst (Worklet.evalRaw newFunction s p)) vol
      /\ ((Worklet.recordBuffer (snd r) = Worklet.recordBuffer p ++ [fst r]
           /\ exists errors, Worklet.port (snd r) = Worklet.port p ++ errors
                             /\ Forall (fun m => exists t, m = Worklet.error t) errors)
          \/ (Worklet.recordBuffer (snd r) = []
              /\ exists errors,
                  Worklet.port (snd r)
                  = (Worklet.port p ++ errors)
                      ++ [Worklet.recordChunk (Worklet.recordBuffer p ++ [fst r])]
                  /\ Forall (fun m => exists t, m = Worklet.error t) errors)))
  /\ (forall fuel logicalS inc e s,
      (2 <= fuel)%nat -> Ext.script e = Some s -> ScriptInv e ->
      Ext._scriptRecording s = true ->
      Z.of_nat (length (Ext.recordedSamples e)) + Ext._scriptRecordChunkSize s
        <= Ext.recordMaxSamples e ->
      exists out e' s',
        Ext.script_processSample newFunction fuel logicalS inc e = Some (out, e')
        /\ out = quantize (script_raw logicalS s) (JS.orQ (Ext.volume e) 1)
        /\ Ext.script e' = Some s'
        /\ ((Ext._scriptRecordBuffer s' = Ext._scriptRecordBuffer s ++ [out]
             /\ Ext.recordedSamples e' = Ext.recordedSamples e)
            \/ (Ext._scriptRecordBuffer s' = []
                /\ Ext.recordedSamples e'
                   = Ext.recordedSamples e ++ (Ext._scriptRecordBuffer s ++ [out]))))
  /\ (forall x,
      -32768 <= Wav.pcm16 x <= 32767
      /\ ((1 <= x)%Q -> Wav.pcm16 x = 32767)
      /\ ((x <= -1)%Q -> Wav.pcm16 x = -32768)).
Proof.
  repeat apply conj.
  - intros inc vol s p Hrec r.
    destruct (worklet_processSample_spec newFunction inc vol s p) as (Hout & _ & _ & Hsnd).
    fold r in Hout, Hsnd. split; [exact Hout|].
    rewrite Hsnd. clear Hsnd.
    assert (exists errors,
               Worklet.port (snd (Worklet.evalRaw newFunction s p)) = Worklet.port p ++ errors
               /\ Forall (fun m => exists t, m = Worklet.error t) errors) as (errors & Hport & Herr).
    { unfold Worklet.evalRaw. destruct (Worklet.compiled p) as [f|].
      - destruct (f _ _ _).
        + exists []. cbn. now rewrite app_nil_r.
        + destruct (worklet_switchToFallback_frame newFunction
                      "Runtime error; switched to fallback formula: "
                      "Runtime error and fallback failed: " p)
            as (_ & _ & _ & _ & _ & _ & m & Hm).
          exists [Worklet.error m]. cbn [snd]. split; [exact Hm|].
          repeat constructor. now exists m.
      - exists []. cbn. now rewrite app_nil_r. }
    destruct (worklet_evalRaw_spec newFunction s p) as (_ & _ & _ & Hr & Hb & _).
    set (p1 := snd (Worklet.evalRaw newFunction s p)) in *. clearbody p1.
    unfold Worklet.recordSample. rewrite Hr, Hrec.
    destruct p1 as [t1 c1 r1 b1 cs1 port1 cl1]. cbn in *. subst b1 port1.
    destruct (_ >=? cs1); cbn.
    + right. unfold Worklet._flushRecord. cbn.
      destruct (Worklet.recordBuffer p ++ [fst r]) eqn:E.
      * now destruct (Worklet.recordBuffer p).
      * cbn. split; [reflexivity|]. exists errors. now rewrite <- E.
    + left. split; [reflexivity|]. now exists errors.
  - intros fuel logicalS inc e s Hfuel Hs Hinv Hrec Hroom.
    pose proof (script_processSample_total newFunction fuel logicalS inc e s Hfuel Hs Hinv)
      as Htotal.
    destruct (script_evalRaw_frame newFunction logicalS s e Hs)
      as ((s1 & Hs1 & _ & _ & Hb1 & Hr1 & Hcs1 & _) & Hv1 & _ & Hm1 & Hrs1 & _).
    pose proof (script_evalRaw_inv newFunction logicalS s e Hs Hinv) as Hinv1.
    pose proof (script_evalRaw_fst newFunction logicalS s e) as Hraw.
    cbv zeta in Htotal. rewrite Hraw, Hv1 in Htotal.
    set (e1 := snd (Ext.script_evalRaw newFunction logicalS s e)) in *. clearbody e1.
    set (out := quantize (script_raw logicalS s) (JS.orQ (Ext.volume e) 1)) in *.
    clearbody out. rewrite Htotal. clear Htotal Hraw.
    specialize (Hinv1 s1 Hs1). rewrite Hb1, Hcs1, Hm1 in Hinv1.
    unfold afterScriptRecord, afterChunk. rewrite Hs1, Hr1, Hrec, Hb1, Hcs1.
    destruct e1 as [ctx nd pl uw wl ls vol fm rec samples mx pc sc lg cl].
    cbn in Hs1, Hm1, Hrs1, Hv1. subst sc samples mx.
    destruct s1 as [ct csr cf buf rc cs]. cbn in Hb1, Hr1, Hcs1. subst buf rc cs.
    ext_simpl.
    destruct (_ >=? _) eqn:Hge; ext_simpl.
    + rewrite !length_app in *. cbn [length] in *.
      destruct (_ >? _) eqn:Hgt; [lia|]. ext_simpl.
      eexists _, _, _. split; [reflexivity|]. split; [reflexivity|].
      split; [reflexivity|]. right. cbn. auto.
    + eexists _, _, _. split; [reflexivity|]. split; [reflexivity|].
      split; [reflexivity|]. left. cbn. auto.
  - intros x. split; [apply pcm16_range|]. split; apply pcm16_saturates.
Qed.

Lemma C8_recording_stores_output_sample_witness :
  (fst (Worklet.processSample Sample.engine 1 2 8000 (Sample.workletRecording "255"))
   = quantize (fst (Worklet.evalRaw Sample.engine 8000 (Sample.workletRecording "255"))) 2)
  /\ (exists out e' s',
        Ext.script_processSample Sample.engine 2 8000 1 (Sample.blockRecording "255" 2)
        = Some (out, e')
        /\ out = quantize (script_raw 8000 (Sample.scriptOf (Sample.blockRecording "255" 2)))
                          (JS.orQ (Ext.volume (Sample.blockRecording "255" 2)) 1)
        /\ Ext.script e' = Some s')
  /\ Wav.pcm16 (127 # 64) = 32767.
Proof.
  repeat apply conj.
  - refine (proj1 (proj1 (C8_recording_stores_output_sample Sample.engine) 1%Q 2%Q 8000%Q
                     (Sample.workletRecording "255") _)).
    reflexivity.
  - destruct (proj1 (proj2 (C8_recording_stores_output_sample Sample.engine)) 2%nat
                    8000%Q 1%Q (Sample.blockRecording "255" 2)
                    (Sample.scriptOf (Sample.blockRecording "255" 2)))
      as (out & e' & s' & H1 & H2 & H3 & _).
    + lia.
    + reflexivity.
    + apply ScriptInv_check. vm_compute. reflexivity.
    + reflexivity.
    + vm_compute. discriminate.
    + exists out, e', s'. auto.
  - refine (proj1 (proj2 (proj2 (proj2 (C8_recording_stores_output_sample Sample.engine))
                            (127 # 64)%Q)) _).
    vm_compute. discriminate.
Defined.

(** ** The formula screen *)

Section ScreenFacts.

Lemma prefix_nil_r (f : string) : String.prefix f EmptyString = true -> f = EmptyString.
Proof. destruct f; [reflexivity|discriminate]. Qed.

Lemma includes_nil (f : string) : Str.includes EmptyString f = true -> f = EmptyString.
Proof. cbn. destruct f; [reflexivity|discriminate]. Qed.

Lemma includes_trimStart (f s : string) :
  firstNonWs f = true -> Str.includes s f = true ->
  Str.includes (Str.trimStart s) f = true.
Proof.
  intros Hf. induction s as [|c s IH]; intros H; [exact H|].
  cbn [Str.trimStart]. destruct (Str.isWhiteSpace c) eqn:Hc; [|exact H].
  apply IH. cbn [Str.includes] in H.
  destruct (String.prefix f (String c s)) eqn:Hp; [|exact H].
  destruct f as [|a f]; [discriminate|].
  cbn [String.prefix] in Hp. cbn [firstNonWs] in Hf.
  destruct (ascii_dec a c) as [->|]; [|discriminate].
  rewrite Hc in Hf. discriminate.
Qed.

Lemma prefix_trimEnd (f s : string) :
  lastNonWs f = true -> String.prefix f s = true ->
  String.prefix f (Str.trimEnd s) = true.
Proof.
  revert s. induction f as [|a f IH]; intros s Hf Hp; [discriminate|].
  destruct s as [|c s]; [discriminate|].
  cbn [String.prefix] in Hp. destruct (ascii_dec a c) as [<-|]; [|discriminate].
  cbn [Str.trimEnd]. destruct f as [|b f].
  - cbn [lastNonWs] in Hf. destruct (Str.trimEnd s).
    + destruct (Str.isWhiteSpace a); [discriminate|].
      cbn [String.prefix]. now destruct (ascii_dec a a).
    + cbn [String.prefix]. now destruct (ascii_dec a a).
  - assert (lastNonWs (String b f) = true) as Hf' by exact Hf.
    specialize (IH s Hf' Hp).
    destruct (Str.trimEnd s) as [|d r]; [discriminate|].
    cbn [String.prefix]. now destruct (ascii_dec a a).
Qed.

Lemma includes_trimEnd (f s : string) :
  lastNonWs f = true -> Str.includes s f = true ->
  Str.includes (Str.trimEnd s) f = true.
Proof.
  intros Hf. induction s as [|c s IH]; intros H.
  - apply includes_nil in H. subst f. discriminate.
  - cbn [Str.includes] in H.
    destruct (String.prefix f (String c s)) eqn:Hp.
    + pose proof (prefix_trimEnd f (String c s) Hf Hp) as Hp'.
      destruct (Str.trimEnd (String c s)); cbn [Str.includes]; now rewrite Hp'.
    + specialize (IH H). cbn [Str.trimEnd].
      destruct (Str.trimEnd s) as [|d r] eqn:Hr.
      * apply includes_nil in IH. subst f. discriminate.
      * cbn [Str.includes] in IH |- *.
        destruct (String.prefix f (String c (String d r))); [reflexivity|exact IH].
Qed.

Lemma includes_trim (f s : string) :
  firstNonWs f = true -> lastNonWs f = true ->
  Str.includes s f = true -> Str.includes (Str.trim s) f = true.
Proof.
  intros H1 H2 H. unfold Str.trim.
  now apply includes_trimEnd, includes_trimStart.
Qed.

Lemma forbidden_tokens_have_no_outer_space (f : string) :
  In f forbidden -> firstNonWs f = true /\ lastNonWs f = true.
Proof.
  intros H. cbn in H.
  repeat (destruct H as [<-|H]; [split; reflexivity|]). contradiction.
Qed.

(** The screen throws on a forbidden substring and on more than 2000
    characters, and only then. *)
Lemma sanityCheck_rejects (formula : string) :
  (exists f, In f forbidden /\ Str.includes formula f = true)
  \/ Z.of_nat (String.length formula) > 2000
  <-> exists message, _sanityCheckFormula formula = Some message.
Proof.
  unfold _sanityCheckFormula. split.
  - intros [(f & Hin & Hinc)|Hlen].
    + destruct (find (Str.includes formula) forbidden) eqn:E; [eauto|].
      pose proof (find_none _ _ E f Hin). congruence.
    + destruct (find (Str.includes formula) forbidden); [eauto|].
      destruct (_ >? 2000) eqn:E; [eauto|lia].
  - intros [message H].
    destruct (find (Str.includes formula) forbidden) eqn:E.
    + left. apply find_some in E. eauto.
    + right. destruct (_ >? 2000) eqn:E2; [lia|discriminate].
Qed.

End ScreenFacts.

(** Closes a goal [OnlyFallbackSince e e'] on explicit states. *)
Ltac only_fallback :=
  unfold OnlyFallbackSince, portOf; ext_simpl;
  split; [reflexivity|];
  split;
  [ first [ exists 0%nat; cbn [repeat]; rewrite ?app_nil_r; reflexivity
          | exists 1%nat; cbn [repeat]; rewrite <- ?app_assoc; reflexivity
          | exists 2%nat; cbn [repeat]; rewrite <- ?app_assoc; reflexivity
          | exists 3%nat; cbn [repeat]; rewrite <- ?app_assoc; reflexivity
          | exists 4%nat; cbn [repeat]; rewrite <- ?app_assoc; reflexivity ]
  | first [ exists []; split; [constructor|]; left; rewrite ?app_nil_r; reflexivity
          | refine (ex_intro _ [_] (conj _ (or_introl eq_refl))); repeat constructor
          | refine (ex_intro _ _ (conj _ (or_intror eq_refl))); repeat constructor ] ].

Section StartFacts.
Variable newFunction : Compiler.

Lemma onlyFallbackSince_refl (e : Ext.BytebeatExtension) :
  Ext.formula e = ERROR_FALLBACK_FORMULA -> OnlyFallbackSince e e.
Proof.
  intros H. split; [exact H|]. split.
  - exists 0%nat. cbn. now rewrite app_nil_r.
  - exists []. split; [constructor|]. left. now rewrite app_nil_r.
Qed.

Lemma onlyFallbackSince_trans (e1 e2 e3 : Ext.BytebeatExtension) :
  OnlyFallbackSince e1 e2 -> OnlyFallbackSince e2 e3 -> OnlyFallbackSince e1 e3.
Proof.
  intros (_ & (k1 & Hk1) & (n1 & Hn1 & Hp1)) (Hf & (k2 & Hk2) & (n2 & Hn2 & Hp2)).
  split; [exact Hf|]. split.
  - exists (k1 + k2)%nat. rewrite Hk2, Hk1, repeat_app. now rewrite app_assoc.
  - destruct Hp2 as [Hp2|Hp2].
    + exists (n1 ++ n2). split; [now apply Forall_app|].
      destruct Hp1 as [Hp1|Hp1]; rewrite Hp2, Hp1; [left|right]; now rewrite ?app_assoc.
    + exists n2. split; [exact Hn2|]. now right.
Qed.

(** The [setFormula] message carrying the fallback formula, on a state
    whose formula is the fallback formula. *)
Lemma postToNode_fallback (fuel : nat) (e : Ext.BytebeatExtension) :
  Ext.formula e = ERROR_FALLBACK_FORMULA ->
  exists e',
    Ext._postToNode newFunction fuel (Worklet.setFormula ERROR_FALLBACK_FORMULA) e = Some e'
    /\ OnlyFallbackSince e e'
    /\ Ext.isPlaying e' = Ext.isPlaying e.
Proof.
  intros Hf. unfold Ext._postToNode, Ext._postToNode_with, Ext._handleScriptMessage_with,
               Ext.scriptFallback.
  destruct e as [ctx nd pl uw wl ls vol fm rec samples mx pc sc lg cl].
  cbn in Hf. subst fm. ext_simpl.
  destruct nd as [[nodePort|]|]; ext_simpl.
  - destruct uw; ext_simpl.
    + eexists. split; [reflexivity|]. split; [only_fallback|reflexivity].
    + destruct sc as [[ct csr cf buf rc cs]|]; ext_simpl.
      * destruct (newFunction ERROR_FALLBACK_FORMULA); ext_simpl;
          (eexists; split; [reflexivity|]; split; [only_fallback|reflexivity]).
      * eexists. split; [reflexivity|]. split; [only_fallback|reflexivity].
  - destruct uw; ext_simpl.
    + eexists. split; [reflexivity|]. split; [only_fallback|reflexivity].
    + destruct sc as [[ct csr cf buf rc cs]|]; ext_simpl.
      * destruct (newFunction ERROR_FALLBACK_FORMULA); ext_simpl;
          (eexists; split; [reflexivity|]; split; [only_fallback|reflexivity]).
      * eexists. split; [reflexivity|]. split; [only_fallback|reflexivity].
  - eexists. split; [reflexivity|]. split; [only_fallback|reflexivity].
Qed.

(** [_startAudio] on a state whose formula is the fallback formula. *)
Lemma startAudio_fallback (fuel : nat) (e : Ext.BytebeatExtension) :
  Ext.formula e = ERROR_FALLBACK_FORMULA ->
  exists e', Ext._startAudio newFunction fuel e = Some e' /\ OnlyFallbackSince e e'.
Proof.
  intros Hf. unfold Ext._startAudio, Ext._postToNode, Ext._postToNode_with,
               Ext._handleScriptMessage, Ext._handleScriptMessage_with,
               Ext._createScriptProcessor, Ext.scriptFallback.
  destruct e as [ctx nd pl uw wl ls vol fm rec samples mx pc sc lg cl].
  cbn in Hf. subst fm. ext_simpl.
  destruct ctx as [ctx|]; ext_simpl;
    [|eexists; split; [reflexivity|only_fallback]].
  destruct pl; ext_simpl; [eexists; split; [reflexivity|only_fallback]|].
  destruct uw; ext_simpl; [eexists; split; [reflexivity|only_fallback]|].
  destruct (newFunction ERROR_FALLBACK_FORMULA) as [g|] eqn:Hg; ext_simpl.
  - destruct (g 0 (inject_Z ls) 0%Q); ext_simpl; rewrite ?Hg; ext_simpl;
      destruct rec; ext_simpl; rewrite ?Hg; ext_simpl;
      (eexists; split; [reflexivity|only_fallback]).
  - rewrite ?Hg; ext_simpl; destruct rec; ext_simpl; rewrite ?Hg; ext_simpl;
      (eexists; split; [reflexivity|only_fallback]).
Qed.

Lemma ensureAudioPrepared_frame (host : Ext.Host) (e : Ext.BytebeatExtension) :
  let r := Ext._ensureAudioPrepared host e in
  Ext.formula (snd r) = Ext.formula e
  /\ Ext.compileLog (snd r) = Ext.compileLog e
  /\ Ext.node (snd r) = Ext.node e
  /\ Ext.isPlaying (snd r) = Ext.isPlaying e.
Proof.
  unfold Ext._ensureAudioPrepared.
  destruct e as [ctx nd pl uw wl ls vol fm rec samples mx pc sc lg cl]. ext_simpl.
  destruct ctx; ext_simpl;
    [|destruct (Ext.canCreateContext host); ext_simpl; [|frame_done]];
    (destruct (Ext.hasAudioWorklet host && negb wl); ext_simpl;
     [destruct (Ext.addModuleSucceeds host); ext_simpl; frame_done|frame_done]).
Qed.

End StartFacts.

(** C5 as stated fails for a text that is long only through surrounding
    white space: [t] followed by 2000 spaces has 2001 characters, and
    [startFormula] keeps and compiles [t]. *)
Lemma C5_long_through_spaces_is_compiled :
  Z.of_nat (String.length ("t" ++ Sample.spaces 2000)) > 2000
  /\ (Ext.formula
        <$> Ext.startFormula Sample.engine 2 Sample.hostNoWorklet
              ("t" ++ Sample.spaces 2000) Ext.constructor)
     = Some "t"%string
  /\ (Ext.compileLog
        <$> Ext.startFormula Sample.engine 2 Sample.hostNoWorklet
              ("t" ++ Sample.spaces 2000) Ext.constructor)
     = Some ["t"; "t"]%string
  /\ "t"%string <> ERROR_FALLBACK_FORMULA.
Proof.
  split; [vm_compute; reflexivity|].
  split; [vm_compute; reflexivity|].
  split; [vm_compute; reflexivity|discriminate].
Qed.

(** C5, amended.  For every formula text that contains a forbidden
    substring, or whose length after [trim] exceeds 2000 characters,
    [startFormula] returns with the fallback formula as the formula; every
    text compiled on the main thread during the call, and every formula
    posted to a worklet node during the call, is the fallback formula; and a
    worklet that receives such a message, like a freshly constructed one,
    compiles only the fallback formula. *)
Theorem C5_start_replaces_rejected_formula
        (newFunction : Compiler) (fuel : nat) (host : Ext.Host) (FORMULA : string)
        (e : Ext.BytebeatExtension) :
  (exists f, In f forbidden /\ Str.includes FORMULA f = true)
  \/ Z.of_nat (String.length (Str.trim FORMULA)) > 2000 ->
  (exists e',
      Ext.startFormula newFunction fuel host FORMULA e = Some e'
      /\ Ext.formula e' = ERROR_FALLBACK_FORMULA
      /\ (exists k, Ext.compileLog e'
                    = Ext.compileLog e ++ repeat ERROR_FALLBACK_FORMULA k)
      /\ (exists new, onlyFallback new
                      /\ (portOf e' = portOf e ++ new \/ portOf e' = new)))
  /\ (forall p m, onlyFallback [m] ->
        exists k, Worklet.compileLog (Worklet.onmessage newFunction m p)
                  = Worklet.compileLog p ++ repeat ERROR_FALLBACK_FORMULA k)
  /\ (exists k, Worklet.compileLog (Worklet.constructor newFunction)
                = repeat ERROR_FALLBACK_FORMULA k).
Proof.
  intros H. split; [|split].
  - assert (Str.orS FORMULA (Ext.formula e) = FORMULA) as Hor.
    { destruct FORMULA; [|reflexivity]. exfalso.
      destruct H as [(f & Hin & Hinc)|H]; [|cbn in H; lia].
      apply includes_nil in Hinc. subst f.
      destruct (forbidden_tokens_have_no_outer_space _ Hin). discriminate. }
    assert (exists message, _sanityCheckFormula (Str.trim FORMULA) = Some message)
      as [message Hcheck].
    { apply sanityCheck_rejects. destruct H as [(f & Hin & Hinc)|H]; [left|now right].
      exists f. split; [exact Hin|].
      destruct (forbidden_tokens_have_no_outer_space _ Hin).
      now apply includes_trim. }
    unfold Ext.startFormula. rewrite Hor.
    assert (Ext.formula (Ext.set_formula (Str.trim FORMULA) e) = Str.trim FORMULA) as ->
        by now destruct e.
    rewrite Hcheck.
    set (e1 := Ext.set_formula ERROR_FALLBACK_FORMULA _).
    assert (OnlyFallbackSince e e1) as H1.
    { subst e1. destruct e. only_fallback. }
    destruct (ensureAudioPrepared_frame host e1) as (Hf2 & Hc2 & Hn2 & _).
    destruct (Ext._ensureAudioPrepared host e1) as [prepared e2]. cbn [snd] in *.
    assert (OnlyFallbackSince e1 e2) as H2.
    { split; [rewrite Hf2; apply H1|]. split.
      - exists 0%nat. cbn. now rewrite app_nil_r.
      - exists []. split; [constructor|]. left. unfold portOf. now rewrite Hn2, app_nil_r. }
    pose proof (onlyFallbackSince_trans _ _ _ H1 H2) as H12.
    destruct prepared; [|exists e2; split; [reflexivity|exact H12]].
    destruct (postToNode_fallback newFunction fuel e2 (proj1 H12)) as (e3 & Hpost & H3 & _).
    rewrite (proj1 H12), Hpost.
    pose proof (onlyFallbackSince_trans _ _ _ H12 H3) as H123.
    destruct (Ext.isPlaying e3); [exists e3; split; [reflexivity|exact H123]|].
    destruct (startAudio_fallback newFunction fuel e3 (proj1 H123)) as (e4 & Hstart & H4).
    exists e4. split; [exact Hstart|].
    exact (onlyFallbackSince_trans _ _ _ H123 H4).
  - intros p m Hm. destruct m; cbn [Worklet.onmessage];
      try (exists 0%nat; cbn; now rewrite app_nil_r).
    + inversion Hm as [|? ? Ht _]. subst formula.
      pose proof (worklet_setFormula_spec newFunction ERROR_FALLBACK_FORMULA p)
        as (_ & _ & _ & _ & Hs).
      destruct (newFunction ERROR_FALLBACK_FORMULA) as [g|].
      * destruct (g 0 8000%Q 0%Q).
        -- exists 1%nat. apply Hs.
        -- exists 2%nat. apply Hs.
      * exists 2%nat. apply Hs.
    + exists 0%nat. unfold Worklet._setRecording, Worklet._flushRecord.
      destruct on; cbn; [now rewrite app_nil_r|].
      destruct (Worklet.recordBuffer p); cbn; now rewrite app_nil_r.
  - unfold Worklet.constructor.
    pose proof (worklet_setFormula_spec newFunction ERROR_FALLBACK_FORMULA
                  (Worklet.mkProcessor 0%Q None false [] 4096 [] []))
      as (_ & _ & _ & _ & Hs).
    destruct (newFunction ERROR_FALLBACK_FORMULA) as [g|].
    + destruct (g 0 8000%Q 0%Q).
      * exists 1%nat. apply Hs.
      * exists 2%nat. apply Hs.
    + exists 2%nat. apply Hs.
Qed.

Lemma C5_start_replaces_rejected_formula_witness :
  exists e',
    Ext.startFormula Sample.engine 2 Sample.host "t*fetch(t)" Ext.constructor = Some e'
    /\ Ext.formula e' = ERROR_FALLBACK_FORMULA
    /\ (exists k, Ext.compileLog e'
                  = Ext.compileLog Ext.constructor ++ repeat ERROR_FALLBACK_FORMULA k)
    /\ (exists new, onlyFallback new
                    /\ (portOf e' = portOf Ext.constructor ++ new \/ portOf e' = new)).
Proof.
  refine (proj1 (C5_start_replaces_rejected_formula Sample.engine 2 Sample.host
                   "t*fetch(t)" Ext.constructor _)).
  left. exists "fetch"%string. split; [|reflexivity].
  unfold forbidden. cbn. tauto.
Defined.

(** ** Bounds of the recording pipeline *)

(** Splits the facts about a delivered chunk and closes the arithmetic. *)
Ltac chunk_split :=
  repeat apply conj; try reflexivity; try (cbn in *; lia);
  try (let Hle := fresh in intros Hle; exfalso; lia).

Section RecordingFacts.
Variable newFunction : Compiler.

Lemma worklet_evalRaw_chunks (s : Q) (p : Worklet.BytebeatProcessor) :
  chunksOf (Worklet.port (snd (Worklet.evalRaw newFunction s p)))
  = chunksOf (Worklet.port p).
Proof.
  unfold Worklet.evalRaw, Worklet.switchToFallback.
  destruct (Worklet.compiled p) as [f|]; [|reflexivity].
  destruct (f _ _ _); [reflexivity|].
  destruct (newFunction ERROR_FALLBACK_FORMULA); cbn;
    unfold chunksOf; rewrite flat_map_app; cbn; now rewrite app_nil_r.
Qed.

(** One frame keeps the bound, and a chunk posted at that frame has exactly
    [recordChunkSize] samples. *)
Lemma worklet_processSample_inv (inc vol s : Q) (p : Worklet.BytebeatProcessor) :
  WorkletInv p ->
  let p' := snd (Worklet.processSample newFunction inc vol s p) in
  WorkletInv p'
  /\ Worklet.recordChunkSize p' = Worklet.recordChunkSize p
  /\ Worklet.recording p' = Worklet.recording p
  /\ (chunksOf (Worklet.port p') = chunksOf (Worklet.port p)
      \/ exists chunk,
          chunksOf (Worklet.port p') = chunksOf (Worklet.port p) ++ [chunk]
          /\ Z.of_nat (length chunk) = Worklet.recordChunkSize p).
Proof.
  intros Hinv.
  destruct (worklet_processSample_spec newFunction inc vol s p) as (_ & _ & _ & Hsnd).
  cbv zeta. rewrite Hsnd. clear Hsnd.
  destruct (worklet_evalRaw_spec newFunction s p) as (_ & _ & _ & Hr & Hb & Hcs).
  pose proof (worklet_evalRaw_chunks s p) as Hch.
  set (p1 := snd (Worklet.evalRaw newFunction s p)) in *. clearbody p1.
  set (sample := fst (Worklet.processSample newFunction inc vol s p)). clearbody sample.
  unfold WorkletInv in Hinv. rewrite <- Hb, <- Hcs in Hinv.
  rewrite <- Hcs, <- Hch, <- Hr. clear Hb Hcs Hch Hr.
  generalize (JS.add (Worklet.t p) inc). intros t'.
  unfold WorkletInv, Worklet.recordSample, Worklet._flushRecord.
  destruct p1 as [t1 c1 r1 b1 cs1 port1 cl1]. cbn in *.
  destruct r1; cbn; [|auto].
  destruct (_ >=? cs1) eqn:Hge; cbn.
  - destruct (b1 ++ [sample]) as [|x l] eqn:E; [now destruct b1|]. cbn.
    repeat apply conj; try reflexivity; [lia|].
    right. exists (x :: l). unfold chunksOf. rewrite flat_map_app. cbn.
    split; [reflexivity|].
    apply (f_equal length) in E. rewrite length_app in E.
    cbn [length] in E, Hge. lia.
  - rewrite length_app in *. cbn in *. repeat apply conj; auto; lia.
Qed.

(** A block keeps the bound. *)
Lemma worklet_processLoop_inv (inc : Q) (volParam sParam : list Q) (n i : nat)
      (p : Worklet.BytebeatProcessor) :
  WorkletInv p ->
  let p' := snd (Worklet.processLoop newFunction inc volParam sParam i n p) in
  WorkletInv p'
  /\ Worklet.recordChunkSize p' = Worklet.recordChunkSize p
  /\ exists chunks,
      chunksOf (Worklet.port p') = chunksOf (Worklet.port p) ++ chunks
      /\ Forall (fun chunk => Z.of_nat (length chunk) = Worklet.recordChunkSize p) chunks.
Proof.
  revert i p. induction n as [|n IH]; intros i p Hinv.
  - cbn. repeat apply conj; auto. exists []. now rewrite app_nil_r.
  - cbn [Worklet.processLoop].
    pose proof (worklet_processSample_inv inc (Worklet.param_at volParam i)
                  (Worklet.param_at sParam i) p Hinv) as (Hinv1 & Hcs1 & _ & Hch1).
    destruct (Worklet.processSample newFunction inc _ _ p) as [sample p1].
    cbn [snd] in *.
    specialize (IH (S i) p1 Hinv1). cbv zeta in IH.
    destruct (Worklet.processLoop newFunction inc volParam sParam (S i) n p1)
      as [rest p2].
    cbn [snd] in *. destruct IH as (Hinv2 & Hcs2 & chunks & Hch2 & Hall).
    repeat apply conj; [exact Hinv2|congruence|].
    rewrite Hcs1 in Hall.
    destruct Hch1 as [Hch1|(chunk & Hch1 & Hlen)]; rewrite Hch2, Hch1.
    + now exists chunks.
    + exists (chunk :: chunks). rewrite <- app_assoc. split; [reflexivity|].
      now constructor.
Qed.

(** Messages other than [setChunkSize] keep the bound; [setChunkSize] keeps
    it when the buffer is shorter than the new size. *)
Lemma worklet_onmessage_inv (m : Worklet.InMsg) (p : Worklet.BytebeatProcessor) :
  WorkletInv p ->
  (forall size, m = Worklet.setChunkSize size ->
                Z.of_nat (length (Worklet.recordBuffer p))
                < JS.Z_max 128 (JS.Z_min 65536 (JS.orZ size (Worklet.recordChunkSize p)))) ->
  WorkletInv (Worklet.onmessage newFunction m p).
Proof.
  intros Hinv Hsize. unfold WorkletInv in *.
  destruct m; cbn [Worklet.onmessage].
  - destruct (worklet_setFormula_spec newFunction formula p) as (_ & _ & Hb & Hcs & _).
    now rewrite Hb, Hcs.
  - unfold Worklet._setRecording, Worklet._flushRecord.
    destruct on; cbn; [exact Hinv|].
    destruct (Worklet.recordBuffer p) eqn:E; cbn; [now rewrite E|]. lia.
  - cbn. now apply Hsize.
  - exact Hinv.
  - exact Hinv.
  - exact Hinv.
Qed.

Lemma worklet_constructor_inv : WorkletInv (Worklet.constructor newFunction).
Proof.
  unfold WorkletInv, Worklet.constructor.
  destruct (worklet_setFormula_spec newFunction ERROR_FALLBACK_FORMULA
              (Worklet.mkProcessor 0%Q None false [] 4096 [] []))
    as (_ & _ & Hb & Hcs & _).
  rewrite Hb, Hcs. cbn. lia.
Qed.

(** The worklet on [record off]: recording stops and the buffer is flushed. *)
Lemma worklet_record_off (p : Worklet.BytebeatProcessor) :
  let p' := Worklet.onmessage newFunction (Worklet.record false) p in
  Worklet.recording p' = false /\ Worklet.recordBuffer p' = [].
Proof.
  cbn. unfold Worklet._setRecording, Worklet._flushRecord. cbn.
  destruct (Worklet.recordBuffer p) eqn:E; cbn; auto.
Qed.

(** What a delivered chunk leaves in the extension. *)
Lemma afterChunk_bounds (chunk : list Q) (e : Ext.BytebeatExtension) :
  0 <= Ext.recordMaxSamples e ->
  (forall s, Ext.script e = Some s ->
     Z.of_nat (length (Ext._scriptRecordBuffer s)) <= Ext.recordMaxSamples e) ->
  let e' := afterChunk chunk e in
  Z.of_nat (length (Ext.recordedSamples e')) <= Ext.recordMaxSamples e'
  /\ Ext.recordMaxSamples e' = Ext.recordMaxSamples e
  /\ Ext.isPlaying e' = Ext.isPlaying e
  /\ (Z.of_nat (length (Ext.recordedSamples e ++ chunk)) <= Ext.recordMaxSamples e ->
      e' = Ext.set_recordedSamples (Ext.recordedSamples e ++ chunk) e)
  /\ (Z.of_nat (length (Ext.recordedSamples e ++ chunk)) > Ext.recordMaxSamples e ->
      Ext.recording e' = false
      /\ Ext.log e' = Ext.log e ++ [limitAlert]
      /\ (forall nodePort,
            Ext.node e = Some (Ext.AudioWorkletNode nodePort) ->
            Ext._usingWorklet e = true ->
            Ext.recordedSamples e' = []
            /\ Ext.node e'
               = Some (Ext.AudioWorkletNode (nodePort ++ [Worklet.record false])))).
Proof.
  intros Hmax Hbuf. unfold afterChunk, postRecordOff, scriptStopRecording.
  destruct e as [ctx nd pl uw wl ls vol fm rec samples mx pc sc lg cl]. ext_simpl.
  destruct (_ >? mx) eqn:Hgt; ext_simpl.
  2:{ repeat apply conj; try reflexivity; try lia. }
  destruct nd as [[nodePort|]|]; ext_simpl.
  - destruct uw; ext_simpl.
    + chunk_split. intros _. repeat apply conj; try reflexivity.
      intros ? [= <-] _. auto.
    + destruct sc as [[ct csr cf buf rc cs]|]; ext_simpl.
      * specialize (Hbuf _ eq_refl). cbn in Hbuf.
        destruct buf; ext_simpl;
          (chunk_split; intros _; repeat apply conj; try reflexivity; intros ? _ [=]).
      * chunk_split. intros _. repeat apply conj; try reflexivity. intros ? _ [=].
  - destruct uw; ext_simpl.
    + chunk_split. intros _. repeat apply conj; try reflexivity. intros ? [=].
    + destruct sc as [[ct csr cf buf rc cs]|]; ext_simpl.
      * specialize (Hbuf _ eq_refl). cbn in Hbuf.
        destruct buf; ext_simpl;
          (chunk_split; intros _; repeat apply conj; try reflexivity; intros ? [=]).
      * chunk_split. intros _. repeat apply conj; try reflexivity. intros ? [=].
  - chunk_split. intros _. repeat apply conj; try reflexivity. intros ? [=].
Qed.

(** On the block backend the chunk that exceeds the maximum is delivered a
    second time by the nested [record off], after the buffer of accepted
    samples was emptied: that buffer then holds the chunk. *)
Lemma block_forced_stop_keeps_chunk (chunk : list Q) (e : Ext.BytebeatExtension)
      (s : Ext.ScriptState) (x : Q) (buffer : list Q) :
  Ext.node e = Some Ext.ScriptProcessorNode ->
  Ext._usingWorklet e = false ->
  Ext.script e = Some s ->
  Ext._scriptRecordBuffer s = x :: buffer ->
  Z.of_nat (length (Ext.recordedSamples e ++ chunk)) > Ext.recordMaxSamples e ->
  Ext.recordedSamples (afterChunk chunk e) = x :: buffer.
Proof.
  intros Hn Hu Hs Hb Hgt. unfold afterChunk, postRecordOff, scriptStopRecording.
  destruct e as [ctx nd pl uw wl ls vol fm rec samples mx pc sc lg cl]. ext_simpl.
  subst nd uw sc. destruct s as [ct csr cf buf rc cs]. ext_simpl. subst buf.
  destruct (_ >? mx) eqn:E; [|lia]. reflexivity.
Qed.

(** A fresh block backend satisfies the bound. *)
Lemma createScriptProcessor_inv (ctx : Ext.AudioContext) (bufferSize : Z)
      (e : Ext.BytebeatExtension) :
  0 < Ext.preferredChunkSize e <= Ext.recordMaxSamples e ->
  ScriptInv (Ext._createScriptProcessor newFunction ctx bufferSize e).
Proof.
  intros H. apply ScriptInv_check. unfold scriptInvb, Ext._createScriptProcessor,
    Ext.scriptFallback.
  destruct e as [c nd pl uw wl ls vol fm rec samples mx pc sc lg cl]. ext_simpl.
  destruct (newFunction fm) as [f|]; ext_simpl.
  - destruct (f 0 (inject_Z ls) 0%Q); ext_simpl; [lia|].
    destruct (newFunction ERROR_FALLBACK_FORMULA); ext_simpl; lia.
  - destruct (newFunction ERROR_FALLBACK_FORMULA); ext_simpl; lia.
Qed.

(** The messages of the block backend other than [setChunkSize] return and
    keep the bound. *)
Lemma script_onmessage_inv (fuel : nat) (m : Worklet.InMsg) (e : Ext.BytebeatExtension) :
  (2 <= fuel)%nat -> ScriptInv e ->
  (forall size, m <> Worklet.setChunkSize size) ->
  exists e', Ext._handleScriptMessage newFunction fuel m e = Some e' /\ ScriptInv e'.
Proof.
  intros Hfuel Hinv Hm.
  unfold Ext._handleScriptMessage, Ext._handleScriptMessage_with.
  destruct (Ext.script e) as [s|] eqn:Hs; [|eauto].
  pose proof (Hinv s Hs) as (Hpos & Hlt & Hmax).
  destruct m as [text|on|size| | |]; try (eexists; split; [reflexivity|exact Hinv]).
  - destruct (script_setFormula_spec newFunction fuel text e s Hs)
      as (e' & s' & H & Hs' & _ & Hs'eq & _ & Hmx).
    unfold Ext._handleScriptMessage, Ext._handleScriptMessage_with in H.
    rewrite Hs in H. rewrite H. exists e'. split; [reflexivity|].
    apply ScriptInv_check. unfold scriptInvb. rewrite Hs', Hmx.
    subst s'. destruct s as [ct csr cf buf rc cs]. cbn in *.
    destruct (newFunction text); cbn; lia.
  - destruct on.
    + eexists. split; [reflexivity|]. apply ScriptInv_check. unfold scriptInvb.
      destruct e as [c nd pl uw wl ls vol fm rec samples mx pc sc lg cl].
      cbn in Hs. subst sc. destruct s as [ct csr cf buf rc cs]. ext_simpl. lia.
    + destruct (Ext._scriptRecordBuffer s) as [|x buf] eqn:Hb.
      * eexists. split; [reflexivity|]. apply ScriptInv_check. unfold scriptInvb.
        destruct e as [c nd pl uw wl ls vol fm rec samples mx pc sc lg cl].
        cbn in Hs. subst sc. destruct s as [ct csr cf buf rc cs]. ext_simpl.
        cbn in Hb. subst buf. cbn in *. lia.
      * rewrite handleNode_recordChunk; [|exact Hfuel|].
        -- eexists. split; [reflexivity|]. apply ScriptInv_check.
           unfold scriptInvb, afterChunk, postRecordOff, scriptStopRecording.
           destruct e as [c nd pl uw wl ls vol fm rec samples mx pc sc lg cl].
           cbn in Hs. subst sc. destruct s as [ct csr cf buf0 rc cs]. ext_simpl.
           cbn in Hb. subst buf0. cbn in Hlt.
           destruct (_ >? mx); ext_simpl; [|lia].
           destruct nd as [[nodePort|]|]; ext_simpl; try lia;
             destruct uw; ext_simpl; lia.
        -- intros s0 Hs0.
           destruct e as [c nd pl uw wl ls vol fm rec samples mx pc sc lg cl].
           cbn in Hs. subst sc. destruct s as [ct csr cf buf0 rc cs]. ext_simpl.
           injection Hs0 as <-. cbn in *. subst buf0. cbn in *. lia.
  - now destruct (Hm size).
  - eexists. split; [reflexivity|]. apply ScriptInv_check. unfold scriptInvb.
    destruct e as [c nd pl uw wl ls vol fm rec samples mx pc sc lg cl].
    cbn in Hs. subst sc. destruct s as [ct csr cf buf rc cs]. ext_simpl.
    cbn in *. lia.
Qed.

End RecordingFacts.

(** C7 as stated fails when the chunk size is lowered during a recording:
    with 200 un-flushed samples at the chunk size 4096, the message
    [setChunkSize 128] leaves a buffer of 200 samples against a chunk size
    of 128. *)
Lemma C7_buffer_above_lowered_chunk_size :
  Worklet.recording Sample.workletLowered = true
  /\ Z.of_nat (length (Worklet.recordBuffer Sample.workletLowered)) = 200
  /\ Worklet.recordChunkSize Sample.workletLowered = 128
  /\ ~ (Z.of_nat (length (Worklet.recordBuffer Sample.workletLowered))
        <= Worklet.recordChunkSize Sample.workletLowered).
Proof.
  split; [vm_compute; reflexivity|].
  split; [vm_compute; reflexivity|].
  split; [vm_compute; reflexivity|].
  vm_compute. intros H. now apply H.
Qed.

(** C7, amended.  While the chunk size is not changed, the un-flushed
    buffer of either backend is shorter than the chunk size between frames
    (so it never holds more than the chunk size), and every chunk the
    worklet posts from [process] has exactly [recordChunkSize] samples;
    messages other than [setChunkSize] keep this, and a fresh backend
    starts with it.  After every delivered
    chunk the number of accepted samples is at most the session maximum,
    44100*60*10 in a constructed extension.  A chunk that takes the number
    above the maximum stops recording, leaves [isPlaying] as it was and
    raises an alert; on the continuous backend it also leaves the accepted
    samples empty and posts [record off] to the worklet, which stops and
    flushes. *)
Theorem C7_recording_bounds (newFunction : Compiler) :
  WorkletInv (Worklet.constructor newFunction)
  /\ (forall sr volParam sParam n p,
        WorkletInv p ->
        let p' := snd (Worklet.process newFunction sr volParam sParam n p) in
        WorkletInv p'
        /\ Worklet.recordChunkSize p' = Worklet.recordChunkSize p
        /\ exists chunks,
            chunksOf (Worklet.port p') = chunksOf (Worklet.port p) ++ chunks
            /\ Forall (fun chunk => Z.of_nat (length chunk) = Worklet.recordChunkSize p)
                      chunks)
  /\ (forall m p,
        WorkletInv p -> (forall size, m <> Worklet.setChunkSize size) ->
        WorkletInv (Worklet.onmessage newFunction m p))
  /\ (forall ctx bufferSize e,
        0 < Ext.preferredChunkSize e <= Ext.recordMaxSamples e ->
        ScriptInv (Ext._createScriptProcessor newFunction ctx bufferSize e))
  /\ (forall fuel n e s,
        (2 <= fuel)%nat -> Ext.script e = Some s -> ScriptInv e ->
        exists outs e',
          Ext.processFunc newFunction fuel n e = Some (outs, e') /\ ScriptInv e')
  /\ (forall fuel m e,
        (2 <= fuel)%nat -> ScriptInv e -> (forall size, m <> Worklet.setChunkSize size) ->
        exists e', Ext._handleScriptMessage newFunction fuel m e = Some e' /\ ScriptInv e')
  /\ (forall fuel chunk e,
        (2 <= fuel)%nat -> 0 <= Ext.recordMaxSamples e ->
        (forall s, Ext.script e = Some s ->
           Z.of_nat (length (Ext._scriptRecordBuffer s)) <= Ext.recordMaxSamples e) ->
        exists e',
          Ext._handleNodeMessage newFunction fuel (Worklet.recordChunk chunk) e = Some e'
          /\ Z.of_nat (length (Ext.recordedSamples e')) <= Ext.recordMaxSamples e'
          /\ Ext.recordMaxSamples e' = Ext.recordMaxSamples e
          /\ Ext.isPlaying e' = Ext.isPlaying e
          /\ (Z.of_nat (length (Ext.recordedSamples e ++ chunk)) > Ext.recordMaxSamples e ->
              Ext.recording e' = false
              /\ Ext.log e' = Ext.log e ++ [limitAlert]
              /\ (forall nodePort,
                    Ext.node e = Some (Ext.AudioWorkletNode nodePort) ->
                    Ext._usingWorklet e = true ->
                    Ext.recordedSamples e' = []
                    /\ Ext.node e'
                       = Some (Ext.AudioWorkletNode (nodePort ++ [Worklet.record false])))))
  /\ Ext.recordMaxSamples Ext.constructor = 44100 * 60 * 10
  /\ (forall p,
        Worklet.recording (Worklet.onmessage newFunction (Worklet.record false) p) = false
        /\ Worklet.recordBuffer (Worklet.onmessage newFunction (Worklet.record false) p)
           = []).
Proof.
  repeat apply conj.
  - apply worklet_constructor_inv.
  - intros sr volParam sParam n p Hinv. unfold Worklet.process.
    now apply worklet_processLoop_inv.
  - intros m p Hinv Hm. apply worklet_onmessage_inv; [exact Hinv|].
    intros size ->. now destruct (Hm size).
  - intros ctx bufferSize e H. now apply createScriptProcessor_inv.
  - intros fuel n e s Hfuel Hs Hinv. unfold Ext.processFunc. rewrite Hs.
    destruct (script_processLoop_spec newFunction fuel
                (inject_Z (JS.Z_max 1 (JS.orZ (Ext.logicalSampleRate e) 8000)))
                (JS.div (inject_Z (JS.Z_max 1 (JS.orZ (Ext.logicalSampleRate e) 8000)))
                        (inject_Z (Ext.closure_sr s))) n e s Hfuel Hs Hinv)
      as (outs & e' & s' & Hloop & _ & Hinv' & _).
    eauto.
  - intros fuel m e Hfuel Hinv Hm. now apply script_onmessage_inv.
  - intros fuel chunk e Hfuel Hmax Hbuf.
    exists (afterChunk chunk e).
    split; [now apply handleNode_recordChunk|].
    destruct (afterChunk_bounds chunk e Hmax Hbuf) as (H1 & H2 & H3 & _ & H5).
    auto.
  - reflexivity.
  - intros p. apply (worklet_record_off newFunction p).
Qed.

Lemma manySamples_length :
  Z.of_nat (length Sample.manySamples) = 44100 * 60 * 10.
Proof. unfold Sample.manySamples. rewrite repeat_length. lia. Qed.

Lemma C7_recording_bounds_witness :
  (WorkletInv (snd (Worklet.process Sample.engine 8000 [1%Q] [8000%Q] 5
                      (Sample.workletRecording "t"))))
  /\ WorkletInv (Worklet.onmessage Sample.engine (Worklet.record false)
                   (Sample.workletRecording "t"))
  /\ (exists outs e',
        Ext.processFunc Sample.engine 2 5 (Sample.blockRecording "t" 1) = Some (outs, e')
        /\ ScriptInv e')
  /\ ScriptInv (Ext._createScriptProcessor Sample.engine (Ext.mkContext 8000) 4096
                                           Ext.constructor)
  /\ (exists e',
        Ext._handleScriptMessage Sample.engine 2 (Worklet.record false)
                                 (Sample.blockRecording "t" 1) = Some e'
        /\ ScriptInv e')
  /\ (exists e',
        Ext._handleNodeMessage Sample.engine 2 (Worklet.recordChunk [0%Q])
                               Sample.workletPlayingFull = Some e'
        /\ Ext.recording e' = false
        /\ Ext.recordedSamples e' = []
        /\ Ext.isPlaying e' = Ext.isPlaying Sample.workletPlayingFull).
Proof.
  repeat apply conj.
  - refine (proj1 (proj1 (proj2 (C7_recording_bounds Sample.engine)) 8000%Q [1%Q] [8000%Q]
                     5%nat (Sample.workletRecording "t") _)).
    unfold WorkletInv. vm_compute. reflexivity.
  - refine (proj1 (proj2 (proj2 (C7_recording_bounds Sample.engine)))
                  (Worklet.record false) (Sample.workletRecording "t") _ _).
    + unfold WorkletInv. vm_compute. reflexivity.
    + discriminate.
  - refine (proj1 (proj2 (proj2 (proj2 (proj2 (C7_recording_bounds Sample.engine)))))
                  2%nat 5%nat (Sample.blockRecording "t" 1)
                  (Sample.scriptOf (Sample.blockRecording "t" 1)) _ _ _).
    + lia.
    + reflexivity.
    + apply ScriptInv_check. vm_compute. reflexivity.
  - refine (proj1 (proj2 (proj2 (proj2 (C7_recording_bounds Sample.engine))))
                  (Ext.mkContext 8000) 4096 Ext.constructor _).
    vm_compute. split; [reflexivity|discriminate].
  - refine (proj1 (proj2 (proj2 (proj2 (proj2 (proj2 (C7_recording_bounds Sample.engine))))))
                  2%nat (Worklet.record false) (Sample.blockRecording "t" 1) _ _ _).
    + lia.
    + apply ScriptInv_check. vm_compute. reflexivity.
    + discriminate.
  - destruct (proj1 (proj2 (proj2 (proj2 (proj2 (proj2 (proj2
                      (C7_recording_bounds Sample.engine)))))))
                    2%nat [0%Q] Sample.workletPlayingFull)
      as (e' & H & _ & _ & Hp & Hstop).
    + lia.
    + change (Ext.recordMaxSamples Sample.workletPlayingFull) with (44100 * 60 * 10). lia.
    + intros s Hs. discriminate Hs.
    + exists e'. split; [exact H|].
      destruct Hstop as (Hrec & _ & Hnode).
      * change (Ext.recordedSamples Sample.workletPlayingFull) with Sample.manySamples.
        change (Ext.recordMaxSamples Sample.workletPlayingFull) with (44100 * 60 * 10).
        rewrite length_app, Nat2Z.inj_add, manySamples_length. cbn [length]. lia.
      * destruct (Hnode [Worklet.setChunkSize 4096; Worklet.setFormula "t";
                         Worklet.record true] eq_refl eq_refl) as [Hsamples _].
        auto.
Defined.

(** * Further properties *)

(** ** The worklet: what is recorded is what is played *)

Section WorkletRecordingFacts.
Variable newFunction : Compiler.

Lemma chunksOf_app (a b : list Worklet.OutMsg) :
  chunksOf (a ++ b) = chunksOf a ++ chunksOf b.
Proof. unfold chunksOf. apply flat_map_app. Qed.

Lemma worklet_flushRecord_recorded (p : Worklet.BytebeatProcessor) :
  let p' := Worklet._flushRecord p in
  recordedBy p' = recordedBy p
  /\ Worklet.recordBuffer p' = []
  /\ Worklet.recording p' = Worklet.recording p
  /\ (NoEmptyChunk p -> NoEmptyChunk p').
Proof.
  unfold Worklet._flushRecord, recordedBy, NoEmptyChunk.
  destruct (Worklet.recordBuffer p) as [|x buf] eqn:E; cbn.
  - rewrite E. auto.
  - rewrite chunksOf_app, concat_app. cbn. rewrite !app_nil_r.
    repeat apply conj; try reflexivity.
    intros H. apply Forall_app. split; [exact H|]. now repeat constructor.
Qed.

Lemma worklet_recordSample_recorded (sample : Q) (p : Worklet.BytebeatProcessor) :
  let p' := Worklet.recordSample sample p in
  recordedBy p' = recordedBy p ++ (if Worklet.recording p then [sample] else [])
  /\ (NoEmptyChunk p -> NoEmptyChunk p').
Proof.
  unfold Worklet.recordSample.
  destruct (Worklet.recording p) eqn:Hr; cbn; [|now rewrite app_nil_r].
  destruct (_ >=? _).
  - destruct (worklet_flushRecord_recorded
                (Worklet.set_recordBuffer (Worklet.recordBuffer p ++ [sample]) p))
      as (H & _ & _ & Hne).
    cbn in H, Hne. split; [|exact Hne].
    rewrite H. unfold recordedBy. cbn. now rewrite app_assoc.
  - unfold recordedBy. cbn. now rewrite app_assoc.
Qed.

Lemma worklet_evalRaw_recorded (s : Q) (p : Worklet.BytebeatProcessor) :
  let p' := snd (Worklet.evalRaw newFunction s p) in
  recordedBy p' = recordedBy p /\ (NoEmptyChunk p -> NoEmptyChunk p').
Proof.
  cbv zeta. unfold recordedBy, NoEmptyChunk.
  destruct (worklet_evalRaw_spec newFunction s p) as (_ & _ & _ & _ & Hb & _).
  now rewrite (worklet_evalRaw_chunks newFunction s p), Hb.
Qed.

Lemma worklet_processSample_recorded (inc vol s : Q) (p : Worklet.BytebeatProcessor) :
  let r := Worklet.processSample newFunction inc vol s p in
  recordedBy (snd r) = recordedBy p ++ (if Worklet.recording p then [fst r] else [])
  /\ Worklet.recording (snd r) = Worklet.recording p
  /\ (NoEmptyChunk p -> NoEmptyChunk (snd r)).
Proof.
  cbv zeta.
  destruct (worklet_processSample_spec newFunction inc vol s p) as (_ & _ & _ & ->).
  destruct (worklet_evalRaw_recorded s p) as [H1 Hne1].
  destruct (worklet_evalRaw_spec newFunction s p) as (_ & _ & _ & Hr & _).
  set (p1 := snd (Worklet.evalRaw newFunction s p)) in *.
  set (x := fst (Worklet.processSample newFunction inc vol s p)).
  destruct (worklet_recordSample_recorded x p1) as [H2 Hne2].
  destruct (worklet_recordSample_frame x p1) as (_ & _ & Hr2 & _).
  cbv zeta in *.
  change (recordedBy (Worklet.set_t (JS.add (Worklet.t p) inc) (Worklet.recordSample x p1)))
    with (recordedBy (Worklet.recordSample x p1)).
  change (NoEmptyChunk (Worklet.set_t (JS.add (Worklet.t p) inc) (Worklet.recordSample x p1)))
    with (NoEmptyChunk (Worklet.recordSample x p1)).
  change (Worklet.recording
            (Worklet.set_t (JS.add (Worklet.t p) inc) (Worklet.recordSample x p1)))
    with (Worklet.recording (Worklet.recordSample x p1)).
  rewrite H2, H1, Hr, Hr2. auto.
Qed.

Lemma worklet_processLoop_recorded (inc : Q) (volParam sParam : list Q) (n i : nat)
      (p : Worklet.BytebeatProcessor) :
  let r := Worklet.processLoop newFunction inc volParam sParam i n p in
  length (fst r) = n
  /\ Worklet.recording (snd r) = Worklet.recording p
  /\ recordedBy (snd r) = recordedBy p ++ (if Worklet.recording p then fst r else [])
  /\ (NoEmptyChunk p -> NoEmptyChunk (snd r)).
Proof.
  revert i p. induction n as [|n IH]; intros i p.
  - cbn. destruct (Worklet.recording p); rewrite ?app_nil_r; auto.
  - cbn [Worklet.processLoop].
    pose proof (worklet_processSample_recorded inc (Worklet.param_at volParam i)
                  (Worklet.param_at sParam i) p) as (H1 & Hr1 & Hne1).
    destruct (Worklet.processSample newFunction inc _ _ p) as [sample p1].
    specialize (IH (S i) p1). cbv zeta in IH.
    destruct (Worklet.processLoop newFunction inc volParam sParam (S i) n p1)
      as [rest p2].
    cbn [fst snd] in *. destruct IH as (Hlen & Hr2 & H2 & Hne2).
    repeat apply conj; [cbn; lia|congruence| |auto].
    rewrite H2, H1, Hr1. destruct (Worklet.recording p); cbn;
      rewrite <- ?app_assoc; reflexivity.
Qed.

Lemma worklet_setFormula_recorded (text : string) (p : Worklet.BytebeatProcessor) :
  let p' := Worklet._setFormula newFunction text p in
  recordedBy p' = recordedBy p /\ (NoEmptyChunk p -> NoEmptyChunk p').
Proof.
  cbv zeta. unfold recordedBy, NoEmptyChunk.
  destruct (worklet_setFormula_spec newFunction text p) as (_ & _ & Hb & _ & H).
  rewrite Hb.
  assert (chunksOf (Worklet.port (Worklet._setFormula newFunction text p))
          = chunksOf (Worklet.port p)) as ->; [|auto].
  destruct (newFunction text) as [f|]; [destruct (f 0 8000%Q 0%Q)|].
  - destruct H as (_ & -> & _). reflexivity.
  - destruct H as (_ & (m & ->) & _). rewrite chunksOf_app. cbn. apply app_nil_r.
  - destruct H as (_ & (m & ->) & _). rewrite chunksOf_app. cbn. apply app_nil_r.
Qed.

Lemma worklet_onmessage_recorded (m : Worklet.InMsg) (p : Worklet.BytebeatProcessor) :
  let p' := Worklet.onmessage newFunction m p in
  recordedBy p' = recordedBy p /\ (NoEmptyChunk p -> NoEmptyChunk p').
Proof.
  destruct m; cbn [Worklet.onmessage]; try (cbv zeta; auto; fail).
  - apply worklet_setFormula_recorded.
  - unfold Worklet._setRecording. destruct on; cbn; [auto|].
    destruct (worklet_flushRecord_recorded (Worklet.set_recording false p))
      as (H & _ & _ & Hne).
    auto.
Qed.

End WorkletRecordingFacts.

(** X1.  While the worklet records, the samples it has posted in chunks plus the
    samples waiting in its buffer grow by exactly the output of [process],
    frame for frame; when it does not record they do not change.  The
    output has one sample per frame. *)
Theorem worklet_records_its_output
        (newFunction : Compiler) (sr : Q) (volParam sParam : list Q) (len : nat)
        (p : Worklet.BytebeatProcessor) :
  let r := Worklet.process newFunction sr volParam sParam len p in
  length (fst r) = len
  /\ Worklet.recording (snd r) = Worklet.recording p
  /\ recordedBy (snd r)
     = recordedBy p ++ (if Worklet.recording p then fst r else []).
Proof.
  unfold Worklet.process.
  destruct (worklet_processLoop_recorded newFunction
              (JS.div (nth 0 sParam 0%Q) sr) volParam sParam len 0 p) as (H1 & H2 & H3 & _).
  auto.
Qed.

(** X2.  The message [record off] loses and repeats nothing: the posted chunks
    plus the buffer hold the same samples before and after, the buffer is
    empty afterwards, and a second [record off] changes nothing.  No message
    changes what was recorded, and the worklet never posts an empty chunk:
    a fresh processor has posted none, and neither a message nor a block of
    frames adds one. *)
Theorem worklet_record_off_keeps_every_sample
        (newFunction : Compiler) (p : Worklet.BytebeatProcessor) :
  let off := Worklet.onmessage newFunction (Worklet.record false) in
  recordedBy (off p) = recordedBy p
  /\ concat (chunksOf (Worklet.port (off p))) = recordedBy p
  /\ off (off p) = off p
  /\ (forall m, recordedBy (Worklet.onmessage newFunction m p) = recordedBy p)
  /\ NoEmptyChunk (Worklet.constructor newFunction)
  /\ (NoEmptyChunk p ->
      (forall m, NoEmptyChunk (Worklet.onmessage newFunction m p))
      /\ (forall sr volParam sParam len,
            NoEmptyChunk (snd (Worklet.process newFunction sr volParam sParam len p)))).
Proof.
  cbv zeta.
  pose proof (worklet_onmessage_recorded newFunction (Worklet.record false) p) as [H _].
  pose proof (worklet_record_off newFunction p) as [Hrec Hbuf]. cbv zeta in *.
  split; [exact H|]. split; [|split; [|split; [|split]]].
  - rewrite <- H. unfold recordedBy. rewrite Hbuf. symmetry. apply app_nil_r.
  - set (p1 := Worklet.onmessage newFunction (Worklet.record false) p) in *.
    clearbody p1. destruct p1 as [t1 c1 r1 b1 cs1 port1 cl1]. cbn in Hrec, Hbuf.
    subst r1 b1. reflexivity.
  - intros m. apply worklet_onmessage_recorded.
  - apply worklet_setFormula_recorded. constructor.
  - intros Hne. split.
    + intros m. now apply worklet_onmessage_recorded.
    + intros sr volParam sParam len. unfold Worklet.process.
      now apply worklet_processLoop_recorded.
Qed.

Lemma worklet_record_off_keeps_every_sample_witness :
  NoEmptyChunk (Sample.workletRecording "t")
  /\ NoEmptyChunk (snd (Worklet.process Sample.engine 8000 [1%Q] [8000%Q] 5
                          (Sample.workletRecording "t"))).
Proof.
  assert (H : NoEmptyChunk (Sample.workletRecording "t")) by constructor.
  split; [exact H|].
  exact (proj2 (proj2 (proj2 (proj2 (proj2 (proj2
           (worklet_record_off_keeps_every_sample Sample.engine
              (Sample.workletRecording "t")))))) H) 8000%Q [1%Q] [8000%Q] 5%nat).
Defined.

(** ** The range of the output *)


Lemma quantize_zero_gain (raw : Z) (g : Q) : (g == 0)%Q -> (quantize raw g == 0)%Q.
Proof. intros H. unfold quantize. cbv zeta. rewrite H. ring. Qed.


Section OutputRange.
Variable newFunction : Compiler.


Lemma worklet_processLoop_muted (inc : Q) (vol : Q) (sParam : list Q) (n i : nat)
      (p : Worklet.BytebeatProcessor) :
  (vol == 0)%Q ->
  Forall (fun x => x == 0)%Q
         (fst (Worklet.processLoop newFunction inc [vol] sParam i n p)).
Proof.
  intros Hv. revert i p. induction n as [|n IH]; intros i p; [constructor|].
  cbn [Worklet.processLoop].
  pose proof (worklet_processSample_spec newFunction inc (Worklet.param_at [vol] i)
                (Worklet.param_at sParam i) p) as (Hout & _).
  destruct (Worklet.processSample newFunction inc _ _ p) as [sample p1].
  specialize (IH (S i) p1).
  destruct (Worklet.processLoop newFunction inc [vol] sParam (S i) n p1) as [rest p2].
  cbn [fst] in *. constructor; [|exact IH]. subst sample.
  now apply quantize_zero_gain.
Qed.


End OutputRange.



(** ** The volume 0 on the two backends *)

Section VolumeFacts.
Variable newFunction : Compiler.

Lemma ScriptInv_set_volume (v : Q) (e : Ext.BytebeatExtension) :
  ScriptInv e -> ScriptInv (Ext.set_volume v e).
Proof. destruct e. exact (fun H => H). Qed.

Lemma script_evalRaw_set_volume (v logicalS : Q) (s : Ext.ScriptState)
      (e : Ext.BytebeatExtension) :
  Ext.script_evalRaw newFunction logicalS s (Ext.set_volume v e)
  = (fst (Ext.script_evalRaw newFunction logicalS s e),
     Ext.set_volume v (snd (Ext.script_evalRaw newFunction logicalS s e))).
Proof.
  unfold Ext.script_evalRaw, Ext.scriptFallback.
  destruct e as [ctx nd pl uw wl ls vol fm rec samples mx pc sc lg cl].
  destruct (Ext._scriptCompiledFunc s) as [f|]; [|reflexivity].
  destruct (f _ _ _); [reflexivity|]. ext_simpl.
  destruct (newFunction ERROR_FALLBACK_FORMULA); destruct sc; reflexivity.
Qed.

Lemma afterScriptRecord_set_volume (v x : Q) (e : Ext.BytebeatExtension) :
  afterScriptRecord x (Ext.set_volume v e) = Ext.set_volume v (afterScriptRecord x e).
Proof.
  unfold afterScriptRecord, afterChunk, postRecordOff, scriptStopRecording.
  destruct e as [ctx nd pl uw wl ls vol fm rec samples mx pc sc lg cl]. ext_simpl.
  destruct sc as [[ct csr cf buf rc cs]|]; ext_simpl; [|reflexivity].
  destruct rc; ext_simpl; [|reflexivity].
  destruct (_ >=? cs); ext_simpl; [|reflexivity].
  destruct (_ >? mx); ext_simpl; [|reflexivity].
  destruct nd as [[nodePort|]|]; ext_simpl; try reflexivity;
    destruct uw; ext_simpl; try reflexivity;
    destruct (buf ++ [x]); reflexivity.
Qed.

Lemma onScript_set_volume (v : Q) (f : Ext.ScriptState -> Ext.ScriptState)
      (e : Ext.BytebeatExtension) :
  Ext.onScript f (Ext.set_volume v e) = Ext.set_volume v (Ext.onScript f e).
Proof. destruct e as [ctx nd pl uw wl ls vol fm rec samples mx pc [s|] lg cl]; reflexivity. Qed.

Lemma volume_set_volume (v : Q) (e : Ext.BytebeatExtension) :
  Ext.volume (Ext.set_volume v e) = v.
Proof. now destruct e. Qed.

Lemma script_set_volume (v : Q) (e : Ext.BytebeatExtension) :
  Ext.script (Ext.set_volume v e) = Ext.script e.
Proof. now destruct e. Qed.

(** A block depends on the volume only through the gain. *)
Lemma script_processLoop_set_volume (fuel : nat) (v logicalS inc : Q) (n : nat)
      (e : Ext.BytebeatExtension) (s : Ext.ScriptState) :
  (2 <= fuel)%nat -> Ext.script e = Some s -> ScriptInv e ->
  JS.orQ v 1 = blockGain e ->
  exists outs e',
    Ext.script_processLoop newFunction fuel logicalS inc n e = Some (outs, e')
    /\ Ext.script_processLoop newFunction fuel logicalS inc n (Ext.set_volume v e)
       = Some (outs, Ext.set_volume v e').
Proof.
  intros Hfuel. revert e s. induction n as [|n IH]; intros e s Hs Hinv Hg.
  - exists [], e. split; reflexivity.
  - cbn [Ext.script_processLoop].
    rewrite (script_processSample_total newFunction fuel logicalS inc e s Hfuel Hs Hinv).
    rewrite (script_processSample_total newFunction fuel logicalS inc
               (Ext.set_volume v e) s Hfuel);
      [|now rewrite script_set_volume|now apply ScriptInv_set_volume].
    cbv zeta. rewrite script_evalRaw_set_volume. cbn [fst snd].
    destruct (script_evalRaw_frame newFunction logicalS s e Hs)
      as ((s1 & Hs1 & _) & Hv1 & _).
    pose proof (script_evalRaw_inv newFunction logicalS s e Hs Hinv) as Hinv1.
    set (raw := fst (Ext.script_evalRaw newFunction logicalS s e)) in *.
    set (e1 := snd (Ext.script_evalRaw newFunction logicalS s e)) in *.
    clearbody raw e1.
    rewrite volume_set_volume, Hg. unfold blockGain. rewrite Hv1.
    set (x := quantize raw (JS.orQ (Ext.volume e) 1)).
    rewrite afterScriptRecord_set_volume, onScript_set_volume.
    pose proof (afterScriptRecord_inv x e1 Hinv1) as Hinv2.
    destruct (afterScriptRecord_frame x e1 s1 Hs1) as ((s2 & Hs2 & _) & Hv2 & _).
    set (e2 := afterScriptRecord x e1) in *. clearbody e2.
    set (e3 := Ext.onScript (fun s0 => Ext.set_closure_t (JS.add (Ext.closure_t s0) inc) s0) e2).
    assert (Hs3 : Ext.script e3
                  = Some (Ext.set_closure_t (JS.add (Ext.closure_t s2) inc) s2)).
    { unfold e3, Ext.onScript. rewrite Hs2. now destruct e2. }
    assert (Hinv3 : ScriptInv e3).
    { intros s' Hs'. rewrite Hs3 in Hs'. injection Hs' as <-.
      assert (Ext.recordMaxSamples e3 = Ext.recordMaxSamples e2) as ->.
      { unfold e3, Ext.onScript. rewrite Hs2. now destruct e2. }
      destruct s2; exact (Hinv2 _ Hs2). }
    assert (Hv3 : Ext.volume e3 = Ext.volume e).
    { unfold e3, Ext.onScript. rewrite Hs2. destruct e2; cbn in *. congruence. }
    destruct (IH e3 _ Hs3 Hinv3) as (outs & e' & H1 & H2).
    { unfold blockGain in *. now rewrite Hv3. }
    exists (x :: outs), e'. cbn [fst snd]. rewrite H1, H2. split; reflexivity.
Qed.

End VolumeFacts.

(** X4.  The volume 0 means silence on the worklet and full gain on the block
    backend.  [setProperty('Volume', v)] with [v <= 0] stores a zero volume;
    with a zero volume parameter every frame of [process] is 0, while a
    block of [processFunc] has the very output, and leaves the very state,
    of the same block played at the volume 1. *)
Theorem volume_zero_mutes_the_worklet_only (newFunction : Compiler) :
  (forall fuel v e, (v <= 0)%Q ->
     exists e', Ext.setProperty newFunction fuel Ext.Volume v e = Some e'
                /\ (Ext.volume e' == 0)%Q)
  /\ (forall vol sr sParam len p, (vol == 0)%Q ->
        Forall (fun x => x == 0)%Q
               (fst (Worklet.process newFunction sr [vol] sParam len p)))
  /\ (forall fuel blockLen e s,
        (2 <= fuel)%nat -> Ext.script e = Some s -> ScriptInv e ->
        (Ext.volume e == 0)%Q ->
        exists outs e',
          Ext.processFunc newFunction fuel blockLen e = Some (outs, e')
          /\ Ext.processFunc newFunction fuel blockLen (Ext.set_volume 1 e)
             = Some (outs, Ext.set_volume 1 e')).
Proof.
  split; [|split].
  - intros fuel v e Hv. eexists. split; [reflexivity|].
    rewrite volume_set_volume. unfold JS.Math_max, JS.Math_min.
    destruct (Qle_bool 4 v) eqn:H4.
    + apply Qle_bool_iff in H4. lra.
    + destruct (Qle_bool 0 v) eqn:H0; [|reflexivity].
      apply Qle_bool_iff in H0. lra.
  - intros vol sr sParam len p Hv. unfold Worklet.process.
    now apply worklet_processLoop_muted.
  - intros fuel blockLen e s Hfuel Hs Hinv Hv. unfold Ext.processFunc.
    rewrite script_set_volume, Hs.
    assert (Ext.logicalSampleRate (Ext.set_volume 1 e) = Ext.logicalSampleRate e) as ->
      by now destruct e.
    apply (script_processLoop_set_volume newFunction fuel 1 _ _ blockLen e s Hfuel Hs Hinv).
    unfold blockGain, JS.orQ, JS.truthyQ.
    apply Qeq_bool_iff in Hv. now rewrite Hv.
Qed.

Lemma volume_zero_mutes_the_worklet_only_witness :
  (exists e', Ext.setProperty Sample.engine 2 Ext.Volume (-1) (Sample.blockStarted "t")
              = Some e' /\ (Ext.volume e' == 0)%Q)
  /\ Forall (fun x => x == 0)%Q
            (fst (Worklet.process Sample.engine 8000 [0%Q] [8000%Q] 3
                    (Worklet.constructor Sample.engine)))
  /\ exists outs e',
      Ext.processFunc Sample.engine 2 3
        (Ext.set_volume 0 (Sample.blockStarted "t")) = Some (outs, e')
      /\ Ext.processFunc Sample.engine 2 3
           (Ext.set_volume 1 (Ext.set_volume 0 (Sample.blockStarted "t")))
         = Some (outs, Ext.set_volume 1 e').
Proof.
  split; [|split].
  - apply (proj1 (volume_zero_mutes_the_worklet_only Sample.engine)). discriminate.
  - apply (proj1 (proj2 (volume_zero_mutes_the_worklet_only Sample.engine))).
    reflexivity.
  - apply (proj2 (proj2 (volume_zero_mutes_the_worklet_only Sample.engine)) 2%nat 3%nat
                 (Ext.set_volume 0 (Sample.blockStarted "t"))
                 (Sample.scriptOf (Sample.blockStarted "t"))).
    + lia.
    + reflexivity.
    + apply ScriptInv_check. vm_compute. reflexivity.
    + reflexivity.
Defined.

(** ** Stopping *)

(** Proves [ScriptInv] of an explicit state by its computable check. *)
Ltac script_inv :=
  apply ScriptInv_check; unfold scriptInvb; ext_simpl; cbn [length] in *; lia.

Section StopFacts.
Variable newFunction : Compiler.

Lemma scriptRecordOff_spec (fuel : nat) (e : Ext.BytebeatExtension) :
  (2 <= fuel)%nat -> ScriptInv e ->
  Ext._handleScriptMessage newFunction fuel (Worklet.record false) e
  = Some (scriptRecordOff e).
Proof.
  intros Hfuel Hinv.
  unfold Ext._handleScriptMessage, Ext._handleScriptMessage_with, scriptRecordOff.
  destruct (Ext.script e) as [s|] eqn:Hs; [|reflexivity].
  destruct (Ext._scriptRecordBuffer s) as [|x buf] eqn:Hb; [reflexivity|].
  change (Ext._handleNodeMessage newFunction fuel)
    with (Ext._handleNodeMessage newFunction fuel).
  rewrite handleNode_recordChunk; [reflexivity|exact Hfuel|].
  intros s' Hs'. destruct (Hinv s Hs) as (_ & Hlt & Hmax).
  destruct e as [ctx nd pl uw wl ls vol fm rec samples mx pc sc lg cl].
  cbn in Hs. subst sc. destruct s as [ct csr cf buf0 rc cs]. ext_simpl.
  injection Hs' as <-. cbn in *. lia.
Qed.

Lemma afterRecordOff_spec (fuel : nat) (e : Ext.BytebeatExtension) :
  (2 <= fuel)%nat -> ScriptInv e ->
  Ext._postToNode newFunction fuel (Worklet.record false) e = Some (afterRecordOff e).
Proof.
  intros Hfuel Hinv. unfold Ext._postToNode, Ext._postToNode_with, afterRecordOff.
  destruct (Ext.node e) as [[nodePort|]|]; try reflexivity;
    destruct (Ext._usingWorklet e); try reflexivity;
    now apply scriptRecordOff_spec.
Qed.

Lemma scriptRecordOff_frame (e : Ext.BytebeatExtension) :
  ScriptInv e -> Ext._usingWorklet e = false ->
  let e' := scriptRecordOff e in
  sameSettings e e'
  /\ Ext.node e' = Ext.node e
  /\ Ext.isPlaying e' = Ext.isPlaying e
  /\ ScriptInv e'
  /\ (forall s, Ext.script e = Some s ->
        exists s', Ext.script e' = Some s'
                   /\ Ext._scriptRecording s' = false
                   /\ Ext._scriptRecordBuffer s' = []
                   /\ Ext.closure_t s' = Ext.closure_t s
                   /\ Ext._scriptCompiledFunc s' = Ext._scriptCompiledFunc s
                   /\ Ext._scriptRecordChunkSize s' = Ext._scriptRecordChunkSize s)
  /\ (forall s, Ext.script e = Some s ->
        Z.of_nat (length (Ext.recordedSamples e ++ Ext._scriptRecordBuffer s))
        <= Ext.recordMaxSamples e ->
        Ext.recordedSamples e' = Ext.recordedSamples e ++ Ext._scriptRecordBuffer s
        /\ Ext.recording e' = Ext.recording e
        /\ Ext.log e' = Ext.log e).
Proof.
  intros Hinv Hu. unfold scriptRecordOff, sameSettings.
  destruct (Ext.script e) as [s|] eqn:Hs.
  2:{ cbv zeta. repeat apply conj; try reflexivity; try exact Hinv; intros ? [=]. }
  destruct (Hinv s Hs) as (Hpos & Hlt & Hmax). clear Hinv.
  destruct e as [ctx nd pl uw wl ls vol fm rec samples mx pc sc lg cl].
  cbn in Hs, Hu. subst sc uw.
  destruct s as [ct csr cf buf rc cs]. ext_simpl. cbn in Hlt.
  destruct buf as [|x buf]; ext_simpl.
  - repeat apply conj; try reflexivity.
    + script_inv.
    + intros s' Hs'. injection Hs' as <-. eexists. frame_done.
    + intros s' Hs' _. injection Hs' as <-. cbn. now rewrite app_nil_r.
  - unfold afterChunk, postRecordOff, scriptStopRecording. ext_simpl.
    destruct (_ >? mx) eqn:Hgt; ext_simpl.
    + destruct nd as [[nodePort|]|]; ext_simpl;
        (repeat apply conj; try reflexivity;
         [ script_inv
         | intros s' Hs'; injection Hs' as <-; eexists; frame_done
         | intros s' Hs' Hle; injection Hs' as <-; cbn in Hle; cbn [length] in *; lia ]).
    + repeat apply conj; try reflexivity.
      * script_inv.
      * intros s' Hs'. injection Hs' as <-. eexists. frame_done.
      * intros s' Hs' _. injection Hs' as <-. cbn. auto.
Qed.

Lemma afterRecordOff_frame (e : Ext.BytebeatExtension) :
  ScriptInv e ->
  let e' := afterRecordOff e in
  sameSettings e e'
  /\ Ext.isPlaying e' = Ext.isPlaying e
  /\ ScriptInv e'
  /\ (Ext.node e = None <-> Ext.node e' = None).
Proof.
  intros Hinv. unfold afterRecordOff. cbv zeta.
  destruct (Ext.node e) as [[nodePort|]|] eqn:Hn;
    try destruct (Ext._usingWorklet e) eqn:Hu.
  - destruct e as [ctx nd pl uw wl ls vol fm rec samples mx pc sc lg cl].
    cbn in *. unfold sameSettings. cbn.
    repeat apply conj; auto; try exact Hinv; intros ?; discriminate.
  - destruct (scriptRecordOff_frame e Hinv Hu) as (H1 & H2 & H3 & H4 & _).
    cbv zeta in *. rewrite H2, Hn. tauto.
  - unfold sameSettings. rewrite Hn. repeat apply conj; auto.
  - destruct (scriptRecordOff_frame e Hinv Hu) as (H1 & H2 & H3 & H4 & _).
    cbv zeta in *. rewrite H2, Hn. tauto.
  - unfold sameSettings. rewrite Hn. repeat apply conj; auto.
  - unfold sameSettings. rewrite Hn. repeat apply conj; auto.
Qed.

End StopFacts.

Lemma stop_spec (newFunction : Compiler) (fuel : nat)
        (e : Ext.BytebeatExtension) :
  (2 <= fuel)%nat -> ScriptInv e ->
  exists e',
    Ext.stop newFunction fuel e = Some e'
    /\ Ext.isPlaying e' = false
    /\ (Ext.isPlaying e = true -> Ext.node e' = None)
    /\ (Ext.isPlaying e = false -> e' = e)
    /\ Ext.stop newFunction fuel e' = Some e'
    /\ sameSettings e e'
    /\ ScriptInv e'
    /\ (forall s,
          Ext.isPlaying e = true -> Ext.node e = Some Ext.ScriptProcessorNode ->
          Ext._usingWorklet e = false -> Ext.script e = Some s ->
          Z.of_nat (length (Ext.recordedSamples e ++ Ext._scriptRecordBuffer s))
          <= Ext.recordMaxSamples e ->
          Ext.recordedSamples e' = Ext.recordedSamples e ++ Ext._scriptRecordBuffer s
          /\ Ext.recording e' = Ext.recording e
          /\ exists s', Ext.script e' = Some s'
                        /\ Ext._scriptRecording s' = false
                        /\ Ext._scriptRecordBuffer s' = []).
Proof.
  intros Hfuel Hinv. unfold Ext.stop, Ext._stopAudio.
  destruct (Ext.isPlaying e) eqn:Hp; cbn [negb].
  2:{ exists e. rewrite Hp. cbn [negb].
      repeat apply conj; auto; discriminate. }
  destruct (Ext.node e) as [nd|] eqn:Hn.
  - rewrite afterRecordOff_spec by assumption.
    destruct (afterRecordOff_frame e Hinv) as (Hset & Hpl & Hinv' & _).
    cbv zeta in *.
    assert (Hblock : forall s,
               Ext.node e = Some Ext.ScriptProcessorNode ->
               Ext._usingWorklet e = false -> Ext.script e = Some s ->
               Z.of_nat (length (Ext.recordedSamples e ++ Ext._scriptRecordBuffer s))
               <= Ext.recordMaxSamples e ->
               Ext.recordedSamples (afterRecordOff e)
               = Ext.recordedSamples e ++ Ext._scriptRecordBuffer s
               /\ Ext.recording (afterRecordOff e) = Ext.recording e
               /\ exists s', Ext.script (afterRecordOff e) = Some s'
                             /\ Ext._scriptRecording s' = false
                             /\ Ext._scriptRecordBuffer s' = []).
    { intros s Hnode Hu Hs Hle. unfold afterRecordOff. rewrite Hnode, Hu.
      destruct (scriptRecordOff_frame e Hinv Hu) as (_ & _ & _ & _ & H5 & H6).
      destruct (H5 s Hs) as (s' & Hs' & Hr' & Hb' & _).
      destruct (H6 s Hs Hle) as (Hsam & Hrec & _). eauto 10. }
    set (e1 := afterRecordOff e) in *. clearbody e1.
    exists (Ext.set_isPlaying false (Ext.set_node None e1)).
    destruct e1 as [ctx nd1 pl uw wl ls vol fm rec samples mx pc sc lg cl].
    unfold sameSettings in *. cbn in *.
    repeat apply conj; try reflexivity; try tauto; try discriminate.
    intros s _ H1 H2 H3 H4. apply (Hblock s); congruence.
  - exists (Ext.set_isPlaying false e).
    destruct e as [ctx nd1 pl uw wl ls vol fm rec samples mx pc sc lg cl].
    unfold sameSettings. cbn in *. subst.
    repeat apply conj; try reflexivity; try tauto; try discriminate.
Qed.

(** X5.  [stop] always returns and ends playback: afterwards [isPlaying] is
    false and, if it was playing, the node is gone; a second [stop], like
    any [stop] while not playing, changes nothing.  The formula, the
    volume, the rates, the chunk size and the audio context are kept.  On
    the block backend the samples waiting in the buffer are delivered to
    [recordedSamples] first, and the recording flag of the extension stays
    as it was. *)
Theorem stop_ends_playback (newFunction : Compiler) (fuel : nat)
        (e : Ext.BytebeatExtension) :
  (2 <= fuel)%nat -> ScriptInv e ->
  exists e',
    Ext.stop newFunction fuel e = Some e'
    /\ Ext.isPlaying e' = false
    /\ (Ext.isPlaying e = true -> Ext.node e' = None)
    /\ (Ext.isPlaying e = false -> e' = e)
    /\ Ext.stop newFunction fuel e' = Some e'
    /\ sameSettings e e'
    /\ ScriptInv e'
    /\ (forall s,
          Ext.isPlaying e = true -> Ext.node e = Some Ext.ScriptProcessorNode ->
          Ext._usingWorklet e = false -> Ext.script e = Some s ->
          Z.of_nat (length (Ext.recordedSamples e ++ Ext._scriptRecordBuffer s))
          <= Ext.recordMaxSamples e ->
          Ext.recordedSamples e' = Ext.recordedSamples e ++ Ext._scriptRecordBuffer s
          /\ Ext.recording e' = Ext.recording e
          /\ exists s', Ext.script e' = Some s'
                        /\ Ext._scriptRecording s' = false
                        /\ Ext._scriptRecordBuffer s' = []).
Proof. apply stop_spec. Qed.

Lemma stop_ends_playback_witness :
  exists e',
    Ext.stop Sample.engine 2 (Sample.blockRecording "t" 1) = Some e'
    /\ Ext.isPlaying e' = false /\ Ext.node e' = None.
Proof.
  destruct (stop_ends_playback Sample.engine 2 (Sample.blockRecording "t" 1))
    as (e' & H & Hp & Hn & _).
  - lia.
  - apply ScriptInv_check. vm_compute. reflexivity.
  - exists e'. repeat split; [exact H|exact Hp|]. apply Hn. reflexivity.
Defined.

(** ** Starting *)

Section StartBackendFacts.
Variable newFunction : Compiler.

Lemma startAudio_block (fuel : nat) (ctx : Ext.AudioContext) (e : Ext.BytebeatExtension) :
  Ext.audioCtx e = Some ctx -> Ext.isPlaying e = false -> Ext._usingWorklet e = false ->
  exists e' lg',
    Ext._startAudio newFunction fuel e = Some e'
    /\ e' = Ext.mkExtension (Some ctx) (Some Ext.ScriptProcessorNode) true false
              (Ext._workletLoaded e) (Ext.logicalSampleRate e) (Ext.volume e)
              (Ext.formula e) (Ext.recording e) (Ext.recordedSamples e)
              (Ext.recordMaxSamples e) (Ext.preferredChunkSize e)
              (Some (Ext.mkScript 0%Q (Ext.sampleRate ctx)
                       (unchecked newFunction (Ext.formula e)) []
                       (Ext.recording e) (Ext.preferredChunkSize e)))
              lg'
              (Ext.compileLog e
                 ++ compiledByBlockStart newFunction (Ext.formula e)
                                         (Ext.logicalSampleRate e)).
Proof.
  intros Hctx Hp Hu. unfold Ext._startAudio. rewrite Hctx, Hp, Hu.
  unfold Ext._createScriptProcessor, Ext._handleScriptMessage,
    Ext._handleScriptMessage_with, Ext.scriptFallback, unchecked, compiledByBlockStart.
  destruct e as [c nd pl uw wl ls vol fm rec samples mx pc sc lg cl].
  cbn in Hctx, Hp, Hu. subst c pl uw. ext_simpl.
  destruct (newFunction fm) as [f|] eqn:Hf; ext_simpl.
  - destruct (f 0 (inject_Z ls) 0%Q); ext_simpl.
    + rewrite ?Hf. ext_simpl. destruct rec; ext_simpl; rewrite <- ?app_assoc; eexists _, _; split; reflexivity.
    + destruct (newFunction ERROR_FALLBACK_FORMULA); ext_simpl;
        rewrite ?Hf; ext_simpl; destruct rec; ext_simpl; rewrite <- ?app_assoc; eexists _, _; split; reflexivity.
  - destruct (newFunction ERROR_FALLBACK_FORMULA) eqn:Hfb; ext_simpl;
      rewrite ?Hf; ext_simpl; rewrite ?Hfb; ext_simpl;
      destruct rec; ext_simpl; rewrite <- ?app_assoc; eexists _, _; split; reflexivity.
Qed.

Lemma startAudio_worklet (fuel : nat) (ctx : Ext.AudioContext) (e : Ext.BytebeatExtension) :
  Ext.audioCtx e = Some ctx -> Ext.isPlaying e = false -> Ext._usingWorklet e = true ->
  Ext._startAudio newFunction fuel e
  = Some (Ext.set_isPlaying true
            (Ext.set_node
               (Some (Ext.AudioWorkletNode
                        [Worklet.setChunkSize (Ext.preferredChunkSize e);
                         Worklet.setFormula (Ext.formula e)])) e)).
Proof.
  intros Hctx Hp Hu. unfold Ext._startAudio. rewrite Hctx, Hp, Hu.
  unfold Ext._postToNode, Ext._postToNode_with.
  destruct e as [c nd pl uw wl ls vol fm rec samples mx pc sc lg cl].
  cbn in Hctx, Hp, Hu. subst c pl uw. reflexivity.
Qed.

Lemma ensureAudioPrepared_spec (host : Ext.Host) (e : Ext.BytebeatExtension) :
  let r := Ext._ensureAudioPrepared host e in
  fst r = match Ext.audioCtx e with
          | Some _ => true
          | None => Ext.canCreateContext host
          end
  /\ (fst r = true ->
      exists lg',
        snd r = Ext.mkExtension
                  (Some (match Ext.audioCtx e with
                         | Some ctx => ctx
                         | None => Ext.mkContext (Ext.hostSampleRate host)
                         end))
                  (Ext.node e) (Ext.isPlaying e)
                  (willUseWorklet host e) (willUseWorklet host e)
                  (Ext.logicalSampleRate e) (Ext.volume e) (Ext.formula e)
                  (Ext.recording e) (Ext.recordedSamples e) (Ext.recordMaxSamples e)
                  (Ext.preferredChunkSize e) (Ext.script e) lg' (Ext.compileLog e))
  /\ (fst r = false ->
      snd r = Ext.addLog (Ext.alert "Web Audio API not supported.") e).
Proof.
  unfold Ext._ensureAudioPrepared, willUseWorklet.
  destruct e as [ctx nd pl uw wl ls vol fm rec samples mx pc sc lg cl]. ext_simpl.
  destruct ctx as [ctx|]; ext_simpl.
  - destruct (Ext.hasAudioWorklet host), wl, (Ext.addModuleSucceeds host); ext_simpl;
      (split; [reflexivity|split; [intros _; eexists; reflexivity|discriminate]]).
  - destruct (Ext.canCreateContext host); ext_simpl.
    + destruct (Ext.hasAudioWorklet host), wl, (Ext.addModuleSucceeds host); ext_simpl;
        (split; [reflexivity|split; [intros _; eexists; reflexivity|discriminate]]).
    + split; [reflexivity|split; [discriminate|reflexivity]].
Qed.

End StartBackendFacts.

Lemma startFormula_from_rest (newFunction : Compiler) (fuel : nat)
        (host : Ext.Host) (FORMULA : string) (e : Ext.BytebeatExtension) :
  Ext.node e = None -> Ext.isPlaying e = false ->
  exists e',
    Ext.startFormula newFunction fuel host FORMULA e = Some e'
    /\ Ext.formula e' = screened FORMULA (Ext.formula e)
    /\ Ext.recording e' = Ext.recording e
    /\ Ext.recordedSamples e' = Ext.recordedSamples e
    /\ Ext.volume e' = Ext.volume e
    /\ Ext.logicalSampleRate e' = Ext.logicalSampleRate e
    /\ Ext.preferredChunkSize e' = Ext.preferredChunkSize e
    /\ match Ext.audioCtx e, Ext.canCreateContext host with
       | None, false =>
           Ext.isPlaying e' = false /\ Ext.node e' = None
           /\ Ext.audioCtx e' = None
           /\ Ext.compileLog e' = Ext.compileLog e
           /\ exists lg, Ext.log e'
                         = Ext.log e ++ lg ++ [Ext.alert "Web Audio API not supported."]
       | _, _ =>
           Ext.isPlaying e' = true
           /\ Ext._usingWorklet e' = willUseWorklet host e
           /\ Ext._workletLoaded e' = willUseWorklet host e
           /\ exists ctx,
               Ext.audioCtx e' = Some ctx
               /\ (forall ctx0, Ext.audioCtx e = Some ctx0 -> ctx = ctx0)
               /\ (Ext.audioCtx e = None -> Ext.sampleRate ctx = Ext.hostSampleRate host)
               /\ if willUseWorklet host e
                  then Ext.node e'
                       = Some (Ext.AudioWorkletNode
                                 [Worklet.setChunkSize (Ext.preferredChunkSize e);
                                  Worklet.setFormula (Ext.formula e')])
                       /\ Ext.compileLog e' = Ext.compileLog e
                       /\ Ext.script e' = Ext.script e
                  else Ext.node e' = Some Ext.ScriptProcessorNode
                       /\ Ext.script e'
                          = Some (Ext.mkScript 0%Q (Ext.sampleRate ctx)
                                    (unchecked newFunction (Ext.formula e')) []
                                    (Ext.recording e) (Ext.preferredChunkSize e))
       end.
Proof.
  intros Hn Hp. unfold Ext.startFormula.
  set (e0 := match _sanityCheckFormula _ with None => _ | Some _ => _ end).
  assert (He0 : exists lg,
             e0 = Ext.mkExtension (Ext.audioCtx e) None false (Ext._usingWorklet e)
                    (Ext._workletLoaded e) (Ext.logicalSampleRate e) (Ext.volume e)
                    (screened FORMULA (Ext.formula e)) (Ext.recording e)
                    (Ext.recordedSamples e) (Ext.recordMaxSamples e)
                    (Ext.preferredChunkSize e) (Ext.script e) (Ext.log e ++ lg)
                    (Ext.compileLog e)).
  { unfold e0, screened.
    destruct e as [ctx nd pl uw wl ls vol fm rec samples mx pc sc lg cl].
    cbn in Hn, Hp. subst nd pl. ext_simpl.
    destruct (_sanityCheckFormula _); ext_simpl.
    - eexists. reflexivity.
    - exists []. now rewrite app_nil_r. }
  clearbody e0. destruct He0 as (lg0 & ->).
  match goal with |- context [Ext._ensureAudioPrepared host ?x] =>
    destruct (ensureAudioPrepared_spec host x) as (Hfst & Htrue & Hfalse);
    destruct (Ext._ensureAudioPrepared host x) as [prepared e1]
  end.
  cbn [fst snd] in *. ext_simpl.
  destruct prepared.
  - destruct (Htrue eq_refl) as (lg1 & ->). clear Htrue Hfalse.
    unfold Ext._postToNode at 1, Ext._postToNode_with at 1. ext_simpl.
    unfold willUseWorklet in *. ext_simpl.
    set (w := Ext._workletLoaded e || Ext.hasAudioWorklet host && Ext.addModuleSucceeds host)
      in *.
    assert (Hcase : match Ext.audioCtx e, Ext.canCreateContext host with
                    | None, false => False
                    | _, _ => True
                    end).
    { destruct (Ext.audioCtx e); [exact I|].
      destruct (Ext.canCreateContext host); [exact I|discriminate]. }
    set (ctx := match Ext.audioCtx e with
                | Some ctx => ctx
                | None => Ext.mkContext (Ext.hostSampleRate host)
                end) in *.
    assert (Hctx : (forall ctx0, Ext.audioCtx e = Some ctx0 -> ctx = ctx0)
                   /\ (Ext.audioCtx e = None
                       -> Ext.sampleRate ctx = Ext.hostSampleRate host)).
    { unfold ctx. destruct (Ext.audioCtx e); split; congruence || reflexivity || auto. }
    clearbody ctx. destruct w eqn:Hw.
    + rewrite startAudio_worklet with (ctx := ctx) by reflexivity.
      eexists. split; [reflexivity|]. ext_simpl.
      repeat (split; [reflexivity|]).
      destruct (Ext.audioCtx e); [|destruct (Ext.canCreateContext host); [|contradiction]];
        (repeat (split; [reflexivity|]); exists ctx;
         repeat apply conj; try reflexivity; tauto).
    + match goal with |- context [Ext._startAudio newFunction fuel ?x] =>
        destruct (startAudio_block newFunction fuel ctx x eq_refl eq_refl eq_refl)
          as (e' & lg' & -> & He')
      end.
      ext_simpl. exists e'. split; [reflexivity|]. rewrite He'. ext_simpl.
      repeat (split; [reflexivity|]).
      destruct (Ext.audioCtx e); [|destruct (Ext.canCreateContext host); [|contradiction]];
        (repeat (split; [reflexivity|]); exists ctx;
         repeat apply conj; try reflexivity; tauto).
  - rewrite (Hfalse eq_refl). clear Htrue Hfalse. ext_simpl.
    eexists. split; [reflexivity|]. ext_simpl.
    repeat (split; [reflexivity|]).
    destruct (Ext.audioCtx e); [discriminate|].
    destruct (Ext.canCreateContext host); [discriminate|].
    repeat (split; [reflexivity|]). exists lg0. now rewrite app_assoc.
Qed.

(** X6.  A start from rest.  [startFormula] on an extension that is not playing
    stores the screened text and, when the page has Web Audio, ends playing
    on the continuous backend exactly when the worklet module is or gets
    loaded.  There the new node has been sent the chunk size and the
    formula and nothing else, and nothing is compiled on the main thread;
    otherwise a fresh block backend exists, its clock at 0, its buffer
    empty, its recording flag the one of the extension.  Without Web Audio
    nothing is started and an alert is raised. *)
Theorem start_selects_the_backend (newFunction : Compiler) (fuel : nat)
        (host : Ext.Host) (FORMULA : string) (e : Ext.BytebeatExtension) :
  Ext.node e = None -> Ext.isPlaying e = false ->
  exists e',
    Ext.startFormula newFunction fuel host FORMULA e = Some e'
    /\ Ext.formula e' = screened FORMULA (Ext.formula e)
    /\ Ext.recording e' = Ext.recording e
    /\ Ext.recordedSamples e' = Ext.recordedSamples e
    /\ Ext.volume e' = Ext.volume e
    /\ Ext.logicalSampleRate e' = Ext.logicalSampleRate e
    /\ Ext.preferredChunkSize e' = Ext.preferredChunkSize e
    /\ match Ext.audioCtx e, Ext.canCreateContext host with
       | None, false =>
           Ext.isPlaying e' = false /\ Ext.node e' = None
           /\ Ext.audioCtx e' = None
           /\ Ext.compileLog e' = Ext.compileLog e
           /\ exists lg, Ext.log e'
                         = Ext.log e ++ lg ++ [Ext.alert "Web Audio API not supported."]
       | _, _ =>
           Ext.isPlaying e' = true
           /\ Ext._usingWorklet e' = willUseWorklet host e
           /\ Ext._workletLoaded e' = willUseWorklet host e
           /\ exists ctx,
               Ext.audioCtx e' = Some ctx
               /\ (forall ctx0, Ext.audioCtx e = Some ctx0 -> ctx = ctx0)
               /\ (Ext.audioCtx e = None -> Ext.sampleRate ctx = Ext.hostSampleRate host)
               /\ if willUseWorklet host e
                  then Ext.node e'
                       = Some (Ext.AudioWorkletNode
                                 [Worklet.setChunkSize (Ext.preferredChunkSize e);
                                  Worklet.setFormula (Ext.formula e')])
                       /\ Ext.compileLog e' = Ext.compileLog e
                       /\ Ext.script e' = Ext.script e
                  else Ext.node e' = Some Ext.ScriptProcessorNode
                       /\ Ext.script e'
                          = Some (Ext.mkScript 0%Q (Ext.sampleRate ctx)
                                    (unchecked newFunction (Ext.formula e')) []
                                    (Ext.recording e) (Ext.preferredChunkSize e))
       end.
Proof. apply startFormula_from_rest. Qed.

Lemma start_selects_the_backend_witness :
  (exists e',
      Ext.startFormula Sample.engine 2 Sample.host "t" Ext.constructor = Some e'
      /\ Ext.isPlaying e' = true
      /\ Ext.node e' = Some (Ext.AudioWorkletNode
                               [Worklet.setChunkSize 4096; Worklet.setFormula "t"]))
  /\ (exists e',
        Ext.startFormula Sample.engine 2 Sample.hostNoWorklet "t" Ext.constructor = Some e'
        /\ Ext.isPlaying e' = true
        /\ Ext.node e' = Some Ext.ScriptProcessorNode).
Proof.
  split.
  - destruct (start_selects_the_backend Sample.engine 2 Sample.host "t" Ext.constructor
                eq_refl eq_refl) as (e' & H & Hf & _ & _ & _ & _ & _ & Hm).
    destruct Hm as (Hp & _ & _ & ctx & _ & _ & _ & Hnode & _).
    exists e'. rewrite Hf in Hnode. auto.
  - destruct (start_selects_the_backend Sample.engine 2 Sample.hostNoWorklet "t"
                Ext.constructor eq_refl eq_refl) as (e' & H & _ & _ & _ & _ & _ & _ & Hm).
    destruct Hm as (Hp & _ & _ & ctx & _ & _ & _ & Hnode & _).
    exists e'. auto.
Defined.

(** ** Recording and the start of the audio *)

Section RecordStartFacts.
Variable newFunction : Compiler.

Lemma worklet_constructor_not_recording :
  Worklet.recording (Worklet.constructor newFunction) = false
  /\ Worklet.recordBuffer (Worklet.constructor newFunction) = [].
Proof.
  unfold Worklet.constructor.
  destruct (worklet_setFormula_spec newFunction ERROR_FALLBACK_FORMULA
              (Worklet.mkProcessor 0%Q None false [] 4096 [] []))
    as (_ & Hr & Hb & _).
  auto.
Qed.

Lemma recreateScriptProcessor_spec (fuel : nat) (ctx : Ext.AudioContext)
      (e : Ext.BytebeatExtension) :
  Ext.audioCtx e = Some ctx ->
  exists lg',
    Ext._recreateScriptProcessor newFunction fuel e
    = Some (Ext.mkExtension (Some ctx) (Some Ext.ScriptProcessorNode) (Ext.isPlaying e)
              (Ext._usingWorklet e) (Ext._workletLoaded e) (Ext.logicalSampleRate e)
              (Ext.volume e) (Ext.formula e) (Ext.recording e) (Ext.recordedSamples e)
              (Ext.recordMaxSamples e) (Ext.preferredChunkSize e)
              (Some (Ext.mkScript 0%Q (Ext.sampleRate ctx)
                       (unchecked newFunction (Ext.formula e)) []
                       (Ext.recording e) (Ext.preferredChunkSize e)))
              lg'
              (Ext.compileLog e
                 ++ compiledByBlockStart newFunction (Ext.formula e)
                                         (Ext.logicalSampleRate e))).
Proof.
  intros Hctx. unfold Ext._recreateScriptProcessor. rewrite Hctx.
  unfold Ext._createScriptProcessor, Ext._handleScriptMessage,
    Ext._handleScriptMessage_with, Ext.scriptFallback, unchecked, compiledByBlockStart.
  destruct e as [c nd pl uw wl ls vol fm rec samples mx pc sc lg cl].
  cbn in Hctx. subst c. ext_simpl.
  destruct (newFunction fm) as [f|] eqn:Hf; ext_simpl.
  - destruct (f 0 (inject_Z ls) 0%Q); ext_simpl.
    + destruct rec; ext_simpl; rewrite ?Hf; ext_simpl; rewrite <- ?app_assoc;
        eexists; reflexivity.
    + destruct (newFunction ERROR_FALLBACK_FORMULA); ext_simpl;
        destruct rec; ext_simpl; rewrite ?Hf; ext_simpl; rewrite <- ?app_assoc;
        eexists; reflexivity.
  - destruct (newFunction ERROR_FALLBACK_FORMULA) eqn:Hfb; ext_simpl;
      destruct rec; ext_simpl; rewrite ?Hf; ext_simpl; rewrite ?Hfb; ext_simpl;
      rewrite <- ?app_assoc; eexists; reflexivity.
Qed.

End RecordStartFacts.

(** X7.  [recordStart] before the audio is started reaches the block backend
    but not the worklet.  With no node the message [record on] goes
    nowhere; the start that follows sends a new worklet node its chunk
    size and formula only, so its processor does not record, whereas a new
    block backend is given the recording flag of the extension. *)
Theorem recordStart_before_start (newFunction : Compiler) (fuel : nat)
        (host : Ext.Host) (FORMULA : string) (e : Ext.BytebeatExtension) :
  Ext.node e = None -> Ext.isPlaying e = false ->
  (Ext.audioCtx e <> None \/ Ext.canCreateContext host = true) ->
  exists e1 e2,
    Ext.recordStart newFunction fuel e = Some e1
    /\ Ext.startFormula newFunction fuel host FORMULA e1 = Some e2
    /\ Ext.recording e2 = true
    /\ Ext.isPlaying e2 = true
    /\ if willUseWorklet host e
       then portOf e2 = [Worklet.setChunkSize (Ext.preferredChunkSize e);
                         Worklet.setFormula (Ext.formula e2)]
            /\ Worklet.recording (deliver newFunction (portOf e2)
                                          (Worklet.constructor newFunction)) = false
       else exists s, Ext.script e2 = Some s /\ Ext._scriptRecording s = true.
Proof.
  intros Hn Hp Hctx.
  set (e1 := Ext.set_recording true (Ext.set_recordedSamples [] e)).
  assert (H1 : Ext.recordStart newFunction fuel e = Some e1).
  { unfold Ext.recordStart, Ext._postToNode, Ext._postToNode_with, e1.
    destruct e as [c nd pl uw wl ls vol fm rec samples mx pc sc lg cl].
    cbn in Hn. subst nd. reflexivity. }
  assert (Hn1 : Ext.node e1 = None) by (unfold e1; now destruct e).
  assert (Hp1 : Ext.isPlaying e1 = false) by (unfold e1; now destruct e).
  assert (Hw : willUseWorklet host e1 = willUseWorklet host e)
    by (unfold e1; now destruct e).
  assert (Hc1 : Ext.audioCtx e1 = Ext.audioCtx e) by (unfold e1; now destruct e).
  assert (Hr1 : Ext.recording e1 = true) by (unfold e1; now destruct e).
  assert (Hpc1 : Ext.preferredChunkSize e1 = Ext.preferredChunkSize e)
    by (unfold e1; now destruct e).
  destruct (startFormula_from_rest newFunction fuel host FORMULA e1 Hn1 Hp1)
    as (e2 & H2 & _ & Hrec & _ & _ & _ & _ & Hm).
  exists e1, e2. rewrite Hw, Hc1, Hr1, Hpc1 in *. clearbody e1.
  split; [exact H1|]. split; [exact H2|]. split; [exact Hrec|].
  assert (Hm' : Ext.isPlaying e2 = true
                /\ exists ctx,
                    if willUseWorklet host e
                    then Ext.node e2
                         = Some (Ext.AudioWorkletNode
                                   [Worklet.setChunkSize (Ext.preferredChunkSize e);
                                    Worklet.setFormula (Ext.formula e2)])
                    else Ext.script e2
                         = Some (Ext.mkScript 0%Q (Ext.sampleRate ctx)
                                   (unchecked newFunction (Ext.formula e2)) []
                                   true (Ext.preferredChunkSize e))).
  { destruct (Ext.audioCtx e) as [c|].
    - destruct Hm as (Hpl & _ & _ & ctx & _ & _ & _ & Hif).
      split; [exact Hpl|]. exists ctx. destruct (willUseWorklet host e); tauto.
    - destruct (Ext.canCreateContext host); [|destruct Hctx; congruence].
      destruct Hm as (Hpl & _ & _ & ctx & _ & _ & _ & Hif).
      split; [exact Hpl|]. exists ctx. destruct (willUseWorklet host e); tauto. }
  destruct Hm' as (Hpl & ctx & Hif). split; [exact Hpl|].
  destruct (willUseWorklet host e).
  - unfold portOf. rewrite Hif. split; [reflexivity|].
    unfold deliver. cbn [fold_left Worklet.onmessage].
    destruct (worklet_setFormula_spec newFunction (Ext.formula e2)
                (Worklet.set_recordChunkSize
                   (JS.Z_max 128 (JS.Z_min 65536
                      (JS.orZ (Ext.preferredChunkSize e)
                         (Worklet.recordChunkSize (Worklet.constructor newFunction)))))
                   (Worklet.constructor newFunction))) as (_ & Hr & _).
    rewrite Hr. cbn. apply worklet_constructor_not_recording.
  - eexists. split; [exact Hif|reflexivity].
Qed.

Lemma recordStart_before_start_witness :
  exists e1 e2,
    Ext.recordStart Sample.engine 2 Ext.constructor = Some e1
    /\ Ext.startFormula Sample.engine 2 Sample.host "t" e1 = Some e2
    /\ Ext.recording e2 = true
    /\ Worklet.recording (deliver Sample.engine (portOf e2)
                                  (Worklet.constructor Sample.engine)) = false.
Proof.
  destruct (recordStart_before_start Sample.engine 2 Sample.host "t" Ext.constructor
              eq_refl eq_refl (or_intror eq_refl))
    as (e1 & e2 & H1 & H2 & Hr & _ & _ & Hw).
  exists e1, e2. auto.
Defined.

(** X8.  A worklet module that loads only after the block backend has started
    cuts that backend off.  The [startFormula] that loads it stores the new
    text and sets [_usingWorklet], but the playing ScriptProcessor keeps its
    state: nothing is compiled, and from then on every [_postToNode] is
    dropped. *)
Theorem late_worklet_load_cuts_off_the_block_backend
        (newFunction : Compiler) (fuel : nat) (host : Ext.Host) (FORMULA : string)
        (e : Ext.BytebeatExtension) (ctx : Ext.AudioContext) :
  Ext.audioCtx e = Some ctx -> Ext.node e = Some Ext.ScriptProcessorNode ->
  Ext.isPlaying e = true -> Ext._workletLoaded e = false ->
  Ext.hasAudioWorklet host = true -> Ext.addModuleSucceeds host = true ->
  exists e',
    Ext.startFormula newFunction fuel host FORMULA e = Some e'
    /\ Ext.formula e' = screened FORMULA (Ext.formula e)
    /\ Ext._usingWorklet e' = true
    /\ Ext.node e' = Some Ext.ScriptProcessorNode
    /\ Ext.isPlaying e' = true
    /\ Ext.script e' = Ext.script e
    /\ Ext.compileLog e' = Ext.compileLog e
    /\ (forall fuel' m, Ext._postToNode newFunction fuel' m e' = Some e').
Proof.
  intros Hctx Hn Hp Hwl Hh Ha. unfold Ext.startFormula, Ext._ensureAudioPrepared,
    Ext._postToNode, Ext._postToNode_with, screened.
  destruct e as [c nd pl uw wl ls vol fm rec samples mx pc sc lg cl].
  cbn in Hctx, Hn, Hp, Hwl. subst c nd pl wl. ext_simpl.
  destruct (_sanityCheckFormula _); ext_simpl; rewrite Hh, Ha; ext_simpl;
    (eexists; split; [reflexivity|]; ext_simpl; repeat apply conj; try reflexivity).
Qed.

Lemma late_worklet_load_cuts_off_the_block_backend_witness :
  exists e',
    Ext.startFormula Sample.engine 2 Sample.host "255" (Sample.blockStarted "t") = Some e'
    /\ Ext.formula e' = "255"%string
    /\ Ext.script e' = Ext.script (Sample.blockStarted "t").
Proof.
  destruct (late_worklet_load_cuts_off_the_block_backend Sample.engine 2 Sample.host
              "255" (Sample.blockStarted "t") (Ext.mkContext 8000)
              eq_refl eq_refl eq_refl eq_refl eq_refl eq_refl)
    as (e' & H & Hf & _ & _ & _ & Hs & _).
  exists e'. repeat split; [exact H| |exact Hs].
  rewrite Hf. vm_compute. reflexivity.
Defined.

(** X9.  The property [Buffer size].  The value is rounded and clamped to
    [128, 65536].  A worklet node is sent the new chunk size.  A playing
    block backend is created anew: its clock restarts at 0 and the samples
    that waited in its buffer are dropped, not delivered; it takes the
    recording flag and the formula of the extension, the function being
    built without a call. *)
Theorem buffer_size_change (newFunction : Compiler) (fuel : nat) (value : Q)
        (e : Ext.BytebeatExtension) :
  128 <= clampChunkSize value <= 65536
  /\ (forall nodePort,
        Ext.node e = Some (Ext.AudioWorkletNode nodePort) -> Ext._usingWorklet e = true ->
        Ext.setProperty newFunction fuel Ext.BufferSize value e
        = Some (Ext.set_node
                  (Some (Ext.AudioWorkletNode
                           (nodePort ++ [Worklet.setChunkSize (clampChunkSize value)])))
                  (Ext.set_preferredChunkSize (clampChunkSize value) e))
        /\ forall p,
            Worklet.recordChunkSize
              (Worklet.onmessage newFunction
                 (Worklet.setChunkSize (clampChunkSize value)) p)
            = clampChunkSize value)
  /\ (forall ctx,
        Ext.audioCtx e = Some ctx -> Ext._usingWorklet e = false ->
        Ext.isPlaying e = true ->
        exists e',
          Ext.setProperty newFunction fuel Ext.BufferSize value e = Some e'
          /\ Ext.preferredChunkSize e' = clampChunkSize value
          /\ Ext.script e'
             = Some (Ext.mkScript 0%Q (Ext.sampleRate ctx)
                       (unchecked newFunction (Ext.formula e)) []
                       (Ext.recording e) (clampChunkSize value))
          /\ Ext.recordedSamples e' = Ext.recordedSamples e
          /\ Ext.recording e' = Ext.recording e
          /\ Ext.isPlaying e' = true
          /\ Ext.node e' = Some Ext.ScriptProcessorNode)
  /\ (Ext._usingWorklet e = false -> Ext.isPlaying e = false ->
      Ext.setProperty newFunction fuel Ext.BufferSize value e
      = Some (Ext.set_preferredChunkSize (clampChunkSize value) e)).
Proof.
  assert (Hrange : 128 <= clampChunkSize value <= 65536).
  { unfold clampChunkSize, JS.Z_max, JS.Z_min. lia. }
  split; [exact Hrange|]. split; [|split].
  - intros nodePort Hn Hu. split.
    + unfold Ext.setProperty, Ext._postToNode, Ext._postToNode_with.
      fold (clampChunkSize value).
      destruct e as [c nd pl uw wl ls vol fm rec samples mx pc sc lg cl].
      cbn in Hn, Hu. subst nd uw. reflexivity.
    + intros p. cbn. unfold JS.orZ, JS.Z_max, JS.Z_min.
      destruct (clampChunkSize value =? 0) eqn:E; lia.
  - intros ctx Hctx Hu Hp. unfold Ext.setProperty. fold (clampChunkSize value).
    set (e1 := Ext.set_preferredChunkSize (clampChunkSize value) e).
    assert (He1 : match Ext.node e1 with
                  | Some _ => if Ext._usingWorklet e1
                              then Ext._postToNode newFunction fuel
                                     (Worklet.setChunkSize (Ext.preferredChunkSize e1)) e1
                              else Some e1
                  | None => Some e1
                  end = Some e1).
    { assert (Ext._usingWorklet e1 = false) as -> by (unfold e1; now destruct e).
      now destruct (Ext.node e1). }
    rewrite He1.
    assert (Ext._usingWorklet e1 = false) as -> by (unfold e1; now destruct e).
    assert (Ext.isPlaying e1 = true) as -> by (unfold e1; now destruct e).
    cbn [negb andb].
    destruct (recreateScriptProcessor_spec newFunction fuel ctx e1) as (lg' & ->).
    { unfold e1. now destruct e. }
    eexists. split; [reflexivity|]. unfold e1. destruct e. cbn in *.
    repeat apply conj; try reflexivity. assumption.
  - intros Hu Hp. unfold Ext.setProperty. fold (clampChunkSize value).
    destruct e as [c nd pl uw wl ls vol fm rec samples mx pc sc lg cl].
    cbn in Hu, Hp. subst uw pl. ext_simpl. now destruct nd.
Qed.

Lemma buffer_size_change_witness :
  exists e',
    Ext.setProperty Sample.engine 2 Ext.BufferSize 300 (Sample.blockRecording "t" 1)
    = Some e'
    /\ Ext.preferredChunkSize e' = 300
    /\ Sample.clockOf (Some e') = Some 0%Q.
Proof.
  destruct (proj1 (proj2 (proj2 (buffer_size_change Sample.engine 2 300
                                   (Sample.blockRecording "t" 1))))
                  (Ext.mkContext 8000) eq_refl eq_refl eq_refl)
    as (e' & H & Hpc & Hs & _).
  exists e'. split; [exact H|]. split; [exact Hpc|].
  unfold Sample.clockOf. rewrite Hs. reflexivity.
Defined.

(** X10.  A start of the block backend keeps a function that fails the smoke
    test.  [_createScriptProcessor] calls the new function on the neutral
    inputs and replaces it by the fallback when the call throws, but
    [_startAudio] and [_recreateScriptProcessor] then send [setFormula]
    with the same text, which builds the function again without a call:
    the texts compiled are the formula, the fallback, the formula, and the
    function left is the one that throws. *)
Theorem block_start_keeps_a_failing_function
        (newFunction : Compiler) (fuel : nat) (ctx : Ext.AudioContext)
        (e : Ext.BytebeatExtension) (f : CompiledFunction) :
  Ext.audioCtx e = Some ctx -> Ext._usingWorklet e = false ->
  newFunction (Ext.formula e) = Some f ->
  f 0 (inject_Z (Ext.logicalSampleRate e)) 0%Q = None ->
  (exists s,
      Ext.script (Ext._createScriptProcessor newFunction ctx (Ext.preferredChunkSize e) e)
      = Some s
      /\ Ext._scriptCompiledFunc s = newFunction ERROR_FALLBACK_FORMULA)
  /\ (Ext.isPlaying e = false ->
      exists e' s',
        Ext._startAudio newFunction fuel e = Some e'
        /\ Ext.script e' = Some s'
        /\ Ext._scriptCompiledFunc s' = Some f
        /\ Ext.compileLog e'
           = Ext.compileLog e
               ++ [Ext.formula e; ERROR_FALLBACK_FORMULA; Ext.formula e])
  /\ (exists e' s',
        Ext._recreateScriptProcessor newFunction fuel e = Some e'
        /\ Ext.script e' = Some s'
        /\ Ext._scriptCompiledFunc s' = Some f
        /\ Ext.compileLog e'
           = Ext.compileLog e
               ++ [Ext.formula e; ERROR_FALLBACK_FORMULA; Ext.formula e]).
Proof.
  intros Hctx Hu Hf Hthrow. split; [|split].
  - unfold Ext._createScriptProcessor, Ext.scriptFallback.
    destruct e as [c nd pl uw wl ls vol fm rec samples mx pc sc lg cl].
    cbn in Hf, Hthrow. ext_simpl. rewrite Hf. ext_simpl. rewrite Hthrow.
    destruct (newFunction ERROR_FALLBACK_FORMULA); ext_simpl; eexists; split; reflexivity.
  - intros Hp.
    destruct (startAudio_block newFunction fuel ctx e Hctx Hp Hu) as (e' & lg' & H & ->).
    eexists _, _. split; [exact H|]. ext_simpl.
    unfold unchecked, compiledByBlockStart. rewrite Hf, Hthrow.
    repeat split; try reflexivity.
  - destruct (recreateScriptProcessor_spec newFunction fuel ctx e Hctx) as (lg' & H).
    eexists _, _. split; [exact H|]. ext_simpl.
    unfold unchecked, compiledByBlockStart. rewrite Hf, Hthrow.
    repeat split; try reflexivity.
Qed.

Lemma block_start_keeps_a_failing_function_witness :
  exists e' s',
    Ext._startAudio Sample.engine 2
      (Ext.set_formula "q" (Ext.set_audioCtx (Some (Ext.mkContext 8000)) Ext.constructor))
    = Some e'
    /\ Ext.script e' = Some s'
    /\ Ext._scriptCompiledFunc s' = Some Sample.throwingFn.
Proof.
  destruct (proj1 (proj2
              (block_start_keeps_a_failing_function Sample.engine 2 (Ext.mkContext 8000)
                 (Ext.set_formula "q"
                    (Ext.set_audioCtx (Some (Ext.mkContext 8000)) Ext.constructor))
                 Sample.throwingFn eq_refl eq_refl eq_refl eq_refl)) eq_refl)
    as (e' & s' & H & Hs & Hc & _).
  exists e', s'. auto.
Defined.

(** ** Every block returns and keeps the state well-formed *)

(** Closes [sameFrame] between explicit states. *)
Ltac same_frame :=
  unfold sameFrame, nodeKind; ext_simpl;
  repeat apply conj; try reflexivity; try (intros ?; discriminate); try tauto.

Section WellFormedFacts.
Variable newFunction : Compiler.

Lemma sameFrame_refl (e : Ext.BytebeatExtension) : sameFrame e e.
Proof. unfold sameFrame. tauto. Qed.

Lemma sameFrame_trans (e1 e2 e3 : Ext.BytebeatExtension) :
  sameFrame e1 e2 -> sameFrame e2 e3 -> sameFrame e1 e3.
Proof.
  unfold sameFrame.
  intros (A0 & A1 & A2 & A3 & A4 & A5 & A6 & A7 & A8 & A9 & A10)
         (B0 & B1 & B2 & B3 & B4 & B5 & B6 & B7 & B8 & B9 & B10).
  repeat apply conj; try congruence; tauto.
Qed.

Lemma wellFormed_frame (e e' : Ext.BytebeatExtension) :
  WellFormed e -> sameFrame e e' -> ScriptInv e' -> WellFormed e'.
Proof.
  unfold WellFormed, sameFrame, SettingsInRange.
  intros (((Hv1 & Hv2) & Hls & Hpc & Hmx) & _ & Hpl & Hctx & Hw & Hsc & Hu)
         (_ & A1 & A2 & A3 & A4 & A5 & A6 & A7 & A8 & A9 & A10) Hinv.
  rewrite A1, A2, A3, A4, A5, A6, A7, A8, A9.
  repeat apply conj; try assumption; try tauto.
Qed.

Lemma afterChunk_sameFrame (chunk : list Q) (e : Ext.BytebeatExtension) :
  sameFrame e (afterChunk chunk e).
Proof.
  unfold afterChunk, postRecordOff, scriptStopRecording.
  destruct e as [ctx nd pl uw wl ls vol fm rec samples mx pc sc lg cl]. ext_simpl.
  destruct (_ >? mx); ext_simpl; [|same_frame].
  destruct nd as [[nodePort|]|]; ext_simpl; try (same_frame; fail);
    destruct uw; ext_simpl; try (same_frame; fail);
    (destruct sc as [[ct csr cf buf rc cs]|]; ext_simpl; [|same_frame]);
    destruct buf; ext_simpl; same_frame.
Qed.

Lemma afterChunk_inv (chunk : list Q) (e : Ext.BytebeatExtension) :
  ScriptInv e -> ScriptInv (afterChunk chunk e).
Proof.
  intros Hinv. unfold afterChunk, postRecordOff, scriptStopRecording.
  destruct e as [ctx nd pl uw wl ls vol fm rec samples mx pc sc lg cl]. ext_simpl.
  destruct (_ >? mx); ext_simpl; [|exact Hinv].
  destruct nd as [[nodePort|]|]; ext_simpl; try exact Hinv;
    destruct uw; ext_simpl; try exact Hinv;
    (destruct sc as [[ct csr cf buf rc cs]|]; ext_simpl; [|exact Hinv]);
    specialize (Hinv _ eq_refl); cbn in Hinv;
    destruct buf; ext_simpl; script_inv.
Qed.

Lemma scriptFallback_sameFrame (ok fail : list Ext.LogEntry) (e : Ext.BytebeatExtension) :
  sameFrame e (Ext.scriptFallback newFunction ok fail e)
  /\ (ScriptInv e -> ScriptInv (Ext.scriptFallback newFunction ok fail e)).
Proof.
  unfold Ext.scriptFallback.
  assert (Hlog : forall l e0,
             sameFrame e0 (fold_left (fun e x => Ext.addLog x e) l e0)
             /\ (ScriptInv e0 -> ScriptInv (fold_left (fun e x => Ext.addLog x e) l e0))).
  { induction l as [|x l IH]; intros e0; cbn [fold_left].
    - split; [apply sameFrame_refl|auto].
    - destruct (IH (Ext.addLog x e0)) as [H1 H2]. split.
      + eapply sameFrame_trans; [|exact H1]. destruct e0. same_frame.
      + intros H. apply H2. destruct e0. exact H. }
  destruct e as [ctx nd pl uw wl ls vol fm rec samples mx pc sc lg cl]. ext_simpl.
  destruct (newFunction ERROR_FALLBACK_FORMULA).
  - match goal with |- context [fold_left _ ok ?x] => destruct (Hlog ok x) as [H1 H2] end.
    split.
    + eapply sameFrame_trans; [|exact H1]. destruct sc; same_frame.
    + intros H. apply H2. destruct sc as [[ct csr cf buf rc cs]|]; ext_simpl; [|exact H].
      specialize (H _ eq_refl). cbn in H. script_inv.
  - match goal with |- context [fold_left _ fail ?x] => destruct (Hlog fail x) as [H1 H2] end.
    split.
    + eapply sameFrame_trans; [|exact H1]. destruct sc; same_frame.
    + intros H. apply H2. destruct sc as [[ct csr cf buf rc cs]|]; ext_simpl; [|exact H].
      specialize (H _ eq_refl). cbn in H. script_inv.
Qed.

(** Every message but [setChunkSize] is handled by the block backend. *)
Lemma handleScriptMessage_wf (fuel : nat) (m : Worklet.InMsg) (e : Ext.BytebeatExtension) :
  ((2 <= fuel)%nat \/ m <> Worklet.record false) ->
  ScriptInv e -> Ext._usingWorklet e = false ->
  (forall size, m <> Worklet.setChunkSize size) ->
  exists e',
    Ext._handleScriptMessage newFunction fuel m e = Some e'
    /\ ScriptInv e' /\ sameFrame e e'.
Proof.
  intros Hfuel Hinv Hu Hm.
  destruct m as [text|on|size| | |].
  - unfold Ext._handleScriptMessage, Ext._handleScriptMessage_with.
    destruct (Ext.script e) as [s|] eqn:Hs.
    2:{ exists e. split; [reflexivity|]. split; [exact Hinv|apply sameFrame_refl]. }
    destruct (newFunction text) as [f|].
    + eexists. split; [reflexivity|].
      destruct e as [ctx nd pl uw wl ls vol fm rec samples mx pc sc lg cl].
      cbn in Hs. subst sc. specialize (Hinv _ eq_refl).
      destruct s as [ct csr cf buf rc cs]. cbn in Hinv. ext_simpl.
      split; [script_inv|same_frame].
    + eexists. split; [reflexivity|].
      destruct (scriptFallback_sameFrame [] [] (Ext.logCompile text e)) as [H1 H2].
      split.
      * apply H2. destruct e. exact Hinv.
      * eapply sameFrame_trans; [|exact H1]. destruct e. same_frame.
  - destruct on.
    + unfold Ext._handleScriptMessage, Ext._handleScriptMessage_with.
      destruct (Ext.script e) as [s|] eqn:Hs.
      2:{ exists e. split; [reflexivity|]. split; [exact Hinv|apply sameFrame_refl]. }
      eexists. split; [reflexivity|].
      destruct e as [ctx nd pl uw wl ls vol fm rec samples mx pc sc lg cl].
      cbn in Hs. subst sc. specialize (Hinv _ eq_refl).
      destruct s as [ct csr cf buf rc cs]. cbn in Hinv. ext_simpl.
      split; [script_inv|same_frame].
    + destruct Hfuel as [Hfuel|Hne]; [|now destruct Hne].
      rewrite scriptRecordOff_spec by assumption.
      eexists. split; [reflexivity|].
      destruct (scriptRecordOff_frame e Hinv Hu)
        as ((F1 & F2 & F3 & F4 & F5 & F6 & F7 & F8 & _) & Hnode & Hpl & Hinv' & Hs & _).
      cbv zeta in *. split; [exact Hinv'|].
      unfold sameFrame, nodeKind. rewrite Hnode.
      repeat apply conj; try assumption; try reflexivity.
      * intros Hnone. unfold scriptRecordOff. now rewrite Hnone.
      * intros Hnone. destruct (Ext.script e) as [s|] eqn:Hse; [|reflexivity].
        destruct (Hs s eq_refl) as (s' & Hs' & _). congruence.
  - now destruct (Hm size).
  - unfold Ext._handleScriptMessage, Ext._handleScriptMessage_with.
    destruct (Ext.script e) as [s|] eqn:Hs.
    2:{ exists e. split; [reflexivity|]. split; [exact Hinv|apply sameFrame_refl]. }
    eexists. split; [reflexivity|].
    destruct e as [ctx nd pl uw wl ls vol fm rec samples mx pc sc lg cl].
    cbn in Hs. subst sc. specialize (Hinv _ eq_refl).
    destruct s as [ct csr cf buf rc cs]. cbn in Hinv. ext_simpl.
    split; [script_inv|same_frame].
  - unfold Ext._handleScriptMessage, Ext._handleScriptMessage_with.
    exists e. split; [now destruct (Ext.script e)|].
    split; [exact Hinv|apply sameFrame_refl].
  - unfold Ext._handleScriptMessage, Ext._handleScriptMessage_with.
    exists e. split; [now destruct (Ext.script e)|].
    split; [exact Hinv|apply sameFrame_refl].
Qed.

Lemma postToNode_wf (fuel : nat) (m : Worklet.InMsg) (e : Ext.BytebeatExtension) :
  ((2 <= fuel)%nat \/ m <> Worklet.record false) ->
  ScriptInv e ->
  (Ext._usingWorklet e = false -> forall size, m <> Worklet.setChunkSize size) ->
  exists e',
    Ext._postToNode newFunction fuel m e = Some e'
    /\ ScriptInv e' /\ sameFrame e e'.
Proof.
  intros Hfuel Hinv Hm. unfold Ext._postToNode, Ext._postToNode_with.
  destruct (Ext.node e) as [[nodePort|]|] eqn:Hn.
  - destruct (Ext._usingWorklet e) eqn:Hu.
    + eexists. split; [reflexivity|].
      destruct e as [ctx nd pl uw wl ls vol fm rec samples mx pc sc lg cl].
      cbn in Hn. subst nd. split; [exact Hinv|same_frame].
    + apply handleScriptMessage_wf; auto.
  - destruct (Ext._usingWorklet e) eqn:Hu.
    + exists e. split; [reflexivity|]. split; [exact Hinv|apply sameFrame_refl].
    + apply handleScriptMessage_wf; auto.
  - exists e. split; [reflexivity|]. split; [exact Hinv|apply sameFrame_refl].
Qed.

Lemma handleNodeMessage_wf (fuel : nat) (data : Worklet.OutMsg)
      (e : Ext.BytebeatExtension) :
  (2 <= fuel)%nat -> ScriptInv e ->
  exists e',
    Ext._handleNodeMessage newFunction fuel data e = Some e'
    /\ ScriptInv e' /\ sameFrame e e'.
Proof.
  intros Hfuel Hinv. destruct data as [message|chunk].
  - destruct fuel as [|fuel]; [lia|]. cbn [Ext._handleNodeMessage].
    set (e1 := Ext.addLog _ e).
    destruct (postToNode_wf fuel (Worklet.setFormula ERROR_FALLBACK_FORMULA) e1)
      as (e' & H & Hinv' & Hframe).
    + right. discriminate.
    + unfold e1. destruct e. exact Hinv.
    + discriminate.
    + exists e'. split; [exact H|]. split; [exact Hinv'|].
      eapply sameFrame_trans; [|exact Hframe]. unfold e1. destruct e. same_frame.
  - rewrite handleNode_recordChunk; [|exact Hfuel|].
    + eexists. split; [reflexivity|].
      split; [now apply afterChunk_inv|apply afterChunk_sameFrame].
    + intros s Hs. destruct (Hinv s Hs). lia.
Qed.

Lemma recordStart_wf (fuel : nat) (e : Ext.BytebeatExtension) :
  ScriptInv e ->
  exists e',
    Ext.recordStart newFunction fuel e = Some e'
    /\ ScriptInv e' /\ sameFrame e e'.
Proof.
  intros Hinv. unfold Ext.recordStart.
  set (e1 := Ext.set_recording true (Ext.set_recordedSamples [] e)).
  destruct (postToNode_wf fuel (Worklet.record true) e1) as (e' & H & Hinv' & Hframe).
  - right. discriminate.
  - unfold e1. destruct e. exact Hinv.
  - discriminate.
  - exists e'. split; [exact H|]. split; [exact Hinv'|].
    eapply sameFrame_trans; [|exact Hframe]. unfold e1. destruct e. same_frame.
Qed.

Lemma afterRecordOff_sameFrame (e : Ext.BytebeatExtension) :
  ScriptInv e -> sameFrame e (afterRecordOff e) /\ ScriptInv (afterRecordOff e).
Proof.
  intros Hinv.
  destruct (postToNode_wf 2 (Worklet.record false) e) as (e' & H & Hinv' & Hframe).
  - left. lia.
  - exact Hinv.
  - discriminate.
  - rewrite afterRecordOff_spec in H by (lia || assumption).
    injection H as <-. auto.
Qed.

Lemma recordStopSave_wf (fuel : nat) (FILENAME : string) (e : Ext.BytebeatExtension) :
  (2 <= fuel)%nat -> ScriptInv e ->
  exists file e',
    Blocks.recordStopSave newFunction fuel FILENAME e = Some (file, e')
    /\ ScriptInv e' /\ sameFrame e e'.
Proof.
  intros Hfuel Hinv. unfold Blocks.recordStopSave.
  set (e1 := Ext.set_recording false e).
  assert (Hinv1 : ScriptInv e1) by (unfold e1; destruct e; exact Hinv).
  assert (Hf1 : sameFrame e e1) by (unfold e1; destruct e; same_frame).
  rewrite afterRecordOff_spec by assumption.
  destruct (afterRecordOff_sameFrame e1 Hinv1) as [Hf2 Hinv2].
  set (e2 := afterRecordOff e1) in *. clearbody e2 e1.
  destruct (Ext.recordedSamples e2) as [|x samples] eqn:Hsam.
  - eexists _, _. split; [reflexivity|]. split.
    + destruct e2. exact Hinv2.
    + eapply sameFrame_trans; [exact Hf1|]. eapply sameFrame_trans; [exact Hf2|].
      destruct e2. same_frame.
  - rewrite makeWavBlob_bytes. eexists _, _. split; [reflexivity|]. split.
    + destruct e2. exact Hinv2.
    + eapply sameFrame_trans; [exact Hf1|]. eapply sameFrame_trans; [exact Hf2|].
      destruct e2. same_frame.
Qed.

Lemma clampVolume_range (value : Q) :
  (0 <= JS.Math_max 0 (JS.Math_min 4 value)
   /\ JS.Math_max 0 (JS.Math_min 4 value) <= 4)%Q.
Proof.
  unfold JS.Math_max, JS.Math_min.
  destruct (Qle_bool 4 value) eqn:H4.
  - cbn. split; discriminate.
  - destruct (Qle_bool 0 value) eqn:H0.
    + apply Qle_bool_iff in H0. split; [exact H0|].
      apply Qnot_lt_le. intros Hlt.
      assert (Qle_bool 4 value = true) by (apply Qle_bool_iff; lra). congruence.
    + split; discriminate.
Qed.

Lemma setProperty_wf (fuel : nat) (prop : Ext.Property) (value : Q)
      (e : Ext.BytebeatExtension) :
  WellFormed e ->
  exists e', Ext.setProperty newFunction fuel prop value e = Some e' /\ WellFormed e'.
Proof.
  intros Hwf. pose proof Hwf as (Hset & Hinv & Hpl & Hctx & Hw & Hsc & Hu).
  destruct prop; cbn [Ext.setProperty].
  - eexists. split; [reflexivity|].
    pose proof (clampVolume_range value) as Hv.
    destruct e as [ctx nd pl uw wl ls vol fm rec samples mx pc sc lg cl].
    unfold WellFormed, SettingsInRange, nodeKind in *. cbn in *. tauto.
  - eexists. split; [reflexivity|].
    assert (100 <= JS.Z_max 100 (JS.Z_min 192000 (JS.Math_round value)) <= 192000)
      by (unfold JS.Z_max, JS.Z_min; lia).
    destruct e as [ctx nd pl uw wl ls vol fm rec samples mx pc sc lg cl].
    unfold WellFormed, SettingsInRange, nodeKind in *. cbn in *. tauto.
  - fold (clampChunkSize value).
    assert (Hrange : 128 <= clampChunkSize value <= 65536)
      by (unfold clampChunkSize, JS.Z_max, JS.Z_min; lia).
    set (e1 := Ext.set_preferredChunkSize (clampChunkSize value) e).
    assert (Hwf1 : WellFormed e1).
    { unfold e1. destruct e as [ctx nd pl uw wl ls vol fm rec samples mx pc sc lg cl].
      unfold WellFormed, SettingsInRange, nodeKind in *. cbn in *. tauto. }
    destruct (Ext._usingWorklet e1) eqn:Hu1.
    + assert (exists e2,
                 match Ext.node e1 with
                 | Some _ => Ext._postToNode newFunction fuel
                               (Worklet.setChunkSize (Ext.preferredChunkSize e1)) e1
                 | None => Some e1
                 end = Some e2 /\ WellFormed e2 /\ Ext._usingWorklet e2 = true)
        as (e2 & -> & Hwf2 & ->).
      { destruct (Ext.node e1) eqn:Hn1; [|eauto].
        destruct (postToNode_wf fuel (Worklet.setChunkSize (Ext.preferredChunkSize e1)) e1)
          as (e2 & H & Hinv2 & Hf2).
        - right. discriminate.
        - apply Hwf1.
        - congruence.
        - exists e2. split; [exact H|]. split; [now apply (wellFormed_frame e1)|].
          destruct Hf2 as (_ & _ & _ & _ & _ & _ & _ & _ & -> & _). exact Hu1. }
      cbn [negb andb]. eauto.
    + assert (match Ext.node e1 with Some _ => Some e1 | None => Some e1 end = Some e1)
        as -> by now destruct (Ext.node e1).
      rewrite ?Hu1. cbn [negb andb]. destruct (Ext.isPlaying e1) eqn:Hp1; [|eauto].
      destruct Hwf1 as (Hset1 & Hinv1 & Hpl1 & Hctx1 & Hw1 & Hsc1 & Hu1').
      destruct (Ext.audioCtx e1) as [ctx|] eqn:Hc1.
      2:{ exfalso. apply Hctx1; [|reflexivity]. now apply Hpl1. }
      destruct (recreateScriptProcessor_spec newFunction fuel ctx e1 Hc1) as (lg' & ->).
      rewrite ?Hu1. cbn [negb andb].
      eexists. split; [reflexivity|].
      unfold WellFormed, SettingsInRange, nodeKind in *. ext_simpl.
      rewrite ?Hp1, <- ?Hu1', ?Hu1.
      repeat apply conj; try tauto; try lia; try discriminate; try reflexivity.
      script_inv.
  - eexists. split; [reflexivity|].
    destruct e as [ctx nd pl uw wl ls vol fm rec samples mx pc sc lg cl].
    unfold WellFormed, SettingsInRange, nodeKind in *. cbn in *. tauto.
Qed.

Lemma stop_wf (fuel : nat) (e : Ext.BytebeatExtension) :
  (2 <= fuel)%nat -> WellFormed e ->
  exists e', Ext.stop newFunction fuel e = Some e' /\ WellFormed e'.
Proof.
  intros Hfuel Hwf. pose proof Hwf as (Hset & Hinv & Hpl & Hctx & Hw & Hsc & Hu).
  destruct (stop_spec newFunction fuel e Hfuel Hinv)
    as (e' & H & Hp' & Hn' & Hsame & _ & Hs & Hinv' & _).
  exists e'. split; [exact H|].
  destruct (Ext.isPlaying e) eqn:Hp.
  - specialize (Hn' eq_refl).
    destruct Hs as (_ & S2 & S3 & S4 & S5 & S6 & S7 & S8 & _).
    unfold WellFormed, SettingsInRange, nodeKind in *.
    rewrite S2, S3, S4, S5, S7, S8, Hp', Hn'.
    repeat apply conj; try tauto; try discriminate.
  - now rewrite (Hsame eq_refl).
Qed.

Lemma startFormula_wf (fuel : nat) (host : Ext.Host) (FORMULA : string)
      (e : Ext.BytebeatExtension) :
  WellFormed e ->
  exists e', Ext.startFormula newFunction fuel host FORMULA e = Some e' /\ WellFormed e'
             /\ Ext.formula e' = screened FORMULA (Ext.formula e).
Proof.
  intros Hwf. unfold Ext.startFormula.
  set (e0 := match _sanityCheckFormula _ with None => _ | Some _ => _ end).
  assert (Hwf0 : WellFormed e0 /\ Ext.formula e0 = screened FORMULA (Ext.formula e)).
  { unfold e0, screened.
    destruct e as [ctx nd pl uw wl ls vol fm rec samples mx pc sc lg cl].
    destruct (_sanityCheckFormula _); (split; [exact Hwf|reflexivity]). }
  clearbody e0. destruct Hwf0 as [Hwf0 Hfm0]. clear Hwf.
  destruct (ensureAudioPrepared_spec host e0) as (Hfst & Htrue & Hfalse).
  destruct (Ext._ensureAudioPrepared host e0) as [prepared e1]. cbn [fst snd] in *.
  destruct prepared.
  2:{ rewrite (Hfalse eq_refl). eexists. split; [reflexivity|]. split.
      - apply (wellFormed_frame e0); [exact Hwf0| |]; destruct e0;
          [same_frame|apply Hwf0].
      - rewrite <- Hfm0. now destruct e0. }
  destruct (Htrue eq_refl) as (lg1 & He1). clear Htrue Hfalse.
  assert (Hwf1 : WellFormed e1).
  { destruct Hwf0 as (Hset & Hinv & Hpl & Hctx & Hw & Hsc & Hu).
    subst e1. unfold WellFormed, SettingsInRange, nodeKind, willUseWorklet in *.
    ext_simpl. repeat apply conj; try tauto; try discriminate.
    intros Hk. rewrite <- Hu, (Hw Hk). reflexivity. }
  assert (Hc1 : exists ctx, Ext.audioCtx e1 = Some ctx) by (subst e1; eauto).
  assert (Hfm1 : Ext.formula e1 = screened FORMULA (Ext.formula e))
    by (subst e1; exact Hfm0).
  clear He1 Hfst.
  destruct (postToNode_wf fuel (Worklet.setFormula (Ext.formula e1)) e1)
    as (e2 & -> & Hinv2 & Hf2).
  { right. discriminate. }
  { apply Hwf1. }
  { discriminate. }
  pose proof (wellFormed_frame e1 e2 Hwf1 Hf2 Hinv2) as Hwf2.
  assert (Hfm2 : Ext.formula e2 = screened FORMULA (Ext.formula e)).
  { destruct Hf2 as (-> & _). exact Hfm1. }
  destruct (Ext.isPlaying e2) eqn:Hp2; [eauto|].
  destruct Hc1 as (ctx & Hc1).
  assert (Hc2 : Ext.audioCtx e2 = Some ctx).
  { destruct Hf2 as (_ & _ & _ & _ & _ & _ & _ & -> & _). exact Hc1. }
  destruct Hwf2 as (Hset & Hinv & Hpl & Hctx & Hw & Hsc & Hu).
  destruct (Ext._usingWorklet e2) eqn:Hu2.
  - rewrite startAudio_worklet with (ctx := ctx) by assumption.
    eexists. split; [reflexivity|].
    destruct e2 as [c nd pl uw wl ls vol fm rec samples mx pc sc lg cl].
    unfold WellFormed, SettingsInRange, nodeKind in *. cbn in *.
    repeat apply conj; try tauto; try discriminate; try congruence.
  - destruct (startAudio_block newFunction fuel ctx e2 Hc2 Hp2 Hu2) as (e' & lg' & -> & ->).
    eexists. split; [reflexivity|].
    unfold WellFormed, SettingsInRange, nodeKind in *. ext_simpl.
    repeat apply conj; try tauto; try discriminate; try congruence; try lia.
    script_inv.
Qed.

Lemma onScript_sameFrame (f : Ext.ScriptState -> Ext.ScriptState)
      (e : Ext.BytebeatExtension) :
  sameFrame e (Ext.onScript f e).
Proof.
  destruct e as [ctx nd pl uw wl ls vol fm rec samples mx pc [s|] lg cl]; same_frame.
Qed.

Lemma afterScriptRecord_sameFrame (x : Q) (e : Ext.BytebeatExtension) :
  sameFrame e (afterScriptRecord x e).
Proof.
  unfold afterScriptRecord.
  destruct (Ext.script e) as [s|] eqn:Hs; [|apply sameFrame_refl].
  destruct (Ext._scriptRecording s); [|apply sameFrame_refl].
  destruct (_ >=? _).
  - eapply sameFrame_trans; [apply onScript_sameFrame|].
    eapply sameFrame_trans; [apply afterChunk_sameFrame|]. apply onScript_sameFrame.
  - apply onScript_sameFrame.
Qed.

Lemma script_evalRaw_sameFrame (logicalS : Q) (s : Ext.ScriptState)
      (e : Ext.BytebeatExtension) :
  sameFrame e (snd (Ext.script_evalRaw newFunction logicalS s e)).
Proof.
  unfold Ext.script_evalRaw.
  destruct (Ext._scriptCompiledFunc s) as [f|]; [|apply sameFrame_refl].
  destruct (f _ _ _); [apply sameFrame_refl|]. apply scriptFallback_sameFrame.
Qed.

Lemma script_processLoop_wf (fuel : nat) (logicalS inc : Q) (n : nat)
      (e : Ext.BytebeatExtension) (s : Ext.ScriptState) :
  (2 <= fuel)%nat -> Ext.script e = Some s -> ScriptInv e ->
  exists outs e',
    Ext.script_processLoop newFunction fuel logicalS inc n e = Some (outs, e')
    /\ length outs = n /\ ScriptInv e' /\ sameFrame e e'.
Proof.
  intros Hfuel. revert e s. induction n as [|n IH]; intros e s Hs Hinv.
  - exists [], e. split; [reflexivity|]. split; [reflexivity|].
    split; [exact Hinv|apply sameFrame_refl].
  - destruct (script_step newFunction fuel logicalS inc e s Hfuel Hs Hinv)
      as (e1 & s1 & Hstep & Hinv1 & Hs1 & _).
    pose proof (script_processSample_total newFunction fuel logicalS inc e s Hfuel Hs Hinv)
      as Htotal.
    rewrite Hstep in Htotal.
    apply (f_equal (fun o : option (Q * Ext.BytebeatExtension) =>
                      match o with Some r => Some (snd r) | None => None end)) in Htotal.
    cbv beta iota zeta in Htotal. cbn [snd] in Htotal. injection Htotal as He1.
    assert (Hf1 : sameFrame e e1).
    { rewrite He1. eapply sameFrame_trans; [apply script_evalRaw_sameFrame|].
      eapply sameFrame_trans; [apply afterScriptRecord_sameFrame|].
      apply onScript_sameFrame. }
    clear He1.
    destruct (IH e1 s1 Hs1 Hinv1) as (outs & e2 & Hloop & Hlen & Hinv2 & Hf2).
    eexists _, e2. cbn [Ext.script_processLoop]. rewrite Hstep. cbn. rewrite Hloop. cbn.
    split; [reflexivity|]. split; [cbn; lia|]. split; [exact Hinv2|].
    eapply sameFrame_trans; eassumption.
Qed.

End WellFormedFacts.

(** X11.  Every block returns, and the state stays well-formed.  The fresh
    extension is well-formed, and from a well-formed state [startFormula],
    [stop], [setProperty], [recordStart], [recordStopSave], a message from
    the worklet and a block of frames of the ScriptProcessor each return a
    well-formed state; the handlers that call each other
    ([_handleNodeMessage], [_postToNode], [_handleScriptMessage]) never nest
    deeper than twice.  In such a state the guard
    [Math.max(1, logicalSampleRate || 8000)] of [processFunc] is the
    logical rate itself. *)
Theorem blocks_keep_the_state_well_formed (newFunction : Compiler) :
  WellFormed Ext.constructor
  /\ forall e, WellFormed e ->
       (forall fuel host FORMULA,
           exists e', Ext.startFormula newFunction fuel host FORMULA e = Some e'
                      /\ WellFormed e')
       /\ (forall fuel prop value,
             exists e', Ext.setProperty newFunction fuel prop value e = Some e'
                        /\ WellFormed e')
       /\ (forall fuel,
             exists e', Ext.recordStart newFunction fuel e = Some e' /\ WellFormed e')
       /\ (forall fuel, (2 <= fuel)%nat ->
             exists e', Ext.stop newFunction fuel e = Some e' /\ WellFormed e')
       /\ (forall fuel FILENAME, (2 <= fuel)%nat ->
             exists file e',
               Blocks.recordStopSave newFunction fuel FILENAME e = Some (file, e')
               /\ WellFormed e')
       /\ (forall fuel data, (2 <= fuel)%nat ->
             exists e', Ext._handleNodeMessage newFunction fuel data e = Some e'
                        /\ WellFormed e')
       /\ (forall fuel blockLen, (2 <= fuel)%nat -> nodeKind e = ScriptNode ->
             exists outs e',
               Ext.processFunc newFunction fuel blockLen e = Some (outs, e')
               /\ length outs = blockLen /\ WellFormed e')
       /\ JS.Z_max 1 (JS.orZ (Ext.logicalSampleRate e) 8000) = Ext.logicalSampleRate e.
Proof.
  split.
  - unfold WellFormed, SettingsInRange, nodeKind. cbn.
    repeat apply conj; try lia; try reflexivity; try discriminate;
      intros H; now destruct H.
  - intros e Hwf. pose proof Hwf as (Hset & Hinv & _).
    repeat apply conj.
    + intros fuel host FORMULA.
      destruct (startFormula_wf newFunction fuel host FORMULA e Hwf) as (e' & H & Hw & _).
      eauto.
    + intros fuel prop value. now apply setProperty_wf.
    + intros fuel. destruct (recordStart_wf newFunction fuel e Hinv) as (e' & H & Hi & Hf).
      exists e'. split; [exact H|]. now apply (wellFormed_frame e).
    + intros fuel Hfuel. now apply stop_wf.
    + intros fuel FILENAME Hfuel.
      destruct (recordStopSave_wf newFunction fuel FILENAME e Hfuel Hinv)
        as (file & e' & H & Hi & Hf).
      exists file, e'. split; [exact H|]. now apply (wellFormed_frame e).
    + intros fuel data Hfuel.
      destruct (handleNodeMessage_wf newFunction fuel data e Hfuel Hinv)
        as (e' & H & Hi & Hf).
      exists e'. split; [exact H|]. now apply (wellFormed_frame e).
    + intros fuel blockLen Hfuel Hk. unfold Ext.processFunc.
      destruct (Ext.script e) as [s|] eqn:Hs.
      2:{ destruct Hwf as (_ & _ & _ & _ & _ & Hsc & _). now destruct (Hsc Hk). }
      destruct (script_processLoop_wf newFunction fuel
                  (inject_Z (JS.Z_max 1 (JS.orZ (Ext.logicalSampleRate e) 8000)))
                  (JS.div (inject_Z (JS.Z_max 1 (JS.orZ (Ext.logicalSampleRate e) 8000)))
                        (inject_Z (Ext.closure_sr s))) blockLen e s Hfuel Hs Hinv)
        as (outs & e' & H & Hlen & Hi & Hf).
      exists outs, e'. split; [exact H|]. split; [exact Hlen|].
      now apply (wellFormed_frame e).
    + destruct Hset as (_ & Hls & _). unfold JS.Z_max, JS.orZ.
      destruct (Ext.logicalSampleRate e =? 0) eqn:E; lia.
Qed.

Lemma blocks_keep_the_state_well_formed_witness :
  exists e', Ext.stop Sample.engine 2 Ext.constructor = Some e' /\ WellFormed e'.
Proof.
  destruct (blocks_keep_the_state_well_formed Sample.engine) as [Hc Hall].
  destruct (Hall Ext.constructor Hc) as (_ & _ & _ & Hstop & _).
  apply (Hstop 2%nat). lia.
Defined.

(** ** Saving a recording *)

(** X12.  [recordStopSave] on the block backend saves every recorded sample.  The
    samples still waiting in the buffer of the ScriptProcessor are
    delivered before the file is built, so the file holds the delivered
    samples followed by the buffer, at the rate of the audio context, under
    the given name or [bytebeat.wav]; afterwards nothing is recording and
    both buffers are empty.  With nothing recorded there is no file, only
    an alert. *)
Theorem recordStopSave_on_the_block_backend
        (newFunction : Compiler) (fuel : nat) (FILENAME : string)
        (e : Ext.BytebeatExtension) (s : Ext.ScriptState) (ctx : Ext.AudioContext) :
  (2 <= fuel)%nat -> ScriptInv e ->
  Ext.node e = Some Ext.ScriptProcessorNode -> Ext._usingWorklet e = false ->
  Ext.script e = Some s -> Ext.audioCtx e = Some ctx ->
  Z.of_nat (length (Ext.recordedSamples e ++ Ext._scriptRecordBuffer s))
  <= Ext.recordMaxSamples e ->
  exists file e',
    Blocks.recordStopSave newFunction fuel FILENAME e = Some (file, e')
    /\ Ext.recording e' = false
    /\ (exists s', Ext.script e' = Some s'
                   /\ Ext._scriptRecording s' = false
                   /\ Ext._scriptRecordBuffer s' = [])
    /\ match Ext.recordedSamples e ++ Ext._scriptRecordBuffer s with
       | [] =>
           file = None
           /\ Ext.log e' = Ext.log e ++ [Ext.alert "No audio recorded."]
       | all =>
           file = Some (Blocks.mkDownload (Str.orS FILENAME "bytebeat.wav")
                          (wavFile all (Ext.sampleRate ctx)))
           /\ Ext.recordedSamples e' = []
           /\ Ext.log e' = Ext.log e
       end.
Proof.
  intros Hfuel Hinv Hn Hu Hs Hctx Hle. unfold Blocks.recordStopSave.
  set (e1 := Ext.set_recording false e).
  assert (Hinv1 : ScriptInv e1) by (unfold e1; destruct e; exact Hinv).
  assert (Hn1 : Ext.node e1 = Some Ext.ScriptProcessorNode)
    by (unfold e1; destruct e; exact Hn).
  assert (Hu1 : Ext._usingWorklet e1 = false) by (unfold e1; destruct e; exact Hu).
  assert (Hs1 : Ext.script e1 = Some s) by (unfold e1; destruct e; exact Hs).
  assert (Hsam1 : Ext.recordedSamples e1 = Ext.recordedSamples e)
    by (unfold e1; now destruct e).
  assert (Hmx1 : Ext.recordMaxSamples e1 = Ext.recordMaxSamples e)
    by (unfold e1; now destruct e).
  assert (Hc1 : Ext.audioCtx e1 = Some ctx) by (unfold e1; destruct e; exact Hctx).
  assert (Hr1 : Ext.recording e1 = false) by (unfold e1; now destruct e).
  assert (Hl1 : Ext.log e1 = Ext.log e) by (unfold e1; now destruct e).
  rewrite afterRecordOff_spec by assumption.
  unfold afterRecordOff. rewrite Hn1, Hu1.
  destruct (scriptRecordOff_frame e1 Hinv1 Hu1) as (Hset & _ & _ & _ & H5 & H6).
  cbv zeta in *.
  destruct (H5 s Hs1) as (s' & Hs' & Hrec' & Hbuf' & _).
  destruct (H6 s Hs1) as (Hsam & Hrec & Hlog); [rewrite Hsam1, Hmx1; exact Hle|].
  destruct Hset as (_ & _ & _ & _ & _ & Hc2 & _).
  rewrite Hl1 in Hlog. rewrite Hr1 in Hrec. rewrite Hc1 in Hc2.
  set (e2 := scriptRecordOff e1) in *. clearbody e2. clear H5 H6.
  rewrite Hsam, Hsam1.
  destruct (Ext.recordedSamples e ++ Ext._scriptRecordBuffer s) as [|x all] eqn:Hall.
  - eexists _, _. split; [reflexivity|].
    destruct e2 as [c nd pl uw wl ls vol fm rec samples mx pc sc lg cl]. cbn in *.
    split; [exact Hrec|]. split; [eauto|]. split; [reflexivity|]. now rewrite Hlog.
  - rewrite makeWavBlob_bytes, Hc2. eexists _, _. split; [reflexivity|].
    destruct e2 as [c nd pl uw wl ls vol fm rec samples mx pc sc lg cl]. cbn in *.
    split; [exact Hrec|]. split; [eauto|]. split; [reflexivity|].
    split; [reflexivity|exact Hlog].
Qed.

Lemma recordStopSave_on_the_block_backend_witness :
  exists file e',
    Blocks.recordStopSave Sample.engine 2 EmptyString (Sample.blockRecording "t" 1)
    = Some (file, e')
    /\ Ext.recording e' = false.
Proof.
  destruct (recordStopSave_on_the_block_backend Sample.engine 2 EmptyString
              (Sample.blockRecording "t" 1)
              (Sample.scriptOf (Sample.blockRecording "t" 1)) (Ext.mkContext 8000))
    as (file & e' & H & Hr & _).
  - lia.
  - apply ScriptInv_check. vm_compute. reflexivity.
  - reflexivity.
  - reflexivity.
  - reflexivity.
  - reflexivity.
  - vm_compute. discriminate.
  - exists file, e'. split; [exact H|exact Hr].
Defined.

(** X13.  [recordStopSave] on the worklet backend saves what has arrived.  The
    request to stop is posted to the node and the file is built at once
    from the chunks delivered so far, without the samples still waiting in
    the buffer of the processor; with no chunk delivered yet there is no
    file, only an alert.  The chunk that the processor posts in answer
    arrives after the buffer of the extension was emptied, and stays there. *)
Theorem recordStopSave_on_the_worklet_backend
        (newFunction : Compiler) (fuel : nat) (FILENAME : string)
        (e : Ext.BytebeatExtension) (nodePort : list Worklet.InMsg)
        (ctx : Ext.AudioContext) :
  Ext.node e = Some (Ext.AudioWorkletNode nodePort) -> Ext._usingWorklet e = true ->
  Ext.audioCtx e = Some ctx ->
  exists file e',
    Blocks.recordStopSave newFunction fuel FILENAME e = Some (file, e')
    /\ Ext.node e' = Some (Ext.AudioWorkletNode (nodePort ++ [Worklet.record false]))
    /\ Ext.recording e' = false
    /\ match Ext.recordedSamples e with
       | [] =>
           file = None
           /\ Ext.log e' = Ext.log e ++ [Ext.alert "No audio recorded."]
       | all =>
           file = Some (Blocks.mkDownload (Str.orS FILENAME "bytebeat.wav")
                          (wavFile all (Ext.sampleRate ctx)))
           /\ Ext.log e' = Ext.log e
       end
    /\ Ext.recordedSamples e' = []
    /\ forall chunk,
        Z.of_nat (length chunk) <= Ext.recordMaxSamples e ->
        exists e'',
          Ext._handleNodeMessage newFunction (S fuel) (Worklet.recordChunk chunk) e'
          = Some e''
          /\ Ext.recordedSamples e'' = chunk.
Proof.
  intros Hn Hu Hctx. unfold Blocks.recordStopSave, Ext._postToNode, Ext._postToNode_with.
  destruct e as [c nd pl uw wl ls vol fm rec samples mx pc sc lg cl].
  cbn in Hn, Hu, Hctx. subst nd uw c. ext_simpl.
  destruct samples as [|x samples]; ext_simpl.
  - eexists _, _. split; [reflexivity|]. ext_simpl.
    split; [reflexivity|]. split; [reflexivity|].
    split; [split; reflexivity|]. split; [reflexivity|].
    intros chunk Hle. cbn [Ext._handleNodeMessage]. ext_simpl.
    destruct (_ >? mx) eqn:E; [lia|]. eexists. split; reflexivity.
  - rewrite makeWavBlob_bytes. eexists _, _. split; [reflexivity|]. ext_simpl.
    split; [reflexivity|]. split; [reflexivity|].
    split; [split; [unfold wavFile; cbn [length]; reflexivity|reflexivity]|].
    split; [reflexivity|].
    intros chunk Hle. cbn [Ext._handleNodeMessage]. ext_simpl.
    destruct (_ >? mx) eqn:E; [lia|]. eexists. split; reflexivity.
Qed.

Lemma recordStopSave_on_the_worklet_backend_witness :
  exists file e',
    Blocks.recordStopSave Sample.engine 2 "take.wav" Sample.workletPlaying
    = Some (file, e')
    /\ file = None
    /\ Ext.recordedSamples e' = [].
Proof.
  destruct (recordStopSave_on_the_worklet_backend Sample.engine 2 "take.wav"
              Sample.workletPlaying
              [Worklet.setChunkSize 4096; Worklet.setFormula "t"]
              (Ext.mkContext 44100) eq_refl eq_refl eq_refl)
    as (file & e' & H & _ & _ & Hfile & Hsam & _).
  change (Ext.recordedSamples Sample.workletPlaying) with (@nil Q) in Hfile.
  destruct Hfile as [Hfile _].
  exists file, e'. split; [exact H|]. split; [exact Hfile|exact Hsam].
Defined.

(** ** The example reporter *)

Lemma Qfloor_unique (x : Q) (z : Z) :
  (inject_Z z <= x)%Q -> (x < inject_Z (z + 1))%Q -> Qfloor x = z.
Proof.
  intros Hlo Hhi.
  pose proof (Qfloor_le x) as H1. pose proof (Qlt_floor x) as H2.
  assert (inject_Z z < inject_Z (Qfloor x + 1))%Q as A by (eapply Qle_lt_trans; eassumption).
  assert (inject_Z (Qfloor x) < inject_Z (z + 1))%Q as B by (eapply Qle_lt_trans; eassumption).
  rewrite <- Zlt_Qlt in A, B. lia.
Qed.

Lemma Qfloor_plus_Z (x : Q) (k : Z) : Qfloor (x + inject_Z k) = Qfloor x + k.
Proof.
  apply Qfloor_unique.
  - rewrite inject_Z_plus. pose proof (Qfloor_le x). lra.
  - replace (Qfloor x + k + 1) with ((Qfloor x + 1) + k) by lia.
    rewrite inject_Z_plus. pose proof (Qlt_floor x). lra.
Qed.

Lemma exampleFormula_index (N : Q) :
  let n := JS.Z_max 1 (JS.Math_floor (JS.orQ N 1)) in
  Blocks.exampleFormula N = Blocks.examples !! Z.to_nat ((n - 1) mod 5)
  /\ 0 <= (n - 1) mod 5 < 5.
Proof.
  cbv zeta. unfold Blocks.exampleFormula, Blocks.at_index.
  set (n := JS.Z_max 1 (JS.Math_floor (JS.orQ N 1))).
  assert (1 <= n) by (unfold n, JS.Z_max; lia).
  change (Z.of_nat (length Blocks.examples)) with 5.
  rewrite Z.rem_mod_nonneg by lia.
  pose proof (Z.mod_pos_bound (n - 1) 5 ltac:(lia)) as Hb.
  destruct (_ <? 0) eqn:E; [lia|]. split; [reflexivity|exact Hb].
Qed.

(** X14.  [exampleFormula] always reports one of the five examples: for any
    finite number [N] the index [(n - 1) % 5] is in range.  A number below
    2, zero and the negative numbers included, reports the first example;
    the numbers 1 to 5 report the examples in order; and from 1 on, as far
    as the integers are exact (up to 2^53), the report repeats with the
    period 5. *)
Theorem exampleFormula_reports_an_example (N : Q) :
  (exists text, Blocks.exampleFormula N = Some text /\ In text Blocks.examples)
  /\ ((N < 2)%Q -> Blocks.exampleFormula N = Blocks.examples !! 0%nat)
  /\ (forall k : nat, (k < 5)%nat ->
        Blocks.exampleFormula (inject_Z (Z.of_nat k + 1)) = Blocks.examples !! k)
  /\ ((1 <= N)%Q -> (N + 5 <= inject_Z (2 ^ 53))%Q ->
      Blocks.exampleFormula (N + 5) = Blocks.exampleFormula N).
Proof.
  destruct (exampleFormula_index N) as [Hidx Hrange]. cbv zeta in *.
  split; [|split; [|split]].
  - rewrite Hidx.
    set (i := (JS.Z_max 1 (JS.Math_floor (JS.orQ N 1)) - 1) mod 5) in *.
    assert (i = 0 \/ i = 1 \/ i = 2 \/ i = 3 \/ i = 4) as Hi by lia.
    destruct Hi as [-> | [-> | [-> | [-> | ->]]]]; cbn;
      (eexists; split; [reflexivity|]); cbn; tauto.
  - intros Hlt. rewrite Hidx.
    assert (JS.Math_floor (JS.orQ N 1) <= 1) as Hfl.
    { unfold JS.orQ, JS.Math_floor. destruct (JS.truthyQ N); [|reflexivity].
      assert (Qfloor N < 2); [|lia].
      rewrite Zlt_Qlt. eapply Qle_lt_trans; [apply Qfloor_le|exact Hlt]. }
    unfold JS.Z_max. replace (Z.max 1 (JS.Math_floor (JS.orQ N 1))) with 1 by lia.
    reflexivity.
  - intros k Hk. destruct (exampleFormula_index (inject_Z (Z.of_nat k + 1))) as [-> _].
    cbv zeta. unfold JS.orQ, JS.truthyQ, JS.Math_floor.
    assert (Qeq_bool (inject_Z (Z.of_nat k + 1)) 0 = false) as ->.
    { apply not_true_iff_false. intros E. apply Qeq_bool_iff in E.
      unfold Qeq in E. cbn in E. lia. }
    cbn [negb]. rewrite Qfloor_Z. unfold JS.Z_max.
    replace (Z.max 1 (Z.of_nat k + 1) - 1) with (Z.of_nat k) by lia.
    rewrite Z.mod_small by lia. now rewrite Nat2Z.id.
  - intros Hge _. destruct (exampleFormula_index (N + 5)) as [-> _]. rewrite Hidx.
    cbv zeta. unfold JS.orQ, JS.truthyQ, JS.Math_floor.
    assert (Qeq_bool N 0 = false) as ->.
    { apply not_true_iff_false. intros E. apply Qeq_bool_iff in E. lra. }
    assert (Qeq_bool (N + 5) 0 = false) as ->.
    { apply not_true_iff_false. intros E. apply Qeq_bool_iff in E. lra. }
    cbn [negb]. change 5%Q with (inject_Z 5). rewrite Qfloor_plus_Z.
    assert (1 <= Qfloor N).
    { change 1 with (Qfloor (inject_Z 1)). apply Qfloor_resp_le. exact Hge. }
    unfold JS.Z_max. rewrite !Z.max_r by lia.
    replace (Qfloor N + 5 - 1) with (Qfloor N - 1 + 1 * 5) by lia.
    now rewrite Z.mod_add by lia.
Qed.

Lemma exampleFormula_reports_an_example_witness :
  Blocks.exampleFormula 0 = Blocks.examples !! 0%nat
  /\ Blocks.exampleFormula (7 + 5) = Blocks.exampleFormula 7.
Proof.
  split.
  - apply (proj1 (proj2 (exampleFormula_reports_an_example 0))). reflexivity.
  - apply (proj2 (proj2 (proj2 (exampleFormula_reports_an_example 7)))).
    + discriminate.
    + unfold Qle. cbn. lia.
Defined.

(** ** The text that [startFormula] stores *)

Section TrimFacts.

Lemma trimEnd_cons (c : ascii) (s : string) :
  Str.trimEnd (String c s)
  = match Str.trimEnd s with
    | EmptyString => if Str.isWhiteSpace c then EmptyString else String c EmptyString
    | r => String c r
    end.
Proof. reflexivity. Qed.

Lemma trimEnd_idem (s : string) : Str.trimEnd (Str.trimEnd s) = Str.trimEnd s.
Proof.
  induction s as [|c s IH]; [reflexivity|].
  rewrite trimEnd_cons. destruct (Str.trimEnd s) as [|d r] eqn:E.
  - destruct (Str.isWhiteSpace c) eqn:Hc; [reflexivity|].
    rewrite trimEnd_cons. cbn [Str.trimEnd]. now rewrite Hc.
  - rewrite trimEnd_cons, IH. reflexivity.
Qed.

Lemma trimStart_noLeadingWs (s : string) : noLeadingWs (Str.trimStart s).
Proof.
  induction s as [|c s IH]; [exact I|].
  cbn [Str.trimStart]. destruct (Str.isWhiteSpace c) eqn:Hc; [exact IH|exact Hc].
Qed.

Lemma trimEnd_noLeadingWs (s : string) : noLeadingWs s -> noLeadingWs (Str.trimEnd s).
Proof.
  destruct s as [|c s]; [auto|]. cbn [noLeadingWs Str.trimEnd]. intros Hc.
  destruct (Str.trimEnd s); [now rewrite Hc|exact Hc].
Qed.

Lemma trimStart_id (s : string) : noLeadingWs s -> Str.trimStart s = s.
Proof. destruct s as [|c s]; [auto|]. cbn. now intros ->. Qed.

Lemma trim_idem (s : string) : Str.trim (Str.trim s) = Str.trim s.
Proof.
  unfold Str.trim.
  rewrite (trimStart_id (Str.trimEnd (Str.trimStart s))).
  - apply trimEnd_idem.
  - apply trimEnd_noLeadingWs, trimStart_noLeadingWs.
Qed.

Lemma trim_allWhiteSpace (s : string) : allWhiteSpace s = true -> Str.trim s = EmptyString.
Proof.
  unfold Str.trim. induction s as [|c s IH]; [reflexivity|].
  cbn [allWhiteSpace Str.trimStart]. intros H. apply andb_prop in H as [Hc Hs].
  rewrite Hc. auto.
Qed.

Lemma fallback_passes_the_screen :
  _sanityCheckFormula ERROR_FALLBACK_FORMULA = None
  /\ Str.trim ERROR_FALLBACK_FORMULA = ERROR_FALLBACK_FORMULA.
Proof. split; vm_compute; reflexivity. Qed.

Lemma screened_passes (FORMULA current : string) :
  _sanityCheckFormula (screened FORMULA current) = None
  /\ Str.trim (screened FORMULA current) = screened FORMULA current.
Proof.
  unfold screened. cbv zeta.
  destruct (_sanityCheckFormula (Str.trim (Str.orS FORMULA current))) eqn:E.
  - apply fallback_passes_the_screen.
  - split; [exact E|apply trim_idem].
Qed.

Lemma examples_pass_the_screen (text : string) :
  In text Blocks.examples ->
  _sanityCheckFormula text = None /\ Str.trim text = text /\ text <> EmptyString.
Proof.
  intros H. cbn in H.
  repeat (destruct H as [<-|H];
          [split; [vm_compute; reflexivity|split; [vm_compute; reflexivity|discriminate]]|]).
  contradiction.
Qed.

End TrimFacts.

(** X15.  [startFormula] never stores a text that the screen rejects.  From a
    well-formed state it returns, and the formula it leaves passes
    [_sanityCheckFormula] and has no white space at either end.  An empty
    argument stands for the current formula; an argument of white space
    only stores the empty formula. *)
Theorem startFormula_stores_a_screened_text
        (newFunction : Compiler) (fuel : nat) (host : Ext.Host) (FORMULA : string)
        (e : Ext.BytebeatExtension) :
  WellFormed e ->
  exists e',
    Ext.startFormula newFunction fuel host FORMULA e = Some e'
    /\ Ext.formula e' = screened FORMULA (Ext.formula e)
    /\ _sanityCheckFormula (Ext.formula e') = None
    /\ Str.trim (Ext.formula e') = Ext.formula e'
    /\ (FORMULA = EmptyString ->
        Ext.formula e' = screened (Ext.formula e) (Ext.formula e))
    /\ (FORMULA <> EmptyString -> allWhiteSpace FORMULA = true ->
        Ext.formula e' = EmptyString).
Proof.
  intros Hwf.
  destruct (startFormula_wf newFunction fuel host FORMULA e Hwf) as (e' & H & _ & Hf).
  exists e'. split; [exact H|]. split; [exact Hf|]. rewrite Hf.
  destruct (screened_passes FORMULA (Ext.formula e)) as [H1 H2].
  split; [exact H1|]. split; [exact H2|]. split.
  - intros ->. unfold screened. cbn [Str.orS]. now destruct (Ext.formula e).
  - intros Hne Hws. unfold screened. cbv zeta.
    assert (Str.orS FORMULA (Ext.formula e) = FORMULA) as ->
      by (destruct FORMULA; [now destruct Hne|reflexivity]).
    rewrite (trim_allWhiteSpace FORMULA Hws). reflexivity.
Qed.

Lemma wellFormed_constructor : WellFormed Ext.constructor.
Proof.
  unfold WellFormed, SettingsInRange, nodeKind. cbn.
  repeat apply conj; try lia; try reflexivity; try discriminate;
    intros H; now destruct H.
Qed.

Lemma startFormula_stores_a_screened_text_witness :
  exists e',
    Ext.startFormula Sample.engine 2 Sample.hostNoWorklet "  " Ext.constructor = Some e'
    /\ Ext.formula e' = EmptyString.
Proof.
  destruct (startFormula_stores_a_screened_text Sample.engine 2 Sample.hostNoWorklet "  "
              Ext.constructor wellFormed_constructor)
    as (e' & H & _ & _ & _ & _ & Hws).
  exists e'. split; [exact H|]. apply Hws; [discriminate|reflexivity].
Defined.

(** X16.  Every formula that the example reporter returns can be started as it
    is: for any finite number [N] the reported text passes the screen and
    is, unchanged, the formula that [startFormula] leaves. *)
Theorem example_formulas_are_accepted
        (newFunction : Compiler) (fuel : nat) (host : Ext.Host) (N : Q)
        (e : Ext.BytebeatExtension) :
  WellFormed e ->
  exists text e',
    Blocks.exampleFormula N = Some text
    /\ _sanityCheckFormula text = None
    /\ Ext.startFormula newFunction fuel host text e = Some e'
    /\ Ext.formula e' = text.
Proof.
  intros Hwf.
  destruct (exampleFormula_index N) as [Hidx Hrange]. cbv zeta in *.
  assert (exists text, Blocks.exampleFormula N = Some text /\ In text Blocks.examples)
    as (text & Hex & Hin).
  { rewrite Hidx.
    set (i := (JS.Z_max 1 (JS.Math_floor (JS.orQ N 1)) - 1) mod 5) in *.
    assert (i = 0 \/ i = 1 \/ i = 2 \/ i = 3 \/ i = 4) as Hi by lia.
    destruct Hi as [-> | [-> | [-> | [-> | ->]]]]; cbn;
      (eexists; split; [reflexivity|]); cbn; tauto. }
  destruct (examples_pass_the_screen text Hin) as (Hscreen & Htrim & Hne).
  destruct (startFormula_wf newFunction fuel host text e Hwf) as (e' & H & _ & Hf).
  exists text, e'. repeat split; try assumption.
  rewrite Hf. unfold screened. cbv zeta.
  assert (Str.orS text (Ext.formula e) = text) as ->
    by (destruct text; [now destruct Hne|reflexivity]).
  now rewrite Htrim, Hscreen.
Qed.

Lemma example_formulas_are_accepted_witness :
  exists text e',
    Blocks.exampleFormula 3 = Some text
    /\ Ext.startFormula Sample.engine 2 Sample.host text Ext.constructor = Some e'
    /\ Ext.formula e' = text.
Proof.
  destruct (example_formulas_are_accepted Sample.engine 2 Sample.host 3 Ext.constructor
              wellFormed_constructor) as (text & e' & H1 & _ & H2 & H3).
  exists text, e'. auto.
Defined.

(** ** More on the WAV encoder *)

(** X17.  The container is consistent.  For every rate and every list of fewer
    than 2^31 - 18 samples, [_makeWavBlob] returns (no write falls outside
    the buffer), the four tags RIFF, WAVE, fmt and data are at the offsets
    0, 8, 12 and 36, the RIFF size field holds the length of the file minus
    8, the size of the format chunk is 16 and the data size field holds the
    length of the file minus 44.  No sample gives the 44 bytes of the
    header alone. *)
Theorem wav_container_is_consistent (samples : list Q) (sampleRate : Z) :
  Z.of_nat (length samples) < 2 ^ 31 - 18 ->
  exists bytes,
    Wav._makeWavBlob samples sampleRate = Some bytes
    /\ Wav.readBytes 0 4 bytes = Some (charCodes "RIFF")
    /\ Wav.readBytes 8 4 bytes = Some (charCodes "WAVE")
    /\ Wav.readBytes 12 4 bytes = Some (charCodes "fmt ")
    /\ Wav.readBytes 36 4 bytes = Some (charCodes "data")
    /\ Wav.getUint32 4 bytes = Some (Z.of_nat (length bytes) - 8)
    /\ Wav.getUint32 16 bytes = Some 16
    /\ Wav.getUint32 40 bytes = Some (Z.of_nat (length bytes) - 44)
    /\ (samples = [] -> length bytes = 44%nat).
Proof.
  intros HN. change (2 ^ 31 - 18) with 2147483630 in HN.
  exists (wavHeader (length samples) sampleRate ++ wavBody samples).
  split; [apply makeWavBlob_bytes|].
  assert (Hlen : Z.of_nat (length (wavHeader (length samples) sampleRate
                                     ++ wavBody samples))
                 = 44 + 2 * Z.of_nat (length samples)).
  { rewrite length_app, wavHeader_length, wavBody_length. lia. }
  rewrite Hlen.
  split; [now rewrite readBytes_header by lia|].
  split; [now rewrite readBytes_header by lia|].
  split; [now rewrite readBytes_header by lia|].
  split; [now rewrite readBytes_header by lia|].
  split.
  { rewrite (getUint32_header 4 _ _ (36 + Z.of_nat (length samples) * 2))
      by (lia || reflexivity).
    change (2 ^ 32) with 4294967296. rewrite Z.mod_small by lia. f_equal. lia. }
  split.
  { rewrite (getUint32_header 16 _ _ 16) by (lia || reflexivity). reflexivity. }
  split.
  { rewrite (getUint32_header 40 _ _ (Z.of_nat (length samples) * 2))
      by (lia || reflexivity).
    change (2 ^ 32) with 4294967296. rewrite Z.mod_small by lia. f_equal. lia. }
  intros ->. reflexivity.
Qed.

Lemma wav_container_is_consistent_witness :
  exists bytes,
    Wav._makeWavBlob [0%Q; 1%Q] 44100 = Some bytes
    /\ Wav.getUint32 4 bytes = Some (Z.of_nat (length bytes) - 8).
Proof.
  destruct (wav_container_is_consistent [0%Q; 1%Q] 44100)
    as (bytes & H & _ & _ & _ & _ & H4 & _).
  - vm_compute. reflexivity.
  - exists bytes. split; [exact H|exact H4].
Defined.

Section PcmFacts.

Lemma clamp_monotone (x y : Q) :
  (x <= y)%Q ->
  (JS.Math_max (-1) (JS.Math_min 1 x) <= JS.Math_max (-1) (JS.Math_min 1 y))%Q.
Proof.
  intros H. unfold JS.Math_max, JS.Math_min.
  destruct (Qle_bool 1 x) eqn:X1; destruct (Qle_bool 1 y) eqn:Y1;
    try (apply Qle_bool_iff in X1); try (apply Qle_bool_iff in Y1);
    try (assert (~ (1 <= x)%Q) by (rewrite <- Qle_bool_iff; congruence));
    try (assert (~ (1 <= y)%Q) by (rewrite <- Qle_bool_iff; congruence));
    cbn [Qle_bool];
    repeat match goal with
           | |- context [Qle_bool ?a ?b] =>
               let E := fresh "E" in
               destruct (Qle_bool a b) eqn:E;
               [apply Qle_bool_iff in E
               |assert (~ (a <= b)%Q) by (rewrite <- Qle_bool_iff; congruence)]
           end; lra.
Qed.

Lemma Math_round_monotone (x y : Q) : (x <= y)%Q -> JS.Math_round x <= JS.Math_round y.
Proof. intros H. unfold JS.Math_round. apply Qfloor_resp_le. lra. Qed.

Lemma pcm16_monotone (x y : Q) : (x <= y)%Q -> Wav.pcm16 x <= Wav.pcm16 y.
Proof.
  intros H. unfold Wav.pcm16. pose proof (clamp_monotone x y H) as Hc.
  set (a := JS.Math_max (-1) (JS.Math_min 1 x)) in *.
  set (b := JS.Math_max (-1) (JS.Math_min 1 y)) in *. clearbody a b.
  apply Math_round_monotone. unfold JS.lt0.
  destruct (Qle_bool 0 a) eqn:A; destruct (Qle_bool 0 b) eqn:B; cbn [negb];
    try (apply Qle_bool_iff in A); try (apply Qle_bool_iff in B);
    try (assert (~ (0 <= a)%Q) by (rewrite <- Qle_bool_iff; congruence));
    try (assert (~ (0 <= b)%Q) by (rewrite <- Qle_bool_iff; congruence)); lra.
Qed.

End PcmFacts.

(** X18.  The conversion to 16 bits keeps the order: a larger sample never
    gets a smaller value, so clipping saturates and nothing wraps around;
    and the sample 0 is stored as 0. *)
Theorem pcm16_keeps_the_order (x y : Q) :
  ((x <= y)%Q -> Wav.pcm16 x <= Wav.pcm16 y)
  /\ Wav.pcm16 0 = 0.
Proof.
  split; [apply pcm16_monotone|reflexivity].
Qed.

Lemma pcm16_keeps_the_order_witness :
  Wav.pcm16 (1 # 3) <= Wav.pcm16 (1 # 2) /\ Wav.pcm16 (3 # 2) <= Wav.pcm16 2.
Proof.
  split.
  - apply (proj1 (pcm16_keeps_the_order (1 # 3) (1 # 2))). discriminate.
  - apply (proj1 (pcm16_keeps_the_order (3 # 2) 2)). discriminate.
Defined.

Lemma pcm16_of_byte_table :
  forallb (fun v => Wav.pcm16 (quantize v 1) =? pcmOfByte v)
          (map Z.of_nat (seq 0 256)) = true.
Proof. vm_compute. reflexivity. Qed.

Lemma pcmOfByte_increasing (v w : Z) :
  0 <= v -> v < w -> w <= 255 -> pcmOfByte v < pcmOfByte w.
Proof.
  intros H0 Hlt H255. unfold pcmOfByte.
  destruct (v <? 128) eqn:Ev; destruct (w <? 128) eqn:Ew; try lia.
  - assert (0 <= ((w - 128) * 32767 + 64) / 128) by (apply Z.div_pos; lia). lia.
  - assert (((v - 128) * 32767 + 64) / 128 < ((w - 128) * 32767 + 64) / 128); [|lia].
    apply Z.div_lt_upper_bound; [lia|].
    pose proof (Z.mul_div_le ((w - 128) * 32767 + 64) 128 ltac:(lia)).
    pose proof (Z.mod_pos_bound ((w - 128) * 32767 + 64) 128 ltac:(lia)).
    pose proof (Z.div_mod ((w - 128) * 32767 + 64) 128 ltac:(lia)).
    lia.
Qed.

(** X19.  At the gain 1 a recording keeps every byte of the formula.  The value
    stored for a raw result depends on its low byte only, is the multiple
    [(v - 128) * 256] for a byte below 128 and the rounded
    [(v - 128) * 32767 / 128] from 128 on, grows strictly with the byte,
    and therefore differs for different bytes; the byte 128 is stored as
    0, the byte 0 as -32768 and the byte 255 as 32511, short of clipping. *)
Theorem recording_at_gain_one_keeps_the_bytes (r1 r2 : Z) :
  Wav.pcm16 (quantize r1 1) = pcmOfByte (v8_of r1)
  /\ (v8_of r1 < v8_of r2 -> Wav.pcm16 (quantize r1 1) < Wav.pcm16 (quantize r2 1))
  /\ (Wav.pcm16 (quantize r1 1) = Wav.pcm16 (quantize r2 1) -> v8_of r1 = v8_of r2)
  /\ pcmOfByte 128 = 0 /\ pcmOfByte 0 = -32768 /\ pcmOfByte 255 = 32511.
Proof.
  assert (Htable : forall r, Wav.pcm16 (quantize r 1) = pcmOfByte (v8_of r)).
  { intros r. pose proof (v8_of_range r) as Hr.
    assert (quantize r 1 = quantize (v8_of r) 1) as ->.
    { unfold quantize. cbv zeta. do 2 f_equal. f_equal.
      rewrite !v8_of_mod. now rewrite Z.mod_mod by lia. }
    pose proof pcm16_of_byte_table as Ht. rewrite forallb_forall in Ht.
    apply Z.eqb_eq, Ht. apply in_map_iff. exists (Z.to_nat (v8_of r)).
    split; [lia|]. apply in_seq. lia. }
  split; [apply Htable|]. rewrite !Htable.
  pose proof (v8_of_range r1) as H1. pose proof (v8_of_range r2) as H2.
  split; [|split; [|repeat split; reflexivity]].
  - intros Hlt. apply pcmOfByte_increasing; lia.
  - intros Heq.
    destruct (Z.lt_trichotomy (v8_of r1) (v8_of r2)) as [Hlt|[E|Hgt]]; [|exact E|].
    + pose proof (pcmOfByte_increasing (v8_of r1) (v8_of r2)). lia.
    + pose proof (pcmOfByte_increasing (v8_of r2) (v8_of r1)). lia.
Qed.

Lemma recording_at_gain_one_keeps_the_bytes_witness :
  Wav.pcm16 (quantize 127 1) < Wav.pcm16 (quantize 128 1).
Proof.
  apply (proj1 (proj2 (recording_at_gain_one_keeps_the_bytes 127 128))).
  vm_compute. reflexivity.
Defined.

(** ** The exchange of error reports *)

Section LinkFacts.
Variable newFunction : Compiler.

Lemma deliver_app (a b : list Worklet.InMsg) (p : Worklet.BytebeatProcessor) :
  deliver newFunction (a ++ b) p = deliver newFunction b (deliver newFunction a p).
Proof. unfold deliver. apply fold_left_app. Qed.

Lemma deliver_cons (m : Worklet.InMsg) (msgs : list Worklet.InMsg)
      (p : Worklet.BytebeatProcessor) :
  deliver newFunction (m :: msgs) p
  = deliver newFunction msgs (Worklet.onmessage newFunction m p).
Proof. reflexivity. Qed.

(** The extension answers each error report with one alert and one
    [setFormula] carrying the fallback formula. *)
Lemma handleAll_errors (fuel : nat) (msgs : list Worklet.OutMsg)
      (e : Ext.BytebeatExtension) (nodePort : list Worklet.InMsg) :
  (1 <= fuel)%nat ->
  Ext.node e = Some (Ext.AudioWorkletNode nodePort) -> Ext._usingWorklet e = true ->
  Forall (fun m => exists text, m = Worklet.error text) msgs ->
  exists e',
    Link.handleAll newFunction fuel msgs e = Some e'
    /\ Ext.node e'
       = Some (Ext.AudioWorkletNode
                 (nodePort ++ repeat (Worklet.setFormula ERROR_FALLBACK_FORMULA)
                                     (length msgs)))
    /\ Ext._usingWorklet e' = true
    /\ length (alertsOf (Ext.log e')) = (length (alertsOf (Ext.log e)) + length msgs)%nat
    /\ Ext.formula e' = Ext.formula e
    /\ Ext.compileLog e' = Ext.compileLog e.
Proof.
  intros Hfuel. revert e nodePort.
  induction msgs as [|m msgs IH]; intros e nodePort Hn Hu Hall.
  - exists e. cbn. rewrite app_nil_r, Nat.add_0_r. repeat split; auto.
  - inversion Hall as [|? ? (text & ->) Hall']. subst.
    destruct fuel as [|fuel]; [lia|].
    cbn [Link.handleAll Ext._handleNodeMessage].
    unfold Ext._postToNode_with.
    destruct e as [ctx nd pl uw wl ls vol fm rec samples mx pc sc lg cl].
    cbn in Hn, Hu. subst nd uw. ext_simpl.
    match goal with |- context [Link.handleAll _ _ msgs ?x] =>
      destruct (IH x (nodePort ++ [Worklet.setFormula ERROR_FALLBACK_FORMULA])
                  eq_refl eq_refl Hall') as (e' & H & Hn' & Hu' & Hal & Hf & Hc)
    end.
    exists e'. split; [exact H|]. ext_simpl.
    split; [rewrite Hn', <- app_assoc; reflexivity|].
    split; [exact Hu'|]. split; [|split; assumption].
    rewrite Hal. unfold alertsOf. rewrite flat_map_app, length_app. cbn. lia.
Qed.

(** When the fallback formula cannot be built, or throws on the neutral
    inputs, the processor answers each [setFormula] that carries it with
    one more error report. *)
Lemma deliver_fallback_fails (k : nat) (p : Worklet.BytebeatProcessor) :
  fallbackFails newFunction ->
  exists new,
    Worklet.port (deliver newFunction
                    (repeat (Worklet.setFormula ERROR_FALLBACK_FORMULA) k) p)
    = Worklet.port p ++ new
    /\ length new = k
    /\ Forall (fun m => exists text, m = Worklet.error text) new.
Proof.
  unfold fallbackFails. intros Hbad. revert p. induction k as [|k IH]; intros p.
  - exists []. cbn. now rewrite app_nil_r.
  - cbn [repeat]. rewrite deliver_cons. cbn [Worklet.onmessage].
    pose proof (worklet_setFormula_spec newFunction ERROR_FALLBACK_FORMULA p)
      as (_ & _ & _ & _ & Hcase).
    assert (exists m, Worklet.port (Worklet._setFormula newFunction ERROR_FALLBACK_FORMULA p)
                      = Worklet.port p ++ [Worklet.error m]) as (m & Hport).
    { destruct (newFunction ERROR_FALLBACK_FORMULA) as [g|].
      - rewrite Hbad in Hcase. tauto.
      - tauto. }
    destruct (IH (Worklet._setFormula newFunction ERROR_FALLBACK_FORMULA p))
      as (new & Hnew & Hlen & Hall).
    exists (Worklet.error m :: new). rewrite Hnew, Hport, <- app_assoc.
    split; [reflexivity|]. split; [cbn; lia|]. constructor; eauto.
Qed.

Lemma exchange_errors (fuel : nat) (l : Link.Link) :
  (1 <= fuel)%nat -> fallbackFails newFunction -> ErrorsPending l ->
  exists l',
    Link.exchange newFunction fuel l = Some l'
    /\ ErrorsPending l'
    /\ length (Link.pendingToMain l') = length (Link.pendingToMain l)
    /\ length (alertsOf (Ext.log (Link.main l')))
       = (length (alertsOf (Ext.log (Link.main l))) + length (Link.pendingToMain l))%nat
    /\ Ext.formula (Link.main l') = Ext.formula (Link.main l).
Proof.
  intros Hfuel Hbad ((nodePort & Hn) & Hu & Hto & Htm & Hne & Hall).
  destruct l as [e p tp tm]. cbn [Link.main Link.proc Link.toProc Link.toMain] in *.
  unfold Link.exchange, Link.runMain.
  cbn [Link.main Link.proc Link.toProc Link.toMain].
  set (pending := Link.pendingToMain (Link.mkLink e p tp tm)) in *. clearbody pending.
  destruct (handleAll_errors fuel pending e nodePort Hfuel Hn Hu Hall)
    as (e' & H & Hn' & Hu' & Hal & Hf & _).
  rewrite H. eexists. split; [reflexivity|].
  assert (HportOf : portOf e = nodePort) by (unfold portOf; now rewrite Hn).
  assert (HportOf' : portOf e'
                     = nodePort ++ repeat (Worklet.setFormula ERROR_FALLBACK_FORMULA)
                                          (length pending))
    by (unfold portOf; now rewrite Hn').
  unfold Link.runProc, Link.pendingToProc.
  cbn [Link.main Link.proc Link.toProc Link.toMain].
  rewrite HportOf', Hto, HportOf, drop_app_length.
  destruct (deliver_fallback_fails (length pending) p Hbad) as (new & Hnew & Hlen & Hnewall).
  assert (Hpend' : Link.pendingToMain
                     (Link.mkLink e'
                        (deliver newFunction
                           (repeat (Worklet.setFormula ERROR_FALLBACK_FORMULA)
                                   (length pending)) p)
                        (length (nodePort
                                 ++ repeat (Worklet.setFormula ERROR_FALLBACK_FORMULA)
                                           (length pending)))
                        (length (Worklet.port p))) = new).
  { unfold Link.pendingToMain. cbn [Link.proc Link.toMain].
    rewrite Hnew. apply drop_app_length. }
  split; [|split; [|split]].
  - unfold ErrorsPending. cbn [Link.main Link.proc Link.toProc Link.toMain].
    rewrite Hpend'. split; [eauto|]. split; [exact Hu'|].
    split; [now rewrite HportOf'|].
    split; [rewrite Hnew, length_app; lia|].
    split; [|exact Hnewall].
    intros ->. apply Hne. apply length_zero_iff_nil. cbn [length] in Hlen. lia.
  - rewrite Hpend'. exact Hlen.
  - exact Hal.
  - exact Hf.
Qed.

End LinkFacts.

(** X20.  When the fallback formula cannot be built either, the exchange of
    error reports has no end.  The processor of a new node reports the
    failure of its constructor; the extension answers every report with an
    alert and a [setFormula] that carries the fallback formula; the
    processor fails on it again and reports again.  After any number of
    exchanges as many reports are pending as at the start, and each
    exchange has raised that many alerts. *)
Theorem error_exchange_never_ends_without_a_fallback
        (newFunction : Compiler) (fuel : nat) :
  (1 <= fuel)%nat -> fallbackFails newFunction ->
  (forall e size text,
      Ext.node e = Some (Ext.AudioWorkletNode
                           [Worklet.setChunkSize size; Worklet.setFormula text]) ->
      Ext._usingWorklet e = true ->
      ErrorsPending (Link.fresh newFunction e))
  /\ (forall l, ErrorsPending l ->
        forall n, exists l',
          Link.exchanges newFunction n fuel l = Some l'
          /\ ErrorsPending l'
          /\ ~ Link.quiescent l'
          /\ length (alertsOf (Ext.log (Link.main l')))
             = (length (alertsOf (Ext.log (Link.main l)))
                + n * length (Link.pendingToMain l))%nat
          /\ Ext.formula (Link.main l') = Ext.formula (Link.main l)).
Proof.
  intros Hfuel Hbad. split.
  - intros e size text Hn Hu. unfold Link.fresh, Link.runProc, Link.pendingToProc.
    cbn [Link.main Link.proc Link.toProc Link.toMain].
    assert (HportOf : portOf e = [Worklet.setChunkSize size; Worklet.setFormula text])
      by (unfold portOf; now rewrite Hn).
    rewrite HportOf. cbn [drop]. rewrite !deliver_cons. cbn [deliver fold_left].
    unfold ErrorsPending, Link.pendingToMain.
    cbn [Link.main Link.proc Link.toProc Link.toMain drop].
    split; [eauto|]. split; [exact Hu|]. split; [now rewrite HportOf|].
    split; [lia|].
    assert (Hc : exists m, Worklet.port (Worklet.constructor newFunction)
                           = [Worklet.error m]).
    { unfold Worklet.constructor.
      pose proof (worklet_setFormula_spec newFunction ERROR_FALLBACK_FORMULA
                    (Worklet.mkProcessor 0%Q None false [] 4096 [] []))
        as (_ & _ & _ & _ & Hcase).
      unfold fallbackFails in Hbad.
      destruct (newFunction ERROR_FALLBACK_FORMULA) as [g|].
      - rewrite Hbad in Hcase. destruct Hcase as (_ & (m & Hm) & _).
        exists m. exact Hm.
      - destruct Hcase as (_ & (m & Hm) & _). exists m. exact Hm. }
    destruct Hc as (m0 & Hc).
    cbn [Worklet.onmessage].
    set (p1 := Worklet.set_recordChunkSize _ (Worklet.constructor newFunction)).
    assert (Hp1 : Worklet.port p1 = [Worklet.error m0]) by exact Hc.
    pose proof (worklet_setFormula_spec newFunction text p1) as (_ & _ & _ & _ & Hcase).
    clearbody p1.
    assert (Worklet.port (Worklet._setFormula newFunction text p1) = [Worklet.error m0]
            \/ exists m1, Worklet.port (Worklet._setFormula newFunction text p1)
                          = [Worklet.error m0; Worklet.error m1]) as Hport.
    { rewrite Hp1 in Hcase.
      destruct (newFunction text) as [f|]; [destruct (f 0 8000%Q 0%Q)|].
      - left. tauto.
      - right. destruct Hcase as (_ & (m & Hm) & _). exists m. exact Hm.
      - right. destruct Hcase as (_ & (m & Hm) & _). exists m. exact Hm. }
    destruct Hport as [->|(m1 & ->)]; (split; [discriminate|]); repeat constructor; eauto.
  - intros l Hl n. revert l Hl. induction n as [|n IH]; intros l Hl.
    + exists l. cbn [Link.exchanges]. split; [reflexivity|]. split; [exact Hl|].
      split; [|split; [lia|reflexivity]].
      intros [_ Hq]. destruct Hl as (_ & _ & _ & _ & Hne & _). contradiction.
    + destruct (exchange_errors newFunction fuel l Hfuel Hbad Hl)
        as (l1 & H1 & Hl1 & Hlen1 & Hal1 & Hf1).
      destruct (IH l1 Hl1) as (l' & H & Hl' & Hq & Hal & Hf).
      exists l'. cbn [Link.exchanges]. rewrite H1. split; [exact H|].
      split; [exact Hl'|]. split; [exact Hq|]. split; [|congruence].
      rewrite Hal, Hal1, Hlen1. lia.
Qed.

Lemma error_exchange_never_ends_without_a_fallback_witness :
  exists l',
    Link.exchanges Sample.noEval 3 1 (Link.fresh Sample.noEval Sample.workletPlaying)
    = Some l'
    /\ ~ Link.quiescent l'.
Proof.
  destruct (error_exchange_never_ends_without_a_fallback Sample.noEval 1
              (le_n 1) I) as [Hfresh Hloop].
  destruct (Hloop _ (Hfresh Sample.workletPlaying 4096 "t"%string eq_refl eq_refl) 3%nat)
    as (l' & H & _ & Hq & _).
  exists l'. split; [exact H|exact Hq].
Defined.

(** X21.  When the fallback formula can be built and passes the smoke test, one
    exchange settles a new node.  If the formula sent with the start is
    accepted nothing was reported; otherwise the processor reported once,
    the extension raised one alert and sent the fallback formula, and the
    processor took it without a further report.  Either way nothing is left
    to deliver, the processor holds the accepted function or the fallback
    function, and the extension still holds the text it sent. *)
Theorem error_exchange_settles_with_a_fallback
        (newFunction : Compiler) (fuel : nat) (e : Ext.BytebeatExtension)
        (size : Z) (text : string) (g : CompiledFunction) (r : Z) :
  (1 <= fuel)%nat ->
  newFunction ERROR_FALLBACK_FORMULA = Some g -> g 0 8000%Q 0%Q = Some r ->
  Ext.node e = Some (Ext.AudioWorkletNode
                       [Worklet.setChunkSize size; Worklet.setFormula text]) ->
  Ext._usingWorklet e = true ->
  exists l,
    Link.exchange newFunction fuel (Link.fresh newFunction e) = Some l
    /\ Link.quiescent l
    /\ Worklet.compiled (Link.proc l)
       = (if accepted newFunction text then newFunction text else Some g)
    /\ length (alertsOf (Ext.log (Link.main l)))
       = (length (alertsOf (Ext.log e)) + if accepted newFunction text then 0 else 1)%nat
    /\ Ext.formula (Link.main l) = Ext.formula e.
Proof.
  intros Hfuel Hg Hr Hn Hu.
  assert (HportOf : portOf e = [Worklet.setChunkSize size; Worklet.setFormula text])
    by (unfold portOf; now rewrite Hn).
  unfold Link.fresh, Link.runProc, Link.pendingToProc.
  cbn [Link.main Link.proc Link.toProc Link.toMain].
  rewrite HportOf. cbn [drop]. rewrite !deliver_cons. cbn [deliver fold_left length].
  cbn [Worklet.onmessage].
  assert (Hc : Worklet.port (Worklet.constructor newFunction) = []
               /\ Worklet.compiled (Worklet.constructor newFunction) = Some g).
  { unfold Worklet.constructor.
    pose proof (worklet_setFormula_spec newFunction ERROR_FALLBACK_FORMULA
                  (Worklet.mkProcessor 0%Q None false [] 4096 [] []))
      as (_ & _ & _ & _ & Hcase).
    rewrite Hg, Hr in Hcase. tauto. }
  destruct Hc as [Hc0 Hc1].
  set (p1 := Worklet.set_recordChunkSize _ (Worklet.constructor newFunction)).
  assert (Hp1 : Worklet.port p1 = []) by exact Hc0.
  clearbody p1.
  pose proof (worklet_setFormula_spec newFunction text p1) as (_ & _ & _ & _ & Hcase).
  rewrite Hp1 in Hcase. cbn [app] in Hcase.
  set (p2 := Worklet._setFormula newFunction text p1) in *. clearbody p2.
  unfold Link.exchange, Link.runMain, Link.pendingToMain.
  cbn [Link.main Link.proc Link.toProc Link.toMain drop].
  unfold accepted.
  destruct (newFunction text) as [f|] eqn:Hf; [destruct (f 0 8000%Q 0%Q) eqn:Hsmoke|].
  - destruct Hcase as (Hcomp & Hport & _). rewrite Hport. cbn [drop Link.handleAll].
    eexists. split; [reflexivity|].
    unfold Link.quiescent, Link.runProc, Link.pendingToProc, Link.pendingToMain.
    cbn [Link.main Link.proc Link.toProc Link.toMain].
    rewrite HportOf. cbn [length drop deliver fold_left]. rewrite Hport.
    repeat split; auto.
  - destruct Hcase as (Hcomp & (m & Hport) & _).
    rewrite Hport. cbn [drop].
    destruct (handleAll_errors newFunction fuel [Worklet.error m] e _ Hfuel Hn Hu)
      as (e' & H & Hn' & Hu' & Hal & Hfm & _); [repeat constructor; eauto|].
    rewrite H. eexists. split; [reflexivity|].
    unfold Link.quiescent, Link.runProc, Link.pendingToProc, Link.pendingToMain.
    cbn [Link.main Link.proc Link.toProc Link.toMain].
    assert (HportOf' : portOf e'
                       = [Worklet.setChunkSize size; Worklet.setFormula text;
                          Worklet.setFormula ERROR_FALLBACK_FORMULA])
      by (unfold portOf; now rewrite Hn').
    rewrite HportOf'. cbn [length drop]. rewrite deliver_cons. cbn [deliver fold_left].
    cbn [Worklet.onmessage].
    pose proof (worklet_setFormula_spec newFunction ERROR_FALLBACK_FORMULA p2)
      as (_ & _ & _ & _ & Hcase2).
    rewrite Hg, Hr in Hcase2. destruct Hcase2 as (Hcomp2 & Hport2 & _).
    rewrite Hport2, Hport, Hcomp2. cbn [length drop] in *.
    repeat split; auto.
  - destruct Hcase as (Hcomp & (m & Hport) & _).
    rewrite Hport. cbn [drop].
    destruct (handleAll_errors newFunction fuel [Worklet.error m] e _ Hfuel Hn Hu)
      as (e' & H & Hn' & Hu' & Hal & Hfm & _); [repeat constructor; eauto|].
    rewrite H. eexists. split; [reflexivity|].
    unfold Link.quiescent, Link.runProc, Link.pendingToProc, Link.pendingToMain.
    cbn [Link.main Link.proc Link.toProc Link.toMain].
    assert (HportOf' : portOf e'
                       = [Worklet.setChunkSize size; Worklet.setFormula text;
                          Worklet.setFormula ERROR_FALLBACK_FORMULA])
      by (unfold portOf; now rewrite Hn').
    rewrite HportOf'. cbn [length drop]. rewrite deliver_cons. cbn [deliver fold_left].
    cbn [Worklet.onmessage].
    pose proof (worklet_setFormula_spec newFunction ERROR_FALLBACK_FORMULA p2)
      as (_ & _ & _ & _ & Hcase2).
    rewrite Hg, Hr in Hcase2. destruct Hcase2 as (Hcomp2 & Hport2 & _).
    rewrite Hport2, Hport, Hcomp2. cbn [length drop] in *.
    repeat split; auto.
Qed.

Lemma error_exchange_settles_with_a_fallback_witness :
  exists l,
    Link.exchange Sample.engine 1 (Link.fresh Sample.engine Sample.workletPlaying) = Some l
    /\ Link.quiescent l.
Proof.
  destruct (error_exchange_settles_with_a_fallback Sample.engine 1 Sample.workletPlaying
              4096 "t" Sample.fallbackFn 0 (le_n 1) eq_refl eq_refl eq_refl eq_refl)
    as (l & H & Hq & _).
  exists l. split; [exact H|exact Hq].
Defined.

(** ** The property names of [setProperty] *)

Section PropertyNameFacts.

Local Open Scope string_scope.

Lemma isWhiteSpace_canonicalize (c : ascii) :
  Str.isWhiteSpace (Blocks.canonicalize c) = Str.isWhiteSpace c.
Proof. destruct c as [[] [] [] [] [] [] [] []]; reflexivity. Qed.

Lemma canonicalize_idem (c : ascii) :
  Blocks.canonicalize (Blocks.canonicalize c) = Blocks.canonicalize c.
Proof. destruct c as [[] [] [] [] [] [] [] []]; reflexivity. Qed.

Lemma isWhiteSpace_same (c d : ascii) :
  Blocks.canonicalize c = Blocks.canonicalize d ->
  Str.isWhiteSpace c = Str.isWhiteSpace d.
Proof.
  intros H. rewrite <- (isWhiteSpace_canonicalize c), <- (isWhiteSpace_canonicalize d).
  now rewrite H.
Qed.

Lemma matchLiteral_same (lit s1 s2 : string) :
  canonical s1 = canonical s2 ->
  match Blocks.matchLiteral lit s1, Blocks.matchLiteral lit s2 with
  | Some r1, Some r2 => canonical r1 = canonical r2
  | None, None => True
  | _, _ => False
  end.
Proof.
  revert s1 s2. induction lit as [|a lit IH]; intros s1 s2 H; [exact H|].
  destruct s1 as [|c1 s1], s2 as [|c2 s2]; try discriminate; [exact I|].
  cbn [canonical] in H. injection H as Hc Hs.
  cbn [Blocks.matchLiteral]. rewrite Hc.
  destruct (Ascii.eqb _ _); [now apply IH|exact I].
Qed.

Lemma trimStart_same (s1 s2 : string) :
  canonical s1 = canonical s2 ->
  canonical (Str.trimStart s1) = canonical (Str.trimStart s2).
Proof.
  revert s2. induction s1 as [|c1 s1 IH]; intros [|c2 s2] H; try discriminate;
    [reflexivity|].
  cbn [canonical] in H. injection H as Hc Hs.
  cbn [Str.trimStart]. rewrite (isWhiteSpace_same c1 c2 Hc).
  destruct (Str.isWhiteSpace c2); [now apply IH|].
  cbn [canonical]. now rewrite Hc, Hs.
Qed.

Lemma canonical_empty (s1 s2 : string) :
  canonical s1 = canonical s2 ->
  match s1, s2 with
  | EmptyString, EmptyString => True
  | String _ _, String _ _ => True
  | _, _ => False
  end.
Proof. destruct s1, s2; try discriminate; auto. Qed.

Lemma test_same (lit1 lit2 : string) (s1 s2 : string) :
  canonical s1 = canonical s2 ->
  match Blocks.matchLiteral lit1 s1 with
  | Some rest =>
      match Blocks.matchLiteral lit2 (Blocks.skipWhiteSpace rest) with
      | Some EmptyString => true
      | _ => false
      end
  | None => false
  end
  = match Blocks.matchLiteral lit1 s2 with
    | Some rest =>
        match Blocks.matchLiteral lit2 (Blocks.skipWhiteSpace rest) with
        | Some EmptyString => true
        | _ => false
        end
    | None => false
    end.
Proof.
  intros H. pose proof (matchLiteral_same lit1 s1 s2 H) as H1.
  destruct (Blocks.matchLiteral lit1 s1) as [r1|], (Blocks.matchLiteral lit1 s2) as [r2|];
    try contradiction; [|reflexivity].
  pose proof (matchLiteral_same lit2 _ _ (trimStart_same r1 r2 H1)) as H2.
  unfold Blocks.skipWhiteSpace.
  destruct (Blocks.matchLiteral lit2 (Str.trimStart r1)) as [q1|],
           (Blocks.matchLiteral lit2 (Str.trimStart r2)) as [q2|];
    try contradiction; [|reflexivity].
  pose proof (canonical_empty q1 q2 H2). now destruct q1, q2.
Qed.

Lemma propertyOf_same (P1 P2 : string) :
  canonical P1 = canonical P2 -> Blocks.propertyOf P1 = Blocks.propertyOf P2.
Proof.
  intros H. unfold Blocks.propertyOf. cbv zeta.
  assert (H' : canonical (Str.orS P1 "Volume") = canonical (Str.orS P2 "Volume")).
  { pose proof (canonical_empty P1 P2 H). destruct P1, P2; try contradiction;
      [reflexivity|exact H]. }
  set (p1 := Str.orS P1 "Volume") in *. set (p2 := Str.orS P2 "Volume") in *.
  clearbody p1 p2.
  assert (Blocks.test_volume p1 = Blocks.test_volume p2) as ->.
  { unfold Blocks.test_volume. pose proof (matchLiteral_same "volume" p1 p2 H') as H1.
    destruct (Blocks.matchLiteral "volume" p1) as [q1|],
             (Blocks.matchLiteral "volume" p2) as [q2|]; try contradiction; [|reflexivity].
    pose proof (canonical_empty q1 q2 H1). now destruct q1, q2. }
  assert (Blocks.test_sample_rate p1 = Blocks.test_sample_rate p2) as ->
    by (apply test_same; exact H').
  assert (Blocks.test_buffer_size p1 = Blocks.test_buffer_size p2) as ->
    by (apply test_same; exact H').
  reflexivity.
Qed.

Lemma trimStart_app_ws (ws rest : string) :
  allWhiteSpace ws = true -> Str.trimStart (ws ++ rest) = Str.trimStart rest.
Proof.
  induction ws as [|c ws IH]; [reflexivity|].
  cbn [allWhiteSpace]. intros H. apply andb_prop in H as [Hc Hws].
  cbn [append Str.trimStart]. rewrite Hc. auto.
Qed.

End PropertyNameFacts.

(** X22.  The name of a property is read without regard to the case of its
    letters, and the two-word names may have any white space, or none,
    between the words.  An absent name means Volume.  A name with white
    space in front of it is no property: [setProperty] then writes a
    warning and changes nothing else. *)
Theorem property_names (newFunction : Compiler) :
  (forall P1 P2, canonical P1 = canonical P2 ->
                 Blocks.propertyOf P1 = Blocks.propertyOf P2)
  /\ Blocks.propertyOf EmptyString = Ext.Volume
  /\ Blocks.propertyOf "Volume" = Ext.Volume
  /\ (forall ws, allWhiteSpace ws = true ->
        Blocks.propertyOf ("Sample" ++ ws ++ "rate") = Ext.SampleRate
        /\ Blocks.propertyOf ("Buffer" ++ ws ++ "size") = Ext.BufferSize)
  /\ (forall c P fuel VALUE e,
        Str.isWhiteSpace c = true ->
        Blocks.propertyOf (String c P) = Ext.UnknownProperty
        /\ Blocks.setPropertyBlock newFunction fuel (String c P) VALUE e
           = Some (Ext.addLog (Ext.console_warn "Unknown property in setProperty:") e)).
Proof.
  split; [exact propertyOf_same|]. split; [reflexivity|]. split; [reflexivity|].
  split.
  - intros ws Hws. split.
    + unfold Blocks.propertyOf, Blocks.test_volume, Blocks.test_sample_rate.
      cbn [append Str.orS Blocks.matchLiteral].
      change (Ascii.eqb (Blocks.canonicalize "v") (Blocks.canonicalize "S")) with false.
      cbv iota.
      repeat (rewrite Ascii.eqb_refl; cbv iota).
      unfold Blocks.skipWhiteSpace. rewrite trimStart_app_ws by exact Hws.
      reflexivity.
    + unfold Blocks.propertyOf, Blocks.test_volume, Blocks.test_sample_rate,
        Blocks.test_buffer_size.
      cbn [append Str.orS Blocks.matchLiteral].
      change (Ascii.eqb (Blocks.canonicalize "v") (Blocks.canonicalize "B")) with false.
      change (Ascii.eqb (Blocks.canonicalize "s") (Blocks.canonicalize "B")) with false.
      cbv iota.
      repeat (rewrite Ascii.eqb_refl; cbv iota).
      unfold Blocks.skipWhiteSpace. rewrite trimStart_app_ws by exact Hws.
      reflexivity.
  - intros c P fuel VALUE e Hc.
    assert (Blocks.propertyOf (String c P) = Ext.UnknownProperty) as H.
    { unfold Blocks.propertyOf, Blocks.test_volume, Blocks.test_sample_rate,
        Blocks.test_buffer_size.
      cbn [Str.orS Blocks.matchLiteral].
      assert (forall a, Str.isWhiteSpace a = false ->
                        Ascii.eqb (Blocks.canonicalize a) (Blocks.canonicalize c) = false)
        as Hneq.
      { intros a Ha. apply Ascii.eqb_neq. intros E.
        pose proof (isWhiteSpace_same a c E). congruence. }
      rewrite !Hneq by reflexivity. reflexivity. }
    split; [exact H|]. unfold Blocks.setPropertyBlock. rewrite H. reflexivity.
Qed.

Lemma property_names_witness :
  Blocks.propertyOf "SAMPLE RATE" = Blocks.propertyOf "sample rate"
  /\ Blocks.propertyOf "Buffer  size" = Ext.BufferSize
  /\ Blocks.propertyOf " Volume" = Ext.UnknownProperty.
Proof.
  pose proof (property_names Sample.engine) as (Hsame & _ & _ & Hws & Hlead).
  split; [apply Hsame; reflexivity|]. split.
  - apply (Hws "  "%string). reflexivity.
  - apply (Hlead " "%char "Volume"%string 0%nat 0%Q Ext.constructor). reflexivity.
Defined.

(** X23.  [getInfo] agrees with the class.  Its opcodes are the seven block
    methods; every opcode except [isPlaying] resolves to the method of
    that name on every instance; the entries of the PROPERTY menu are
    recognised by [setProperty] as the three properties; and the default
    formula of the start block is the formula of a new extension and the
    first example. *)
Theorem getInfo_agrees_with_the_class (e : Ext.BytebeatExtension) :
  map Blocks.opcode (Blocks.blocks Blocks.getInfo) = Ext.opcodes
  /\ Forall (fun b => Blocks.opcode b <> "isPlaying"%string ->
                      Ext.getProperty e (Blocks.opcode b)
                      = Some (Ext.VMethod (Blocks.opcode b)))
            (Blocks.blocks Blocks.getInfo)
  /\ Blocks.menus Blocks.getInfo
     = [("PROPERTY"%string, ["Volume"; "Sample rate"; "Buffer size"]%string)]
  /\ map Blocks.propertyOf ["Volume"; "Sample rate"; "Buffer size"]%string
     = [Ext.Volume; Ext.SampleRate; Ext.BufferSize]
  /\ (forall b, In b (Blocks.blocks Blocks.getInfo) ->
        forall d, In ("FORMULA"%string, Blocks.STRING d) (Blocks.arguments b) ->
        d = Ext.formula Ext.constructor /\ Blocks.examples !! 0%nat = Some d).
Proof.
  split; [reflexivity|]. split.
  - repeat constructor; cbn [Blocks.opcode]; try (intros _; reflexivity).
    intros H. now destruct H.
  - split; [reflexivity|]. split; [reflexivity|].
    intros b Hb d Hd. cbn in Hb.
    repeat (destruct Hb as [<-|Hb];
            [cbn in Hd;
             repeat (destruct Hd as [Hd|Hd]; [try discriminate|]);
             try contradiction|]);
      try contradiction.
    injection Hd as <-. split; reflexivity.
Qed.

Lemma getInfo_agrees_with_the_class_witness :
  Ext.getProperty Ext.constructor "stop" = Some (Ext.VMethod "stop").
Proof.
  pose proof (proj1 (proj2 (getInfo_agrees_with_the_class Ext.constructor))) as H.
  rewrite List.Forall_forall in H.
  apply (H (Blocks.mkBlock "stop" Blocks.COMMAND [])).
  - cbn. tauto.
  - discriminate.
Defined.

(** ** The block backend: what is recorded is what is played *)

Section BlockRecordingFacts.
Variable newFunction : Compiler.

Lemma afterScriptRecord_recorded (x : Q) (e : Ext.BytebeatExtension) :
  Z.of_nat (length (recordedByBlock e)) < Ext.recordMaxSamples e ->
  let e' := afterScriptRecord x e in
  recordedByBlock e' = recordedByBlock e ++ (if scriptRecording e then [x] else [])
  /\ scriptRecording e' = scriptRecording e
  /\ Ext.recording e' = Ext.recording e
  /\ Ext.log e' = Ext.log e.
Proof.
  unfold afterScriptRecord, afterChunk, recordedByBlock, scriptRecording.
  destruct e as [ctx nd pl uw wl ls vol fm rec samples mx pc sc lg cl]. ext_simpl.
  destruct sc as [[ct csr cf buf rc cs]|]; ext_simpl;
    [|intros _; now rewrite !app_nil_r].
  intros Hlt. destruct rc; ext_simpl; [|now rewrite !app_nil_r].
  destruct (_ >=? cs); ext_simpl.
  - destruct (_ >? mx) eqn:Hgt; ext_simpl.
    + rewrite !length_app in *. cbn [length] in *. lia.
    + rewrite app_nil_r, app_assoc. auto.
  - rewrite app_assoc. auto.
Qed.

Lemma script_evalRaw_recorded (logicalS : Q) (s : Ext.ScriptState)
      (e : Ext.BytebeatExtension) :
  Ext.script e = Some s ->
  let e' := snd (Ext.script_evalRaw newFunction logicalS s e) in
  recordedByBlock e' = recordedByBlock e
  /\ scriptRecording e' = scriptRecording e
  /\ Ext.recording e' = Ext.recording e
  /\ Ext.recordMaxSamples e' = Ext.recordMaxSamples e.
Proof.
  intros Hs.
  destruct (script_evalRaw_frame newFunction logicalS s e Hs)
    as ((s1 & Hs1 & _ & _ & Hb & Hr & _) & _ & _ & Hm & Hsam & Hrec & _).
  cbv zeta in *. unfold recordedByBlock, scriptRecording.
  rewrite Hs1, Hs, Hb, Hr, Hsam. auto.
Qed.

Lemma onScript_clock_recorded (inc : Q) (e : Ext.BytebeatExtension) :
  let e' := Ext.onScript (fun s => Ext.set_closure_t (JS.add (Ext.closure_t s) inc) s) e in
  recordedByBlock e' = recordedByBlock e
  /\ scriptRecording e' = scriptRecording e
  /\ Ext.recording e' = Ext.recording e
  /\ Ext.log e' = Ext.log e
  /\ Ext.recordMaxSamples e' = Ext.recordMaxSamples e.
Proof.
  destruct e as [ctx nd pl uw wl ls vol fm rec samples mx pc [[ct csr cf buf rc cs]|] lg cl];
    cbn; auto.
Qed.

Lemma script_processLoop_recorded (fuel : nat) (logicalS inc : Q) (n : nat)
      (e : Ext.BytebeatExtension) (s : Ext.ScriptState) :
  (2 <= fuel)%nat -> Ext.script e = Some s -> ScriptInv e ->
  Z.of_nat (length (recordedByBlock e)) + Z.of_nat n <= Ext.recordMaxSamples e ->
  exists outs e',
    Ext.script_processLoop newFunction fuel logicalS inc n e = Some (outs, e')
    /\ length outs = n
    /\ recordedByBlock e' = recordedByBlock e ++ (if scriptRecording e then outs else [])
    /\ scriptRecording e' = scriptRecording e
    /\ Ext.recording e' = Ext.recording e.
Proof.
  intros Hfuel. revert e s. induction n as [|n IH]; intros e s Hs Hinv Hle.
  - exists [], e. split; [reflexivity|]. split; [reflexivity|].
    split; [destruct (scriptRecording e); now rewrite app_nil_r|]. auto.
  - destruct (script_step newFunction fuel logicalS inc e s Hfuel Hs Hinv)
      as (e1 & s1 & Hstep & Hinv1 & Hs1 & _ & _ & _ & _ & _ & _ & Hmx1).
    pose proof (script_processSample_total newFunction fuel logicalS inc e s Hfuel Hs Hinv)
      as Htotal.
    rewrite Hstep in Htotal.
    apply (f_equal (fun o : option (Q * Ext.BytebeatExtension) =>
                      match o with Some r => Some (snd r) | None => None end)) in Htotal.
    cbv beta iota zeta in Htotal. cbn [snd] in Htotal. injection Htotal as He1.
    rewrite script_evalRaw_fst in He1.
    destruct (script_evalRaw_frame newFunction logicalS s e Hs) as (_ & Hv & _).
    cbv zeta in Hv. rewrite Hv in He1.
    set (x := quantize (script_raw logicalS s) (JS.orQ (Ext.volume e) 1)) in *.
    destruct (script_evalRaw_recorded logicalS s e Hs) as (A1 & A2 & A3 & A4).
    cbv zeta in *.
    set (ea := snd (Ext.script_evalRaw newFunction logicalS s e)) in *. clearbody ea.
    destruct (afterScriptRecord_recorded x ea) as (B1 & B2 & B3 & B4).
    { rewrite A1, A4. lia. }
    cbv zeta in *.
    destruct (onScript_clock_recorded inc (afterScriptRecord x ea)) as (C1 & C2 & C3 & _).
    cbv zeta in *. rewrite <- He1 in C1, C2, C3.
    assert (R1 : recordedByBlock e1
                 = recordedByBlock e ++ (if scriptRecording e then [x] else []))
      by (rewrite C1, B1, A1, A2; reflexivity).
    assert (R2 : scriptRecording e1 = scriptRecording e) by congruence.
    assert (R3 : Ext.recording e1 = Ext.recording e) by congruence.
    destruct (IH e1 s1 Hs1 Hinv1) as (outs & e2 & Hloop & Hlen & Hrec & Hsr & Hr).
    { rewrite R1, Hmx1, length_app. destruct (scriptRecording e); cbn [length]; lia. }
    exists (x :: outs), e2. cbn [Ext.script_processLoop]. rewrite Hstep. cbn. rewrite Hloop.
    cbn. split; [reflexivity|]. split; [lia|].
    split; [|split; congruence].
    rewrite Hrec, R1, R2. destruct (scriptRecording e); cbn; rewrite <- ?app_assoc;
      rewrite ?app_nil_r; reflexivity.
Qed.

End BlockRecordingFacts.

(** X24.  While the ScriptProcessor records and the session maximum is not
    reached, the samples delivered to the extension plus the samples
    waiting in the buffer grow by exactly the output of [processFunc],
    frame for frame; when it does not record they do not change.  The
    output has one sample per frame, and the recording flags stay as they
    were. *)
Theorem block_backend_records_its_output
        (newFunction : Compiler) (fuel blockLen : nat)
        (e : Ext.BytebeatExtension) (s : Ext.ScriptState) :
  (2 <= fuel)%nat -> Ext.script e = Some s -> ScriptInv e ->
  Z.of_nat (length (recordedByBlock e)) + Z.of_nat blockLen <= Ext.recordMaxSamples e ->
  exists outs e',
    Ext.processFunc newFunction fuel blockLen e = Some (outs, e')
    /\ length outs = blockLen
    /\ recordedByBlock e' = recordedByBlock e ++ (if scriptRecording e then outs else [])
    /\ scriptRecording e' = scriptRecording e
    /\ Ext.recording e' = Ext.recording e.
Proof.
  intros Hfuel Hs Hinv Hle. unfold Ext.processFunc. rewrite Hs.
  now apply (script_processLoop_recorded newFunction fuel _ _ blockLen e s).
Qed.

Lemma block_backend_records_its_output_witness :
  exists outs e',
    Ext.processFunc Sample.engine 2 3 (Sample.blockRecording "t" 1) = Some (outs, e')
    /\ recordedByBlock e' = recordedByBlock (Sample.blockRecording "t" 1) ++ outs.
Proof.
  destruct (block_backend_records_its_output Sample.engine 2 3
              (Sample.blockRecording "t" 1)
              (Sample.scriptOf (Sample.blockRecording "t" 1)))
    as (outs & e' & H & _ & Hrec & _).
  - lia.
  - reflexivity.
  - apply ScriptInv_check. vm_compute. reflexivity.
  - vm_compute. discriminate.
  - exists outs, e'. split; [exact H|exact Hrec].
Defined.

(** ** The recording across the message ports *)

Section LinkRecordingFacts.
Variable newFunction : Compiler.

Lemma worklet_evalRaw_port (s : Q) (p : Worklet.BytebeatProcessor) :
  exists new, Worklet.port (snd (Worklet.evalRaw newFunction s p)) = Worklet.port p ++ new.
Proof.
  unfold Worklet.evalRaw, Worklet.switchToFallback.
  destruct (Worklet.compiled p) as [f|]; [|exists []; now rewrite app_nil_r].
  destruct (f _ _ _); [exists []; now rewrite app_nil_r|].
  destruct (newFunction ERROR_FALLBACK_FORMULA); cbn; eauto.
Qed.

Lemma worklet_recordSample_port (x : Q) (p : Worklet.BytebeatProcessor) :
  exists new, Worklet.port (Worklet.recordSample x p) = Worklet.port p ++ new.
Proof.
  unfold Worklet.recordSample, Worklet._flushRecord.
  destruct (Worklet.recording p); [|exists []; now rewrite app_nil_r].
  destruct (_ >=? _); cbn; [|exists []; now rewrite app_nil_r].
  destruct (Worklet.recordBuffer p ++ [x]); cbn; [exists []; now rewrite app_nil_r|eauto].
Qed.

Lemma worklet_processLoop_port (inc : Q) (volParam sParam : list Q) (n i : nat)
      (p : Worklet.BytebeatProcessor) :
  exists new,
    Worklet.port (snd (Worklet.processLoop newFunction inc volParam sParam i n p))
    = Worklet.port p ++ new.
Proof.
  revert i p. induction n as [|n IH]; intros i p.
  - exists []. cbn. now rewrite app_nil_r.
  - cbn [Worklet.processLoop].
    destruct (worklet_processSample_spec newFunction inc (Worklet.param_at volParam i)
                (Worklet.param_at sParam i) p) as (_ & _ & _ & Hsnd).
    destruct (Worklet.processSample newFunction inc _ _ p) as [x p1]. cbn [fst snd] in *.
    destruct (IH (S i) p1) as (new2 & H2).
    destruct (Worklet.processLoop newFunction inc volParam sParam (S i) n p1) as [rest p2].
    cbn [snd] in *. rewrite H2, Hsnd.
    change (Worklet.port (Worklet.set_t ?t ?q)) with (Worklet.port q).
    destruct (worklet_recordSample_port x
                (snd (Worklet.evalRaw newFunction (Worklet.param_at sParam i) p)))
      as (new1 & ->).
    destruct (worklet_evalRaw_port (Worklet.param_at sParam i) p) as (new0 & ->).
    exists (new0 ++ new1 ++ new2). now rewrite <- !app_assoc.
Qed.

Lemma worklet_onmessage_port (m : Worklet.InMsg) (p : Worklet.BytebeatProcessor) :
  exists new, Worklet.port (Worklet.onmessage newFunction m p) = Worklet.port p ++ new.
Proof.
  destruct m; cbn [Worklet.onmessage]; try (exists []; cbn; now rewrite app_nil_r).
  - pose proof (worklet_setFormula_spec newFunction formula p) as (_ & _ & _ & _ & H).
    destruct (newFunction formula) as [f|]; [destruct (f 0 8000%Q 0%Q)|].
    + destruct H as (_ & -> & _). exists []. now rewrite app_nil_r.
    + destruct H as (_ & (m & ->) & _). eauto.
    + destruct H as (_ & (m & ->) & _). eauto.
  - unfold Worklet._setRecording, Worklet._flushRecord. destruct on; cbn;
      [exists []; now rewrite app_nil_r|].
    destruct (Worklet.recordBuffer p); cbn; [exists []; now rewrite app_nil_r|eauto].
Qed.

(** A step of the processor that extends its port and keeps what it has
    recorded, up to [outs], does the same to the link. *)
Lemma recordedOver_proc_step (l : Link.Link) (p' : Worklet.BytebeatProcessor)
      (tp : nat) (outs : list Q) :
  (Link.toMain l <= length (Worklet.port (Link.proc l)))%nat ->
  (exists new, Worklet.port p' = Worklet.port (Link.proc l) ++ new) ->
  recordedBy p' = recordedBy (Link.proc l) ++ outs ->
  recordedOver (Link.mkLink (Link.main l) p' tp (Link.toMain l)) = recordedOver l ++ outs
  /\ (Link.toMain l <= length (Worklet.port p'))%nat.
Proof.
  intros Htm (new & Hport) Hrec. unfold recordedOver, Link.pendingToMain.
  cbn [Link.main Link.proc Link.toMain].
  unfold recordedBy in Hrec. rewrite Hport in *.
  rewrite chunksOf_app, concat_app, <- !app_assoc in Hrec.
  apply app_inv_head in Hrec.
  rewrite drop_app_le by exact Htm.
  rewrite chunksOf_app, concat_app, <- !app_assoc, Hrec.
  split; [reflexivity|]. rewrite length_app. lia.
Qed.

Lemma deliver_recorded (msgs : list Worklet.InMsg) (p : Worklet.BytebeatProcessor) :
  recordedBy (deliver newFunction msgs p) = recordedBy p
  /\ exists new, Worklet.port (deliver newFunction msgs p) = Worklet.port p ++ new.
Proof.
  revert p. induction msgs as [|m msgs IH]; intros p.
  - split; [reflexivity|]. exists []. cbn. now rewrite app_nil_r.
  - rewrite deliver_cons. destruct (IH (Worklet.onmessage newFunction m p)) as (H1 & new2 & H2).
    destruct (worklet_onmessage_recorded newFunction m p) as [H3 _].
    destruct (worklet_onmessage_port m p) as (new1 & H4).
    split; [congruence|]. exists (new1 ++ new2). now rewrite H2, H4, <- app_assoc.
Qed.

(** The extension handles pending messages: the chunks are appended. *)
Lemma handleAll_recorded (fuel : nat) (msgs : list Worklet.OutMsg)
      (e : Ext.BytebeatExtension) (nodePort : list Worklet.InMsg) :
  (1 <= fuel)%nat ->
  Ext.node e = Some (Ext.AudioWorkletNode nodePort) -> Ext._usingWorklet e = true ->
  Z.of_nat (length (Ext.recordedSamples e ++ concat (chunksOf msgs)))
  <= Ext.recordMaxSamples e ->
  exists e' new,
    Link.handleAll newFunction fuel msgs e = Some e'
    /\ Ext.node e' = Some (Ext.AudioWorkletNode (nodePort ++ new))
    /\ Ext._usingWorklet e' = true
    /\ Ext.recordedSamples e' = Ext.recordedSamples e ++ concat (chunksOf msgs)
    /\ Ext.recording e' = Ext.recording e.
Proof.
  intros Hfuel. revert e nodePort.
  induction msgs as [|m msgs IH]; intros e nodePort Hn Hu Hle.
  - exists e, []. cbn. rewrite !app_nil_r. auto.
  - destruct fuel as [|fuel]; [lia|].
    cbn [Link.handleAll Ext._handleNodeMessage].
    destruct e as [ctx nd pl uw wl ls vol fm rec samples mx pc sc lg cl].
    cbn in Hn, Hu. subst nd uw.
    destruct m as [message|chunk]; ext_simpl.
    + unfold Ext._postToNode_with. ext_simpl.
      match goal with |- context [Link.handleAll _ _ msgs ?x] =>
        destruct (IH x (nodePort ++ [Worklet.setFormula ERROR_FALLBACK_FORMULA])
                    eq_refl eq_refl) as (e' & new & H & Hn' & Hu' & Hs' & Hr')
      end.
      { exact Hle. }
      exists e', (Worklet.setFormula ERROR_FALLBACK_FORMULA :: new).
      rewrite H, Hn', <- app_assoc. auto.
    + change (chunksOf (Worklet.recordChunk chunk :: msgs)) with (chunk :: chunksOf msgs)
        in *.
      cbn [concat] in *. ext_simpl.
      rewrite !length_app in Hle.
      destruct (_ >? mx) eqn:Hgt; [rewrite length_app in Hgt; lia|].
      match goal with |- context [Link.handleAll _ _ msgs ?x] =>
        destruct (IH x nodePort eq_refl eq_refl) as (e' & new & H & Hn' & Hu' & Hs' & Hr')
      end.
      { ext_simpl. rewrite !length_app. lia. }
      exists e', new. rewrite H, Hn', Hs'. ext_simpl. rewrite <- app_assoc. auto.
Qed.

End LinkRecordingFacts.

(** X25.  Across the ports of a worklet node no recorded sample is lost.  Count
    as recorded the samples delivered to the extension, the chunks posted
    and not yet delivered, and the samples waiting in the buffer of the
    processor.  A block of frames adds exactly its output while the
    processor records, and nothing otherwise; the processor handling its
    messages changes nothing, and neither does the extension handling the
    chunks and reports sent to it, short of the session maximum.  Once
    nothing is pending and the buffer of the processor is empty, the
    extension holds them all. *)
Theorem recording_across_the_ports (newFunction : Compiler) (l : Link.Link) :
  Linked l ->
  (forall sr volParam sParam len,
      let r := playBlock newFunction sr volParam sParam len l in
      Linked (snd r)
      /\ length (fst r) = len
      /\ recordedOver (snd r)
         = recordedOver l ++ (if Worklet.recording (Link.proc l) then fst r else []))
  /\ (Linked (Link.runProc newFunction l)
      /\ recordedOver (Link.runProc newFunction l) = recordedOver l
      /\ Link.pendingToProc (Link.runProc newFunction l) = [])
  /\ (forall fuel, (1 <= fuel)%nat ->
        Z.of_nat (length (Ext.recordedSamples (Link.main l)
                          ++ concat (chunksOf (Link.pendingToMain l))))
        <= Ext.recordMaxSamples (Link.main l) ->
        exists l',
          Link.runMain newFunction fuel l = Some l'
          /\ Linked l'
          /\ recordedOver l' = recordedOver l
          /\ Link.pendingToMain l' = []
          /\ Ext.recordedSamples (Link.main l')
             = Ext.recordedSamples (Link.main l)
                 ++ concat (chunksOf (Link.pendingToMain l)))
  /\ (Link.quiescent l -> Worklet.recordBuffer (Link.proc l) = [] ->
      Ext.recordedSamples (Link.main l) = recordedOver l).
Proof.
  intros ((nodePort & Hn) & Hu & Htp & Htm).
  split; [|split; [|split]].
  - intros sr volParam sParam len. unfold playBlock. cbv zeta. cbn [fst snd].
    destruct (worklet_processLoop_recorded newFunction (JS.div (nth 0 sParam 0%Q) sr)
                volParam sParam len 0 (Link.proc l)) as (Hlen & _ & Hrec & _).
    destruct (worklet_processLoop_port newFunction (JS.div (nth 0 sParam 0%Q) sr)
                volParam sParam len 0 (Link.proc l)) as (new & Hport).
    cbv zeta in *. fold (Worklet.process newFunction sr volParam sParam len (Link.proc l))
      in Hlen, Hrec, Hport.
    destruct (recordedOver_proc_step l
                (snd (Worklet.process newFunction sr volParam sParam len (Link.proc l)))
                (Link.toProc l)
                (if Worklet.recording (Link.proc l)
                 then fst (Worklet.process newFunction sr volParam sParam len (Link.proc l))
                 else []) Htm (ex_intro _ new Hport) Hrec) as [H1 H2].
    split; [|split; [exact Hlen|exact H1]].
    unfold Linked. cbn [Link.main Link.proc Link.toProc Link.toMain]. eauto.
  - unfold Link.runProc.
    destruct (deliver_recorded newFunction (Link.pendingToProc l) (Link.proc l))
      as (Hrec & Hport).
    destruct (recordedOver_proc_step l
                (deliver newFunction (Link.pendingToProc l) (Link.proc l))
                (length (portOf (Link.main l))) [] Htm Hport)
      as [H1 H2]; [now rewrite app_nil_r|].
    rewrite app_nil_r in H1.
    split; [|split; [exact H1|]].
    + unfold Linked. cbn [Link.main Link.proc Link.toProc Link.toMain]. eauto.
    + unfold Link.pendingToProc. cbn [Link.main Link.toProc]. apply drop_all.
  - intros fuel Hfuel Hle. unfold Link.runMain.
    destruct (handleAll_recorded newFunction fuel (Link.pendingToMain l) (Link.main l)
                nodePort Hfuel Hn Hu Hle) as (e' & new & H & Hn' & Hu' & Hs' & _).
    rewrite H. eexists. split; [reflexivity|].
    assert (Hp' : Link.pendingToMain
                    (Link.mkLink e' (Link.proc l) (Link.toProc l)
                                 (length (Worklet.port (Link.proc l)))) = [])
      by (unfold Link.pendingToMain; cbn [Link.proc Link.toMain]; apply drop_all).
    split; [|split; [|split; [exact Hp'|exact Hs']]].
    + unfold Linked. cbn [Link.main Link.proc Link.toProc Link.toMain].
      split; [eauto|]. split; [exact Hu'|]. split; [|lia].
      unfold portOf in *. rewrite Hn', Hn in *. rewrite length_app. lia.
    + unfold recordedOver. rewrite Hp'. cbn [Link.main Link.proc chunksOf flat_map concat].
      rewrite Hs', <- app_assoc. reflexivity.
  - intros [_ Hq] Hb. unfold recordedOver. rewrite Hq, Hb. cbn. now rewrite app_nil_r.
Qed.

Lemma recording_across_the_ports_witness :
  Linked (Link.fresh Sample.engine Sample.workletPlaying)
  /\ recordedOver (Link.runProc Sample.engine (Link.fresh Sample.engine Sample.workletPlaying))
     = recordedOver (Link.fresh Sample.engine Sample.workletPlaying).
Proof.
  assert (H : Linked (Link.fresh Sample.engine Sample.workletPlaying)).
  { unfold Linked. split; [eexists; reflexivity|]. split; [reflexivity|].
    split; [vm_compute; lia|]. apply Nat.le_0_l. }
  split; [exact H|].
  exact (proj1 (proj2 (proj1 (proj2
           (recording_across_the_ports Sample.engine
              (Link.fresh Sample.engine Sample.workletPlaying) H))))).
Defined.
